(* ===== verification/_CoqProject ===== *)
-Q . S2P
Prelude.v
CoreError.v
Identifiers.v
ByteSize.v
Authority.v
UploadDestination.v
Task.v
Formatting.v
TimeCodec.v
Ports.v
Http.v
BeastHttpClient.v
HttpDownload.v
Database.v
SqliteTaskRepository.v
Registry.v
Progress.v
ConfigData.v
SqlitePool.v
Json.v
Configuration.v
Metrics.v
HostMetrics.v
HostMetricsDesktop.v
Environment.v
Encodings.v
QbittorrentDownloader.v
Aria2Rpc.v
Aria2Downloader.v
Aria2Connection.v
TaskControl.v
Pipeline.v
PipelineFiles.v
QbittorrentPipeline.v
MirrorLeech.v
Files.v
PoolJoin.v
JobPool.v
TelegramGateway.v
TelegramAuth.v
GatewayLifecycle.v
Subprocess.v
Supervisor.v
WindowsSpawn.v
SplitFile.v
TelegramUploader.v
DriveResources.v
DriveAuth.v
DriveApi.v
DriveChunks.v
DriveUpload.v
DriveDirectory.v
RssFeeds.v
SqliteRssFeedRepository.v
RssSubscription.v
RssFeedPoller.v
Regex.v
RssDocument.v
RssRoundTrip.v
RcloneUploader.v
SevenZip.v
Ffmpeg.v
CommandParser.v
Settings.v
SqliteSettings.v
SchemaMigrator.v
HtmlRenderer.v
HtmlSafety.v
ProgressRenderer.v
ShowStatus.v
CallbackDispatcher.v
CommandDispatcher.v
Runtime.v
Main.v
