(* ===== verification/Prelude.v ===== *)
(** * A verification library for CMLB, the mirror/leech bot

    CMLB is a Telegram bot in C++.  A chat command downloads a link through aria2 or
    qBittorrent and uploads the result to Google Drive, to an rclone remote (mirror) or to
    Telegram (leech).  The code under [src/] and [include/cmlb/] is layered: [core] and
    [domain] are pure; [application] holds the use cases, coroutines over abstract ports;
    [presentation] parses commands and renders messages; [infrastructure] implements the
    ports; [main.cpp] wires it all.  The library follows that layering, a file per component.

    ** Reading guide

    A coroutine is a function of type [M W A], from a world [W] to an answer and a world.
    [co_await] is its bind, [co_try] the early return of a failed [Result].  Ports are
    classes over [W]; use cases are proved for every implementation of the ports that
    satisfies the port's laws, and [Environment.MemWorld] is an implementation, on which
    the witnesses run.  Where tasks really interleave (the upload pipeline, the status
    message of a chat, the calls on one connection, workers, a child process and its
    supervisor, a shutdown), the model is a step relation instead, one step per stretch of
    code between two suspension points or lock operations.  Integers are [Z] with the width
    of the C++ type written out where it matters; strings are byte strings; [double]s are
    primitive floats; clock readings are nanoseconds since the epoch, and every read of a
    clock is an explicit action.  A C++ exception is the left of a sum.

    ** Files: core and domain

    - [Prelude]: bytes, [fmt] integers, 64-bit bounds, the coroutine notations.
    - [CoreError] ([core/error]), [Identifiers], [ByteSize], [Authority],
      [UploadDestination], [Task] ([domain/]): values and the task state machine.
    - [Formatting] and [Progress] ([core/formatting.cpp]): display helpers; [Progress] has
      the part that computes in [double].
    - [ConfigData], [Configuration] ([core/configuration.cpp]): the settings with their
      reference manual as data, and the JSON, environment and validation passes.  [Json] is
      what the program uses of the JSON library.
    - [Runtime] ([core/logger.cpp], [core/executor.cpp], [core/cancellation.hpp],
      [system/signal_handler.cpp]).

    ** Files: application

    - [Ports]: the interfaces of downloaders, messenger, uploaders and repositories, with
      [TaskRepositoryLaws], the contract of the task store.
    - [Registry] ([active_task_registry.hpp]): the stop flags that [/cancel] and a running
      pipeline share.
    - [Environment]: what use cases may assume about a world whose ports share it.
    - [TaskControl] ([cancel_task], [pause_task], [resume_task]), [ShowStatus],
      [Metrics] ([show_stats]), [Settings] ([update_user_settings], [update_bot_settings]),
      [DriveResources] ([clone_], [count_], [delete_drive_resource]), [RssFeeds],
      [RssSubscription]: the use cases that run to completion.
    - [Pipeline], [PipelineFiles], [MirrorLeech] ([mirror_url.cpp], [leech_url.cpp],
      [detail/task_id_generator.hpp]): the two long-running use cases.  [MirrorLeech]
      covers [execute] up to its loop and names the environment the loop runs in;
      [Pipeline.step] is the loop, its upload coroutines and the code after it;
      [PipelineFiles] follows the files through it; [QbittorrentPipeline] composes it with
      the qBittorrent backend.

    ** Files: infrastructure

    - Storage ([persistence/]): [TimeCodec], [Database], [SqlitePool] (the connection pool),
      [SqliteTaskRepository], [SqliteRssFeedRepository], [SqliteSettings], [SchemaMigrator].
    - HTTP ([http/beast_http_client.cpp]): [Http] is the interface, [BeastHttpClient] the
      client with its pool and redirects, [HttpDownload] its streaming download.
    - Downloads ([download/]): [QbittorrentDownloader]; for aria2 [Aria2Rpc] (calls and
      replies on one connection), [Aria2Connection] (the reconnect loop and its shutdown, on
      the state of [Aria2Rpc]) and [Aria2Downloader] (the operations); [Encodings].
    - Telegram ([telegram/]): [TelegramGateway] (requests, updates, messenger, router),
      [GatewayLifecycle] ([run] and [request_stop] over the requests of [TelegramGateway],
      and the stub), [TelegramAuth].
    - Uploads ([upload/]): [Files] (the file system), [PoolJoin] and [JobPool] (detached
      workers); [SplitFile] and [TelegramUploader]; [DriveAuth], [DriveApi], [DriveChunks],
      [DriveUpload] and [DriveDirectory]; [RcloneUploader].
    - Feeds ([rss/]): [RssFeedPoller], [Regex] (the expressions of [std::regex] that the
      code writes down), [RssDocument], [RssRoundTrip].
    - Processes and host ([system/], [media/]): [Subprocess] (requests, lines, quoting),
      [Supervisor] (POSIX), [WindowsSpawn], [SevenZip], [Ffmpeg], [HostMetrics] (Linux),
      [HostMetricsDesktop] (macOS, Windows).

    ** Files: presentation and program

    - [CommandParser], [HtmlRenderer], [ProgressRenderer], [CallbackDispatcher],
      [CommandDispatcher]; [HtmlSafety] has the markup checker and the theorems about
      messages.
    - [Main] ([main.cpp]): command line, start, wiring of the updates, shutdown signal.

    ** What the theorems show

    - Tasks: transitions are exactly the edges of the lifecycle graph, lifecycles only move
      forward, an error message is present exactly in [Failed].
    - Pipeline: under every interleaving of loop, uploads and stop requests, the pool bound
      and the upload accounting hold, the persisted task tells the truth about the result,
      the drain terminates once uploads end, and with a slot per file every file is uploaded
      once.  Theorems state the limits of the code: with fewer slots than files a file can
      be skipped, an upload that ends in an exception blocks the drain, and no transfer over
      qBittorrent ever delivers.
    - Storage: [save]/[find], [incomplete] and [remove] of the task repository, feeds,
      settings and the timestamp codec; a connection of the pool has one holder, and no slot
      is lost; migrations are all or nothing.
    - Configuration: a document is accepted exactly when it meets the reference manual; the
      scanner of id lists terminates with exactly the integers of its text.
    - HTTP: credentials stay on the origin they were sent to, the redirect bound holds, a
      download gives the file exactly the body of the last response.
    - Backends: calls and replies are matched under every interleaving; after a shutdown
      request the reconnect loop of aria2 ends within two completions and its delays follow
      the doubling schedule; calls to qBittorrent are authenticated.  A reply that is handled
      too early is lost, and two calls can write at the same time.
    - Telegram: a call on the gateway gets one object, [request_stop] ends [run] and leaves
      no call waiting; a later call waits for ever, as does [run] of the stub.  The flow of
      the authentication can hang.  An upload sends the whole file, in parts that partition it.
    - Drive: the chunks of a plan partition the file and each is taken once; a directory is
      mirrored with every file; the failure of a worker is reported as success.
    - Processes: no descriptor leaks, a child is waited for exactly once, output lines do
      not depend on how the pipe delivers them, quoting survives the Windows parser.
    - Control: [/cancel], [/cancelall], [/pause], [/resume] and [/status] act on, and show,
      only tasks of the requesting chat; the registry implements a map of stop requests.
    - Commands: parsing is complete and sound, the permission gate admits exactly the
      documented permission table from Telegram's update on, [/help] lists exactly the
      runnable commands; the cancel button is not behind the gate.  The bot starts only with
      a valid configuration and a migrated database.
    - Messages: markup is balanced for arbitrary data, escaping is lossless, truncation never
      splits a UTF-8 sequence, byte counts, durations and the progress bar are accurate.
    - RSS: a printed feed is parsed back, what a poll delivers, that it does not repeat
      itself, and who may manage a feed.

    ** Bounds and fuel

    Most loops are structural.  [digits_of] has one more than the logarithm of its argument;
    [Configuration.id_tokens] is well-founded on the text; [slice], [listed] and
    [search_all_from] consume a byte per unit and get the length of the text; [plan_from] gets
    the number of chunks; redirect loops get [kMaxRedirects] + 1; [copy_part] gets the size of
    the part, and [copy_part_ends] shows that it is enough.  The fuel of a download bounds the
    reads of one response and [download_delivers] shows that any sufficient fuel returns.  The
    walks of [DriveApi] depend on the answers of the server; [drive_count_exact] gives the
    fuel for a finite tree.  [worker_loop] of the executor may run for ever by design.  The
    loops that wait for events are relations, so nothing bounds them but the theorems on
    termination.  Request ids of the gateway are assumed below 2^64.

    ** Parameters

    Libraries and services are classes with documented behaviour as laws, each with an
    instance on which witnesses run.  SQLite: [TasksDb], [FeedsDb], [UserSettingsDb],
    [BotSettingsDb], [MigrationDb], [SqliteOpen], [IdArrays].  nlohmann::json: [Json].
    Boost.Asio and Beast: [Asio], [Fields], [StreamAsio], [WsLib], [IoContext], [SignalSet],
    [RawSignals],
    [Executor], [WorkerPool].  TDLib: [Tdlib].  OpenSSL: [OpenSsl], [OpenSslBase64].  spdlog:
    [Spdlog].  The standard library where it reaches the system or the locale: [Environ],
    [ConfigFile], [CredentialsFile], [DestFile], [Files], [PartFiles], [Walk], [Directories],
    [FileSystem], [Clock], [SteadyClock], [Random], [RandomDevice], [HashOrder], [GetTime],
    [Stod].  The operating system: [SubprocessRunner] with the answers of [Supervisor],
    [Win32], [CancelChannel], [Host], [MacHost], [WinHost].  Patterns that a user writes are [RegexSearch]; the
    fixed ones are modelled.  Between components of the program: the ports, [HttpClient],
    [Aria2Channel], [Cancellation], [TransferUseCases] (since the loop of the pipeline is a
    relation), [LoggerInit] and [ShutdownCalls].

    ** Not modelled

    The stack limits of libstdc++'s [std::regex];
    weak memory orders, and the data races where the code shares an object that is not
    thread-safe (they are reported as findings); what a terminal cancellation does to a
    coroutine of the application while it waits.  Log lines and source locations of errors
    are left out throughout; [std::bad_alloc] does not occur. *)

From stdpp Require Export base tactics list gmap strings.
From Stdlib Require Export ZArith Lia.
From Stdlib Require Export Ascii.
From Stdlib Require String.

#[global] Open Scope Z_scope.
#[global] Open Scope stdpp_scope.

(** ** Characters: the C library predicates of the "C" locale *)

Definition code (c : ascii) : N := N_of_ascii c.

(** [std::isspace]: tab, newline, vertical tab, form feed, carriage return, space. *)
Definition isspace (c : ascii) : bool :=
  ((9 <=? code c) && (code c <=? 13) || (code c =? 32))%N.

(** [std::tolower]: only the 26 ASCII capitals move. *)
Definition tolower (c : ascii) : ascii :=
  if ((65 <=? code c) && (code c <=? 90))%N then ascii_of_N (code c + 32) else c.

(** [c >= '0' && c <= '9']. *)
Definition isdigit (c : ascii) : bool := ((48 <=? code c) && (code c <=? 57))%N.

(** [c - '0']. *)
Definition digit_value (c : ascii) : Z := Z.of_N (code c) - 48.

(** The digit character ['0' + d]. *)
Definition digit_char (d : Z) : ascii := ascii_of_N (Z.to_N (d + 48)).

(** ** Byte strings *)

(** A C++ [std::string] is a sequence of bytes; it is modelled by [string], and
    reasoned about through its list of characters. *)
Definition chars (s : string) : list ascii := String.list_ascii_of_string s.
Definition of_chars (l : list ascii) : string := String.string_of_list_ascii l.

Definition str_empty (s : string) : bool :=
  match s with EmptyString => true | String _ _ => false end.

(** [s.size()]. *)
Definition str_size (s : string) : nat := List.length (chars s).

(** [s.substr(pos, n)] for [pos <= s.size()]. *)
Definition substr (s : string) (pos n : nat) : string := of_chars (take n (drop pos (chars s))).

(** [s.substr(pos)] for [pos <= s.size()]. *)
Definition substr_from (s : string) (pos : nat) : string := of_chars (drop pos (chars s)).

(** [std::ranges::transform] of every byte. *)
Definition str_map (f : ascii -> ascii) (s : string) : string := of_chars (map f (chars s)).

(** [s.starts_with(p)]. *)
Fixpoint list_prefixb (p l : list ascii) : bool :=
  match p, l with
  | [], _ => true
  | a :: p', b :: l' => bool_decide (a = b) && list_prefixb p' l'
  | _ :: _, [] => false
  end.

Definition starts_with (s p : string) : bool := list_prefixb (chars p) (chars s).

(** Index of the first element satisfying a test: [find_first_of], [find_if]. *)
Fixpoint find_idx {A} (P : A -> bool) (l : list A) : option nat :=
  match l with
  | [] => None
  | x :: l' => if P x then Some 0%nat else S <$> find_idx P l'
  end.

(** [s.find(c)]. *)
Definition str_find (c : ascii) (s : string) : option nat :=
  find_idx (fun x => bool_decide (x = c)) (chars s).

(** [rfind] of a character, and the text before and after it. *)
Fixpoint split_last {A} `{EqDecision A} (c : A) (l : list A) : option (list A * list A) :=
  match l with
  | [] => None
  | d :: r => match split_last c r with
              | Some (a, b) => Some (d :: a, b)
              | None => if decide (d = c) then Some ([], r) else None
              end
  end.

(** [find] of a string: the text before and after its first occurrence. *)
Fixpoint split_first (p l : list ascii) : option (list ascii * list ascii) :=
  if list_prefixb p l then Some ([], drop (length p) l)
  else match l with
       | [] => None
       | c :: r => match split_first p r with Some (a, b) => Some (c :: a, b) | None => None end
       end.
Definition str_contains (s p : string) : bool := bool_decide (is_Some (split_first (chars p) (chars s))).

(** The bytes up to the first one that fails the test, and the rest. *)
Fixpoint take_while {A} (P : A -> bool) (l : list A) : list A :=
  match l with
  | [] => []
  | x :: l' => if P x then x :: take_while P l' else []
  end.

Fixpoint drop_while {A} (P : A -> bool) (l : list A) : list A :=
  match l with
  | [] => []
  | x :: l' => if P x then drop_while P l' else l
  end.

(** A value with the equation that defines it, for matches whose branches need it. *)
Definition inspect {A} (a : A) : {b | a = b} := exist _ a eq_refl.

(** [std::filesystem::path::filename]. *)
Definition filename (path : string) : string :=
  match split_last "/"%char (chars path) with Some (_, name) => of_chars name | None => path end.

(** Byte-wise lexicographic order: [operator<] of [std::string], and SQLite's default
    collation. *)
Fixpoint bytes_ltb (a b : list ascii) : bool :=
  match a, b with
  | _, [] => false
  | [], _ :: _ => true
  | x :: a', y :: b' => (code x <? code y)%N || (bool_decide (x = y) && bytes_ltb a' b')
  end.

Definition str_ltb (a b : string) : bool := bytes_ltb (chars a) (chars b).

(** The line feed of a message. *)
Definition newline : string := of_chars ["010"%char].

(** ** Decimal output *)

(** The decimal digits of [n >= 0] in front of [acc]; [fuel] bounds their number. *)
Fixpoint digits_of (fuel : nat) (n : Z) (acc : list ascii) : list ascii :=
  match fuel with
  | O => acc
  | S f => if n <? 10 then digit_char n :: acc
           else digits_of f (n / 10) (digit_char (n mod 10) :: acc)
  end.

(** [std::to_string] and [fmt]'s ["{}"] on an integer: one digit per factor of ten, so
    the bit length is fuel enough. *)
Definition fmt_nat_chars (n : Z) : list ascii := digits_of (S (Z.to_nat (Z.log2 n))) n [].
Definition fmt_int (z : Z) : string :=
  of_chars (if z <? 0 then "-"%char :: fmt_nat_chars (- z) else fmt_nat_chars z).

(** The value of a run of digits, most significant first, continuing from [v]. *)
Definition dec_value (v : Z) (l : list ascii) : Z :=
  fold_left (fun v c => v * 10 + digit_value c) l v.

(** ["{:02d}"] and ["{:03d}"], ["{:04d}"] on a number that fits the width. *)
Definition fmt_02 (z : Z) : string := of_chars [digit_char (z / 10); digit_char (z mod 10)].
Definition fmt_03 (z : Z) : string :=
  of_chars [digit_char (z / 100); digit_char (z / 10 mod 10); digit_char (z mod 10)].
Definition fmt_04 (z : Z) : string :=
  of_chars [digit_char (z / 1000); digit_char (z / 100 mod 10); digit_char (z / 10 mod 10);
            digit_char (z mod 10)].

(** ** Machine integers *)

Definition INT64_MAX : Z := 2 ^ 63 - 1.
Definition INT64_MIN : Z := - 2 ^ 63.

(** [std::stoll]: optional white space and sign, digits, anything after; [None] is an
    exception ([invalid_argument], [out_of_range]). *)
Definition stoll (s : string) : option Z :=
  let l := drop_while isspace (chars s) in
  let '(sign, l) := match l with
                    | "-"%char :: l => (-1, l)
                    | "+"%char :: l => (1, l)
                    | _ => (1, l)
                    end in
  match take_while isdigit l with
  | [] => None
  | ds => let v := sign * dec_value 0 ds in
          if (INT64_MIN <=? v) && (v <=? INT64_MAX) then Some v else None
  end.

(** [static_cast<int>]. *)
Definition to_int32 (z : Z) : Z := (z + 2 ^ 31) mod 2 ^ 32 - 2 ^ 31.
Definition in_int64 (z : Z) : Prop := INT64_MIN <= z <= INT64_MAX.

(** [static_cast<std::int64_t>] of an integral value: reduction modulo 2^64. *)
Definition to_int64 (z : Z) : Z := (z + 2 ^ 63) mod 2 ^ 64 - 2 ^ 63.

(** ** Coroutines as state transformers

    A coroutine [awaitable<T>] is a function of the state of the world outside it:
    it yields a [T] and the world it leaves behind. *)
Definition M (W A : Type) : Type := W -> A * W.

Definition mreturn {W A} (a : A) : M W A := fun w => (a, w).
Definition mbind {W A B} (m : M W A) (k : A -> M W B) : M W B :=
  fun w => let '(a, w') := m w in k a w'.

Declare Scope coro_scope.
Delimit Scope coro_scope with coro.

Notation "'co_return' x" := (mreturn x) (at level 60) : coro_scope.
Notation "'co_await' x <- m ; k" := (mbind m (fun x => k))
  (at level 60, x name, m at level 55, k at level 60, right associativity,
   format "'[v' 'co_await'  x  <-  m ; '/' k ']'") : coro_scope.
Notation "'co_do' m ; k" := (mbind m (fun _ => k))
  (at level 60, m at level 55, k at level 60, right associativity,
   format "'[v' 'co_do'  m ; '/' k ']'") : coro_scope.

(** A component's own state [S] next to the rest of the world. *)
Definition lift {S W A} (m : M W A) : M (S * W) A := fun c => ((m c.2).1, (c.1, (m c.2).2)).
Definition get_state {S W} : M (S * W) S := fun c => (c.1, c).
Definition put_state {S W} (s : S) : M (S * W) unit := fun c => ((), (s, c.2)).

(** The loop [for (x : l) body], threading a local value through the iterations. *)
Fixpoint mfold {W A B} (f : B -> A -> M W B) (l : list A) (b : B) : M W B :=
  match l with
  | [] => mreturn b
  | x :: l' => mbind (f b x) (mfold f l')
  end.

(** ** Automation *)

Create HintDb cmlb.

Create Rewrite HintDb strs.

(** Destruct the scrutinee of every [match] and [if] in the goal, keeping equations. *)
Ltac crush_match :=
  repeat match goal with
  | |- context [match ?x with _ => _ end] => destruct x eqn:?; simplify_eq/=
  end.

(** Run the coroutine steps whose outcome the context already knows. *)
Ltac run_coro :=
  unfold mbind, mreturn in *; cbn beta iota in *;
  repeat match goal with
  | H : ?m ?w = (_, _) |- context [?m ?w] => rewrite H; cbn beta iota
  end.

(** ** Lemmas on byte strings *)

Lemma chars_of_chars l : chars (of_chars l) = l.
Proof. apply String.list_ascii_of_string_of_list_ascii. Qed.

Lemma of_chars_chars s : of_chars (chars s) = s.
Proof. apply String.string_of_list_ascii_of_string. Qed.

Lemma chars_inj s1 s2 : chars s1 = chars s2 -> s1 = s2.
Proof. intros H. by rewrite <-(of_chars_chars s1), H, of_chars_chars. Qed.

Lemma chars_app s1 s2 : chars (s1 +:+ s2) = chars s1 ++ chars s2.
Proof. induction s1 as [|c s1 IH]; [done|]. unfold chars in *. simpl. by f_equal. Qed.

Lemma of_chars_app l1 l2 : of_chars (l1 ++ l2) = of_chars l1 +:+ of_chars l2.
Proof. apply chars_inj. by rewrite chars_app, !chars_of_chars. Qed.

Lemma chars_nil : chars "" = [].
Proof. done. Qed.

Lemma str_size_app s1 s2 : str_size (s1 +:+ s2) = (str_size s1 + str_size s2)%nat.
Proof. unfold str_size. by rewrite chars_app, length_app. Qed.

Lemma str_size_of_chars l : str_size (of_chars l) = length l.
Proof. unfold str_size. by rewrite chars_of_chars. Qed.

Lemma str_empty_spec s : str_empty s = true <-> s = "".
Proof. by destruct s. Qed.

Lemma str_empty_false s : str_empty s = false <-> chars s <> [].
Proof. by destruct s. Qed.

Lemma chars_str_map f s : chars (str_map f s) = map f (chars s).
Proof. apply chars_of_chars. Qed.

Lemma str_app_assoc s1 s2 s3 : (s1 +:+ s2) +:+ s3 = s1 +:+ (s2 +:+ s3).
Proof. apply chars_inj. by rewrite !chars_app, <-app_assoc. Qed.

Lemma str_app_inj_l s t1 t2 : s +:+ t1 = s +:+ t2 -> t1 = t2.
Proof.
  intros H. apply chars_inj. apply (f_equal chars) in H. rewrite !chars_app in H.
  by apply app_inv_head in H.
Qed.

#[global] Hint Rewrite chars_of_chars of_chars_chars chars_app chars_nil chars_str_map
  str_size_app str_size_of_chars : strs.

Lemma list_prefixb_spec p l : list_prefixb p l = true <-> exists r, l = p ++ r.
Proof.
  revert l. induction p as [|a p IH]; intros [|b l]; simpl.
  - split; [by exists []|done].
  - split; [by exists (b :: l)|done].
  - split; [done|intros [r ?]; simplify_eq/=].
  - rewrite andb_true_iff, bool_decide_eq_true, IH. split.
    + intros [-> [r ->]]. by exists r.
    + intros [r [= -> ->]]. split; [done|by exists r].
Qed.

Lemma starts_with_spec s p : starts_with s p = true <-> exists r, s = p +:+ r.
Proof.
  unfold starts_with. rewrite list_prefixb_spec. split.
  - intros [r H]. exists (of_chars r). apply chars_inj. by autorewrite with strs.
  - intros [r ->]. exists (chars r). by autorewrite with strs.
Qed.

(** ** Lemmas on searching lists *)

Lemma find_idx_Some {A} (P : A -> bool) l i :
  find_idx P l = Some i <->
  exists x, l !! i = Some x /\ P x = true /\ Forall (fun y => P y = false) (take i l).
Proof.
  revert i. induction l as [|a l IH]; intros i; simpl.
  { split; [done|by intros (x & ? & _)]. }
  destruct (P a) eqn:Pa.
  - split; [intros [= <-]; exists a; by repeat constructor|].
    intros (x & Hx & Px & Hall). destruct i as [|i]; [done|].
    simpl in Hall. inversion Hall. congruence.
  - destruct i as [|i]; simpl.
    + split; [by destruct (find_idx P l)|]. intros (x & [= ->] & ? & _). congruence.
    + rewrite fmap_Some. split.
      * intros (j & Hj & [= ->]). apply IH in Hj as (x & ? & ? & ?).
        exists x. repeat split; [done..|by constructor].
      * intros (x & ? & ? & Hall). exists i. split; [|done]. apply IH. exists x.
        repeat split; [done..|by inversion Hall].
Qed.

Lemma find_idx_None {A} (P : A -> bool) l :
  find_idx P l = None <-> Forall (fun y => P y = false) l.
Proof.
  induction l as [|a l IH]; simpl; [by split|].
  destruct (P a) eqn:Pa; split.
  - done.
  - intros H. inversion H. congruence.
  - intros H%fmap_None. constructor; [done|by apply IH].
  - intros H. inversion H. by rewrite (proj2 IH).
Qed.

Lemma split_last_None {A} `{EqDecision A} (c : A) l : split_last c l = None <-> c ∉ l.
Proof.
  induction l as [|d r IH]; simpl; [set_solver|]. rewrite not_elem_of_cons, <- IH.
  destruct (split_last c r) as [[a b]|]; [naive_solver|]. case_decide; naive_solver.
Qed.

Lemma split_last_app {A} `{EqDecision A} (c : A) a b : c ∉ b -> split_last c (a ++ c :: b) = Some (a, b).
Proof.
  intros Hb. induction a as [|d a IH]; simpl; [|by rewrite IH].
  rewrite (proj2 (split_last_None c b) Hb). by rewrite decide_True.
Qed.

Lemma split_last_Some {A} `{EqDecision A} (c : A) l a b :
  split_last c l = Some (a, b) -> l = a ++ c :: b /\ c ∉ b.
Proof.
  revert a. induction l as [|d r IH]; intros a; simpl; [done|].
  destruct (split_last c r) as [[a' b']|] eqn:E.
  - intros [= <- <-]. by destruct (IH a' eq_refl) as [-> ?].
  - case_decide; [|done]. intros [= <- <-]. subst. split; [done|by apply split_last_None].
Qed.

Lemma take_while_drop_while {A} (P : A -> bool) l : take_while P l ++ drop_while P l = l.
Proof. induction l as [|a l IH]; simpl; [done|]. destruct (P a); simpl; congruence. Qed.

Lemma drop_while_le {A} (P : A -> bool) l : (length (drop_while P l) <= length l)%nat.
Proof. induction l as [|a l IH]; simpl; [done|]. destruct (P a); simpl; lia. Qed.

Lemma take_while_Forall {A} (P : A -> bool) l : Forall (fun x => P x = true) (take_while P l).
Proof. induction l as [|a l IH]; simpl; [done|]. destruct (P a) eqn:?; by constructor. Qed.

Lemma drop_while_head {A} (P : A -> bool) l x r : drop_while P l = x :: r -> P x = false.
Proof.
  induction l as [|a l IH]; simpl; [done|]. destruct (P a) eqn:?; [done|].
  by intros [= -> _].
Qed.

Lemma drop_while_id {A} (P : A -> bool) x r : P x = false -> drop_while P (x :: r) = x :: r.
Proof. intros H. simpl. by rewrite H. Qed.

Lemma drop_while_all {A} (P : A -> bool) l r :
  Forall (fun x => P x = true) l -> drop_while P (l ++ r) = drop_while P r.
Proof. induction 1 as [|x l Hx _ IH]; simpl; [done|]. by rewrite Hx. Qed.

Lemma take_while_all {A} (P : A -> bool) l r :
  Forall (fun x => P x = true) l -> take_while P (l ++ r) = l ++ take_while P r.
Proof. induction 1 as [|x l Hx _ IH]; simpl; [done|]. by rewrite Hx, IH. Qed.

Lemma take_while_app_stop {A} (P : A -> bool) l x r :
  Forall (fun y => P y = true) l -> P x = false -> take_while P (l ++ x :: r) = l /\ drop_while P (l ++ x :: r) = x :: r.
Proof. intros Hl Hx. induction Hl as [|y l Hy _ [IH1 IH2]]; simpl; [by rewrite Hx|]. rewrite Hy. by split; [rewrite IH1|]. Qed.

Lemma drop_while_none {A} (P : A -> bool) l : Forall (fun x => P x = false) l -> drop_while P l = l.
Proof. intros [|x l' Hx _]; [done|]. by apply drop_while_id. Qed.

(** ** Lemmas on the byte order *)

Lemma code_inj a b : code a = code b -> a = b.
Proof. intros H. rewrite <-(ascii_N_embedding a), <-(ascii_N_embedding b). by f_equal. Qed.

Lemma bytes_ltb_irrefl a : bytes_ltb a a = false.
Proof.
  induction a as [|x a IH]; simpl; [done|].
  rewrite N.ltb_irrefl, IH. by rewrite andb_false_r.
Qed.

Lemma bytes_ltb_trans a b c : bytes_ltb a b = true -> bytes_ltb b c = true -> bytes_ltb a c = true.
Proof.
  revert b c. induction a as [|x a IH]; intros [|y b] [|z c]; simpl; try done.
  rewrite !orb_true_iff, !andb_true_iff, !N.ltb_lt, !bool_decide_eq_true.
  intros [H1|[-> H1]] [H2|[-> H2]]; [left; lia|left; lia|left; lia|right; eauto].
Qed.

Lemma bytes_ltb_total a b : bytes_ltb a b = true \/ a = b \/ bytes_ltb b a = true.
Proof.
  revert b. induction a as [|x a IH]; intros [|y b]; simpl; [by right; left|by left|by right; right|].
  rewrite !orb_true_iff, !andb_true_iff, !N.ltb_lt, !bool_decide_eq_true.
  destruct (N.lt_trichotomy (code x) (code y)) as [|[Heq|]]; [by left; left| |by right; right; left].
  apply code_inj in Heq as ->. destruct (IH b) as [|[->|]]; [left; right; done|by right; left|right; right; right; done].
Qed.

Lemma bytes_ltb_app a1 a2 b1 b2 :
  length a1 = length a2 ->
  bytes_ltb (a1 ++ b1) (a2 ++ b2) = bytes_ltb a1 a2 || (bool_decide (a1 = a2) && bytes_ltb b1 b2).
Proof.
  revert a2. induction a1 as [|x a1 IH]; intros [|y a2] Hlen; simpl in *; try (by inversion Hlen).
  injection Hlen as Hlen. rewrite IH by exact Hlen.
  destruct (decide (x = y)) as [->|Hne].
  - rewrite N.ltb_irrefl, bool_decide_true by done. simpl. f_equal. f_equal.
    apply bool_decide_ext. naive_solver.
  - rewrite !(bool_decide_false (x = y)), (bool_decide_false (x :: a1 = y :: a2)) by congruence.
    simpl. by rewrite !orb_false_r.
Qed.

(** "Not greater" on strings is a total preorder. *)
Lemma str_ge_trans a b c : str_ltb b a = false -> str_ltb c b = false -> str_ltb c a = false.
Proof.
  unfold str_ltb. intros H1 H2. destruct (bytes_ltb (chars c) (chars a)) eqn:E; [|done].
  destruct (bytes_ltb_total (chars b) (chars c)) as [H|[H|H]]; [|congruence..].
  by rewrite (bytes_ltb_trans _ _ _ H E) in H1.
Qed.

Lemma str_ge_total a b : str_ltb b a = false \/ str_ltb a b = false.
Proof.
  unfold str_ltb. destruct (bytes_ltb (chars b) (chars a)) eqn:E; [|by left].
  destruct (bytes_ltb (chars a) (chars b)) eqn:E2; [|by right].
  pose proof (bytes_ltb_trans _ _ _ E E2) as H. by rewrite bytes_ltb_irrefl in H.
Qed.

(** ** Lemmas on digits *)

Lemma ascii_of_N_lt n : (n < 256)%N -> code (ascii_of_N n) = n.
Proof. apply N_ascii_embedding. Qed.

Lemma code_digit_char d : 0 <= d <= 9 -> Z.of_N (code (digit_char d)) = d + 48.
Proof. intros H. unfold digit_char. rewrite ascii_of_N_lt; lia. Qed.

Lemma digit_value_char d : 0 <= d <= 9 -> digit_value (digit_char d) = d.
Proof. intros H. unfold digit_value. rewrite code_digit_char; lia. Qed.

Lemma isdigit_digit_char d : 0 <= d <= 9 -> isdigit (digit_char d) = true.
Proof.
  intros H. pose proof (code_digit_char d H). unfold isdigit.
  apply andb_true_iff. split; apply N.leb_le; lia.
Qed.

Lemma digits_of_digits fuel n acc :
  0 <= n -> Forall (fun c => isdigit c = true) acc ->
  Forall (fun c => isdigit c = true) (digits_of fuel n acc).
Proof.
  revert n acc. induction fuel as [|f IH]; intros n acc Hn Hacc; simpl; [done|].
  destruct (Z.ltb_spec n 10).
  - constructor; [apply isdigit_digit_char; lia|done].
  - apply IH; [apply Z.div_pos; lia|]. constructor; [|done].
    apply isdigit_digit_char. pose proof (Z.mod_pos_bound n 10). lia.
Qed.

Lemma dec_value_digits_of fuel n acc :
  0 <= n < 2 ^ Z.of_nat fuel -> dec_value 0 (digits_of fuel n acc) = dec_value n acc.
Proof.
  revert n acc. induction fuel as [|f IH]; intros n acc Hn; simpl.
  { f_equal. simpl in Hn. lia. }
  destruct (Z.ltb_spec n 10).
  - unfold dec_value. simpl. rewrite digit_value_char by lia. f_equal.
  - rewrite IH.
    + unfold dec_value. simpl. rewrite digit_value_char by (pose proof (Z.mod_pos_bound n 10); lia).
      f_equal. pose proof (Z.div_mod n 10). lia.
    + split; [apply Z.div_pos; lia|]. apply Z.div_lt_upper_bound; [lia|].
      rewrite Nat2Z.inj_succ, Z.pow_succ_r in Hn by lia. lia.
Qed.

Lemma fmt_nat_chars_digits n : 0 <= n -> Forall (fun c => isdigit c = true) (fmt_nat_chars n).
Proof. intros Hn. by apply digits_of_digits. Qed.

Lemma dec_value_fmt_nat n : 0 <= n -> dec_value 0 (fmt_nat_chars n) = n.
Proof.
  intros Hn. unfold fmt_nat_chars. rewrite dec_value_digits_of; [done|].
  split; [done|]. destruct (Z.eq_dec n 0) as [->|]; [done|].
  pose proof (Z.log2_spec n ltac:(lia)). pose proof (Z.log2_nonneg n).
  rewrite Nat2Z.inj_succ, Z2Nat.id by lia. lia.
Qed.

Lemma fmt_nat_chars_nonempty n : exists c l, fmt_nat_chars n = c :: l.
Proof.
  unfold fmt_nat_chars. generalize (Z.to_nat (Z.log2 n)), (@nil ascii). intros f. revert n.
  induction f as [|f IH]; intros n acc; cbn [digits_of]; destruct (n <? 10); eauto.
Qed.

Lemma chars_fmt_int n : 0 <= n -> chars (fmt_int n) = fmt_nat_chars n.
Proof.
  intros Hn. unfold fmt_int. rewrite chars_of_chars. by destruct (Z.ltb_spec n 0); [lia|].
Qed.

Lemma fmt_int_inj a b : 0 <= a -> 0 <= b -> fmt_int a = fmt_int b -> a = b.
Proof.
  intros Ha Hb H. apply (f_equal chars) in H. rewrite !chars_fmt_int in H by done.
  by rewrite <-(dec_value_fmt_nat a), H, dec_value_fmt_nat.
Qed.

(** ** Checking a property of every integer of a range by computation *)

Fixpoint forall_range (P : Z -> bool) (n : nat) (lo : Z) : bool :=
  match n with
  | O => true
  | S n' => P lo && forall_range P n' (lo + 1)
  end.

Lemma forall_range_spec P n lo :
  forall_range P n lo = true -> forall z, lo <= z < lo + Z.of_nat n -> P z = true.
Proof.
  revert lo. induction n as [|n IH]; intros lo H z Hz; [lia|].
  simpl in H. apply andb_true_iff in H as [H1 H2].
  destruct (Z.eq_dec z lo) as [->|]; [done|]. apply (IH (lo + 1)); [done|lia].
Qed.

(** ** Lemmas on coroutines *)

Lemma mbind_proj {W A B} (m : M W A) (k : A -> M W B) w : mbind m k w = k (m w).1 (m w).2.
Proof. unfold mbind. by destruct (m w). Qed.

Lemma mbind_return_l {W A B} (a : A) (k : A -> M W B) w : mbind (mreturn a) k w = k a w.
Proof. done. Qed.

Lemma mbind_assoc {W A B C} (m : M W A) (k : A -> M W B) (h : B -> M W C) w :
  mbind (mbind m k) h w = mbind m (fun a => mbind (k a) h) w.
Proof. unfold mbind. by destruct (m w). Qed.

Lemma mfold_app {W A B} (f : B -> A -> M W B) l1 l2 b w :
  mfold f (l1 ++ l2) b w = mbind (mfold f l1 b) (mfold f l2) w.
Proof.
  revert b w. induction l1 as [|x l1 IH]; intros b w; [done|].
  simpl. unfold mbind. destruct (f b x w) as [b' w']. apply IH.
Qed.
