(* ===== verification/CoreError.v ===== *)
(** * Error model: [core/error.hpp], [core/error.cpp]

    The closed set of error codes, the [AppError] carried by every failing path, and
    [Result<T>].  The [std::source_location] of an [AppError] (the C++ line that built
    it, used only by the stream formatter) is not part of the model. *)

From S2P Require Import Prelude.

(** The enumerators of [cmlb::core::ErrorCode]. *)
Inductive ErrorCode :=
| NoneCode
| InvalidArgument
| InvalidConfiguration
| InvalidState
| NotFound
| AlreadyExists
| PermissionDenied
| Unauthenticated
| Cancelled
| DeadlineExceeded
| ResourceExhausted
| QuotaExceeded
| Network
| Timeout
| Io
| FileSystem
| Serialization
| Deserialization
| JsonParse
| TelegramApi
| Aria2Rpc
| QbittorrentApi
| GoogleDriveApi
| RcloneInvocation
| Database
| Migration
| SubprocessFailed
| MediaProcessing
| ArchiveProcessing
| Internal
| Unknown.

#[global] Instance ErrorCode_eq_dec : EqDecision ErrorCode.
Proof. solve_decision. Defined.

(** [error_code_name]. *)
Definition error_code_name (c : ErrorCode) : string :=
  match c with
  | NoneCode => "None"
  | InvalidArgument => "InvalidArgument"
  | InvalidConfiguration => "InvalidConfiguration"
  | InvalidState => "InvalidState"
  | NotFound => "NotFound"
  | AlreadyExists => "AlreadyExists"
  | PermissionDenied => "PermissionDenied"
  | Unauthenticated => "Unauthenticated"
  | Cancelled => "Cancelled"
  | DeadlineExceeded => "DeadlineExceeded"
  | ResourceExhausted => "ResourceExhausted"
  | QuotaExceeded => "QuotaExceeded"
  | Network => "Network"
  | Timeout => "Timeout"
  | Io => "Io"
  | FileSystem => "FileSystem"
  | Serialization => "Serialization"
  | Deserialization => "Deserialization"
  | JsonParse => "JsonParse"
  | TelegramApi => "TelegramApi"
  | Aria2Rpc => "Aria2Rpc"
  | QbittorrentApi => "QbittorrentApi"
  | GoogleDriveApi => "GoogleDriveApi"
  | RcloneInvocation => "RcloneInvocation"
  | Database => "Database"
  | Migration => "Migration"
  | SubprocessFailed => "SubprocessFailed"
  | MediaProcessing => "MediaProcessing"
  | ArchiveProcessing => "ArchiveProcessing"
  | Internal => "Internal"
  | Unknown => "Unknown"
  end.

(** [friendly_error_label] of [core/formatting.cpp]. *)
Definition friendly_error_label (c : ErrorCode) : string :=
  match c with
  | NoneCode => "OK"
  | InvalidArgument => "Invalid argument"
  | InvalidConfiguration => "Invalid configuration"
  | InvalidState => "Invalid state"
  | NotFound => "Not found"
  | AlreadyExists => "Already exists"
  | PermissionDenied => "Permission denied"
  | Unauthenticated => "Authentication required"
  | Cancelled => "Cancelled"
  | DeadlineExceeded => "Deadline exceeded"
  | ResourceExhausted => "Resource exhausted"
  | QuotaExceeded => "Quota exceeded"
  | Network => "Network error"
  | Timeout => "Timed out"
  | Io => "I/O error"
  | FileSystem => "Filesystem error"
  | Serialization => "Serialization failed"
  | Deserialization => "Deserialization failed"
  | JsonParse => "Invalid JSON"
  | TelegramApi => "Telegram error"
  | Aria2Rpc => "aria2 error"
  | QbittorrentApi => "qBittorrent error"
  | GoogleDriveApi => "Google Drive error"
  | RcloneInvocation => "rclone error"
  | Database => "Database error"
  | Migration => "Schema migration failed"
  | SubprocessFailed => "Helper process failed"
  | MediaProcessing => "Media processing failed"
  | ArchiveProcessing => "Archive processing failed"
  | Internal => "Internal error"
  | Unknown => "Error"
  end.

(** [struct AppError]. *)
Record AppError := MkError { err_code : ErrorCode; err_message : string }.

#[global] Instance AppError_eq_dec : EqDecision AppError.
Proof. solve_decision. Defined.

(** [Result<T> = std::expected<T, AppError>]. *)
Inductive Result (A : Type) :=
| Ok (a : A)
| Err (e : AppError).
Arguments Ok {A} a.
Arguments Err {A} e.

(** [core::error(code, msg)]. *)
Definition error {A} (c : ErrorCode) (msg : string) : Result A := Err (MkError c msg).

(** [r.has_value()]. *)
Definition has_value {A} (r : Result A) : bool := match r with Ok _ => true | Err _ => false end.

Definition result_bind {A B} (r : Result A) (k : A -> Result B) : Result B :=
  match r with Ok a => k a | Err e => Err e end.

(** The idiom [auto x = co_await m; if (!x) co_return std::unexpected(x.error()); k]. *)
Definition try_bind {W A B} (m : M W (Result A)) (k : A -> M W (Result B)) : M W (Result B) :=
  mbind m (fun r => match r with Ok a => k a | Err e => mreturn (Err e) end).

Notation "'co_try' x <- m ; k" := (try_bind m (fun x => k))
  (at level 60, x name, m at level 55, k at level 60, right associativity,
   format "'[v' 'co_try'  x  <-  m ; '/' k ']'") : coro_scope.

(** ** Coroutines that may throw

    How a coroutine ends when exceptions can leave it; [Unfinished] is a loop that the fuel
    given to it did not see end. *)
Inductive Outcome (A : Type) :=
| Finished (r : Result A)
| Thrown (what : string)
| Unfinished.
Arguments Finished {A} r.
Arguments Thrown {A} what.
Arguments Unfinished {A}.

Definition Throwing (W A : Type) : Type := M W (Outcome A).

(** [co_try] in such a coroutine: an exception ends it as well. *)
Definition throwing_try {W A B} (m : Throwing W A) (k : A -> Throwing W B) : Throwing W B :=
  mbind m (fun o => match o with
                    | Finished (Ok a) => k a
                    | Finished (Err e) => mreturn (Finished (Err e))
                    | Thrown what => mreturn (Thrown what)
                    | Unfinished => mreturn Unfinished
                    end).

Notation "'co_throwing' x <- m ; k" := (throwing_try m (fun x => k))
  (at level 60, x name, m at level 55, k at level 60, right associativity,
   format "'[v' 'co_throwing'  x  <-  m ; '/' k ']'") : coro_scope.

(** A call that does not throw, a function that throws outside a [try] block, and a value. *)
Definition no_throw {W A} (m : M W (Result A)) : Throwing W A := mbind m (fun r => mreturn (Finished r)).
Definition may_throw {W A} (r : string + A) : Throwing W A :=
  mreturn match r with inr a => Finished (Ok a) | inl what => Thrown what end.
Definition settle {W A} (r : string + Result A) : Throwing W A :=
  mreturn match r with inr r => Finished r | inl what => Thrown what end.
Definition finish_with {W A} (r : Result A) : Throwing W A := mreturn (Finished r).
Definition observe {W A} (m : M W A) : Throwing W A := mbind m (fun a => mreturn (Finished (Ok a))).

(** A [nlohmann] call that may throw, inside a [try] block. *)
Definition throwing_bind {A B} (r : string + A) (k : A -> string + B) : string + B :=
  match r with inl what => inl what | inr a => k a end.
Notation "'try' x <- r ; k" := (throwing_bind r (fun x => k)) (at level 100, x pattern, r at next level, right associativity).

(** ** Lemmas *)

Lemma try_bind_Ok {W A B} (m : M W (Result A)) (k : A -> M W (Result B)) w a w' :
  m w = (Ok a, w') -> try_bind m k w = k a w'.
Proof. unfold try_bind, mbind. by intros ->. Qed.

Lemma try_bind_Err {W A B} (m : M W (Result A)) (k : A -> M W (Result B)) w e w' :
  m w = (Err e, w') -> try_bind m k w = (Err e, w').
Proof. unfold try_bind, mbind. by intros ->. Qed.

Lemma throwing_try_proj {W A B} (m : Throwing W A) (k : A -> Throwing W B) w :
  throwing_try m k w =
    match (m w).1 with
    | Finished (Ok a) => k a (m w).2
    | Finished (Err e) => (Finished (Err e), (m w).2)
    | Thrown what => (Thrown what, (m w).2)
    | Unfinished => (Unfinished, (m w).2)
    end.
Proof. unfold throwing_try. rewrite mbind_proj. by destruct (m w) as [[[a|e]|what|] w']. Qed.

Lemma throwing_try_Ok_inv {W A B} (m : Throwing W A) (k : A -> Throwing W B) w b w' :
  throwing_try m k w = (Finished (Ok b), w') -> exists a w1, m w = (Finished (Ok a), w1) /\ k a w1 = (Finished (Ok b), w').
Proof. rewrite throwing_try_proj. destruct (m w) as [[[a|e]|what|] w1]; simpl; [eauto|done..]. Qed.

Lemma observe_inv {W A} (m : M W A) w a w' : observe m w = (Finished (Ok a), w') -> m w = (a, w').
Proof. unfold observe, mbind. destruct (m w). by intros [= -> ->]. Qed.

Lemma no_throw_inv {W A} (m : M W (Result A)) w a w' : no_throw m w = (Finished (Ok a), w') -> m w = (Ok a, w').
Proof. unfold no_throw, mbind. destruct (m w). by intros [= -> ->]. Qed.

Lemma try_bind_Ok_inv {W A B} (m : M W (Result A)) (k : A -> M W (Result B)) w b w' :
  try_bind m k w = (Ok b, w') -> exists a w1, m w = (Ok a, w1) /\ k a w1 = (Ok b, w').
Proof. unfold try_bind, mbind. destruct (m w) as [[a|e] w1]; [eauto|done]. Qed.

Lemma result_bind_Ok {A B} (r : Result A) (k : A -> Result B) b :
  result_bind r k = Ok b <-> exists a, r = Ok a /\ k a = Ok b.
Proof. destruct r; simpl; naive_solver. Qed.

(** Undo one bind of a coroutine that succeeded. *)
Ltac undo_step :=
  match goal with
  | H : throwing_try _ _ _ = (Finished (Ok _), _) |- _ => apply throwing_try_Ok_inv in H as (? & ? & ? & H)
  | H : (if ?b then _ else _) _ = (Finished (Ok _), _) |- _ => destruct b eqn:?
  | H : (match ?x with _ => _ end) _ = (Finished (Ok _), _) |- _ => destruct x eqn:?
  | H : finish_with _ _ = (Finished (Ok _), _) |- _ => injection H as H <-
  | H : Err _ = Ok _ |- _ => discriminate
  | H : error _ _ = Ok _ |- _ => discriminate
  | H : mreturn _ _ = (Finished (Ok _), _) |- _ => discriminate
  end.

(** Coroutines that no exception leaves. *)
Definition never_throws {W A} (m : Throwing W A) : Prop := forall w what, (m w).1 <> Thrown what.

Lemma never_throws_try {W A B} (m : Throwing W A) (k : A -> Throwing W B) :
  never_throws m -> (forall a, never_throws (k a)) -> never_throws (throwing_try m k).
Proof.
  intros Hm Hk w what. rewrite throwing_try_proj. specialize (Hm w). destruct (m w) as [[[a|e]|what'|] w']; cbn [fst snd] in *;
    [apply Hk|done| |done]. intros [= ->]. by apply (Hm what).
Qed.

Lemma never_throws_observe {W A} (m : M W A) : never_throws (observe m).
Proof. intros w what. unfold observe. by rewrite mbind_proj. Qed.

Lemma never_throws_no_throw {W A} (m : M W (Result A)) : never_throws (no_throw m).
Proof. intros w what. unfold no_throw. by rewrite mbind_proj. Qed.

Lemma never_throws_finish {W A} (r : Result A) : never_throws (W := W) (finish_with r).
Proof. done. Qed.

Lemma never_throws_unfinished {W A} : never_throws (W := W) (A := A) (mreturn Unfinished).
Proof. done. Qed.

Lemma never_throws_bind {W A B} (m : M W A) (k : A -> Throwing W B) : (forall a, never_throws (k a)) -> never_throws (mbind m k).
Proof. intros Hk w what. rewrite mbind_proj. apply Hk. Qed.

Lemma never_throws_may_throw {W A} (r : string + A) : (exists a, r = inr a) -> never_throws (W := W) (may_throw r).
Proof. by intros [a ->]. Qed.

Lemma never_throws_settle {W A} (r : string + Result A) : (exists a, r = inr a) -> never_throws (W := W) (settle r).
Proof. by intros [a ->]. Qed.

Create HintDb throwing discriminated.
#[export] Hint Resolve never_throws_observe never_throws_no_throw never_throws_finish never_throws_unfinished
  never_throws_may_throw never_throws_settle : throwing.

(** Walk through a coroutine that throws nowhere. *)
Ltac quiet :=
  repeat first
    [ solve [auto with throwing]
    | match goal with
      | |- never_throws (throwing_try _ _) => apply never_throws_try; [|intros ?]
      | |- never_throws (mbind _ _) => apply never_throws_bind; intros ?
      | |- never_throws (if ?b then _ else _) => destruct b
      | |- never_throws (match ?x with _ => _ end) => destruct x
      end ].

(** Every error code has a name of its own, so a name printed in a log line
    identifies the code, and ["Unknown"] is printed for [Unknown] only; the
    user-facing labels separate all codes as well. *)
Theorem error_names_faithful :
  (forall c1 c2, error_code_name c1 = error_code_name c2 -> c1 = c2) /\
  (forall c, error_code_name c = "Unknown" -> c = Unknown) /\
  (forall c1 c2, friendly_error_label c1 = friendly_error_label c2 -> c1 = c2).
Proof.
  split; [|split].
  - intros c1 c2; destruct c1, c2; simpl; congruence.
  - by intros [].
  - intros c1 c2; destruct c1, c2; simpl; congruence.
Qed.
