(* ===== verification/Identifiers.v ===== *)
(** * Strong identifiers: [domain/identifiers.hpp]

    [StrongId<Tag, Underlying>] with a phantom tag, so that a chat identifier and a
    user identifier have different types although both carry a 64-bit integer. *)

From S2P Require Import Prelude.

(** [template <typename Tag, typename Underlying> class StrongId]. *)
Record StrongId (Tag Underlying : Type) := MkId { value : Underlying }.
Arguments MkId {Tag Underlying} value.
Arguments value {Tag Underlying} _.

Inductive ChatIdTag := .
Inductive UserIdTag := .
Inductive MessageIdTag := .
Inductive GidTag := .
Inductive TaskIdTag := .
Inductive FileIdTag := .
Inductive CallbackQueryIdTag := .

Definition ChatId := StrongId ChatIdTag Z.
Definition UserId := StrongId UserIdTag Z.
Definition MessageId := StrongId MessageIdTag Z.
Definition Gid := StrongId GidTag string.
Definition TaskId := StrongId TaskIdTag string.
Definition FileId := StrongId FileIdTag Z.
Definition CallbackQueryId := StrongId CallbackQueryIdTag Z.

#[global] Instance StrongId_eq_dec {Tag U} `{EqDecision U} : EqDecision (StrongId Tag U).
Proof. intros [x] [y]. destruct (decide (x = y)); [left|right]; congruence. Defined.

#[global] Instance ChatId_eq_dec : EqDecision ChatId := StrongId_eq_dec.
#[global] Instance UserId_eq_dec : EqDecision UserId := StrongId_eq_dec.
#[global] Instance MessageId_eq_dec : EqDecision MessageId := StrongId_eq_dec.
#[global] Instance Gid_eq_dec : EqDecision Gid := StrongId_eq_dec.
#[global] Instance TaskId_eq_dec : EqDecision TaskId := StrongId_eq_dec.
#[global] Instance CallbackQueryId_eq_dec : EqDecision CallbackQueryId := StrongId_eq_dec.

(** [std::hash<StrongId>] lets every identifier key a map: here, [Countable]. *)
#[global] Program Instance StrongId_countable {Tag U} `{Countable U} : Countable (StrongId Tag U) :=
  {| encode x := encode (value x); decode p := MkId <$> decode p |}.
Next Obligation. intros Tag U ? ? [x]. simpl. by rewrite decode_encode. Qed.

#[global] Instance TaskId_countable : Countable TaskId := StrongId_countable.
#[global] Instance UserId_countable : Countable UserId := StrongId_countable.
#[global] Instance ChatId_countable : Countable ChatId := StrongId_countable.
