(* ===== verification/ByteSize.v ===== *)
(** * Byte counts: [domain/byte_size.hpp]

    A non-negative 64-bit count with saturating arithmetic.  Every value is an
    [int64_t]; the C++ expressions are written out with their truncating division
    and their casts, and the theorems show that no intermediate result leaves the
    64-bit range. *)

From S2P Require Import Prelude CoreError.

(** [class ByteSize]. *)
Record ByteSize := MkByteSize { bytes : Z }.

#[global] Instance ByteSize_eq_dec : EqDecision ByteSize.
Proof. intros [x] [y]. destruct (decide (x = y)); [left|right]; congruence. Defined.

Definition KIB : Z := 1024.
Definition MIB : Z := 1024 * 1024.
Definition GIB : Z := 1024 * 1024 * 1024.
Definition TIB : Z := 1024 * 1024 * 1024 * 1024.
Definition TELEGRAM_SPLIT_MAX : Z := 2000000000.

(** [ByteSize::from_unchecked]. *)
Definition from_unchecked (b : Z) : ByteSize := MkByteSize b.

(** [ByteSize::make]. *)
Definition make (b : Z) : Result ByteSize :=
  if b <? 0 then error InvalidArgument "ByteSize must be non-negative"
  else Ok (MkByteSize b).

(** [operator+]: clamps at the largest [int64_t]. *)
Definition bs_add (x y : ByteSize) : ByteSize :=
  if bytes y >? INT64_MAX - bytes x then MkByteSize INT64_MAX
  else MkByteSize (bytes x + bytes y).

(** [operator*] by a factor of any integral type: the factor is compared with zero
    in its own type, then cast to [int64_t]. *)
Definition bs_mul (x : ByteSize) (factor : Z) : ByteSize :=
  if (factor <=? 0) || (bytes x =? 0) then MkByteSize 0
  else
    let f64 := to_int64 factor in
    if bytes x >? Z.quot INT64_MAX f64 then MkByteSize INT64_MAX
    else MkByteSize (bytes x * f64).

(** The literals [_b], [_KiB], [_MiB], [_GiB], [_TiB]. *)
Definition literal_b (v : Z) : ByteSize := from_unchecked (to_int64 v).
Definition literal_KiB (v : Z) : ByteSize := from_unchecked (to_int64 v * KIB).
Definition literal_MiB (v : Z) : ByteSize := from_unchecked (to_int64 v * MIB).
Definition literal_GiB (v : Z) : ByteSize := from_unchecked (to_int64 v * GIB).
Definition literal_TiB (v : Z) : ByteSize := from_unchecked (to_int64 v * TIB).

(** The class invariant: a non-negative [int64_t]. *)
Definition bs_valid (x : ByteSize) : Prop := 0 <= bytes x <= INT64_MAX.

(** What saturating arithmetic means: the exact result, capped. *)
Definition saturate (z : Z) : ByteSize := MkByteSize (Z.min INT64_MAX z).

(** ** Lemmas *)

Lemma INT64_MAX_pos : 0 < INT64_MAX.
Proof. unfold INT64_MAX. lia. Qed.

Lemma to_int64_id z : in_int64 z -> to_int64 z = z.
Proof.
  unfold in_int64, INT64_MIN, INT64_MAX, to_int64. intros H.
  rewrite Z.mod_small; lia.
Qed.

Lemma to_int64_high z : INT64_MAX < z < 2 ^ 64 -> to_int64 z = z - 2 ^ 64.
Proof.
  unfold INT64_MAX, to_int64. intros H.
  rewrite <-(Z_mod_plus_full _ (-1)), Z.mod_small; lia.
Qed.

Lemma bs_add_saturates x y :
  bs_valid x -> bs_valid y -> bs_add x y = saturate (bytes x + bytes y).
Proof.
  unfold bs_valid, bs_add, saturate. intros Hx Hy.
  destruct (Z.gtb_spec (bytes y) (INT64_MAX - bytes x)); f_equal; lia.
Qed.

Lemma bs_mul_saturates x factor :
  bs_valid x -> INT64_MIN <= factor < 2 ^ 64 ->
  bs_mul x factor = saturate (bytes x * Z.max 0 factor).
Proof.
  unfold bs_valid, bs_mul, saturate. intros Hx Hf. pose proof INT64_MAX_pos.
  destruct (Z.leb_spec factor 0); simpl; [f_equal; lia|].
  destruct (Z.eqb_spec (bytes x) 0); [f_equal; lia|].
  destruct (Z_le_gt_dec factor INT64_MAX) as [Hle|Hgt].
  - rewrite to_int64_id by (unfold in_int64, INT64_MIN in *; lia).
    rewrite Z.quot_div_nonneg by lia.
    destruct (Z.gtb_spec (bytes x) (INT64_MAX / factor)) as [Hs|Hs]; f_equal.
    + pose proof (Z.mul_succ_div_gt INT64_MAX factor ltac:(lia)). nia.
    + pose proof (Z.mul_div_le INT64_MAX factor ltac:(lia)). nia.
  - rewrite to_int64_high by lia.
    assert (Z.quot INT64_MAX (factor - 2 ^ 64) <= 0).
    { replace (factor - 2 ^ 64) with (- (2 ^ 64 - factor)) by lia.
      rewrite Z.quot_opp_r by lia. pose proof (Z.quot_pos INT64_MAX (2 ^ 64 - factor)). lia. }
    destruct (Z.gtb_spec (bytes x) (Z.quot INT64_MAX (factor - 2 ^ 64))); [|lia].
    f_equal. nia.
Qed.

Lemma saturate_valid z : 0 <= z -> bs_valid (saturate z).
Proof. pose proof INT64_MAX_pos. unfold bs_valid, saturate. simpl. lia. Qed.

Lemma bs_add_valid x y : bs_valid x -> bs_valid y -> bs_valid (bs_add x y).
Proof. intros Hx Hy. rewrite bs_add_saturates by done. apply saturate_valid. unfold bs_valid in *. lia. Qed.

(** On valid byte counts the two operators are the mathematical sum and product
    capped at the 64-bit maximum, for a factor of any signed or unsigned integral
    type (a negative factor gives zero), they keep the class invariant, and [make]
    accepts exactly the non-negative counts. *)
Theorem bytesize_saturating_arithmetic x y factor b :
  bs_valid x -> bs_valid y -> INT64_MIN <= factor < 2 ^ 64 -> in_int64 b ->
  bytes (bs_add x y) = Z.min INT64_MAX (bytes x + bytes y) /\
  bytes (bs_mul x factor) = Z.min INT64_MAX (bytes x * Z.max 0 factor) /\
  bs_valid (bs_add x y) /\ bs_valid (bs_mul x factor) /\
  (has_value (make b) = true <-> 0 <= b) /\
  (forall s, make b = Ok s -> bs_valid s /\ bytes s = b).
Proof.
  intros Hx Hy Hf Hb.
  rewrite bs_add_saturates, bs_mul_saturates by done.
  split_and!; [done|done|apply saturate_valid..| |].
  - unfold bs_valid in *. lia.
  - unfold bs_valid in *. nia.
  - unfold make. destruct (Z.ltb_spec b 0); simpl; split; (done || lia).
  - unfold make. intros s. destruct (Z.ltb_spec b 0); [done|].
    intros [= <-]. unfold bs_valid, in_int64 in *. simpl. lia.
Qed.

Lemma bytesize_saturating_arithmetic_witness :
  bytes (bs_add (MkByteSize INT64_MAX) (literal_KiB 1)) = INT64_MAX /\
  bytes (bs_mul (literal_GiB 8) (2 ^ 63)) = INT64_MAX.
Proof.
  destruct (bytesize_saturating_arithmetic (MkByteSize INT64_MAX) (literal_KiB 1) 3 7)
    as [-> _]; [by vm_compute..|].
  destruct (bytesize_saturating_arithmetic (literal_GiB 8) (literal_b 0) (2 ^ 63) 7)
    as (_ & -> & _); [by vm_compute..|].
  by vm_compute.
Defined.

(** Saturating addition is commutative and associative with zero as unit, so
    totals do not depend on the order in which parts are added. *)
Theorem bytesize_add_monoid x y z :
  bs_valid x -> bs_valid y -> bs_valid z ->
  bs_add x y = bs_add y x /\
  bs_add (bs_add x y) z = bs_add x (bs_add y z) /\
  bs_add x (MkByteSize 0) = x.
Proof.
  intros Hx Hy Hz. assert (bs_valid (MkByteSize 0)) by (split; simpl; pose proof INT64_MAX_pos; lia).
  rewrite (bs_add_saturates (bs_add x y) z), (bs_add_saturates x (bs_add y z)) by eauto using bs_add_valid.
  rewrite !bs_add_saturates by done. unfold saturate, bs_valid in *. simpl in *.
  split_and!; [f_equal; lia..|]. destruct x. simpl in *. f_equal. lia.
Qed.

Lemma bytesize_add_monoid_witness :
  bs_add (bs_add (literal_TiB 2) (literal_GiB 3)) (literal_b 5) =
  bs_add (literal_TiB 2) (bs_add (literal_GiB 3) (literal_b 5)).
Proof.
  apply (bytesize_add_monoid (literal_TiB 2) (literal_GiB 3) (literal_b 5)); by vm_compute.
Defined.
