(* ===== verification/Authority.v ===== *)
(** * Permissions: [domain/authority.hpp], [domain/authority.cpp]

    The four-level permission hierarchy and the [Authority] service that grants a
    level to a (user, chat) pair and decides whether it suffices for a command. *)

From S2P Require Import Prelude Identifiers.

(** [enum class Permission]. *)
Inductive Permission := Anyone | User | Admin | Owner.

#[global] Instance Permission_eq_dec : EqDecision Permission.
Proof. solve_decision. Defined.

(** [static_cast<int>(permission)]. *)
Definition permission_level (p : Permission) : Z :=
  match p with Anyone => 0 | User => 1 | Admin => 2 | Owner => 3 end.

(** [to_string(Permission)]. *)
Definition permission_to_string (p : Permission) : string :=
  match p with
  | Anyone => "anyone"
  | User => "user"
  | Admin => "admin"
  | Owner => "owner"
  end.

(** [from_string]. *)
Definition permission_from_string (input : string) : Permission :=
  let lower := str_map tolower input in
  if bool_decide (lower = "owner") then Owner
  else if bool_decide (lower = "admin") || bool_decide (lower = "sudo") then Admin
  else if bool_decide (lower = "user") then User
  else Anyone.

(** [class Authority]. *)
Record Authority := MkAuthority {
  owner_ : UserId;
  sudo_users_ : list UserId;
  authorized_chats_ : list ChatId
}.

(** [Authority::of]. *)
Definition authority_of (a : Authority) (user : UserId) (chat : ChatId) : Permission :=
  if bool_decide (user = owner_ a) then Owner
  else if bool_decide (user ∈ sudo_users_ a) then Admin
  else if bool_decide (chat ∈ authorized_chats_ a) then User
  else Anyone.

(** [Authority::can_run]. *)
Definition can_run (a : Authority) (user : UserId) (chat : ChatId) (required : Permission) : bool :=
  permission_level required <=? permission_level (authority_of a user chat).

(** ** Abstract specification

    The access lists read as a set of grants; a pair may run a command when some
    grant it holds reaches the required level. *)
Inductive granted (a : Authority) (user : UserId) (chat : ChatId) : Permission -> Prop :=
| grant_owner : user = owner_ a -> granted a user chat Owner
| grant_sudo : user ∈ sudo_users_ a -> granted a user chat Admin
| grant_chat : chat ∈ authorized_chats_ a -> granted a user chat User
| grant_anyone : granted a user chat Anyone.

#[export] Hint Constructors granted : cmlb.

Definition permission_le (p q : Permission) : Prop := permission_level p <= permission_level q.

(** ** Lemmas *)

Lemma authority_of_granted a user chat : granted a user chat (authority_of a user chat).
Proof. unfold authority_of. repeat case_bool_decide; auto with cmlb. Qed.

Lemma authority_of_maximal a user chat p :
  granted a user chat p -> permission_le p (authority_of a user chat).
Proof.
  unfold permission_le, authority_of.
  destruct 1; repeat case_bool_decide; simpl; (lia || done).
Qed.

Lemma can_run_granted a user chat required :
  can_run a user chat required = true <->
  exists p, granted a user chat p /\ permission_le required p.
Proof.
  unfold can_run. rewrite Z.leb_le. split.
  - intros H. eauto using authority_of_granted.
  - intros (p & Hp & Hle). apply authority_of_maximal in Hp. unfold permission_le in *. lia.
Qed.

(** [Authority] implements the access lists: [of] returns the strongest grant the
    pair holds, and [can_run] holds exactly when some grant reaches the required
    level; in particular a level that suffices for a command suffices for every
    command that requires less. *)
Theorem authority_refines_grants a user chat :
  (granted a user chat (authority_of a user chat) /\
   forall p, granted a user chat p -> permission_le p (authority_of a user chat)) /\
  (forall required, can_run a user chat required = true <->
     exists p, granted a user chat p /\ permission_le required p) /\
  (forall r1 r2, permission_le r1 r2 -> can_run a user chat r2 = true -> can_run a user chat r1 = true).
Proof.
  split_and!; [apply authority_of_granted|apply authority_of_maximal|apply can_run_granted|].
  intros r1 r2 Hle. unfold can_run. rewrite !Z.leb_le. unfold permission_le in Hle. lia.
Qed.

(** A permission name printed by the program is parsed back to the same level in
    any letter case, and an unknown name never yields more than the lowest level. *)
Theorem permission_name_roundtrip p input :
  (str_map tolower input = permission_to_string p -> permission_from_string input = p) /\
  (permission_from_string input <> Anyone ->
   str_map tolower input ∈ ["owner"; "admin"; "sudo"; "user"]).
Proof.
  unfold permission_from_string. split.
  - intros ->. by destruct p.
  - set_unfold. repeat case_bool_decide; simpl; naive_solver.
Qed.
