(* ===== verification/UploadDestination.v ===== *)
(** * Upload destinations: [domain/upload_destination.hpp] *)

From S2P Require Import Prelude CoreError.

(** [enum class UploadDestination]. *)
Inductive UploadDestination := Telegram | GoogleDrive | Rclone.

#[global] Instance UploadDestination_eq_dec : EqDecision UploadDestination.
Proof. solve_decision. Defined.

(** [to_string(UploadDestination)]. *)
Definition destination_to_string (d : UploadDestination) : string :=
  match d with
  | Telegram => "telegram"
  | GoogleDrive => "gdrive"
  | Rclone => "rclone"
  end.

Definition telegram_aliases : list string := ["telegram"; "tg"; "leech"].
Definition gdrive_aliases : list string := ["gdrive"; "googledrive"; "google_drive"; "drive"].
Definition rclone_aliases : list string := ["rclone"; "mirror"].

(** [parse_upload_destination]. *)
Definition parse_upload_destination (input : string) : Result UploadDestination :=
  let lower := str_map tolower input in
  if bool_decide (lower ∈ telegram_aliases) then Ok Telegram
  else if bool_decide (lower ∈ gdrive_aliases) then Ok GoogleDrive
  else if bool_decide (lower ∈ rclone_aliases) then Ok Rclone
  else error InvalidArgument ("Unknown upload destination: " +:+ input).

(** The documented aliases of a destination. *)
Definition aliases_of (d : UploadDestination) : list string :=
  match d with
  | Telegram => telegram_aliases
  | GoogleDrive => gdrive_aliases
  | Rclone => rclone_aliases
  end.

Lemma destination_to_string_alias d : destination_to_string d ∈ aliases_of d.
Proof. destruct d; set_solver. Qed.

Lemma aliases_disjoint d1 d2 s : s ∈ aliases_of d1 -> s ∈ aliases_of d2 -> d1 = d2.
Proof. rewrite !list_elem_of_In. destruct d1, d2; simpl; intuition congruence. Qed.

Lemma parse_upload_destination_Ok input d :
  parse_upload_destination input = Ok d <-> str_map tolower input ∈ aliases_of d.
Proof.
  unfold parse_upload_destination. split.
  - repeat case_bool_decide; intros [=]; subst; done.
  - intros H. repeat case_bool_decide.
    + f_equal. by apply (aliases_disjoint Telegram d (str_map tolower input)).
    + f_equal. by apply (aliases_disjoint GoogleDrive d (str_map tolower input)).
    + f_equal. by apply (aliases_disjoint Rclone d (str_map tolower input)).
    + by destruct d.
Qed.

Lemma parse_destination_to_string d : parse_upload_destination (destination_to_string d) = Ok d.
Proof. by destruct d. Qed.

(** The parser accepts exactly the documented aliases, in any letter case, each
    for one destination only; the stored spelling of a destination is read back as
    that destination, and everything else is an [InvalidArgument] that quotes the input. *)
Theorem destination_parse_print input :
  (forall d, parse_upload_destination input = Ok d <-> str_map tolower input ∈ aliases_of d) /\
  (forall d, parse_upload_destination (destination_to_string d) = Ok d) /\
  ((forall d, str_map tolower input ∉ aliases_of d) ->
   parse_upload_destination input =
   error InvalidArgument ("Unknown upload destination: " +:+ input)).
Proof.
  split_and!; [apply parse_upload_destination_Ok|apply parse_destination_to_string|].
  intros H. unfold parse_upload_destination.
  pose proof (H Telegram); pose proof (H GoogleDrive); pose proof (H Rclone).
  by repeat case_bool_decide.
Qed.
