(* ===== verification/Task.v ===== *)
(** * The task aggregate: [domain/task.hpp], [domain/task.cpp]

    The state machine of one download/upload job.  A transition is a function of the
    value the system clock returns when it succeeds ([touch_]) and of the task; it
    returns the [Result<void>] of the C++ member together with the task it leaves. *)

From S2P Require Import Prelude CoreError Identifiers.

(** [enum class TaskState]. *)
Inductive TaskState :=
| Queued | Downloading | Processing | Uploading | Completed | Failed | CancelledState.

(** [enum class TaskKind]. *)
Inductive TaskKind := Mirror | Leech | Clone.

(** [enum class DownloaderKind]. *)
Inductive DownloaderKind := NoDownloader | Aria2 | Qbittorrent.

#[global] Instance TaskState_eq_dec : EqDecision TaskState.
Proof. solve_decision. Defined.
#[global] Instance TaskKind_eq_dec : EqDecision TaskKind.
Proof. solve_decision. Defined.
#[global] Instance DownloaderKind_eq_dec : EqDecision DownloaderKind.
Proof. solve_decision. Defined.

(** [to_string(TaskState)]. *)
Definition task_state_to_string (s : TaskState) : string :=
  match s with
  | Queued => "Queued"
  | Downloading => "Downloading"
  | Processing => "Processing"
  | Uploading => "Uploading"
  | Completed => "Completed"
  | Failed => "Failed"
  | CancelledState => "Cancelled"
  end.

(** [to_string(DownloaderKind)]. *)
Definition downloader_kind_to_string (k : DownloaderKind) : string :=
  match k with
  | NoDownloader => "None"
  | Aria2 => "Aria2"
  | Qbittorrent => "Qbittorrent"
  end.

(** [struct TaskMetadata]; time points are nanoseconds since the epoch. *)
Record TaskMetadata := MkMetadata {
  md_id : TaskId;
  md_user : UserId;
  md_chat : ChatId;
  md_status_message : MessageId;
  md_kind : TaskKind;
  md_source_url : string;
  md_created_at : Z;
  md_updated_at : Z
}.

(** [class Task]. *)
Record Task := MkTask {
  metadata : TaskMetadata;
  state : TaskState;
  error_message : option string;
  downloader_id : option Gid;
  downloader_kind : DownloaderKind
}.

#[global] Instance TaskMetadata_eq_dec : EqDecision TaskMetadata.
Proof. solve_decision. Defined.
#[global] Instance Task_eq_dec : EqDecision Task.
Proof. solve_decision. Defined.

(** [Task::Task]. *)
Definition new_task (md : TaskMetadata) : Task := MkTask md Queued None None NoDownloader.

(** [Task::is_terminal]. *)
Definition is_terminal_state (s : TaskState) : bool :=
  match s with Completed | Failed | CancelledState => true | _ => false end.
Definition is_terminal (t : Task) : bool := is_terminal_state (state t).

(** [invalid_transition]. *)
Definition invalid_transition (from to : TaskState) : Result unit :=
  error InvalidState
    ("Invalid task transition: " +:+ task_state_to_string from +:+ " -> " +:+ task_state_to_string to).

(** [Task::touch_]. *)
Definition touch_metadata (now : Z) (md : TaskMetadata) : TaskMetadata :=
  MkMetadata (md_id md) (md_user md) (md_chat md) (md_status_message md) (md_kind md)
    (md_source_url md) (md_created_at md) now.

(** [state_ = s; touch_();]. *)
Definition enter (s : TaskState) (now : Z) (t : Task) : Task :=
  MkTask (touch_metadata now (metadata t)) s (error_message t) (downloader_id t) (downloader_kind t).

(** [Task::start_download]. *)
Definition start_download (now : Z) (t : Task) : Result unit * Task :=
  if negb (bool_decide (state t = Queued))
  then (invalid_transition (state t) Downloading, t)
  else (Ok (), enter Downloading now t).

(** [Task::begin_processing]. *)
Definition begin_processing (now : Z) (t : Task) : Result unit * Task :=
  if negb (bool_decide (state t = Downloading))
  then (invalid_transition (state t) Processing, t)
  else (Ok (), enter Processing now t).

(** [Task::begin_upload]. *)
Definition begin_upload (now : Z) (t : Task) : Result unit * Task :=
  if negb (bool_decide (state t = Downloading)) && negb (bool_decide (state t = Processing))
  then (invalid_transition (state t) Uploading, t)
  else (Ok (), enter Uploading now t).

(** [Task::mark_completed]. *)
Definition mark_completed (now : Z) (t : Task) : Result unit * Task :=
  if negb (bool_decide (state t = Uploading))
  then (invalid_transition (state t) Completed, t)
  else (Ok (), enter Completed now t).

(** [Task::mark_failed]. *)
Definition mark_failed (reason : string) (now : Z) (t : Task) : Result unit * Task :=
  if is_terminal t
  then (invalid_transition (state t) Failed, t)
  else (Ok (), MkTask (touch_metadata now (metadata t)) Failed (Some reason)
                 (downloader_id t) (downloader_kind t)).

(** [Task::mark_cancelled]. *)
Definition mark_cancelled (now : Z) (t : Task) : Result unit * Task :=
  if is_terminal t
  then (invalid_transition (state t) CancelledState, t)
  else (Ok (), enter CancelledState now t).

(** [Task::attach_downloader]. *)
Definition attach_downloader (id : Gid) (kind : DownloaderKind) (now : Z) (t : Task) : Task :=
  MkTask (touch_metadata now (metadata t)) (state t) (error_message t) (Some id) kind.

(** ** The operations as one alphabet *)

Inductive TaskOp :=
| StartDownload | BeginProcessing | BeginUpload | MarkCompleted
| MarkFailed (reason : string) | MarkCancelled
| AttachDownloader (id : Gid) (kind : DownloaderKind).

Definition apply_op (op : TaskOp) (now : Z) (t : Task) : Result unit * Task :=
  match op with
  | StartDownload => start_download now t
  | BeginProcessing => begin_processing now t
  | BeginUpload => begin_upload now t
  | MarkCompleted => mark_completed now t
  | MarkFailed reason => mark_failed reason now t
  | MarkCancelled => mark_cancelled now t
  | AttachDownloader id kind => (Ok (), attach_downloader id kind now t)
  end.

(** The state a transition aims at; attaching a downloader aims at none. *)
Definition op_target (op : TaskOp) : option TaskState :=
  match op with
  | StartDownload => Some Downloading
  | BeginProcessing => Some Processing
  | BeginUpload => Some Uploading
  | MarkCompleted => Some Completed
  | MarkFailed _ => Some Failed
  | MarkCancelled => Some CancelledState
  | AttachDownloader _ _ => None
  end.

(** ** Abstract specification: the lifecycle graph *)

Inductive edge : TaskState -> TaskState -> Prop :=
| e_start : edge Queued Downloading
| e_process : edge Downloading Processing
| e_upload_direct : edge Downloading Uploading
| e_upload : edge Processing Uploading
| e_complete : edge Uploading Completed
| e_fail s : is_terminal_state s = false -> edge s Failed
| e_cancel s : is_terminal_state s = false -> edge s CancelledState.

#[export] Hint Constructors edge : cmlb.

(** One operation of the program on a task, at some clock reading. *)
Definition task_step (t t' : Task) : Prop :=
  exists op now, t' = (apply_op op now t).2.

Definition reachable_task (md : TaskMetadata) (t : Task) : Prop := rtc task_step (new_task md) t.

(** The order in which a task moves through its life. *)
Definition state_rank (s : TaskState) : nat :=
  match s with
  | Queued => 0 | Downloading => 1 | Processing => 2 | Uploading => 3
  | Completed | Failed | CancelledState => 4
  end%nat.

(** ** Lemmas *)

Lemma task_state_to_string_inj s1 s2 :
  task_state_to_string s1 = task_state_to_string s2 -> s1 = s2.
Proof. by destruct s1, s2. Qed.

Lemma downloader_kind_to_string_inj k1 k2 :
  downloader_kind_to_string k1 = downloader_kind_to_string k2 -> k1 = k2.
Proof. by destruct k1, k2. Qed.

(** Case analysis on the state of a task, with every operation unfolded. *)
Ltac task_cases t :=
  unfold apply_op, start_download, begin_processing, begin_upload, mark_completed, mark_failed,
    mark_cancelled, is_terminal in *;
  destruct t as [?md [] ?em ?did ?dk]; simpl in *.

Lemma op_success_edge op now t t' s :
  op_target op = Some s -> apply_op op now t = (Ok (), t') -> edge (state t) s /\ state t' = s.
Proof.
  destruct op; intros [= <-]; task_cases t; intros [= <-]; simpl; auto with cmlb.
Qed.

Lemma op_edge_success op now t s :
  op_target op = Some s -> edge (state t) s -> (apply_op op now t).1 = Ok ().
Proof.
  destruct op; intros [= <-] He; task_cases t; inversion He; subst; done.
Qed.

Lemma op_failure_unchanged op now t e t' :
  apply_op op now t = (Err e, t') ->
  t' = t /\ exists s, op_target op = Some s /\ Err e = invalid_transition (state t) s.
Proof.
  destruct op; task_cases t; intros [= <- <-]; (split; [done|]); eexists; split; done.
Qed.

Lemma edge_rank s s' : edge s s' -> (state_rank s < state_rank s')%nat.
Proof. destruct 1 as [| | | | |s|s]; try destruct s; simpl in *; (done || lia). Qed.

Lemma terminal_no_edge s s' : is_terminal_state s = true -> ~ edge s s'.
Proof. intros Hs He. inversion He; subst; simpl in *; congruence. Qed.

Lemma apply_op_state op now t :
  state (apply_op op now t).2 = state t \/ edge (state t) (state (apply_op op now t).2).
Proof.
  destruct (op_target op) as [s|] eqn:Hop.
  - destruct (apply_op op now t) as [[[]|e] t'] eqn:E; simpl.
    + right. destruct (op_success_edge _ _ _ _ _ Hop E) as [He ->]. done.
    + left. by destruct (op_failure_unchanged _ _ _ _ _ E) as [-> _].
  - left. by destruct op.
Qed.

Lemma apply_op_terminal op now t :
  is_terminal t = true ->
  state (apply_op op now t).2 = state t /\
  error_message (apply_op op now t).2 = error_message t.
Proof.
  intros Ht. destruct (apply_op op now t) as [[[]|e] t'] eqn:E; simpl.
  - destruct (op_target op) as [s|] eqn:Hop.
    + destruct (op_success_edge _ _ _ _ _ Hop E) as [He _].
      by apply terminal_no_edge in He.
    + destruct op; simplify_eq/=. done.
  - by destruct (op_failure_unchanged _ _ _ _ _ E) as [-> _].
Qed.

(** The fields of the metadata that identify the task. *)
Definition same_identity (a b : TaskMetadata) : Prop :=
  md_id a = md_id b /\ md_user a = md_user b /\ md_chat a = md_chat b /\
  md_status_message a = md_status_message b /\ md_kind a = md_kind b /\
  md_source_url a = md_source_url b /\ md_created_at a = md_created_at b.

#[global] Instance same_identity_equiv : Equivalence same_identity.
Proof. unfold same_identity. split; red; naive_solver congruence. Qed.

Lemma touch_same_identity now md : same_identity (touch_metadata now md) md.
Proof. done. Qed.

#[export] Hint Resolve touch_same_identity : cmlb.

Lemma apply_op_identity op now t : same_identity (metadata (apply_op op now t).2) (metadata t).
Proof. destruct op; task_cases t; auto with cmlb; done. Qed.

(** The aggregate's invariant: an error message is present exactly in [Failed]. *)
Definition task_wf (t : Task) : Prop := is_Some (error_message t) <-> state t = Failed.

Lemma apply_op_wf op now t : task_wf t -> task_wf (apply_op op now t).2.
Proof.
  unfold task_wf. intros Hwf.
  destruct (decide (is_terminal t = true)) as [Ht|Ht].
  { destruct (apply_op_terminal op now t Ht) as [-> ->]. done. }
  assert (error_message t = None) as He.
  { apply eq_None_not_Some. rewrite Hwf. intros H. apply Ht. unfold is_terminal. by rewrite H. }
  destruct op; task_cases t; subst; simpl; try (by destruct Ht);
    split; (done || by intros [? ?] || by exists reason).
Qed.

(** ** Properties *)

(** C5. Each transition implements the lifecycle graph: it succeeds exactly when the
    graph has an edge from the current state to its target, it then ends in that
    target; otherwise it reports [InvalidState] with both state names and leaves the
    task untouched. *)
Theorem task_transitions_refine_graph op now t s :
  op_target op = Some s ->
  ((apply_op op now t).1 = Ok () <-> edge (state t) s) /\
  ((apply_op op now t).1 = Ok () -> state (apply_op op now t).2 = s) /\
  ((apply_op op now t).1 <> Ok () -> apply_op op now t = (invalid_transition (state t) s, t)).
Proof.
  intros Hop. destruct (apply_op op now t) as [[[]|e] t'] eqn:E; simpl.
  - destruct (op_success_edge _ _ _ _ _ Hop E) as [He ->]. done.
  - destruct (op_failure_unchanged _ _ _ _ _ E) as (-> & s' & Hs' & ->). simplify_eq.
    split_and!; [split; [done|]|done|done].
    intros He. pose proof (op_edge_success op now t s Hop He) as H. by rewrite E in H.
Qed.

Lemma task_transitions_refine_graph_witness :
  (apply_op MarkCompleted 5 (new_task (MkMetadata (MkId "t") (MkId 1) (MkId 2) (MkId 3) Mirror "u" 0 0))).1
  = error InvalidState "Invalid task transition: Queued -> Completed".
Proof.
  destruct (task_transitions_refine_graph MarkCompleted 5
    (new_task (MkMetadata (MkId "t") (MkId 1) (MkId 2) (MkId 3) Mirror "u" 0 0)) Completed eq_refl)
    as (_ & _ & H).
  rewrite H; [reflexivity|by vm_compute].
Defined.

(** Every task the program can reach carries an error message exactly when it is
    [Failed], and keeps its identity (id, user, chat, status message, kind, source,
    creation time) for life. *)
Theorem task_reachable_invariant md t :
  reachable_task md t -> task_wf t /\ same_identity (metadata t) md.
Proof.
  unfold reachable_task. revert t. apply rtc_ind_r; [split; [split; [by intros [? ?]|done]|done]|].
  intros u v _ (op & now & ->) [Hwf Hid]. split; [by apply apply_op_wf|].
  etrans; [apply apply_op_identity|done].
Qed.

Lemma task_reachable_invariant_witness :
  let md := MkMetadata (MkId "t") (MkId 1) (MkId 2) (MkId 3) Leech "u" 0 0 in
  let t := (apply_op (MarkFailed "disk full") 9 (apply_op StartDownload 4 (new_task md)).2).2 in
  task_wf t /\ same_identity (metadata t) md.
Proof.
  intros md t. apply (task_reachable_invariant md t).
  eapply rtc_l; [by exists StartDownload, 4|]. apply rtc_once. by exists (MarkFailed "disk full"), 9.
Defined.

(** A task only moves forward: along any run its rank never decreases, a step that
    changes the state raises it, and a terminal task keeps its state and its error
    message for ever; so a task changes state at most four times. *)
Theorem task_lifecycle_monotone t t' :
  rtc task_step t t' ->
  (state_rank (state t) <= state_rank (state t'))%nat /\
  (state t <> state t' -> (state_rank (state t) < state_rank (state t'))%nat) /\
  (is_terminal t = true -> state t' = state t /\ error_message t' = error_message t).
Proof.
  intros Hr. induction Hr as [t|t u v (op & now & ->) Hr IH]; [split_and!; done|].
  destruct IH as (IH1 & IH2 & IH3).
  destruct (apply_op_state op now t) as [Hs|He].
  - rewrite Hs in *. split_and!; [done|done|]. intros Ht.
    destruct (apply_op_terminal op now t Ht) as [_ He].
    destruct IH3 as [-> ->]; [unfold is_terminal; by rewrite Hs|]. done.
  - pose proof (edge_rank _ _ He). split_and!; [lia|lia|].
    intros Ht. by apply terminal_no_edge in He.
Qed.

Lemma task_lifecycle_monotone_witness :
  let t := MkTask (MkMetadata (MkId "t") (MkId 1) (MkId 2) (MkId 3) Leech "u" 0 0)
             Completed None None NoDownloader in
  state (apply_op MarkCancelled 7 t).2 = Completed.
Proof.
  intros t. destruct (task_lifecycle_monotone t (apply_op MarkCancelled 7 t).2) as (_ & _ & H).
  { apply rtc_once. by exists MarkCancelled, 7. }
  by destruct H.
Defined.

(** The binding (id, kind) can be partial: nothing stops a caller from attaching an id
    with [DownloaderKind::None]. *)
Lemma attach_downloader_partial_binding id now t :
  downloader_id (attach_downloader id NoDownloader now t) = Some id /\
  downloader_kind (attach_downloader id NoDownloader now t) = NoDownloader.
Proof. done. Qed.
