(* ===== verification/Formatting.v ===== *)
(** * Display helpers: [core/formatting.hpp], [core/formatting.cpp]

    HTML escaping, UTF-8-safe truncation, durations and byte counts.  These are the
    functions every chat message of the bot passes its data through. *)

From S2P Require Import Prelude CoreError.

(** ** Durations *)

Definition unit_str (n : Z) (u : string) : string := fmt_int n +:+ u.

(** [format_duration], on the count of seconds. *)
Definition format_duration (duration : Z) : string :=
  let total := if duration <? 0 then - duration else duration in
  let days := total / 86400 in
  let total := total mod 86400 in
  let hours := total / 3600 in
  let total := total mod 3600 in
  let minutes := total / 60 in
  let seconds := total mod 60 in
  if days >? 0 then
    unit_str days "d" +:+ " " +:+ unit_str hours "h" +:+ " " +:+ unit_str minutes "m" +:+ " "
      +:+ unit_str seconds "s"
  else if hours >? 0 then
    unit_str hours "h" +:+ " " +:+ unit_str minutes "m" +:+ " " +:+ unit_str seconds "s"
  else if minutes >? 0 then unit_str minutes "m" +:+ " " +:+ unit_str seconds "s"
  else unit_str seconds "s".

(** [format_eta]. *)
Definition format_eta (duration : Z) : string :=
  if duration <=? 0 then "--"
  else
    let total := duration in
    let days := total / 86400 in
    let total := total mod 86400 in
    let hours := total / 3600 in
    let total := total mod 3600 in
    let minutes := total / 60 in
    if days >? 0 then "~" +:+ unit_str days "d" +:+ " " +:+ unit_str hours "h"
    else if hours >? 0 then "~" +:+ unit_str hours "h" +:+ " " +:+ unit_str minutes "m"
    else if minutes >? 0 then "~" +:+ unit_str minutes "m" +:+ " " +:+ unit_str (total mod 60) "s"
    else "~" +:+ unit_str total "s".

(** ** Byte counts *)

(** Nearest integer to [n / d], ties to even: the rounding of IEEE conversions and of
    fixed-precision output. *)
Definition round_half_even (n d : Z) : Z :=
  let q := n / d in
  let r := n mod d in
  match 2 * r ?= d with
  | Lt => q
  | Gt => q + 1
  | Eq => if Z.even q then q else q + 1
  end.

(** Conversion of a non-negative integer value to [double]: 53 significant bits. *)
Definition round_to_double (n : Z) : Z :=
  let e := Z.log2 n - 52 in
  if e <=? 0 then n else round_half_even n (2 ^ e) * 2 ^ e.

Definition binary_labels : list string := ["B"; "KiB"; "MiB"; "GiB"; "TiB"; "PiB"].

(** The [for] loop choosing the largest unit that does not exceed the value:
    candidates [i = 1 .. 5], stopping at the first that is too large. *)
Fixpoint choose_unit (abs_bytes : Z) (candidates : list nat) (idx : nat) : nat :=
  match candidates with
  | [] => idx
  | i :: rest => if abs_bytes >=? 1024 ^ Z.of_nat i then choose_unit abs_bytes rest i else idx
  end.

(** ["{:.2f}"] of a [double] equal to [n / d]. *)
Definition fmt_fixed2 (n d : Z) : string :=
  let centi := round_half_even (100 * n) d in
  fmt_int (centi / 100) +:+ "." +:+ fmt_02 (centi mod 100).

(** [format_binary]: the quotient by a power of two is exact in [long double], and is
    rounded once, to [double]. *)
Definition format_binary (bytes : Z) (suffix : string) : string :=
  let abs_bytes := Z.abs bytes in
  let idx := choose_unit abs_bytes [1; 2; 3; 4; 5]%nat 0%nat in
  let sign := if bytes <? 0 then "-" else "" in
  let label := nth idx binary_labels "" in
  if (idx =? 0)%nat then sign +:+ fmt_int abs_bytes +:+ " " +:+ label +:+ suffix
  else sign +:+ fmt_fixed2 (round_to_double abs_bytes) (1024 ^ Z.of_nat idx) +:+ " " +:+ label +:+ suffix.

(** [format_bytes], [format_rate]. *)
Definition format_bytes (bytes : Z) : string := format_binary bytes "".
Definition format_rate (bytes_per_second : Z) : string :=
  format_binary (Z.max bytes_per_second 0) "/s".

(** ** HTML escaping *)

Definition escape_char (c : ascii) : list ascii :=
  if bool_decide (c = "&"%char) then chars "&amp;"
  else if bool_decide (c = "<"%char) then chars "&lt;"
  else if bool_decide (c = ">"%char) then chars "&gt;"
  else [c].

(** [escape_html]. *)
Definition escape_html (text : string) : string := of_chars (concat (map escape_char (chars text))).

(** ** Truncation *)

(** [(static_cast<unsigned char>(c) & 0xC0u) == 0x80u]. *)
Definition is_continuation (c : ascii) : bool := (N.land (code c) 192 =? 128)%N.

(** The [while] loop that backs up over continuation bytes. *)
Fixpoint back_up (text : list ascii) (cut : nat) : nat :=
  match cut with
  | O => O
  | S c => match text !! cut with
           | Some ch => if is_continuation ch then back_up text c else cut
           | None => cut
           end
  end.

Definition ellipsis : string := "...".

(** [truncate_for_display]. *)
Definition truncate_for_display (text : string) (max_bytes : nat) : string :=
  if (str_size text <=? max_bytes)%nat then text
  else if (max_bytes <=? 3)%nat then substr ellipsis 0 max_bytes
  else
    let cut := back_up (chars text) (max_bytes - 3) in
    substr text 0 cut +:+ ellipsis.

(** ** Reference readers *)

(** Decode the three entities, leaving everything else alone. *)
Fixpoint unescape (l : list ascii) : list ascii :=
  match l with
  | [] => []
  | c :: r =>
      match l with
      | "&" :: "a" :: "m" :: "p" :: ";" :: r' => "&" :: unescape r'
      | "&" :: "l" :: "t" :: ";" :: r' => "<" :: unescape r'
      | "&" :: "g" :: "t" :: ";" :: r' => ">" :: unescape r'
      | _ => c :: unescape r
      end%char
  end.

(** Seconds in a unit letter. *)
Definition unit_seconds (c : ascii) : option Z :=
  match c with
  | "d" => Some 86400 | "h" => Some 3600 | "m" => Some 60 | "s" => Some 1
  | _ => None
  end%char.

(** Read ["2h 3m 45s"]: [v] is the number being read, [sum] the seconds so far. *)
Fixpoint read_duration (v sum : Z) (l : list ascii) : option Z :=
  match l with
  | [] => Some sum
  | c :: r =>
      if isdigit c then read_duration (v * 10 + digit_value c) sum r
      else if isspace c then read_duration 0 sum r
      else match unit_seconds c with
           | Some u => read_duration 0 (sum + v * u) r
           | None => None
           end
  end.

(** Well-formed UTF-8, by the lead byte's length class. *)
Definition continuation_count (c : ascii) : option nat :=
  let n := code c in
  if (n <? 128)%N then Some 0%nat
  else if (192 <=? n)%N && (n <? 224)%N then Some 1%nat
  else if (224 <=? n)%N && (n <? 240)%N then Some 2%nat
  else if (240 <=? n)%N && (n <? 248)%N then Some 3%nat
  else None.

Inductive utf8 : list ascii -> Prop :=
| utf8_nil : utf8 []
| utf8_seq lead conts rest :
    continuation_count lead = Some (length conts) ->
    Forall (fun c => is_continuation c = true) conts ->
    utf8 rest -> utf8 (lead :: conts ++ rest).

(** Text that Telegram's HTML parser reads as plain characters and entities. *)
Inductive html_text : list ascii -> Prop :=
| html_nil : html_text []
| html_plain c l : c ∉ ["&"; "<"; ">"]%char -> html_text l -> html_text (c :: l)
| html_entity e l : e ∈ ["&amp;"; "&lt;"; "&gt;"] -> html_text l -> html_text (chars e ++ l).

(** ** Lemmas: escaping *)

Lemma chars_escape_html s : chars (escape_html s) = concat (map escape_char (chars s)).
Proof. apply chars_of_chars. Qed.

Lemma unescape_plain c l : c <> "&"%char -> unescape (c :: l) = c :: unescape l.
Proof. intros H. destruct c as [[][][][][][][][]]; done. Qed.

Lemma unescape_escape_char c l : unescape (escape_char c ++ l) = c :: unescape l.
Proof.
  unfold escape_char. repeat case_bool_decide; subst; [done..|].
  by apply unescape_plain.
Qed.

Lemma unescape_escape l : unescape (concat (map escape_char l)) = l.
Proof. induction l as [|c l IH]; [done|]. cbn [map concat]. by rewrite unescape_escape_char, IH. Qed.

Lemma html_text_escape_char c l : html_text l -> html_text (escape_char c ++ l).
Proof.
  unfold escape_char. intros Hl.
  repeat case_bool_decide; [apply html_entity; [set_solver|done]..|].
  apply html_plain; [|done]. set_solver.
Qed.

Lemma html_text_escape l : html_text (concat (map escape_char l)).
Proof.
  induction l as [|c l IH]; [constructor|]. cbn [map concat]. by apply html_text_escape_char.
Qed.

Lemma html_text_no_tags l : html_text l -> Forall (fun c => c <> "<"%char /\ c <> ">"%char) l.
Proof.
  induction 1 as [|c l Hc Hl IH|e l He Hl IH]; [done| |].
  - constructor; [set_solver|done].
  - apply Forall_app. split; [|done].
    rewrite list_elem_of_In in He. simpl in He.
    destruct He as [<-|[<-|[<-|[]]]]; repeat constructor; done.
Qed.

(** ** Lemmas: truncation *)

Lemma back_up_le text cut : (back_up text cut <= cut)%nat.
Proof.
  induction cut as [|c IH]; cbn [back_up]; [lia|].
  destruct (text !! S c) as [ch|]; [|lia]. destruct (is_continuation ch); lia.
Qed.

Lemma back_up_boundary text cut ch :
  text !! back_up text cut = Some ch -> back_up text cut <> 0%nat -> is_continuation ch = false.
Proof.
  induction cut as [|c IH]; cbn [back_up]; [done|].
  destruct (text !! S c) as [ch'|] eqn:E; [|congruence].
  destruct (is_continuation ch') eqn:?; [done|]. congruence.
Qed.

Lemma back_up_skips text cut i ch :
  (back_up text cut < i <= cut)%nat -> text !! i = Some ch -> is_continuation ch = true.
Proof.
  induction cut as [|c IH]; cbn [back_up]; [lia|].
  destruct (text !! S c) as [ch'|] eqn:E; [|lia].
  destruct (is_continuation ch') eqn:?; [|lia].
  intros Hi Hch. destruct (decide (i = S c)) as [->|]; [congruence|]. apply IH; [lia|done].
Qed.

Lemma continuation_count_lead c n : continuation_count c = Some n -> is_continuation c = false /\ (n <= 3)%nat.
Proof. destruct c as [[][][][][][][][]]; vm_compute; intros [= <-]; (split; [done|lia]). Qed.

(** A prefix that ends at a character boundary is itself well formed. *)
Lemma utf8_take l cut :
  utf8 l -> (forall ch, l !! cut = Some ch -> is_continuation ch = false) -> utf8 (take cut l).
Proof.
  intros Hl. revert cut. induction Hl as [|lead conts rest Hc Hconts Hrest IH]; intros cut Hb.
  { rewrite take_nil. constructor. }
  destruct cut as [|cut]; [constructor|]. simpl.
  destruct (decide (cut < length conts)%nat) as [Hlt|Hge].
  - destruct (lookup_lt_is_Some_2 conts cut Hlt) as [ch Hch].
    rewrite Forall_lookup in Hconts. specialize (Hconts _ _ Hch).
    specialize (Hb ch). simpl in Hb. rewrite lookup_app_l in Hb by done.
    specialize (Hb Hch). congruence.
  - rewrite take_app_ge by lia. constructor; [done|done|].
    apply IH. intros ch Hch. apply (Hb ch). simpl. rewrite lookup_app_r by lia. done.
Qed.

Lemma utf8_app l1 l2 : utf8 l1 -> utf8 l2 -> utf8 (l1 ++ l2).
Proof.
  induction 1 as [|lead conts rest Hc Hconts Hrest IH]; [done|]. intros H2.
  rewrite <-app_comm_cons, <-app_assoc. constructor; auto.
Qed.

Lemma utf8_dots n : utf8 (take n (chars ellipsis)).
Proof.
  assert (forall l, Forall (fun c => c = "."%char) l -> utf8 l) as H.
  { induction 1 as [|c l -> _ IH]; [constructor|]. by apply (utf8_seq _ []). }
  apply H, Forall_take. by repeat constructor.
Qed.

(** In well-formed text a continuation byte is at most three bytes after its lead. *)
Lemma utf8_continuation_run l i n :
  utf8 l -> (forall j, (i < j <= i + n)%nat -> exists ch, l !! j = Some ch /\ is_continuation ch = true) ->
  (n <= 3)%nat.
Proof.
  intros Hl. revert i. induction Hl as [|lead conts rest Hc Hconts Hrest IH]; intros i H.
  { destruct n; [lia|]. destruct (H (S i) ltac:(lia)) as (ch & Hch & _). done. }
  destruct (continuation_count_lead _ _ Hc) as [Hlead Hlen].
  destruct (decide (i < S (length conts))%nat) as [Hi|Hi].
  - destruct (decide (n <= 3)%nat) as [|Hn]; [done|]. exfalso.
    destruct (H (S (length conts)) ltac:(lia)) as (ch & Hch & Hcont). simpl in Hch.
    rewrite lookup_app_r, Nat.sub_diag in Hch by lia.
    clear IH H. destruct Hrest as [|lead' conts' rest' Hc' _ _]; simplify_eq/=.
    destruct (continuation_count_lead _ _ Hc') as [? _]. congruence.
  - apply (IH (i - S (length conts))%nat). intros j Hj.
    destruct (H (j + S (length conts))%nat ltac:(lia)) as (ch & Hch & Hcont).
    exists ch. split; [|done]. replace (j + S (length conts))%nat with (S (j + length conts)) in Hch by lia.
    simpl in Hch. rewrite lookup_app_r in Hch by lia. rewrite <-Hch. f_equal. lia.
Qed.

Lemma truncate_shape text max_bytes :
  (3 < max_bytes < str_size text)%nat ->
  truncate_for_display text max_bytes =
  of_chars (take (back_up (chars text) (max_bytes - 3)) (chars text)) +:+ ellipsis.
Proof.
  intros H. unfold truncate_for_display.
  destruct (Nat.leb_spec (str_size text) max_bytes); [lia|].
  destruct (Nat.leb_spec max_bytes 3); [lia|]. done.
Qed.

(** ** Lemmas: durations *)

Lemma read_duration_digits v sum l rest :
  Forall (fun c => isdigit c = true) l ->
  read_duration v sum (l ++ rest) = read_duration (dec_value v l) sum rest.
Proof.
  intros Hl. revert v. induction Hl as [|c l Hc Hl IH]; intros v; [done|].
  cbn [app read_duration]. by rewrite Hc, IH.
Qed.

Lemma read_duration_unit n u k sum rest :
  0 <= n -> unit_seconds u = Some k ->
  read_duration 0 sum (chars (unit_str n (of_chars [u])) ++ rest) =
  read_duration 0 (sum + n * k) rest.
Proof.
  intros Hn Hu. unfold unit_str. rewrite chars_app, chars_of_chars, chars_fmt_int, <-app_assoc by done.
  rewrite read_duration_digits, dec_value_fmt_nat by auto using fmt_nat_chars_digits.
  destruct u as [[][][][][][][][]]; simplify_eq/=; done.
Qed.

Lemma read_duration_last n u k sum :
  0 <= n -> unit_seconds u = Some k ->
  read_duration 0 sum (chars (unit_str n (of_chars [u]))) = Some (sum + n * k).
Proof.
  intros Hn Hu. pose proof (read_duration_unit n u k sum [] Hn Hu) as H.
  by rewrite app_nil_r in H.
Qed.

(** Reading a formatted duration, one unit at a time. *)
Ltac read_units :=
  rewrite ?chars_app; simpl (chars " ");
  repeat first
    [ erewrite (read_duration_unit _ "d"%char) by (first [reflexivity|lia])
    | erewrite (read_duration_unit _ "h"%char) by (first [reflexivity|lia])
    | erewrite (read_duration_unit _ "m"%char) by (first [reflexivity|lia])
    | erewrite (read_duration_last _ "h"%char) by (first [reflexivity|lia])
    | erewrite (read_duration_last _ "m"%char) by (first [reflexivity|lia])
    | erewrite (read_duration_last _ "s"%char) by (first [reflexivity|lia])
    | cbn [app read_duration]; change (isdigit " ") with false; change (isspace " ") with true; cbn iota ].

Lemma read_format_duration d : read_duration 0 0 (chars (format_duration d)) = Some (Z.abs d).
Proof.
  unfold format_duration.
  replace (if d <? 0 then - d else d) with (Z.abs d) by (destruct (Z.ltb_spec d 0); lia).
  pose proof (Z.abs_nonneg d). set (t := Z.abs d) in *.
  pose proof (Z.div_mod t 86400). pose proof (Z.mod_pos_bound t 86400).
  pose proof (Z.div_mod (t mod 86400) 3600). pose proof (Z.mod_pos_bound (t mod 86400) 3600).
  pose proof (Z.div_mod (t mod 86400 mod 3600) 60). pose proof (Z.mod_pos_bound (t mod 86400 mod 3600) 60).
  repeat match goal with |- context [?x >? 0] => destruct (Z.gtb_spec x 0) end;
    read_units; f_equal; lia.
Qed.

Lemma truncate_size_le text max_bytes : (str_size (truncate_for_display text max_bytes) <= max_bytes)%nat.
Proof.
  destruct (decide (3 < max_bytes < str_size text)%nat) as [H|H].
  - rewrite truncate_shape by done. autorewrite with strs. rewrite length_take.
    pose proof (back_up_le (chars text) (max_bytes - 3)). change (str_size ellipsis) with 3%nat. lia.
  - unfold truncate_for_display. destruct (Nat.leb_spec (str_size text) max_bytes); [lia|].
    destruct (Nat.leb_spec max_bytes 3); [|lia].
    unfold substr. autorewrite with strs. rewrite length_take. lia.
Qed.

Lemma back_up_utf8 text cut :
  utf8 text -> (cut < length text)%nat -> (cut - 3 <= back_up text cut)%nat.
Proof.
  intros Hu Hcut. pose proof (back_up_le text cut).
  enough (cut - back_up text cut <= 3)%nat by lia.
  apply (utf8_continuation_run text (back_up text cut)); [done|]. intros j Hj.
  destruct (lookup_lt_is_Some_2 text j) as [ch Hch]; [lia|].
  exists ch. split; [done|]. apply (back_up_skips text cut j); [lia|done].
Qed.

Lemma utf8_take_back_up text cut : utf8 text -> utf8 (take (back_up text cut) text).
Proof.
  intros Hu. apply utf8_take; [done|]. intros ch Hch.
  destruct (decide (back_up text cut = 0%nat)) as [Hz|Hz].
  - rewrite Hz in Hch. destruct Hu as [|lead conts rest Hc]; simplify_eq/=.
    by destruct (continuation_count_lead _ _ Hc).
  - by apply (back_up_boundary _ _ _ Hch).
Qed.

(** ** Lemmas: byte counts *)

Lemma round_half_even_error n d : 0 < d -> 2 * Z.abs (round_half_even n d * d - n) <= d.
Proof.
  intros Hd. unfold round_half_even.
  pose proof (Z.div_mod n d). pose proof (Z.mod_pos_bound n d).
  destruct (Z.compare_spec (2 * (n mod d)) d); [destruct (Z.even (n / d))|..]; nia.
Qed.

Lemma round_to_double_exact n : 0 <= n < 2 ^ 53 -> round_to_double n = n.
Proof.
  intros Hn. unfold round_to_double.
  destruct (Z.leb_spec (Z.log2 n - 52) 0); [done|].
  destruct (Z.eq_dec n 0) as [->|]; [simpl in *; lia|].
  pose proof (Z.log2_lt_pow2 n 53). lia.
Qed.

Lemma choose_unit_spec a :
  0 <= a ->
  let idx := choose_unit a [1; 2; 3; 4; 5]%nat 0%nat in
  (idx <= 5)%nat /\ (idx = 0%nat \/ 1024 ^ Z.of_nat idx <= a) /\
  ((idx < 5)%nat -> a < 1024 ^ (Z.of_nat idx + 1)).
Proof.
  intros Ha. cbn [choose_unit].
  repeat match goal with |- context [a >=? ?x] => destruct (Z.geb_spec a x) end;
    simpl in *; lia.
Qed.

(** ** Properties *)

(** Escaped text holds no markup: it is a sequence of plain characters other than
    [&], [<], [>] and of the three entities; and decoding the entities gives back the
    original bytes, so nothing is lost or injected. *)
Theorem escape_html_safe_and_lossless s :
  html_text (chars (escape_html s)) /\
  Forall (fun c => c <> "<"%char /\ c <> ">"%char) (chars (escape_html s)) /\
  unescape (chars (escape_html s)) = chars s.
Proof.
  rewrite chars_escape_html. split_and!.
  - apply html_text_escape.
  - apply html_text_no_tags, html_text_escape.
  - apply unescape_escape.
Qed.

(** Truncation for display: the result never exceeds the byte budget; text that
    fits is returned as it is; longer text becomes a prefix of it followed by an
    ellipsis, which gives up at most six bytes of the budget when the input is
    well-formed UTF-8, and is then well-formed UTF-8 itself: no multibyte sequence is
    ever split. *)
Theorem truncate_utf8_safe text max_bytes :
  (str_size (truncate_for_display text max_bytes) <= max_bytes)%nat /\
  ((str_size text <= max_bytes)%nat -> truncate_for_display text max_bytes = text) /\
  ((3 < max_bytes < str_size text)%nat ->
   exists cut, (cut <= max_bytes - 3)%nat /\
     truncate_for_display text max_bytes = of_chars (take cut (chars text)) +:+ ellipsis /\
     (utf8 (chars text) -> (max_bytes - 6 <= cut)%nat)) /\
  (utf8 (chars text) -> utf8 (chars (truncate_for_display text max_bytes))).
Proof.
  split_and!.
  - apply truncate_size_le.
  - intros H. unfold truncate_for_display. by destruct (Nat.leb_spec (str_size text) max_bytes); [|lia].
  - intros H. exists (back_up (chars text) (max_bytes - 3)). rewrite truncate_shape by done.
    split_and!; [apply back_up_le|done|]. intros Hu.
    pose proof (back_up_utf8 (chars text) (max_bytes - 3) Hu). unfold str_size in H. lia.
  - intros Hu. unfold truncate_for_display.
    destruct (Nat.leb_spec (str_size text) max_bytes); [done|].
    destruct (Nat.leb_spec max_bytes 3).
    + unfold substr. rewrite chars_of_chars. apply utf8_dots.
    + rewrite chars_app. apply utf8_app; [|apply (utf8_dots 3)].
      unfold substr. rewrite chars_of_chars, drop_0. by apply utf8_take_back_up.
Qed.

Lemma truncate_utf8_safe_witness :
  utf8 (chars "ab") /\ utf8 (chars (truncate_for_display "ab" 1)).
Proof.
  assert (utf8 (chars "ab")) as H by (repeat (apply (utf8_seq _ []); [done..|]); constructor).
  split; [exact H|]. by apply (truncate_utf8_safe "ab" 1).
Defined.

(** A formatted duration is exact: reading back its day, hour, minute and second
    fields gives the absolute number of seconds.  An ETA is a lower bound: it is
    marked with a tilde, and what it leaves out is less than its smallest printed
    unit; a non-positive ETA prints as ["--"]. *)
Theorem durations_read_back d :
  read_duration 0 0 (chars (format_duration d)) = Some (Z.abs d) /\
  (d <= 0 -> format_eta d = "--") /\
  (0 < d -> exists s v, format_eta d = "~" +:+ s /\ read_duration 0 0 (chars s) = Some v /\
     v <= d < v + (if 86400 <=? d then 3600 else if 3600 <=? d then 60 else 1)).
Proof.
  split_and!; [apply read_format_duration| |]; unfold format_eta; intros Hd.
  { by destruct (Z.leb_spec d 0); [|lia]. }
  destruct (Z.leb_spec d 0); [lia|].
  pose proof (Z.div_mod d 86400). pose proof (Z.mod_pos_bound d 86400).
  pose proof (Z.div_mod (d mod 86400) 3600). pose proof (Z.mod_pos_bound (d mod 86400) 3600).
  pose proof (Z.div_mod (d mod 86400 mod 3600) 60). pose proof (Z.mod_pos_bound (d mod 86400 mod 3600) 60).
  repeat match goal with |- context [?x >? 0] => destruct (Z.gtb_spec x 0) end;
    eexists _, _; (split; [reflexivity|]);
    (split; [read_units; reflexivity|]);
    destruct (Z.leb_spec 86400 d), (Z.leb_spec 3600 d); lia.
Qed.

Lemma durations_read_back_witness :
  exists s v, format_eta 7265 = "~" +:+ s /\ read_duration 0 0 (chars s) = Some v /\ v <= 7265 < v + 60.
Proof. exact (proj2 (proj2 (durations_read_back 7265)) ltac:(lia)). Defined.

(** A formatted byte count uses the largest unit that does not exceed it (at most
    PiB), and, below 2^53 bytes, its two-decimal mantissa is the nearest one: it is
    off by at most half a hundredth of the unit. *)
Theorem format_bytes_accurate b :
  Z.abs b < 2 ^ 53 ->
  let idx := choose_unit (Z.abs b) [1; 2; 3; 4; 5]%nat 0%nat in
  let scale := 1024 ^ Z.of_nat idx in
  let label := nth idx binary_labels "" in
  let sign := if b <? 0 then "-" else "" in
  (idx <= 5)%nat /\ (idx = 0%nat \/ scale <= Z.abs b) /\ ((idx < 5)%nat -> Z.abs b < 1024 * scale) /\
  (idx = 0%nat -> format_bytes b = sign +:+ fmt_int (Z.abs b) +:+ " B") /\
  (idx <> 0%nat -> exists centi,
     format_bytes b = sign +:+ fmt_int (centi / 100) +:+ "." +:+ fmt_02 (centi mod 100) +:+ " " +:+ label /\
     2 * Z.abs (centi * scale - 100 * Z.abs b) <= scale).
Proof.
  intros Hb idx scale label sign.
  destruct (choose_unit_spec (Z.abs b) ltac:(lia)) as (H5 & Hlo & Hhi). fold idx in H5, Hlo, Hhi.
  assert (0 < scale) as Hs by (apply Z.pow_pos_nonneg; lia).
  split_and!; [done|done| | |].
  - intros Hi. specialize (Hhi Hi). rewrite Z.pow_add_r in Hhi by lia. unfold scale. lia.
  - intros Hi. unfold format_bytes, format_binary. fold idx sign. rewrite Hi. simpl.
    done.
  - intros Hi. exists (round_half_even (100 * Z.abs b) scale).
    split; [|by apply round_half_even_error].
    unfold format_bytes, format_binary. fold idx sign label scale.
    destruct (Nat.eqb_spec idx 0); [done|].
    rewrite round_to_double_exact by lia. unfold fmt_fixed2.
    apply chars_inj. autorewrite with strs. by rewrite <-!app_assoc, app_nil_r.
Qed.

Lemma format_bytes_accurate_witness :
  exists centi, format_bytes 1536 = fmt_int (centi / 100) +:+ "." +:+ fmt_02 (centi mod 100) +:+ " KiB" /\
     2 * Z.abs (centi * 1024 - 100 * 1536) <= 1024.
Proof.
  destruct (format_bytes_accurate 1536 ltac:(lia)) as (_ & _ & _ & _ & H).
  destruct H as (centi & H1 & H2); [by vm_compute|]. exists centi. split; [exact H1|exact H2].
Defined.

Example format_bytes_1536 : format_bytes 1536 = "1.50 KiB".
Proof. reflexivity. Qed.
Example format_duration_7425 : format_duration 7425 = "2h 3m 45s".
Proof. reflexivity. Qed.
