(* ===== verification/TimeCodec.v ===== *)
(** * Timestamps in the database: [infrastructure/persistence/time_codec.hpp]

    [to_iso8601] and [parse_iso8601], with the parts of [<chrono>] they use: the civil
    calendar of [year_month_day] and [sys_days].  A [system_clock::time_point] is a
    number of nanoseconds since 1970-01-01T00:00:00Z. *)

From S2P Require Import Prelude CoreError.

(** ** The proleptic Gregorian calendar of [std::chrono] *)

(** Days since the epoch from a year, month and day ([sys_days{ymd}]). *)
Definition days_from_civil (y m d : Z) : Z :=
  let y := if m <=? 2 then y - 1 else y in
  let era := y / 400 in
  let yoe := y mod 400 in
  let doy := (153 * (if m >? 2 then m - 3 else m + 9) + 2) / 5 + d - 1 in
  let doe := yoe * 365 + yoe / 4 - yoe / 100 + doy in
  era * 146097 + doe - 719468.

(** The year of a day of the 400-year era that starts on 1 March of year 0. *)
Definition yoe_of_doe (doe : Z) : Z := (doe - doe / 1460 + doe / 36524 - doe / 146096) / 365.

(** Month and day of a day of the year that starts on 1 March. *)
Definition month_day_of_doy (doy : Z) : Z * Z :=
  let mp := (5 * doy + 2) / 153 in
  let d := doy - (153 * mp + 2) / 5 + 1 in
  (if mp <? 10 then mp + 3 else mp - 9, d).

(** Year, month, day of a day of the era (years counted from its start). *)
Definition civil_of_doe (doe : Z) : Z * Z * Z :=
  let yoe := yoe_of_doe doe in
  let doy := doe - (365 * yoe + yoe / 4 - yoe / 100) in
  let '(m, d) := month_day_of_doy doy in
  (if m <=? 2 then yoe + 1 else yoe, m, d).

(** [year_month_day{sys_days}]. *)
Definition civil_from_days (z : Z) : Z * Z * Z :=
  let z := z + 719468 in
  let '(y, m, d) := civil_of_doe (z mod 146097) in
  (y + z / 146097 * 400, m, d).

Definition is_leap (y : Z) : bool :=
  (y mod 4 =? 0) && (negb (y mod 100 =? 0) || (y mod 400 =? 0)).

Definition last_day (y m : Z) : Z :=
  if m =? 2 then (if is_leap y then 29 else 28)
  else if (m =? 4) || (m =? 6) || (m =? 9) || (m =? 11) then 30 else 31.

(** [year_month_day::ok], for a year of four digits. *)
Definition ymd_ok (y m d : Z) : bool :=
  (1 <=? m) && (m <=? 12) && (1 <=? d) && (d <=? last_day y m).

(** ** The codec *)

(** [floor<milliseconds>(tp)]. *)
Definition floor_ms (tp : Z) : Z := tp / 1000000.

(** [to_iso8601]: ["{:%Y-%m-%dT%H:%M:%S}Z"] of a millisecond time point. *)
Definition to_iso8601 (tp : Z) : string :=
  let ms := floor_ms tp in
  let '(y, m, d) := civil_from_days (ms / 86400000) in
  let t := ms mod 86400000 in
  fmt_04 y +:+ "-" +:+ fmt_02 m +:+ "-" +:+ fmt_02 d +:+ "T" +:+
  fmt_02 (t / 3600000) +:+ ":" +:+ fmt_02 (t / 60000 mod 60) +:+ ":" +:+
  fmt_02 (t / 1000 mod 60) +:+ "." +:+ fmt_03 (t mod 1000) +:+ "Z".

(** The loop of [take_int]. *)
Fixpoint digits_value (v : Z) (l : list ascii) : option Z :=
  match l with
  | [] => Some v
  | c :: r => if isdigit c then digits_value (v * 10 + digit_value c) r else None
  end.

(** The lambda [take_int]. *)
Definition take_int (s : list ascii) (off len : nat) : option Z :=
  if (length s <? off + len)%nat then None else digits_value 0 (take len (drop off s)).

(** The loop that reads up to three fraction digits. *)
Fixpoint read_frac (digits : nat) (frac : Z) (l : list ascii) : nat * Z :=
  match l with
  | c :: r => if ((digits <? 3)%nat && isdigit c)%bool
              then read_frac (S digits) (frac * 10 + digit_value c) r else (digits, frac)
  | [] => (digits, frac)
  end.

(** The optional [.fff] part, scaled to milliseconds. *)
Definition parse_millis (s : list ascii) : Z :=
  match s !! 19%nat with
  | Some "."%char => let '(digits, frac) := read_frac 0 0 (drop 20 s) in frac * 10 ^ (3 - Z.of_nat digits)
  | _ => 0
  end.

Definition char_at (s : list ascii) (i : nat) (c : ascii) : bool := bool_decide (s !! i = Some c).

(** The six fields, and the separators between them. *)
Definition parse_fields (s : list ascii) : option (Z * Z * Z * Z * Z * Z) :=
  match take_int s 0 4, take_int s 5 2, take_int s 8 2, take_int s 11 2, take_int s 14 2, take_int s 17 2 with
  | Some year, Some mon, Some day, Some hh, Some mm, Some ss =>
      if char_at s 4 "-" && char_at s 7 "-" && char_at s 10 "T" && char_at s 13 ":" && char_at s 16 ":"
      then Some (year, mon, day, hh, mm, ss) else None
  | _, _, _, _, _, _ => None
  end.

(** [parse_iso8601]. *)
Definition parse_iso8601 (text : string) : Result Z :=
  let s := chars text in
  if (length s <? 19)%nat then error Deserialization ("ISO8601 timestamp too short: " +:+ text)
  else match parse_fields s with
  | None => error Deserialization ("Malformed ISO8601 timestamp: " +:+ text)
  | Some (year, mon, day, hh, mm, ss) =>
      if ymd_ok year mon day
      then Ok (((((days_from_civil year mon day * 24 + hh) * 60 + mm) * 60 + ss) * 1000 + parse_millis s) * 1000000)
      else error Deserialization ("Out-of-range Y/M/D in timestamp: " +:+ text)
  end.

(** ** Calendar lemmas

    Facts that do not depend on the era are checked for each of its 400 years and each
    of the 366 days of a year. *)

(** The first day of year [y] of the era. *)
Definition year_start (y : Z) : Z := 365 * y + y / 4 - y / 100 + y / 400.

Definition year_ok (y : Z) : bool :=
  (yoe_of_doe (year_start y) =? y) && (yoe_of_doe (year_start (y + 1) - 1) =? y) &&
  (year_start (y + 1) - year_start y =? (if is_leap (y + 1) then 366 else 365)) &&
  (y / 400 =? 0).

Definition doy_ok (doy : Z) : bool :=
  let '(m, d) := month_day_of_doy doy in
  (1 <=? m) && (m <=? 12) && (1 <=? d) &&
  ((153 * (if m >? 2 then m - 3 else m + 9) + 2) / 5 + d - 1 =? doy) &&
  (d <=? (if doy =? 365 then 29 else last_day 1 m)) &&
  (if doy =? 365 then m =? 2 else true).

Lemma year_ok_spec y : 0 <= y < 400 -> year_ok y = true.
Proof.
  intros H. assert (forall_range year_ok 400 0 = true) as Hall by (vm_compute; reflexivity).
  apply (forall_range_spec _ _ _ Hall). lia.
Qed.

Lemma doy_ok_spec doy : 0 <= doy < 366 -> doy_ok doy = true.
Proof.
  intros H. assert (forall_range doy_ok 366 0 = true) as Hall by (vm_compute; reflexivity).
  apply (forall_range_spec _ _ _ Hall). lia.
Qed.

Lemma yoe_of_doe_mono a b : 0 <= a <= b -> yoe_of_doe a <= yoe_of_doe b.
Proof.
  intros H. unfold yoe_of_doe. apply Z.div_le_mono; [lia|].
  change 146096 with (36524 * 4). rewrite <-!Z.div_div by lia.
  assert (b / 1460 - a / 1460 <= b - a) by (Z.to_euclidean_division_equations; lia).
  pose proof (Z.div_le_mono a b 36524 ltac:(lia) ltac:(lia)).
  set (p := a / 36524) in *. set (q := b / 36524) in *.
  Z.to_euclidean_division_equations; lia.
Qed.

Lemma year_of_day doe n :
  0 <= doe < year_start (Z.of_nat n) -> (n <= 400)%nat ->
  exists y, 0 <= y < 400 /\ year_start y <= doe < year_start (y + 1).
Proof.
  induction n as [|n IH]; intros Hd Hn; [change (year_start (Z.of_nat 0)) with 0 in Hd; lia|].
  destruct (Z_lt_le_dec doe (year_start (Z.of_nat n))) as [|Hge]; [apply IH; lia|].
  exists (Z.of_nat n). split; [lia|]. rewrite Nat2Z.inj_succ in Hd. unfold Z.succ in Hd. lia.
Qed.

Lemma last_day_common y m : m <> 2 -> last_day y m = last_day 1 m.
Proof. intros H. unfold last_day. by destruct (Z.eqb_spec m 2). Qed.

Lemma last_day_february y : 28 <= last_day y 2.
Proof. unfold last_day. simpl. destruct (is_leap y); lia. Qed.

(** What the calendar of one era satisfies. *)
Lemma civil_of_doe_ok doe y m d :
  0 <= doe < 146097 -> civil_of_doe doe = (y, m, d) ->
  ymd_ok y m d = true /\ 0 <= y <= 400 /\ days_from_civil y m d + 719468 = doe /\
  (y = 400 -> m <= 2).
Proof.
  intros Hdoe. destruct (year_of_day doe 400) as (yoe & Hyoe & Hlo & Hhi); [done|lia|].
  pose proof (year_ok_spec yoe Hyoe) as Hy. unfold year_ok in Hy.
  rewrite !andb_true_iff, !Z.eqb_eq in Hy. destruct Hy as (((Hs & He) & Hlen) & H400).
  assert (year_start yoe = 365 * yoe + yoe / 4 - yoe / 100) as Hst by (unfold year_start; lia).
  assert (0 <= year_start yoe) by (rewrite Hst; Z.to_euclidean_division_equations; lia).
  assert (yoe_of_doe doe = yoe) as Hyo.
  { pose proof (yoe_of_doe_mono (year_start yoe) doe). pose proof (yoe_of_doe_mono doe (year_start (yoe + 1) - 1)). lia. }
  unfold civil_of_doe. rewrite Hyo, <-Hst. set (doy := doe - year_start yoe).
  assert (0 <= doy < 366) as Hdoy by (destruct (is_leap (yoe + 1)); lia).
  pose proof (doy_ok_spec doy Hdoy) as Hd. unfold doy_ok in Hd.
  destruct (month_day_of_doy doy) as [m0 d0]. rewrite !andb_true_iff in Hd.
  destruct Hd as (((((Hm1 & Hm2) & Hd1) & Hmd) & Hlast) & Hfeb).
  intros [= <- <- <-]. apply Z.leb_le in Hm1, Hm2, Hd1. apply Z.eqb_eq in Hmd.
  split_and!.
  - unfold ymd_ok. rewrite !andb_true_iff, !Z.leb_le. split_and!; [done..|].
    destruct (Z.eqb_spec doy 365) as [Heq|Hne].
    + apply Z.eqb_eq in Hfeb as ->. simpl. apply Z.leb_le in Hlast. unfold last_day. simpl.
      destruct (is_leap (yoe + 1)) eqn:?; lia.
    + apply Z.leb_le in Hlast. destruct (Z.eq_dec m0 2) as [->|Hm].
      * simpl. change (last_day 1 2) with 28 in Hlast. pose proof (last_day_february (yoe + 1)). lia.
      * rewrite last_day_common by done. lia.
  - destruct (m0 <=? 2); lia.
  - destruct (m0 <=? 2); lia.
  - unfold days_from_civil.
    replace (if m0 <=? 2 then (if m0 <=? 2 then yoe + 1 else yoe) - 1 else if m0 <=? 2 then yoe + 1 else yoe)
      with yoe by (destruct (m0 <=? 2); lia).
    rewrite (Z.mod_small yoe 400), (Z.div_small yoe 400) by lia. unfold doy in Hmd. lia.
  - destruct (Z.leb_spec m0 2); lia.
Qed.

Lemma is_leap_era y k : is_leap (y + k * 400) = is_leap y.
Proof.
  unfold is_leap.
  replace ((y + k * 400) mod 4) with (y mod 4) by (rewrite <-(Z_mod_plus_full y (k * 100) 4); f_equal; lia).
  replace ((y + k * 400) mod 100) with (y mod 100) by (rewrite <-(Z_mod_plus_full y (k * 4) 100); f_equal; lia).
  by rewrite Z_mod_plus_full.
Qed.

Lemma ymd_ok_era y k m d : ymd_ok (y + k * 400) m d = ymd_ok y m d.
Proof. unfold ymd_ok, last_day. by rewrite is_leap_era. Qed.

Lemma days_from_civil_era y k m d : days_from_civil (y + k * 400) m d = days_from_civil y m d + k * 146097.
Proof.
  unfold days_from_civil.
  replace (if m <=? 2 then y + k * 400 - 1 else y + k * 400)
    with ((if m <=? 2 then y - 1 else y) + k * 400) by (destruct (m <=? 2); lia).
  rewrite Z_mod_plus_full, Z.div_add by lia. lia.
Qed.

Lemma civil_from_days_ok z y m d :
  civil_from_days z = (y, m, d) -> ymd_ok y m d = true /\ days_from_civil y m d = z.
Proof.
  unfold civil_from_days.
  pose proof (Z.mod_pos_bound (z + 719468) 146097 ltac:(lia)) as Hb.
  destruct (civil_of_doe ((z + 719468) mod 146097)) as [[y0 m0] d0] eqn:E.
  destruct (civil_of_doe_ok _ _ _ _ Hb E) as (Hok & _ & Hd & _). intros [= <- <- <-].
  rewrite ymd_ok_era, days_from_civil_era. split; [done|].
  pose proof (Z.div_mod (z + 719468) 146097). lia.
Qed.

(** The days of the years 0000 to 9999, from 0000-03-01 on: they cover every 64-bit
    nanosecond time point (1677 to 2262). *)
Lemma civil_from_days_year z y m d :
  civil_from_days z = (y, m, d) -> -719468 <= z <= 2932896 -> 0 <= y <= 9999.
Proof.
  unfold civil_from_days. intros H Hz.
  pose proof (Z.mod_pos_bound (z + 719468) 146097 ltac:(lia)) as Hb.
  destruct (civil_of_doe ((z + 719468) mod 146097)) as [[y0 m0] d0] eqn:E.
  destruct (civil_of_doe_ok _ _ _ _ Hb E) as (Hok & H4 & Hd & Hlast).
  assert (0 <= (z + 719468) / 146097 <= 24) as He.
  { split; [apply Z.div_pos; lia|]. apply Z.lt_succ_r, Z.div_lt_upper_bound; lia. }
  injection H as <- <- <-. split; [lia|].
  destruct (Z.eq_dec ((z + 719468) / 146097) 24) as [Heq|]; [|lia].
  destruct (Z.eq_dec y0 400) as [->|]; [|lia]. exfalso. specialize (Hlast eq_refl).
  pose proof (Z.div_mod (z + 719468) 146097 ltac:(lia)) as Hdm. rewrite Heq in Hdm.
  unfold days_from_civil in Hd. rewrite (proj2 (Z.leb_le m0 2) Hlast) in Hd.
  destruct (Z.gtb_spec m0 2); [lia|].
  change ((400 - 1) / 400) with 0 in Hd. change ((400 - 1) mod 400) with 399 in Hd.
  change (399 / 4) with 99 in Hd. change (399 / 100) with 3 in Hd.
  unfold ymd_ok in Hok. rewrite !andb_true_iff, !Z.leb_le in Hok.
  assert ((153 * (m0 + 9) + 2) / 5 >= 306) by (apply Z.le_ge, Z.div_le_lower_bound; lia). lia.
Qed.

(** ** Lemmas: printing and parsing *)

Lemma digits_value_2 z : 0 <= z < 100 -> digits_value 0 (chars (fmt_02 z)) = Some z.
Proof.
  intros Hz. unfold fmt_02. rewrite chars_of_chars. cbn [digits_value].
  rewrite !isdigit_digit_char, !digit_value_char by (Z.to_euclidean_division_equations; lia).
  f_equal. Z.to_euclidean_division_equations; lia.
Qed.

Lemma digits_value_4 z : 0 <= z < 10000 -> digits_value 0 (chars (fmt_04 z)) = Some z.
Proof.
  intros Hz. unfold fmt_04. rewrite chars_of_chars. cbn [digits_value].
  rewrite !isdigit_digit_char, !digit_value_char by (Z.to_euclidean_division_equations; lia).
  f_equal. Z.to_euclidean_division_equations; lia.
Qed.

Lemma read_frac_3 z rest :
  0 <= z < 1000 -> read_frac 0 0 (chars (fmt_03 z) ++ rest) = (3%nat, z).
Proof.
  intros Hz. unfold fmt_03. rewrite chars_of_chars. cbn [app read_frac].
  rewrite !isdigit_digit_char, !digit_value_char by (Z.to_euclidean_division_equations; lia).
  cbn [Nat.ltb Nat.leb andb].
  match goal with |- read_frac 3 ?v rest = _ => assert (v = z) as -> by (Z.to_euclidean_division_equations; lia) end.
  by destruct rest.
Qed.

(** A timestamp assembled from its printed fields parses to those fields. *)
Definition iso_string (y m d hh mm ss ms : Z) : string :=
  fmt_04 y +:+ "-" +:+ fmt_02 m +:+ "-" +:+ fmt_02 d +:+ "T" +:+
  fmt_02 hh +:+ ":" +:+ fmt_02 mm +:+ ":" +:+ fmt_02 ss +:+ "." +:+ fmt_03 ms +:+ "Z".

Lemma parse_iso_string y m d hh mm ss ms :
  0 <= y < 10000 -> ymd_ok y m d = true -> 0 <= hh < 100 -> 0 <= mm < 100 -> 0 <= ss < 100 ->
  0 <= ms < 1000 ->
  parse_iso8601 (iso_string y m d hh mm ss ms) =
  Ok (((((days_from_civil y m d * 24 + hh) * 60 + mm) * 60 + ss) * 1000 + ms) * 1000000).
Proof.
  intros Hy Hok Hh Hm Hs Hms.
  assert (0 <= m < 100 /\ 0 <= d < 100) as [Hmo Hd].
  { unfold ymd_ok, last_day in Hok. rewrite !andb_true_iff, !Z.leb_le in Hok.
    destruct (m =? 2), (is_leap y), ((m =? 4) || (m =? 6) || (m =? 9) || (m =? 11)); lia. }
  unfold parse_iso8601.
  assert (parse_fields (chars (iso_string y m d hh mm ss ms)) = Some (y, m, d, hh, mm, ss)) as ->.
  { change (parse_fields (chars (iso_string y m d hh mm ss ms))) with
      (match digits_value 0 (chars (fmt_04 y)), digits_value 0 (chars (fmt_02 m)),
             digits_value 0 (chars (fmt_02 d)), digits_value 0 (chars (fmt_02 hh)),
             digits_value 0 (chars (fmt_02 mm)), digits_value 0 (chars (fmt_02 ss)) with
       | Some y, Some m, Some d, Some hh, Some mm, Some ss => Some (y, m, d, hh, mm, ss)
       | _, _, _, _, _, _ => None
       end).
    by rewrite digits_value_4, !digits_value_2 by done. }
  change (length (chars (iso_string y m d hh mm ss ms)) <? 19)%nat with false. cbn iota.
  rewrite Hok.
  assert (parse_millis (chars (iso_string y m d hh mm ss ms)) = ms) as ->; [|done].
  change (parse_millis (chars (iso_string y m d hh mm ss ms))) with
    (let '(digits, frac) := read_frac 0 0 (chars (fmt_03 ms) ++ ["Z"%char]) in frac * 10 ^ (3 - Z.of_nat digits)).
  rewrite read_frac_3 by done. simpl. lia.
Qed.

(** The fields of a time point, and what they stand for. *)
Lemma to_iso8601_fields tp :
  -62162035200000000000 <= tp < 253402300800000000000 ->
  exists y m d hh mm ss ms,
    to_iso8601 tp = iso_string y m d hh mm ss ms /\
    0 <= y < 10000 /\ ymd_ok y m d = true /\ 0 <= hh < 24 /\ 0 <= mm < 60 /\ 0 <= ss < 60 /\
    0 <= ms < 1000 /\
    (((days_from_civil y m d * 24 + hh) * 60 + mm) * 60 + ss) * 1000 + ms = floor_ms tp.
Proof.
  intros Hr. unfold to_iso8601.
  destruct (civil_from_days (floor_ms tp / 86400000)) as [[y m] d] eqn:E.
  destruct (civil_from_days_ok _ _ _ _ E) as [Hok Hd].
  assert (-62162035200000 <= floor_ms tp < 253402300800000) as Hf
    by (unfold floor_ms; Z.to_euclidean_division_equations; lia).
  pose proof (civil_from_days_year _ _ _ _ E) as Hy.
  set (t := floor_ms tp mod 86400000).
  assert (0 <= t < 86400000) as Ht by (apply Z.mod_pos_bound; lia).
  exists y, m, d, (t / 3600000), (t / 60000 mod 60), (t / 1000 mod 60), (t mod 1000).
  split; [done|]. split; [enough (0 <= y <= 9999) by lia; apply Hy; Z.to_euclidean_division_equations; lia|].
  split; [done|]. rewrite Hd. pose proof (Z.div_mod (floor_ms tp) 86400000 ltac:(lia)) as Hdm. fold t in Hdm.
  split_and!; clear - Ht Hdm; Z.to_euclidean_division_equations; lia.
Qed.

(** ** Lemmas: the calendar is monotone *)

(** Days before year [y] (years starting on 1 March). *)
Lemma days_from_civil_linear y m d :
  days_from_civil y m d =
  let y' := if m <=? 2 then y - 1 else y in
  365 * y' + y' / 4 - y' / 100 + y' / 400 +
  ((153 * (if m >? 2 then m - 3 else m + 9) + 2) / 5 + d - 1) - 719468.
Proof.
  unfold days_from_civil. cbv zeta. set (y' := if m <=? 2 then y - 1 else y).
  assert (y' / 400 * 146097 + (y' mod 400 * 365 + y' mod 400 / 4 - y' mod 400 / 100) =
          365 * y' + y' / 4 - y' / 100 + y' / 400); [|lia].
  clearbody y'. Z.to_euclidean_division_equations; lia.
Qed.

Lemma leap_year_length y :
  (365 * y + y / 4 - y / 100 + y / 400) -
  (365 * (y - 1) + (y - 1) / 4 - (y - 1) / 100 + (y - 1) / 400) = if is_leap y then 366 else 365.
Proof.
  unfold is_leap. destruct (Z.eqb_spec (y mod 4) 0), (Z.eqb_spec (y mod 100) 0), (Z.eqb_spec (y mod 400) 0);
    simpl; Z.to_euclidean_division_equations; lia.
Qed.

(** The first day of the [k]-th month, months counted from January of year 0. *)
Definition month_start (k : Z) : Z := days_from_civil (k / 12) (k mod 12 + 1) 1.

(** Evaluate the tests and quotients on a concrete month. *)
Ltac eval_month y :=
  repeat match goal with
  | |- context [if ?c then _ else _] =>
      lazymatch c with is_leap _ => fail | _ => idtac end; let v := eval vm_compute in c in change c with v; cbn iota
  end;
  repeat match goal with
  | |- context [(153 * ?a + 2) / 5] =>
      let v := eval vm_compute in ((153 * a + 2) / 5) in change ((153 * a + 2) / 5) with v
  end.

Lemma month_start_succ k : month_start (k + 1) = month_start k + last_day (k / 12) (k mod 12 + 1).
Proof.
  unfold month_start.
  assert ((k + 1) / 12 = (if k mod 12 =? 11 then k / 12 + 1 else k / 12) /\
          (k + 1) mod 12 = (if k mod 12 =? 11 then 0 else k mod 12 + 1)) as [-> ->]
    by (destruct (Z.eqb_spec (k mod 12) 11); Z.to_euclidean_division_equations; lia).
  pose proof (Z.mod_pos_bound k 12 ltac:(lia)) as Hm.
  set (y := k / 12). generalize dependent (k mod 12). intros m Hm.
  pose proof (leap_year_length y). unfold last_day. rewrite !days_from_civil_linear. cbv zeta.
  assert (m = 0 \/ m = 1 \/ m = 2 \/ m = 3 \/ m = 4 \/ m = 5 \/ m = 6 \/ m = 7 \/ m = 8 \/ m = 9 \/
          m = 10 \/ m = 11) as Hcases by lia.
  destruct Hcases as [->|[->|[->|[->|[->|[->|[->|[->|[->|[->|[->| ->]]]]]]]]]]]; eval_month y;
    rewrite ?Z.add_simpl_r; first [lia | destruct (is_leap y); lia].
Qed.

Lemma last_day_pos y m : 28 <= last_day y m.
Proof. unfold last_day. destruct (m =? 2), (is_leap y), ((m =? 4) || (m =? 6) || (m =? 9) || (m =? 11)); lia. Qed.

Lemma month_start_mono k n : month_start k + 28 * Z.of_nat n <= month_start (k + Z.of_nat n).
Proof.
  induction n as [|n IH]; [change (Z.of_nat 0) with 0; replace (k + 0) with k by lia; lia|].
  rewrite Nat2Z.inj_succ, <-Z.add_1_r, Z.add_assoc, month_start_succ.
  pose proof (last_day_pos ((k + Z.of_nat n) / 12) ((k + Z.of_nat n) mod 12 + 1)). lia.
Qed.

Lemma month_index y m : 1 <= m <= 12 -> (12 * y + (m - 1)) / 12 = y /\ (12 * y + (m - 1)) mod 12 + 1 = m.
Proof.
  intros Hm. rewrite (Z.mul_comm 12 y), Z.add_comm, Z.div_add, Z_mod_plus_full by lia.
  rewrite Z.div_small, Z.mod_small by lia. lia.
Qed.

Lemma month_start_of y m d :
  1 <= m <= 12 -> days_from_civil y m d = month_start (12 * y + (m - 1)) + d - 1.
Proof.
  intros Hm. unfold month_start.
  destruct (month_index y m Hm) as [-> ->].
  rewrite !days_from_civil_linear. cbv zeta. lia.
Qed.

Lemma ymd_ok_range y m d : ymd_ok y m d = true -> 1 <= m <= 12 /\ 1 <= d <= last_day y m.
Proof. unfold ymd_ok. rewrite !andb_true_iff, !Z.leb_le. lia. Qed.

(** A later month of a valid date is a later day. *)
Lemma days_from_civil_mono y m d y' m' d' :
  ymd_ok y m d = true -> ymd_ok y' m' d' = true ->
  y < y' \/ (y = y' /\ m < m') -> days_from_civil y m d < days_from_civil y' m' d'.
Proof.
  intros [Hm Hd]%ymd_ok_range [Hm' Hd']%ymd_ok_range Hlt.
  rewrite (month_start_of y), (month_start_of y') by lia.
  pose proof (month_start_succ (12 * y + (m - 1))) as Hs.
  destruct (month_index y m Hm) as [Hq Hr]. rewrite Hq, Hr in Hs.
  pose proof (month_start_mono (12 * y + (m - 1) + 1) (Z.to_nat (12 * y' + (m' - 1) - (12 * y + (m - 1) + 1)))) as Hk.
  rewrite Z2Nat.id in Hk by lia.
  replace (12 * y + (m - 1) + 1 + (12 * y' + (m' - 1) - (12 * y + (m - 1) + 1)))
    with (12 * y' + (m' - 1)) in Hk by lia. lia.
Qed.

(** ** Lemmas: the byte order of fixed-width fields *)

Fixpoint fixed_width (k : nat) (z : Z) : list ascii :=
  match k with
  | O => []
  | S k' => fixed_width k' (z / 10) ++ [digit_char (z mod 10)]
  end.

Lemma fixed_width_length k z : length (fixed_width k z) = k.
Proof. revert z. induction k as [|k IH]; intros z; simpl; [done|]. rewrite length_app, IH. simpl. lia. Qed.

Lemma bytes_ltb_digit a b :
  0 <= a <= 9 -> 0 <= b <= 9 -> bytes_ltb [digit_char a] [digit_char b] = (a <? b).
Proof.
  intros Ha Hb. pose proof (code_digit_char a Ha). pose proof (code_digit_char b Hb). simpl.
  rewrite andb_false_r, orb_false_r.
  destruct (N.ltb_spec (code (digit_char a)) (code (digit_char b))), (Z.ltb_spec a b); lia.
Qed.

Lemma fixed_width_inj k a b :
  0 <= a < 10 ^ Z.of_nat k -> 0 <= b < 10 ^ Z.of_nat k -> fixed_width k a = fixed_width k b -> a = b.
Proof.
  revert a b. induction k as [|k IH]; intros a b; [simpl; lia|].
  rewrite Nat2Z.inj_succ, Z.pow_succ_r by lia. intros Ha Hb. cbn [fixed_width].
  intros [Hq Hr]%app_inj_2; [|done]. injection Hr as Hr.
  apply IH in Hq; [|split; [apply Z.div_pos; lia|apply Z.div_lt_upper_bound; lia]..].
  apply (f_equal digit_value) in Hr.
  rewrite !digit_value_char in Hr by (Z.to_euclidean_division_equations; lia).
  pose proof (Z.div_mod a 10). pose proof (Z.div_mod b 10). lia.
Qed.

Lemma fixed_width_order k a b :
  0 <= a < 10 ^ Z.of_nat k -> 0 <= b < 10 ^ Z.of_nat k ->
  bytes_ltb (fixed_width k a) (fixed_width k b) = (a <? b).
Proof.
  revert a b. induction k as [|k IH]; intros a b.
  { simpl. intros. symmetry. apply Z.ltb_ge. lia. }
  rewrite Nat2Z.inj_succ, Z.pow_succ_r by lia. intros Ha Hb. cbn [fixed_width].
  assert (0 <= a / 10 < 10 ^ Z.of_nat k) as Ha' by (split; [apply Z.div_pos; lia|apply Z.div_lt_upper_bound; lia]).
  assert (0 <= b / 10 < 10 ^ Z.of_nat k) as Hb' by (split; [apply Z.div_pos; lia|apply Z.div_lt_upper_bound; lia]).
  rewrite bytes_ltb_app by (by rewrite !fixed_width_length).
  rewrite IH, bytes_ltb_digit by (first [done | Z.to_euclidean_division_equations; lia]).
  replace (bool_decide (fixed_width k (a / 10) = fixed_width k (b / 10))) with (a / 10 =? b / 10).
  - pose proof (Z.div_mod a 10 ltac:(lia)). pose proof (Z.div_mod b 10 ltac:(lia)).
    pose proof (Z.mod_pos_bound a 10 ltac:(lia)). pose proof (Z.mod_pos_bound b 10 ltac:(lia)).
    destruct (Z.ltb_spec (a / 10) (b / 10)), (Z.eqb_spec (a / 10) (b / 10)),
      (Z.ltb_spec (a mod 10) (b mod 10)), (Z.ltb_spec a b); simpl; lia.
  - symmetry. destruct (Z.eqb_spec (a / 10) (b / 10)) as [->|Hne]; [by apply bool_decide_true|].
    apply bool_decide_false. intros E. by apply fixed_width_inj in E.
Qed.

(** [f] prints [0 .. n-1] with a fixed width, in order. *)
Class OrderedField (f : Z -> string) (n : Z) : Prop := {
  field_length a b : 0 <= a < n -> 0 <= b < n -> length (chars (f a)) = length (chars (f b));
  field_order a b : 0 <= a < n -> 0 <= b < n -> bytes_ltb (chars (f a)) (chars (f b)) = (a <? b);
  field_inj a b : 0 <= a < n -> 0 <= b < n -> chars (f a) = chars (f b) -> a = b
}.

Lemma ordered_field_fixed f k :
  (forall z, 0 <= z < 10 ^ Z.of_nat k -> chars (f z) = fixed_width k z) -> OrderedField f (10 ^ Z.of_nat k).
Proof.
  intros H. split; intros a b Ha Hb; rewrite !H by done.
  - by rewrite !fixed_width_length.
  - by apply fixed_width_order.
  - by apply fixed_width_inj.
Qed.

Ltac solve_field :=
  intros z Hz; unfold fmt_02, fmt_03, fmt_04; rewrite chars_of_chars; cbn [fixed_width app];
  repeat (apply f_equal2; [apply (f_equal digit_char); Z.to_euclidean_division_equations; lia|]); reflexivity.

#[export] Instance fmt_02_field : OrderedField fmt_02 100.
Proof. apply (ordered_field_fixed fmt_02 2). solve_field. Qed.
#[export] Instance fmt_03_field : OrderedField fmt_03 1000.
Proof. apply (ordered_field_fixed fmt_03 3). solve_field. Qed.
#[export] Instance fmt_04_field : OrderedField fmt_04 10000.
Proof. apply (ordered_field_fixed fmt_04 4). solve_field. Qed.

(** Comparing two strings that start with a field and a common separator. *)
Lemma bytes_ltb_field f n sep a b r r' :
  OrderedField f n -> 0 <= a < n -> 0 <= b < n ->
  bytes_ltb (chars (f a) ++ sep :: r) (chars (f b) ++ sep :: r') =
  (a <? b) || ((a =? b) && bytes_ltb r r').
Proof.
  intros Hf Ha Hb. rewrite bytes_ltb_app by (by apply field_length).
  rewrite field_order by done. f_equal.
  replace (bool_decide (chars (f a) = chars (f b))) with (a =? b).
  - f_equal. simpl. rewrite N.ltb_irrefl. simpl. by rewrite bool_decide_true.
  - symmetry. destruct (Z.eqb_spec a b) as [->|]; [by apply bool_decide_true|].
    apply bool_decide_false. intros E. by apply (field_inj (f := f) (n := n)) in E.
Qed.

(** ** Theorems *)

(** Time points whose year prints with four digits; it contains every 64-bit nanosecond
    count. *)
Definition representable (tp : Z) : Prop := -62162035200000000000 <= tp < 253402300800000000000.

Lemma in_int64_representable tp : in_int64 tp -> representable tp.
Proof. unfold in_int64, INT64_MIN, INT64_MAX, representable. lia. Qed.

(** The instant a printed time point stands for. *)
Definition floor_time (tp : Z) : Z := floor_ms tp * 1000000.

(** A 64-bit [system_clock] time point whose rounding down to a millisecond is one too
    (every reading of the clock after the year 1678). *)
Definition valid_time (tp : Z) : Prop := in_int64 tp /\ in_int64 (floor_time tp).

Lemma floor_ms_floor_time tp : floor_ms (floor_time tp) = floor_ms tp.
Proof. unfold floor_time, floor_ms. by rewrite Z.div_mul. Qed.

Lemma floor_time_idemp tp : floor_time (floor_time tp) = floor_time tp.
Proof. unfold floor_time at 1. by rewrite floor_ms_floor_time. Qed.

Lemma valid_time_floor tp : valid_time tp -> valid_time (floor_time tp).
Proof. intros [_ H]. split; [done|]. unfold floor_time at 1. by rewrite floor_ms_floor_time. Qed.

Lemma parse_to_iso8601 tp : in_int64 tp -> parse_iso8601 (to_iso8601 tp) = Ok (floor_time tp).
Proof.
  intros H.
  destruct (to_iso8601_fields tp (in_int64_representable tp H))
    as (y & m & d & hh & mm & ss & ms & -> & Hy & Hok & Hh & Hmi & Hs & Hms & Hval).
  rewrite parse_iso_string by (done || lia). unfold floor_time. by rewrite <-Hval.
Qed.

Lemma chars_iso_string y m d hh mm ss ms :
  chars (iso_string y m d hh mm ss ms) =
  chars (fmt_04 y) ++ "-"%char :: chars (fmt_02 m) ++ "-"%char :: chars (fmt_02 d) ++ "T"%char ::
  chars (fmt_02 hh) ++ ":"%char :: chars (fmt_02 mm) ++ ":"%char :: chars (fmt_02 ss) ++ "."%char ::
  chars (fmt_03 ms) ++ ["Z"%char].
Proof. reflexivity. Qed.

(** One step of a mixed-radix comparison. *)
Lemma lex_pair hi hi' lo lo' n :
  0 <= lo < n -> 0 <= lo' < n -> (hi <? hi') || ((hi =? hi') && (lo <? lo')) = (hi * n + lo <? hi' * n + lo').
Proof.
  intros. apply Bool.eq_iff_eq_true. rewrite orb_true_iff, andb_true_iff, !Z.ltb_lt, Z.eqb_eq. nia.
Qed.

Lemma to_iso8601_order a b :
  representable a -> representable b ->
  str_ltb (to_iso8601 a) (to_iso8601 b) = (floor_ms a <? floor_ms b).
Proof.
  intros Ha Hb.
  destruct (to_iso8601_fields a Ha) as (y & m & d & hh & mm & ss & ms & -> & Hy & Hok & Hh & Hmi & Hs & Hms & <-).
  destruct (to_iso8601_fields b Hb) as (y' & m' & d' & hh' & mm' & ss' & ms' & -> & Hy' & Hok' & Hh' & Hmi' & Hs' & Hms' & <-).
  unfold str_ltb. rewrite !chars_iso_string.
  destruct (ymd_ok_range _ _ _ Hok) as [Hm Hd]. destruct (ymd_ok_range _ _ _ Hok') as [Hm' Hd'].
  assert (forall y m, last_day y m <= 31) as Hld.
  { intros. unfold last_day. repeat case_match; lia. }
  pose proof (Hld y m). pose proof (Hld y' m').
  rewrite (bytes_ltb_field fmt_04 10000), !(bytes_ltb_field fmt_02 100), (bytes_ltb_field fmt_03 1000)
    by (first [done | lia | apply _]).
  rewrite bytes_ltb_irrefl, andb_false_r, orb_false_r.
  pose proof (days_from_civil_mono _ _ _ _ _ _ Hok Hok') as Hlt.
  pose proof (days_from_civil_mono _ _ _ _ _ _ Hok' Hok) as Hgt.
  assert (y = y' -> m = m' -> days_from_civil y m d - d = days_from_civil y' m' d' - d') as Heq.
  { intros <- <-. rewrite !days_from_civil_linear. cbv zeta. lia. }
  rewrite (lex_pair ss ss' ms ms' 1000), (lex_pair mm mm' _ _ 60000), (lex_pair hh hh' _ _ 3600000) by lia.
  match goal with |- context [(d =? d') && (?t <? ?t')] => set (T := t); set (T' := t') end.
  replace ((((days_from_civil y m d * 24 + hh) * 60 + mm) * 60 + ss) * 1000 + ms)
    with (days_from_civil y m d * 86400000 + T) by lia.
  replace ((((days_from_civil y' m' d' * 24 + hh') * 60 + mm') * 60 + ss') * 1000 + ms')
    with (days_from_civil y' m' d' * 86400000 + T') by lia.
  assert (0 <= T < 86400000) by lia. assert (0 <= T' < 86400000) by lia. clearbody T T'.
  apply Bool.eq_iff_eq_true. rewrite !orb_true_iff, !andb_true_iff, !orb_true_iff, !andb_true_iff,
    !orb_true_iff, !andb_true_iff, !Z.ltb_lt, !Z.eqb_eq. lia.
Qed.

(** Timestamps survive the database: for every time point of the clock, parsing the
    printed form gives back the instant rounded down to the millisecond (again a 64-bit
    time point), and an instant with a whole number of milliseconds is restored exactly. *)
Theorem iso8601_roundtrip tp (H : valid_time tp) :
  parse_iso8601 (to_iso8601 tp) = Ok (floor_ms tp * 1000000) /\ in_int64 (floor_ms tp * 1000000) /\
  tp - 1000000 < floor_ms tp * 1000000 <= tp /\
  (tp mod 1000000 = 0 -> parse_iso8601 (to_iso8601 tp) = Ok tp).
Proof.
  destruct H as [H Hf]. rewrite parse_to_iso8601 by done. unfold floor_time in *.
  pose proof (Z.div_mod tp 1000000 ltac:(lia)). pose proof (Z.mod_pos_bound tp 1000000 ltac:(lia)).
  unfold floor_ms in *. split_and!; [done|done|lia|lia|]. intros Hms. f_equal. lia.
Qed.

Lemma iso8601_roundtrip_witness :
  to_iso8601 1709210096789000000 = "2024-02-29T12:34:56.789Z" /\
  parse_iso8601 (to_iso8601 1709210096789000000) = Ok 1709210096789000000.
Proof.
  split; [vm_compute; reflexivity|].
  apply (iso8601_roundtrip 1709210096789000000); [by vm_compute|reflexivity].
Defined.

(** The database sorts timestamps as text: the byte order of two printed time points
    is their chronological order at millisecond granularity, so [ORDER BY created_at] is
    creation order. *)
Theorem iso8601_order_preserving a b (Ha : in_int64 a) (Hb : in_int64 b) :
  str_ltb (to_iso8601 a) (to_iso8601 b) = (floor_ms a <? floor_ms b) /\
  (to_iso8601 a = to_iso8601 b <-> floor_ms a = floor_ms b).
Proof.
  apply in_int64_representable in Ha, Hb. split; [by apply to_iso8601_order|].
  split; [|intros E; unfold to_iso8601; by rewrite E].
  intros E. pose proof (to_iso8601_order a b Ha Hb) as H1. pose proof (to_iso8601_order b a Hb Ha) as H2.
  rewrite E in H1, H2. unfold str_ltb in *. rewrite bytes_ltb_irrefl in *.
  symmetry in H1, H2. apply Z.ltb_ge in H1, H2. lia.
Qed.

Lemma iso8601_order_preserving_witness :
  str_ltb (to_iso8601 (-1000000)) (to_iso8601 0) = true /\
  to_iso8601 (-1000000) = "1969-12-31T23:59:59.999Z".
Proof.
  split; [|vm_compute; reflexivity].
  rewrite (proj1 (iso8601_order_preserving (-1000000) 0
    ltac:(unfold in_int64, INT64_MIN, INT64_MAX; lia) ltac:(unfold in_int64, INT64_MIN, INT64_MAX; lia))).
  reflexivity.
Defined.
