(* ===== verification/Ports.v ===== *)
(** * Ports: the interfaces through which the components talk to each other

    The abstract classes of the C++ code become classes and records of coroutines over a
    world [W]; a client is written against them and never sees an implementation.
    [Preserves m v] says that running [m] leaves the observation [v] of the world alone. *)

From Stdlib Require Import Sorted.
From S2P Require Import Prelude CoreError Identifiers ByteSize UploadDestination Task TimeCodec.

Local Open Scope coro_scope.

(** ** Frame conditions *)

Class Preserves {W A B} (v : W -> B) (m : M W A) : Prop :=
  preserves w : v (m w).2 = v w.

(** ** Clocks *)

(** [std::chrono::system_clock::now()], in nanoseconds since the epoch. *)
Class Clock (W : Type) := now : M W Z.

(** [std::chrono::steady_clock::now()], in nanoseconds. *)
Class SteadyClock (W : Type) := steady_clock_now : M W Z.

(** [co_await this_coro::cancellation_state]: whether cancellation was requested. *)
Class Cancellation (W : Type) := cancellation_requested : M W bool.

(** The clock shows times within the range of the 64-bit clock. *)
Class ValidClock (W : Type) `{!Clock W} : Prop :=
  clock_shows w : valid_time (now w).1.

(** A [Task] transition at the time the clock shows. *)
Definition timed {W} `{!Clock W} (op : Z -> Task -> Result unit * Task) (t : Task)
  : M W (Result unit * Task) :=
  co_await tp <- now; co_return op tp t.

(** ** [DownloaderInterface] *)

(** [enum class DownloadState]. *)
Inductive DownloadState :=
| DQueued | DDownloading | DPaused | DComplete | DError | DSeeding | DRemoved.

#[global] Instance DownloadState_eq_dec : EqDecision DownloadState.
Proof. solve_decision. Defined.

(** [to_string(DownloadState)]. *)
Definition download_state_to_string (s : DownloadState) : string :=
  match s with
  | DQueued => "queued"
  | DDownloading => "downloading"
  | DPaused => "paused"
  | DComplete => "complete"
  | DError => "error"
  | DSeeding => "seeding"
  | DRemoved => "removed"
  end.

(** [struct DownloadStatus]; the floating-point [seed_ratio], which no use case reads, is left out. *)
Record DownloadStatus := MkStatus {
  ds_id : Gid;
  ds_name : string;
  ds_state : DownloadState;
  ds_total_bytes : Z;
  ds_downloaded_bytes : Z;
  ds_uploaded_bytes : Z;
  ds_download_speed_bps : Z;
  ds_upload_speed_bps : Z;
  ds_eta : Z;
  ds_error_message : option string;
  ds_save_path : option string;
  ds_files : list string;
  ds_num_seeders : option Z;
  ds_num_leechers : option Z
}.

#[global] Instance DownloadStatus_eq_dec : EqDecision DownloadStatus.
Proof. solve_decision. Defined.

(** [struct GlobalStats]. *)
Record GlobalStats := MkGlobalStats {
  gs_download_speed_bps : Z;
  gs_upload_speed_bps : Z;
  gs_active_count : Z;
  gs_waiting_count : Z;
  gs_stopped_count : Z
}.

(** [struct DownloadOptions]. *)
Record DownloadOptions := MkOptions {
  save_directory : option string;
  extras : list (string * string)
}.

(** [std::uniform_int_distribution] over the indices of an alphabet. *)
Class Random (W : Type) := draw_index : nat -> M W nat.

Fixpoint random_chars {W} `{!Random W} (n : nat) (alphabet : string) : M W string :=
  match n with
  | O => co_return ""
  | S n => co_await i <- draw_index (str_size alphabet - 1);
           co_await rest <- random_chars n alphabet;
           co_return (substr alphabet i 1 +:+ rest)
  end.

(** [class DownloaderInterface]: the operations the use cases call. *)
Record DownloaderInterface (W : Type) := MkDownloader {
  add_uri : string -> M W (Result Gid);
  pause : Gid -> M W (Result unit);
  resume : Gid -> M W (Result unit);
  remove : Gid -> bool -> M W (Result unit);
  status : Gid -> M W (Result DownloadStatus);
  active : M W (Result (list DownloadStatus));
  global_stats : M W (Result GlobalStats);
  supports_pipelining : bool
}.
Arguments add_uri {W} d.
Arguments pause {W} d.
Arguments resume {W} d.
Arguments remove {W} d.
Arguments status {W} d.
Arguments active {W} d.
Arguments global_stats {W} d.
Arguments supports_pipelining {W} d.

(** The two backends every use case is constructed with. *)
Class Downloaders (W : Type) := {
  aria2_ : DownloaderInterface W;
  qbit_ : DownloaderInterface W
}.

(** The backend of a binding; [None] for [DownloaderKind::None]. *)
Definition backend_of {W} `{!Downloaders W} (k : DownloaderKind) : option (DownloaderInterface W) :=
  match k with
  | Aria2 => Some aria2_
  | Qbittorrent => Some qbit_
  | NoDownloader => None
  end.

(** ** [MessengerInterface] *)

(** [struct InlineKeyboardButton], [InlineKeyboardRow], [InlineKeyboard]. *)
Record InlineKeyboardButton := MkButton { label : string; callback_data : string }.
Definition InlineKeyboardRow := list InlineKeyboardButton.
Definition InlineKeyboard := list InlineKeyboardRow.

Class MessengerInterface (W : Type) := {
  send_html : ChatId -> string -> M W (Result MessageId);
  edit_html : ChatId -> MessageId -> string -> M W (Result unit);
  edit_html_with_keyboard : ChatId -> MessageId -> string -> InlineKeyboard -> M W (Result unit);
  send_html_with_keyboard : ChatId -> string -> InlineKeyboard -> M W (Result MessageId);
  edit_keyboard : ChatId -> MessageId -> InlineKeyboard -> M W (Result unit);
  answer_callback : CallbackQueryId -> string -> bool -> M W (Result unit);
  send_file : ChatId -> string -> string -> option string -> M W (Result MessageId);
  delete_message : ChatId -> MessageId -> M W (Result unit)
}.

(** ** Uploads *)

(** [struct UploadConfig]. *)
Record UploadConfig := MkUploadConfig {
  uc_chat_id : option ChatId;
  uc_folder_id : option string;
  uc_rclone_path : option string;
  uc_as_document : bool;
  uc_thumbnail_path : option string;
  uc_caption : option string;
  uc_split_size : ByteSize
}.

(** [UploadConfig{}]. *)
Definition default_upload_config : UploadConfig :=
  MkUploadConfig None None None false None None (from_unchecked 2000000000).

(** [struct UploadResult]. *)
Record UploadResult := MkUploadResult { ur_file_id : string; ur_link : string; ur_size : Z; ur_duration : Z }.

#[global] Instance UploadResult_eq_dec : EqDecision UploadResult.
Proof. solve_decision. Defined.

(** ** [UserSettingsRepository] *)

(** [struct UserSettingsRecord]. *)
Record UserSettingsRecord := MkUserSettings {
  us_user_id : UserId;
  us_leech_destination : UploadDestination;
  us_mirror_destination : UploadDestination;
  us_default_thumb_path : option string;
  us_rclone_remote : option string;
  us_gdrive_folder_id : option string;
  us_upload_as_document : bool;
  us_created_at : Z;
  us_updated_at : Z
}.

Class UserSettingsRepository (W : Type) := {
  us_get : UserId -> M W (Result (option UserSettingsRecord));
  us_save : UserSettingsRecord -> M W (Result unit);
  us_remove : UserId -> M W (Result unit)
}.

(** ** [TaskRepository] *)

Class TaskRepository (W : Type) := {
  repo_save : Task -> M W (Result unit);
  repo_find : TaskId -> M W (Result (option Task));
  repo_incomplete : M W (Result (list Task));
  repo_for_user : UserId -> M W (Result (list Task));
  repo_remove : TaskId -> M W (Result unit)
}.

(** What a repository keeps of a task: time stamps at millisecond granularity. *)
Definition stored_metadata (md : TaskMetadata) : TaskMetadata :=
  MkMetadata (md_id md) (md_user md) (md_chat md) (md_status_message md) (md_kind md)
    (md_source_url md) (floor_time (md_created_at md)) (floor_time (md_updated_at md)).

Definition stored (t : Task) : Task :=
  MkTask (stored_metadata (metadata t)) (state t) (error_message t) (downloader_id t) (downloader_kind t).

(** Tasks that a repository can represent: those the program builds ([reachable_task]
    and bindings with a backend), with time stamps of the 64-bit clock. *)
Definition storable (t : Task) : Prop :=
  (error_message t <> None <-> state t = Failed) /\
  (downloader_id t <> None <-> downloader_kind t <> NoDownloader) /\
  valid_time (md_created_at (metadata t)) /\ valid_time (md_updated_at (metadata t)).

Lemma stored_idemp t : stored (stored t) = stored t.
Proof. unfold stored, stored_metadata. simpl. by rewrite !floor_time_idemp. Qed.

Lemma storable_stored t : storable t -> storable (stored t).
Proof. intros (H1 & H2 & Hc & Hu). split_and!; simpl; auto using valid_time_floor. Qed.

(** Two tasks that differ at most in [updated_at]. *)
#[export] Instance task_equiv : Equiv Task := fun t1 t2 =>
  touch_metadata 0 (metadata t1) = touch_metadata 0 (metadata t2) /\ state t1 = state t2 /\
  error_message t1 = error_message t2 /\ downloader_id t1 = downloader_id t2 /\
  downloader_kind t1 = downloader_kind t2.

#[export] Instance task_equivalence : Equivalence (≡@{Task}).
Proof. unfold equiv, task_equiv. split; red; intros; intuition congruence. Qed.

#[export] Instance is_terminal_proper : Proper ((≡) ==> (=)) is_terminal.
Proof. intros t1 t2 (_ & H & _). unfold is_terminal. by rewrite H. Qed.

(** Entering a state erases the difference. *)
Lemma enter_proper s tp t1 t2 : t1 ≡ t2 -> enter s tp t1 = enter s tp t2.
Proof.
  intros (Hm & _ & He & Hi & Hk). unfold enter. rewrite He, Hi, Hk. f_equal.
  unfold touch_metadata in *. by injection Hm as -> -> -> -> -> -> ->.
Qed.

Lemma task_equiv_chat t1 t2 : t1 ≡ t2 -> md_chat (metadata t1) = md_chat (metadata t2).
Proof. intros (H & _). by injection H. Qed.

Lemma task_equiv_id t1 t2 : t1 ≡ t2 -> md_id (metadata t1) = md_id (metadata t2).
Proof. intros (H & _). by injection H. Qed.

Lemma task_equiv_touch tp t : enter (state t) tp t ≡ t.
Proof. by destruct t, metadata. Qed.

(** The primary key of a task. *)
Definition task_key (t : Task) : string := value (md_id (metadata t)).

(** What [task_repository.hpp] promises, against a map of the tasks the repository
    holds, in every world that satisfies [inv]: a failed call changes nothing; [save] is
    insert-or-replace; the readers return the held tasks up to [updated_at]. *)
Class TaskRepositoryLaws (W : Type) `{!TaskRepository W} (inv : W -> Prop) (tasks : W -> gmap string Task) : Prop := {
  save_inv t w : inv w -> storable t -> inv (repo_save t w).2;
  save_spec t w :
    inv w -> storable t ->
    tasks (repo_save t w).2 =
      if has_value (repo_save t w).1 then <[task_key t := stored t]> (tasks w) else tasks w;
  find_inv id w : inv w -> inv (repo_find id w).2;
  find_frame id w : inv w -> tasks (repo_find id w).2 = tasks w;
  find_spec id w o w' :
    inv w -> repo_find id w = (Ok o, w') -> option_Forall2 (≡) o (tasks w !! value id);
  incomplete_inv w : inv w -> inv (repo_incomplete w).2;
  incomplete_frame w : inv w -> tasks (repo_incomplete w).2 = tasks w;
  incomplete_spec w l w' :
    inv w -> repo_incomplete w = (Ok l, w') ->
    exists l0, Forall2 (≡) l l0 /\ NoDup l0 /\
      (forall t, t ∈ l0 <-> tasks w !! task_key t = Some t /\ is_terminal t = false) /\
      StronglySorted (fun a b => md_created_at (metadata a) <= md_created_at (metadata b)) l0;
  for_user_inv u w : inv w -> inv (repo_for_user u w).2;
  for_user_frame u w : inv w -> tasks (repo_for_user u w).2 = tasks w;
  for_user_spec u w l w' :
    inv w -> repo_for_user u w = (Ok l, w') ->
    exists l0, Forall2 (≡) l l0 /\ NoDup l0 /\
      (forall t, t ∈ l0 <-> tasks w !! task_key t = Some t /\ md_user (metadata t) = u) /\
      StronglySorted (fun a b => md_created_at (metadata b) <= md_created_at (metadata a)) l0;
  remove_inv id w : inv w -> inv (repo_remove id w).2;
  remove_spec id w :
    inv w ->
    tasks (repo_remove id w).2 =
      if has_value (repo_remove id w).1 then delete (value id) (tasks w) else tasks w;
  remove_found id w :
    inv w -> has_value (repo_remove id w).1 = true -> is_Some (tasks w !! value id);
  tasks_storable k t w : inv w -> tasks w !! k = Some t -> storable t /\ stored t = t /\ task_key t = k
}.

(** ** Lemmas: frames compose *)

#[export] Instance preserves_return {W A B} (v : W -> B) (a : A) : Preserves v (mreturn a).
Proof. done. Qed.

Lemma preserves_bind {W A A' B} (v : W -> B) (m : M W A) (k : A -> M W A') :
  Preserves v m -> (forall a, Preserves v (k a)) -> Preserves v (mbind m k).
Proof.
  intros Hm Hk w. unfold mbind. pose proof (preserves (m := m) w) as H.
  destruct (m w) as [a w1]. simpl in *. by rewrite preserves.
Qed.

Lemma preserves_try {W A A' B} (v : W -> B) (m : M W (Result A)) (k : A -> M W (Result A')) :
  Preserves v m -> (forall a, Preserves v (k a)) -> Preserves v (try_bind m k).
Proof. intros Hm Hk. apply preserves_bind; [done|]. intros [a|e]; [done|apply _]. Qed.

Lemma preserves_throwing_try {W A A' B} (v : W -> B) (m : Throwing W A) (k : A -> Throwing W A') :
  Preserves v m -> (forall a, Preserves v (k a)) -> Preserves v (throwing_try m k).
Proof. intros Hm Hk. apply preserves_bind; [done|]. intros [[a|e]|what|]; [done|apply _..]. Qed.

#[export] Instance preserves_observe {W A B} (v : W -> B) (m : M W A) : Preserves v m -> Preserves v (observe m).
Proof. intros Hm. apply preserves_bind; [done|]. intros a. apply _. Qed.

#[export] Instance preserves_no_throw {W A B} (v : W -> B) (m : M W (Result A)) : Preserves v m -> Preserves v (no_throw m).
Proof. intros Hm. apply preserves_bind; [done|]. intros a. apply _. Qed.

#[export] Instance preserves_finish {W A B} (v : W -> B) (r : Result A) : Preserves v (finish_with r).
Proof. done. Qed.

#[export] Instance preserves_lift {S W A B} (v : W -> B) (m : M W A) : Preserves v m -> Preserves (fun c : S * W => v c.2) (lift m).
Proof. intros Hm [s w]. exact (Hm w). Qed.

Lemma preserves_fold {W A A' B} (v : W -> B) (f : A -> A' -> M W A) l b :
  (forall b x, Preserves v (f b x)) -> Preserves v (mfold f l b).
Proof.
  intros Hf. revert b. induction l as [|x l IH]; intros b; simpl; [apply _|].
  by apply preserves_bind.
Qed.

#[export] Instance preserves_timed {W B} `{!Clock W} (v : W -> B) op t :
  Preserves v now -> Preserves v (timed op t).
Proof. intros H. unfold timed. apply preserves_bind; [done|]. intros a. apply _. Qed.

(** Break a coroutine down to the calls it makes, and frame each of them. *)
Ltac frame :=
  repeat first
    [ apply _
    | match goal with
      | |- Preserves _ (throwing_try _ _) => apply preserves_throwing_try; [|intros ?]
      end
    | apply preserves_try; [|intros ?]
    | apply preserves_bind; [|intros ?]
    | apply preserves_fold; intros ? ?
    | progress simpl
    | match goal with |- Preserves _ (match ?x with _ => _ end) => destruct x end ].

(** ** Lemmas: what is appended to a log *)

(** Running [m] appends to the log, and what it appends satisfies [P]. *)
Definition appends {W A X} (log : W -> list X) (P : X -> Prop) (m : M W A) : Prop :=
  forall w, exists l, log (m w).2 = log w ++ l /\ Forall P l.

Section Appends.
  Context {W X : Type} (log : W -> list X) (P : X -> Prop).

Lemma appends_nothing {A} (m : M W A) : Preserves log m -> appends log P m.
Proof. intros H w. exists []. rewrite (H w), app_nil_r. by split. Qed.

Lemma appends_bind {A B} (m : M W A) (k : A -> M W B) : appends log P m -> (forall a, appends log P (k a)) -> appends log P (mbind m k).
Proof.
  intros Hm Hk w. rewrite mbind_proj. destruct (Hm w) as (l & Hl & H1). destruct (Hk (m w).1 (m w).2) as (l' & Hl' & H2).
  exists (l ++ l'). rewrite Hl', Hl, app_assoc. split; [done|by apply Forall_app].
Qed.

Lemma appends_throwing_try {A B} (m : Throwing W A) (k : A -> Throwing W B) :
  appends log P m -> (forall a, appends log P (k a)) -> appends log P (throwing_try m k).
Proof. intros Hm Hk. apply appends_bind; [done|]. intros [[a|e]|what|]; [done|by apply appends_nothing..]. Qed.

Lemma appends_no_throw {A} (m : M W (Result A)) : appends log P m -> appends log P (no_throw m).
Proof. intros Hm. apply appends_bind; [done|]. intros a. by apply appends_nothing. Qed.

End Appends.

Lemma appends_lift {S W A X} (log : W -> list X) P (m : M W A) : appends log P m -> appends (fun c : S * W => log c.2) P (lift m).
Proof. intros H [s w]. exact (H w). Qed.

(** Break a coroutine down to the calls that append. *)
Ltac grow :=
  repeat first
    [ solve [auto]
    | apply appends_nothing; apply _
    | match goal with
      | |- appends _ _ (throwing_try _ _) => apply appends_throwing_try; [|intros ?]
      | |- appends _ _ (no_throw _) => apply appends_no_throw
      | |- appends _ _ (mbind _ _) => apply appends_bind; [|intros ?]
      | |- appends _ _ (match ?x with _ => _ end) => destruct x
      end ].
