(* ===== verification/Http.v ===== *)
(** * The HTTP client's interface: [http/beast_http_client.hpp]

    What the components that talk HTTP see of [BeastHttpClient]: its request and response
    records and its calls.  [BeastHttpClient.v] implements it. *)

From S2P Require Import Prelude CoreError.

Inductive HttpMethod := Get | Post | Put | Delete_ | Patch | Head.

#[global] Instance HttpMethod_eq_dec : EqDecision HttpMethod.
Proof. solve_decision. Defined.

(** [struct HttpHeader]. *)
Record HttpHeader := MkHeader { h_name : string; h_value : string }.

#[global] Instance HttpHeader_eq_dec : EqDecision HttpHeader.
Proof. solve_decision. Defined.

(** [struct HttpRequest]; the timeout is in milliseconds. *)
Record HttpRequest := MkRequest {
  rq_method : HttpMethod;
  rq_url : string;
  rq_headers : list HttpHeader;
  rq_body : string;
  rq_timeout : Z
}.

(** [struct HttpResponse]; the wall-clock [duration] that nobody reads is left out. *)
Record HttpResponse := MkResponse {
  status_code : Z;
  resp_headers : list HttpHeader;
  body : string
}.

(** [BeastHttpClient::request]. *)
Class HttpClient (W : Type) := http_request : HttpRequest -> M W (Result HttpResponse).

Section Convenience.
  Context {W : Type} `{!HttpClient W}.

(** [BeastHttpClient::get]. *)
Definition http_get (url : string) (headers : list HttpHeader) : M W (Result HttpResponse) :=
  http_request (MkRequest Get url headers "" 30000).

(** [BeastHttpClient::post]. *)
Definition http_post (url body : string) (headers : list HttpHeader) : M W (Result HttpResponse) :=
  http_request (MkRequest Post url headers body 30000).

End Convenience.

(** ** Header names *)

(** [iequals]. *)
Definition iequals (a b : string) : bool :=
  bool_decide (map tolower (chars a) = map tolower (chars b)).

(** The loop over the headers of a response: the first one with that name. *)
Fixpoint find_header (name : string) (headers : list HttpHeader) : option string :=
  match headers with
  | [] => None
  | h :: rest => if iequals (h_name h) name then Some (h_value h) else find_header name rest
  end.

Lemma iequals_sym a b : iequals a b = iequals b a.
Proof. unfold iequals. by apply bool_decide_ext. Qed.

Lemma iequals_refl a : iequals a a = true.
Proof. unfold iequals. by rewrite bool_decide_eq_true. Qed.

Lemma iequals_trans a b c : iequals a b = true -> iequals b c = true -> iequals a c = true.
Proof. unfold iequals. rewrite !bool_decide_eq_true. congruence. Qed.
