(* ===== verification/BeastHttpClient.v ===== *)
(** * The HTTP client: [http/beast_http_client.cpp]

    URL parsing, redirects, headers and the pool of idle connections.  Boost.Asio, Boost.Beast
    and OpenSSL are outside the repository: [Asio] is what the client calls of them, one
    operation per library call, and [Fields] the header container of a Beast message.  The
    streaming download is in [HttpDownload.v]. *)

From S2P Require Import Prelude CoreError Ports Http.

Local Open Scope coro_scope.

Definition kMaxRedirects : nat := 5.
Definition kMaxEndpoints : nat := 32.
Definition kMaxSocketsPerEndpoint : nat := 8.
#[global] Arguments kMaxRedirects : simpl never.
#[global] Arguments kMaxEndpoints : simpl never.
#[global] Arguments kMaxSocketsPerEndpoint : simpl never.
Definition kIdleEviction : Z := 60000000000.
Definition kUserAgent : string := "cmlb/1.0 (+https://github.com/cmlb)".

(** ** URLs *)

(** [struct ParsedUrl]. *)
Record ParsedUrl := MkUrl {
  https : bool;
  host : string;
  port : string;
  target : string
}.

Definition default_port (https : bool) : string := if https then "443" else "80".

(** [parse_url]. *)
Definition parse_url (url : string) : option ParsedUrl :=
  let scheme :=
    if starts_with url "https://" then Some (true, drop 8 (chars url))
    else if starts_with url "http://" then Some (false, drop 7 (chars url))
    else None in
  match scheme with
  | None => None
  | Some (https, rest) =>
      let not_slash := fun c => negb (bool_decide (c = "/"%char)) in
      let authority := take_while not_slash rest in
      let target := match drop_while not_slash rest with [] => ["/"%char] | t => t end in
      if bool_decide ("@"%char ∈ authority) then None
      else match split_last ":"%char authority with
           | Some (h, p) =>
               if bool_decide (h = []) || bool_decide (p = []) || negb (forallb isdigit p) then None
               else Some (MkUrl https (of_chars h) (of_chars p) (of_chars target))
           | None =>
               if bool_decide (authority = []) then None
               else Some (MkUrl https (of_chars authority) (default_port https) (of_chars target))
           end
  end.

(** [same_origin]. *)
Definition same_origin (a b : ParsedUrl) : bool :=
  bool_decide (https a = https b) && iequals (host a) (host b) && bool_decide (port a = port b).

(** [host], with the port unless it is the scheme's. *)
Definition host_with_port (u : ParsedUrl) : string :=
  if bool_decide (port u = default_port (https u)) then host u else host u +:+ ":" +:+ port u.

(** [resolve_redirect]. *)
Definition resolve_redirect (current : ParsedUrl) (location : string) : option string :=
  if str_empty location then None
  else if starts_with location "http://" || starts_with location "https://" then Some location
  else
    let base := (if https current then "https://" else "http://") +:+ host_with_port current in
    if starts_with location "/" then Some (base +:+ location)
    else
      let dir := match split_last "/"%char (chars (target current)) with
                 | Some (d, _) => of_chars (d ++ ["/"%char])
                 | None => "/"
                 end in
      Some (base +:+ dir +:+ location).

(** ** Messages *)

(** The fields of a Beast message. *)
Class Fields := {
  fields : Type;
  no_fields : fields;
  set_field : string -> string -> fields -> fields;
  field : fields -> string -> option string
}.

(** Names are compared without case; [set] replaces. *)
Class FieldsLaws `{flds : !Fields} : Prop := {
  field_none n : field no_fields n = None;
  field_set n v fs n' : field (set_field n v fs) n' = if iequals n n' then Some v else field fs n'
}.

Section Messages.
  Context `{flds : !Fields}.

(** [bh::request<bh::string_body>]. *)
Record WireRequest := MkWire {
  w_method : HttpMethod;
  w_target : string;
  w_fields : fields;
  w_body : string
}.

Definition set_header (fs : fields) (h : HttpHeader) : fields := set_field (h_name h) (h_value h) fs.

(** [apply_headers]. *)
Definition apply_headers (body : string) (headers : list HttpHeader) (host_with_port : string) (has_body : bool)
  : fields :=
  let kept := filter (fun h => negb (iequals (h_name h) "host") && negb (iequals (h_name h) "content-length") = true) headers in
  let saw name := existsb (fun h => iequals (h_name h) name) kept in
  let fs := foldl set_header no_fields kept in
  let fs := set_field "Host" host_with_port fs in
  let fs := if saw "user-agent" then fs else set_field "User-Agent" kUserAgent fs in
  let fs := if saw "accept" then fs else set_field "Accept" "*/*" fs in
  let fs := if saw "connection" then fs else set_field "Connection" "keep-alive" fs in
  if has_body then set_field "Content-Length" (fmt_int (Z.of_nat (str_size body))) fs else fs.

(** Without [Authorization], in any case. *)
Definition strip_authorization (headers : list HttpHeader) : list HttpHeader :=
  filter (fun h => iequals (h_name h) "authorization" = false) headers.

End Messages.

(** ** Errors of the network *)

(** The error codes [translate_ec] tells apart. *)
Inductive EcKind :=
  | beast_timeout | operation_aborted | host_not_found | host_not_found_try_again | no_data | network_unreachable
  | host_unreachable | connection_refused | connection_reset | connection_aborted | not_connected | network_down
  | network_reset | address_in_use | eof | other_ec.

Record BoostError := MkEc { ec_kind : EcKind; ec_message : string }.

(** [translate_ec]. *)
Definition translate_ec {A} (ec : BoostError) (context : string) : Result A :=
  let code := match ec_kind ec with
              | beast_timeout => Timeout
              | operation_aborted => Cancelled
              | other_ec => Io
              | _ => Network
              end in
  error code (context +:+ ": " +:+ ec_message ec).

(** ** The pool of idle connections *)

Record EndpointKey := MkKey { k_https : bool; k_host : string; k_port : string }.

#[global] Instance EndpointKey_eq_dec : EqDecision EndpointKey.
Proof. solve_decision. Defined.
#[global] Instance EndpointKey_countable : Countable EndpointKey.
Proof.
  by refine (inj_countable' (fun k => (k_https k, k_host k, k_port k)) (fun '(a, b, c) => MkKey a b c) _); intros [].
Defined.

(** The library calls: one operation each, the socket they work on first. *)
Class Asio (W : Type) `{flds : !Fields} := {
  Socket : Type;
  Endpoints : Type;
  make_socket : EndpointKey -> M W Socket;
  set_sni : Socket -> string -> M W (option Z);
  async_resolve : string -> string -> M W (BoostError + Endpoints);
  async_connect : Socket -> Endpoints -> Z -> M W (option BoostError);
  async_handshake : Socket -> Z -> M W (option BoostError);
  async_write : Socket -> WireRequest -> Z -> M W (option BoostError);
  async_read : Socket -> Z -> M W (BoostError + (HttpResponse * bool));
  shutdown : Socket -> M W unit;
  steady_now : M W Z
}.

Section Client.
  Context `{flds : !Fields} {W : Type} `{net : !Asio W}.

(** [class ConnectionPool]: the two maps from an endpoint to its deque of idle sockets, each
    with its [last_used]. *)
Record ConnectionPool := MkPool {
  plain_idle : gmap EndpointKey (list (Socket * Z));
  tls_idle : gmap EndpointKey (list (Socket * Z))
}.

Definition idle_of (https : bool) (p : ConnectionPool) : gmap EndpointKey (list (Socket * Z)) :=
  if https then tls_idle p else plain_idle p.

Definition set_idle (https : bool) (m : gmap EndpointKey (list (Socket * Z))) (p : ConnectionPool) : ConnectionPool :=
  if https then MkPool (plain_idle p) m else MkPool m (tls_idle p).

(** The client's state next to the rest of the world. *)
Notation C := (ConnectionPool * W)%type.

(** [prune_locked]. *)
Definition prune (now : Z) (q : list (Socket * Z)) : list (Socket * Z) :=
  drop_while (fun s => s.2 <? now - kIdleEviction) q.

(** [take_plain] and [take_tls]: the indexing creates the deque of a new endpoint. *)
Definition take_idle (key : EndpointKey) : M C (option Socket) :=
  co_await p <- get_state;
  co_await now <- lift steady_now;
  let q := prune now (default [] (idle_of (k_https key) p !! key)) in
  co_do put_state (set_idle (k_https key) (<[key := removelast q]> (idle_of (k_https key) p)) p);
  co_return (fst <$> last q).

(** [return_plain] and [return_tls]. *)
Definition return_idle (key : EndpointKey) (sock : Socket) : M C unit :=
  co_await p <- get_state;
  let idle := idle_of (k_https key) p in
  if (kMaxEndpoints <=? size (plain_idle p) + size (tls_idle p))%nat && bool_decide (idle !! key = None)
  then co_return ()
  else
    let q := default [] (idle !! key) in
    if (kMaxSocketsPerEndpoint <=? length q)%nat
    then put_state (set_idle (k_https key) (<[key := q]> idle) p)
    else co_await now <- lift steady_now;
         put_state (set_idle (k_https key) (<[key := q ++ [(sock, now)]]> idle) p).

(** ** One exchange *)

(** [open_plain]. *)
Definition open_plain (key : EndpointKey) (timeout : Z) : M W (Result Socket) :=
  co_await sock <- make_socket key;
  co_await endpoints <- async_resolve (k_host key) (k_port key);
  match endpoints with
  | inl ec => co_return translate_ec ec ("dns resolve " +:+ k_host key)
  | inr endpoints =>
      co_await ec <- async_connect sock endpoints timeout;
      co_return match ec with
                | Some ec => translate_ec ec ("tcp connect " +:+ k_host key)
                | None => Ok sock
                end
  end.

(** [open_tls]. *)
Definition open_tls (key : EndpointKey) (timeout : Z) : M W (Result Socket) :=
  co_await sock <- make_socket key;
  co_await sni <- set_sni sock (k_host key);
  match sni with
  | Some err => co_return error Io ("tls SNI set failed: " +:+ fmt_int err)
  | None =>
      co_await endpoints <- async_resolve (k_host key) (k_port key);
      match endpoints with
      | inl ec => co_return translate_ec ec ("dns resolve " +:+ k_host key)
      | inr endpoints =>
          co_await connected <- async_connect sock endpoints timeout;
          match connected with
          | Some ec => co_return translate_ec ec ("tcp connect " +:+ k_host key)
          | None =>
              co_await shaken <- async_handshake sock timeout;
              co_return match shaken with
                        | Some ec => translate_ec ec ("tls handshake " +:+ k_host key)
                        | None => Ok sock
                        end
          end
      end
  end.

(** [exchange]. *)
Definition exchange (sock : Socket) (req : WireRequest) (timeout : Z) : M W (Result (HttpResponse * bool)) :=
  co_await written <- async_write sock req timeout;
  match written with
  | Some ec => co_return translate_ec ec "http write"
  | None =>
      co_await read <- async_read sock timeout;
      co_return match read with
                | inl ec => translate_ec ec "http read"
                | inr outcome => Ok outcome
                end
  end.

(** The idle socket, or a new one. *)
Definition connection (key : EndpointKey) (idle : option Socket) (timeout : Z) : M C (Result Socket) :=
  match idle with
  | Some sock => co_return Ok sock
  | None => lift ((if k_https key then open_tls else open_plain) key timeout)
  end.

(** Take or open a connection, exchange, and keep or close it. *)
Definition exchange_with (key : EndpointKey) (req : WireRequest) (timeout : Z) : M C (Result HttpResponse) :=
  co_await idle <- take_idle key;
  co_try sock <- connection key idle timeout;
  co_try outcome <- lift (exchange sock req timeout);
  co_do (if outcome.2 : bool then return_idle key sock else lift (shutdown sock));
  co_return Ok outcome.1.

(** ** Requests and redirects *)

Definition has_body (m : HttpMethod) : bool :=
  match m with Post | Put | Patch => true | _ => false end.

Definition is_redirect (code : Z) : bool :=
  (code =? 301) || (code =? 302) || (code =? 303) || (code =? 307) || (code =? 308).

(** 301, 302 and 303 turn the request into a [Get]. *)
Definition becomes_get (code : Z) : bool := (code =? 301) || (code =? 302) || (code =? 303).

(** The headers a hop sends. *)
Definition hop_headers (redirected : bool) (orig parsed : ParsedUrl) (headers : list HttpHeader) : list HttpHeader :=
  if redirected && negb (same_origin orig parsed) then strip_authorization headers else headers.

(** The loop of [request] with [hops] iterations left, [hop = kMaxRedirects + 1 - hops]. *)
Fixpoint request_loop (hops : nat) (orig : ParsedUrl) (redirected : bool) (method : HttpMethod) (url : string)
  (headers : list HttpHeader) (body : string) (timeout : Z) : M C (Result HttpResponse) :=
  match hops with
  | O => co_return error Network ("too many redirects (max " +:+ fmt_int (Z.of_nat kMaxRedirects) +:+ "): " +:+ url)
  | S more =>
      match parse_url url with
      | None => co_return error InvalidArgument ("malformed URL (redirect): " +:+ url)
      | Some parsed =>
          let key := MkKey (https parsed) (host parsed) (port parsed) in
          let headers := hop_headers redirected orig parsed headers in
          let wire_body := if has_body method then body else "" in
          let wire := MkWire method (target parsed)
                        (apply_headers wire_body headers (host_with_port parsed) (has_body method)) wire_body in
          co_try resp <- exchange_with key wire timeout;
          let code := status_code resp in
          if is_redirect code && (0 <? more)%nat then
            match find_header "location" (resp_headers resp) with
            | None => co_return Ok resp
            | Some location =>
                match resolve_redirect parsed location with
                | None => co_return error Network ("redirect target malformed: " +:+ location)
                | Some next =>
                    if becomes_get code
                    then request_loop more orig true Get next headers "" timeout
                    else request_loop more orig true method next headers body timeout
                end
            end
          else co_return Ok resp
      end
  end.

(** [BeastHttpClient::request]. *)
Definition request (req : HttpRequest) : M C (Result HttpResponse) :=
  let timeout := if rq_timeout req <=? 0 then 30000 else rq_timeout req in
  match parse_url (rq_url req) with
  | None => co_return error InvalidArgument ("malformed URL: " +:+ rq_url req)
  | Some orig =>
      request_loop (S kMaxRedirects) orig false (rq_method req) (rq_url req) (rq_headers req) (rq_body req) timeout
  end.

#[global] Instance beast_http_client : HttpClient C := request.

End Client.

(** ** Lemmas: header fields *)

Section FieldLemmas.
  Context `{flds : !Fields, flaws : !FieldsLaws}.

Lemma field_set_headers hs fs name :
  Forall (fun h => iequals (h_name h) name = false) hs -> field (foldl set_header fs hs) name = field fs name.
Proof.
  intros H. revert fs. induction H as [|h hs Hh _ IH]; intros fs; simpl; [done|].
  rewrite IH. unfold set_header. by rewrite field_set, Hh.
Qed.

(** Only the caller's headers can name a field that the client does not control. *)
Lemma apply_headers_absent body hs hwp b name :
  Forall (fun h => iequals (h_name h) name = false) hs ->
  Forall (fun n => iequals n name = false) ["Host"; "User-Agent"; "Accept"; "Connection"; "Content-Length"] ->
  field (apply_headers body hs hwp b) name = None.
Proof.
  intros H Hn. rewrite !Forall_cons in Hn. destruct Hn as (H1 & H2 & H3 & H4 & H5 & _).
  assert (forall l, field (foldl set_header no_fields (filter (fun h => l h = true) hs)) name = None) as Hbase.
  { intros l. rewrite field_set_headers, field_none; [done|]. apply Forall_forall. intros h Hh.
    apply list_elem_of_filter in Hh as [_ Hh]. by apply (proj1 (Forall_forall _ _) H). }
  unfold apply_headers. repeat (crush_match; rewrite ?field_set, ?H1, ?H2, ?H3, ?H4, ?H5); by rewrite ?field_set, ?H1, ?Hbase.
Qed.

Lemma strip_authorization_none hs :
  Forall (fun h => iequals (h_name h) "authorization" = false) (strip_authorization hs).
Proof. apply Forall_forall. by intros h [Hh _]%list_elem_of_filter. Qed.

Lemma cross_origin_headers orig parsed hs :
  same_origin orig parsed = false ->
  Forall (fun h => iequals (h_name h) "authorization" = false) (hop_headers true orig parsed hs).
Proof. unfold hop_headers. intros ->. apply strip_authorization_none. Qed.

End FieldLemmas.

(** ** The client on a network *)

Section Laws.
  Context `{flds : !Fields, flaws : !FieldsLaws} {W : Type} `{net : !Asio W}.
  Context (socket_key : Socket -> EndpointKey) (sent : W -> list (EndpointKey * WireRequest)).

(** A socket connects to the endpoint it was made for; only a write sends. *)
Class AsioLaws : Prop := {
  nl_make key w : socket_key (make_socket key w).1 = key;
  nl_write s r t w : sent (async_write s r t w).2 = sent w ++ [(socket_key s, r)];
  nl_make_frame key :: Preserves sent (make_socket key);
  nl_sni s h :: Preserves sent (set_sni s h);
  nl_resolve h p :: Preserves sent (async_resolve h p);
  nl_connect s e t :: Preserves sent (async_connect s e t);
  nl_handshake s t :: Preserves sent (async_handshake s t);
  nl_read s t :: Preserves sent (async_read s t);
  nl_shutdown s :: Preserves sent (shutdown s);
  nl_now :: Preserves sent steady_now
}.

Context `{alaws : !AsioLaws}.

(** Idle sockets are kept under their own endpoint, in the map of their kind, and no
    endpoint has more than its share. *)
Definition pool_ok (p : ConnectionPool) : Prop :=
  forall b key q, idle_of b p !! key = Some q ->
    k_https key = b /\ (length q <= kMaxSocketsPerEndpoint)%nat /\ Forall (fun s => socket_key s.1 = key) q.

Lemma pool_ok_set key q p :
  pool_ok p -> (length q <= kMaxSocketsPerEndpoint)%nat -> Forall (fun s => socket_key s.1 = key) q ->
  pool_ok (set_idle (k_https key) (<[key := q]> (idle_of (k_https key) p)) p).
Proof.
  intros Hp Hlen Hq b k q' Hk.
  assert (idle_of b p !! k = Some q' \/ (k_https key = b /\ k = key /\ q' = q)) as [H|(<- & -> & ->)]; [|by apply (Hp _ _ _ H)|done].
  unfold set_idle, idle_of in *. destruct (k_https key), b; simpl in *; auto;
    apply lookup_insert_Some in Hk as [[<- <-]|[_ Hk]]; auto.
Qed.

Lemma pool_ok_default key p : pool_ok p ->
  let q := default [] (idle_of (k_https key) p !! key) in
  (length q <= kMaxSocketsPerEndpoint)%nat /\ Forall (fun s => socket_key s.1 = key) q.
Proof.
  intros Hp. destruct (idle_of _ p !! key) as [q|] eqn:E; simpl; [by apply (Hp _ _ _ E)|]. split; [lia|constructor].
Qed.

Lemma drop_while_Forall {A} (Q : A -> bool) (P : A -> Prop) l : Forall P l -> Forall P (drop_while Q l).
Proof. induction 1; simpl; [done|]. destruct (Q _); [done|]. by constructor. Qed.

Lemma removelast_Forall {A} (P : A -> Prop) l : Forall P l -> Forall P (removelast l).
Proof. induction 1 as [|x l Hx Hl IH]; simpl; [done|]. destruct l; [done|]. by constructor. Qed.

Lemma length_removelast {A} (l : list A) : (length (removelast l) <= length l)%nat.
Proof. induction l as [|x [|y l] IH]; simpl in *; lia. Qed.

Lemma take_idle_ok key p w : pool_ok p ->
  let r := take_idle key (p, w) in
  pool_ok r.2.1 /\ sent r.2.2 = sent w /\ (forall s, r.1 = Some s -> socket_key s = key).
Proof.
  intros Hp. unfold take_idle, mbind, mreturn, get_state, put_state, lift. simpl.
  pose proof (nl_now w) as Hs. destruct (steady_now w) as [t w1]. simpl in *.
  destruct (pool_ok_default key p Hp) as [Hlen Hq]. set (q := default [] (idle_of (k_https key) p !! key)) in *.
  assert (Forall (fun s => socket_key s.1 = key) (prune t q)) as Hprune by by apply drop_while_Forall.
  split_and!; [|done|].
  - apply pool_ok_set; [done| |by apply removelast_Forall].
    pose proof (length_removelast (prune t q)). pose proof (drop_while_le (fun s => s.2 <? t - kIdleEviction) q).
    unfold prune in *. lia.
  - intros s Hl. destruct (last (prune t q)) as [[s' l]|] eqn:E; [|done]. injection Hl as <-.
    apply last_Some_elem_of in E. by apply (proj1 (Forall_forall _ _) Hprune) in E.
Qed.

Lemma return_idle_ok key s p w : pool_ok p -> socket_key s = key ->
  let r := return_idle key s (p, w) in pool_ok r.2.1 /\ sent r.2.2 = sent w.
Proof.
  intros Hp Hs. unfold return_idle, mbind, mreturn, get_state, put_state, lift. cbn [fst snd].
  destruct (_ && _); [done|].
  destruct (pool_ok_default key p Hp) as [Hlen Hq]. set (q := default [] (idle_of (k_https key) p !! key)) in *.
  destruct (Nat.leb_spec kMaxSocketsPerEndpoint (length q)); simpl.
  - split; [by apply (pool_ok_set key q p)|done].
  - pose proof (nl_now w) as Hn. destruct (steady_now w) as [t w1]. simpl in *. split; [|done].
    apply (pool_ok_set key (q ++ [(s, t)]) p); [done| |by apply Forall_app; repeat constructor]. rewrite length_app. simpl. lia.
Qed.

Lemma open_plain_effect key t w :
  sent (open_plain key t w).2 = sent w /\ forall s, (open_plain key t w).1 = Ok s -> socket_key s = key.
Proof.
  unfold open_plain, mbind, mreturn. pose proof (nl_make key w) as Hk. pose proof (nl_make_frame key w) as Hm.
  destruct (make_socket key w) as [sock w1]. simpl in *.
  pose proof (nl_resolve (k_host key) (k_port key) w1) as Hr.
  destruct (async_resolve _ _ w1) as [[ec|es] w2]; simpl in *; [by split; [congruence|destruct ec as [[]]]|].
  pose proof (nl_connect sock es t w2) as Hc. destruct (async_connect sock es t w2) as [[ec|] w3]; simpl in *.
  - split; [congruence|by destruct ec as [[]]].
  - split; [congruence|by intros s [= <-]].
Qed.

Lemma open_tls_effect key t w :
  sent (open_tls key t w).2 = sent w /\ forall s, (open_tls key t w).1 = Ok s -> socket_key s = key.
Proof.
  unfold open_tls, mbind, mreturn. pose proof (nl_make key w) as Hk. pose proof (nl_make_frame key w) as Hm.
  destruct (make_socket key w) as [sock w1]. simpl in *. pose proof (nl_sni sock (k_host key) w1) as Hn.
  destruct (set_sni sock (k_host key) w1) as [[e|] w2]; simpl in *; [by split; [congruence|]|].
  pose proof (nl_resolve (k_host key) (k_port key) w2) as Hr.
  destruct (async_resolve _ _ w2) as [[ec|es] w3]; simpl in *; [by split; [congruence|destruct ec as [[]]]|].
  pose proof (nl_connect sock es t w3) as Hc. destruct (async_connect sock es t w3) as [[ec|] w4]; simpl in *.
  { split; [congruence|by destruct ec as [[]]]. }
  pose proof (nl_handshake sock t w4) as Hh. destruct (async_handshake sock t w4) as [[ec|] w5]; simpl in *.
  - split; [congruence|by destruct ec as [[]]].
  - split; [congruence|by intros s [= <-]].
Qed.

Lemma exchange_effect s r t w :
  sent (exchange s r t w).2 = sent w ++ [(socket_key s, r)].
Proof.
  unfold exchange, mbind, mreturn. pose proof (nl_write s r t w) as Hw.
  destruct (async_write s r t w) as [[ec|] w1]; simpl in *; [done|].
  pose proof (nl_read s t w1) as Hr. destruct (async_read s t w1) as [[ec|o] w2]; simpl in *; congruence.
Qed.

Lemma connection_effect key idle t p w : (forall s, idle = Some s -> socket_key s = key) ->
  let x := connection key idle t (p, w) in
  x.2.1 = p /\ sent x.2.2 = sent w /\ forall s, x.1 = Ok s -> socket_key s = key.
Proof.
  intros Hk. destruct idle as [s|]; cbn zeta; [split_and!; [done..|]; intros s' [= <-]; by apply Hk|].
  unfold connection, lift. cbn [fst snd]. destruct (k_https key).
  - destruct (open_tls_effect key t w). by destruct (open_tls key t w).
  - destruct (open_plain_effect key t w). by destruct (open_plain key t w).
Qed.

(** One hop: at most one message, to the endpoint it is meant for. *)
Lemma exchange_with_effect key r t p w : pool_ok p ->
  let x := exchange_with key r t (p, w) in
  pool_ok x.2.1 /\ (sent x.2.2 = sent w \/ sent x.2.2 = sent w ++ [(key, r)]).
Proof.
  intros Hp. unfold exchange_with, try_bind. cbn zeta. rewrite !mbind_proj.
  destruct (take_idle_ok key p w Hp) as (Hp1 & Hs1 & Hk1). destruct (take_idle key (p, w)) as [idle [p1 w1]]. simpl in *.
  destruct (connection_effect key idle t p1 w1 Hk1) as (Hp2 & Hs2 & Hk2).
  destruct (connection key idle t (p1, w1)) as [[s|e] [p2 w2]]; simpl in *; subst p2; rewrite Hs1 in Hs2; [|split; [done|by left]].
  specialize (Hk2 s eq_refl). rewrite !mbind_proj. pose proof (exchange_effect s r t w2) as Hx.
  rewrite Hs2, Hk2 in Hx. simpl.
  destruct (exchange s r t w2) as [[[resp keep]|e] w3]; simpl in *; [|split; [done|by right]].
  unfold mbind, mreturn. destruct keep.
  - destruct (return_idle_ok key s p1 w3 Hp1 Hk2) as [Hp4 Hs4]. destruct (return_idle key s (p1, w3)) as [[] [p4 w4]].
    simpl in *. split; [done|right; congruence].
  - unfold lift. simpl. pose proof (nl_shutdown s w3) as Hd. destruct (shutdown s w3) as [[] w4]. simpl in *.
    split; [done|right; congruence].
Qed.

(** [Authorization] goes to the origin of the request only. *)
Definition guarded (orig : ParsedUrl) (m : EndpointKey * WireRequest) : Prop :=
  field (w_fields m.2) "authorization" = None \/
  same_origin orig (MkUrl (k_https m.1) (k_host m.1) (k_port m.1) (w_target m.2)) = true.

Lemma hop_guarded redirected orig parsed method hs body b :
  (redirected = false -> parsed = orig) ->
  guarded orig (MkKey (https parsed) (host parsed) (port parsed),
                MkWire method (target parsed) (apply_headers body (hop_headers redirected orig parsed hs) (host_with_port parsed) b) body).
Proof.
  intros Hr. destruct (same_origin orig parsed) eqn:E; [right; by destruct parsed|left].
  destruct redirected.
  - apply apply_headers_absent; [by apply cross_origin_headers|by repeat constructor].
  - rewrite Hr in E by done. unfold same_origin in E. by rewrite !bool_decide_true, iequals_refl in E by done.
Qed.

(** From [w], at most [n] messages were sent, all of them guarded. *)
Definition follows (n : nat) (orig : ParsedUrl) (w : W) (c : ConnectionPool * W) : Prop :=
  pool_ok c.1 /\ exists l, sent c.2 = sent w ++ l /\ (length l <= n)%nat /\ Forall (guarded orig) l.

Lemma follows_nothing n orig p w : pool_ok p -> follows n orig w (p, w).
Proof. intros Hp. split; [done|]. exists []. rewrite app_nil_r. split_and!; [done|simpl; lia|done]. Qed.

Lemma follows_trans m n orig w p1 w1 c : follows m orig w (p1, w1) -> follows n orig w1 c -> follows (m + n) orig w c.
Proof.
  intros (_ & l1 & H1 & Hlen1 & Hf1) (Hp & l2 & H2 & Hlen2 & Hf2). split; [done|]. exists (l1 ++ l2). simpl in H1.
  rewrite H2, H1, app_assoc, length_app. split_and!; [done|lia|by apply Forall_app].
Qed.

Lemma request_loop_effect hops orig redirected method url hs body t p w :
  pool_ok p -> (redirected = false -> parse_url url = Some orig) ->
  follows hops orig w (request_loop hops orig redirected method url hs body t (p, w)).2.
Proof.
  revert redirected method url hs body p w. induction hops as [|more IH]; intros redirected method url hs body p w Hp Hr.
  { by apply follows_nothing. }
  cbn [request_loop]. destruct (parse_url url) as [parsed|] eqn:Hparsed; [|by apply follows_nothing].
  cbn zeta. unfold try_bind. rewrite mbind_proj. set (key := MkKey _ _ _). set (wire := MkWire _ _ _ _).
  assert (guarded orig (key, wire)) as Hg by (apply hop_guarded; intros H; specialize (Hr H); congruence).
  destruct (exchange_with_effect key wire t p w Hp) as [Hp1 Hs1].
  destruct (exchange_with key wire t (p, w)) as [res [p1 w1]]. cbn [fst snd] in *.
  apply (follows_trans 1 more _ _ p1 w1).
  - split; [done|]. destruct Hs1 as [Hs|Hs]; [exists []; rewrite app_nil_r|exists [(key, wire)]; rewrite Forall_singleton];
      split_and!; simpl; auto.
  - destruct res as [resp|e]; repeat crush_match; first [by apply follows_nothing|by apply IH].
Qed.

(** C21. Credentials stay where they were meant for: whatever the servers answer and however
    often they redirect, every message of a request that carries an [Authorization] field is
    sent to the origin (scheme, host and port) of the requested URL, over a connection that
    was made to that very endpoint, pooled connections included; and a request sends six
    messages at most. *)
Theorem authorization_stays_on_origin req p w : pool_ok p ->
  let c := (request req (p, w)).2 in
  pool_ok c.1 /\ exists l, sent c.2 = sent w ++ l /\ (length l <= S kMaxRedirects)%nat /\
    (l = [] \/ exists orig, parse_url (rq_url req) = Some orig /\ Forall (guarded orig) l).
Proof.
  intros Hp. unfold request. destruct (parse_url (rq_url req)) as [orig|] eqn:E.
  - destruct (request_loop_effect (S kMaxRedirects) orig false (rq_method req) (rq_url req) (rq_headers req) (rq_body req)
      (if rq_timeout req <=? 0 then 30000 else rq_timeout req) p w Hp) as (Hp' & l & Hl & Hlen & Hf); [by rewrite E|].
    split; [done|]. exists l. split_and!; [done..|]. right. by exists orig.
  - split; [done|]. exists []. rewrite app_nil_r. split_and!; [done|simpl; lia|by left].
Qed.

End Laws.

(** ** Redirect loops *)

Section Redirects.
  Context `{flds : !Fields} {W : Type} `{net : !Asio W}.

Definition about_redirects (e : AppError) : bool := starts_with (err_message e) "too many redirects".

Lemma translate_ec_other {A} ec context e :
  (forall s, starts_with (context +:+ s) "too many redirects" = false) ->
  @translate_ec A ec context = Err e -> about_redirects e = false.
Proof. intros H [= <-]. apply H. Qed.

Lemma open_errors key t w e : ((if k_https key then open_tls else open_plain) key t w).1 = Err e -> about_redirects e = false.
Proof.
  destruct (k_https key); unfold open_tls, open_plain, mbind, mreturn; repeat crush_match; simpl; intros H;
    first [done|by injection H as <-|by eapply translate_ec_other, H].
Qed.

Lemma exchange_errors s r t w e : (exchange s r t w).1 = Err e -> about_redirects e = false.
Proof.
  unfold exchange, mbind, mreturn. repeat crush_match; simpl; intros H;
    first [done|by injection H as <-|by eapply translate_ec_other, H].
Qed.

Lemma exchange_with_errors key r t c e : (exchange_with key r t c).1 = Err e -> about_redirects e = false.
Proof.
  unfold exchange_with, try_bind. rewrite mbind_proj. destruct (take_idle key c) as [idle c1]. simpl.
  rewrite mbind_proj. destruct (connection key idle t c1) as [[s|e1] c2] eqn:E; simpl.
  - rewrite mbind_proj. simpl. pose proof (exchange_errors s r t c2.2) as H.
    destruct (exchange s r t c2.2) as [[o|e2] w3]; simpl; [|intros [= <-]; by apply H].
    unfold mbind, mreturn. by destruct (_ (c2.1, w3)).
  - intros [= <-]. destruct idle; [done|]. unfold connection, lift in E. apply (open_errors key t c1.2). by injection E.
Qed.

(** A redirect loop is never reported as one: the error for too many redirects is
    unreachable, because the last iteration returns the redirect itself as the response. *)
Theorem redirect_limit_never_reported req c e :
  (request req c).1 = Err e -> about_redirects e = false.
Proof.
  unfold request. destruct (parse_url (rq_url req)); [|by intros [= <-]].
  assert (forall hops orig r m u hs b t c, (0 <? hops)%nat = true ->
    (request_loop hops orig r m u hs b t c).1 = Err e -> about_redirects e = false) as Hloop; [|by apply Hloop].
  induction hops as [|more IH]; intros orig r m u hs b t c' Hpos; [done|]. cbn [request_loop].
  destruct (parse_url u) as [parsed|]; [|by intros [= <-]]. cbn zeta. unfold try_bind. rewrite mbind_proj.
  match goal with |- context [exchange_with ?k ?x ?t ?c] =>
    pose proof (exchange_with_errors k x t c) as He; destruct (exchange_with k x t c) as [[resp|e1] c1] end;
    cbn [fst snd] in He |- *; [|by intros [= <-]; apply He].
  destruct (is_redirect _); [|done]. destruct (0 <? more)%nat eqn:Hmore; [|done].
  repeat crush_match; first [done|by intros [= <-]|by apply IH].
Qed.

End Redirects.

(** ** URLs *)

Definition not_slash (c : ascii) : bool := negb (bool_decide (c = "/"%char)).

(** What a parsed URL looks like. *)
Definition url_ok (u : ParsedUrl) : Prop :=
  chars (host u) <> [] /\ "/"%char ∉ chars (host u) /\ "@"%char ∉ chars (host u) /\
  chars (port u) <> [] /\ forallb isdigit (chars (port u)) = true /\ exists t, chars (target u) = "/"%char :: t.

Lemma parse_url_ok url u : parse_url url = Some u -> url_ok u.
Proof.
  unfold parse_url. destruct (if starts_with url "https://" then _ else _) as [[b rest]|]; [|done].
  fold not_slash. pose proof (take_while_Forall not_slash rest) as Ha.
  assert (exists t, (match drop_while not_slash rest with [] => ["/"%char] | t => t end) = "/"%char :: t) as [t Ht].
  { destruct (drop_while not_slash rest) as [|c t] eqn:E; [eauto|]. apply drop_while_head in E.
    exists t. f_equal. unfold not_slash in E. apply negb_false_iff, bool_decide_eq_true in E. done. }
  rewrite Ht. clear Ht. set (authority := take_while not_slash rest) in *.
  assert ("/"%char ∉ authority) as Hslash.
  { intros Hin. by apply (proj1 (Forall_forall _ _) Ha) in Hin. }
  destruct (bool_decide_reflect ("@"%char ∈ authority)) as [|Hat]; [done|].
  destruct (split_last ":"%char authority) as [[h p]|] eqn:E.
  - apply split_last_Some in E as [E _]. rewrite E in Hslash, Hat. apply not_elem_of_app in Hslash as [Hs _], Hat as [Hat _].
    destruct (bool_decide_reflect (h = [])); [done|]. destruct (bool_decide_reflect (p = [])); [done|].
    destruct (forallb isdigit p) eqn:Hp; [|done]. intros [= <-]. unfold url_ok. simpl. rewrite !chars_of_chars. eauto 10.
  - destruct (bool_decide_reflect (authority = [])); [done|]. intros [= <-]. unfold url_ok. simpl. rewrite !chars_of_chars.
    split_and!; [done..| | |by exists t]; by destruct b.
Qed.

Lemma not_slash_Forall l : "/"%char ∉ l -> Forall (fun c => not_slash c = true) l.
Proof.
  intros H. apply Forall_forall. intros c Hc. unfold not_slash. apply negb_true_iff, bool_decide_eq_false. by intros ->.
Qed.

Lemma digits_not_in l c : isdigit c = false -> forallb isdigit l = true -> c ∉ l.
Proof.
  intros Hc Hl Hin. rewrite forallb_forall in Hl. apply list_elem_of_In, Hl in Hin. congruence.
Qed.

(** A URL put together from its parts parses to them. *)
Lemma parse_url_build u t :
  url_ok u -> ":"%char ∉ chars (host u) ->
  parse_url ((if https u then "https://" else "http://") +:+ host_with_port u +:+ of_chars ("/"%char :: t)) =
    Some (MkUrl (https u) (host u) (port u) (of_chars ("/"%char :: t))).
Proof.
  intros (Hh & Hslash & Hat & Hp & Hd & _) Hcolon. set (tl := of_chars ("/"%char :: t)).
  set (auth := chars (host_with_port u)).
  assert (exists rest, chars (host_with_port u +:+ tl) = rest /\ rest = auth ++ "/"%char :: t) as (rest & Hrest & Heq).
  { eexists. split; [done|]. subst tl auth. by rewrite chars_app, chars_of_chars. }
  assert (Forall (fun c => not_slash c = true) auth /\ "@"%char ∉ auth) as [Hauth Hat'].
  { subst auth. unfold host_with_port. assert (Forall (fun c => not_slash c = true) (chars (host u))) as Hnh by by apply not_slash_Forall.
    destruct (bool_decide_reflect (port u = default_port (https u))); [done|].
    rewrite !chars_app. change (chars ":") with [":"%char]. split.
    - apply Forall_app. split; [done|]. constructor; [done|]. by apply not_slash_Forall, digits_not_in.
    - rewrite !not_elem_of_app, not_elem_of_cons. split_and!; [done|done|set_solver|by apply digits_not_in]. }
  unfold parse_url.
  assert ((if starts_with ((if https u then "https://" else "http://") +:+ host_with_port u +:+ tl) "https://"
           then Some (true, drop 8 (chars ((if https u then "https://" else "http://") +:+ host_with_port u +:+ tl)))
           else if starts_with ((if https u then "https://" else "http://") +:+ host_with_port u +:+ tl) "http://"
                then Some (false, drop 7 (chars ((if https u then "https://" else "http://") +:+ host_with_port u +:+ tl)))
                else None) = Some (https u, rest)) as -> by (subst rest; by destruct (https u)).
  fold not_slash. rewrite Heq. destruct (take_while_app_stop not_slash auth "/"%char t Hauth eq_refl) as [-> ->].
  rewrite bool_decide_false by done. subst auth. unfold host_with_port.
  destruct (bool_decide_reflect (port u = default_port (https u))) as [Hport|Hport].
  - rewrite (proj2 (split_last_None _ _) Hcolon), bool_decide_false by done.
    rewrite of_chars_chars, Hport. done.
  - rewrite !chars_app. change (chars ":") with [":"%char]. cbn [app].
    rewrite split_last_app.
    + rewrite !bool_decide_false, Hd by done. simpl. by rewrite !of_chars_chars.
    + by apply digits_not_in.
Qed.

Lemma of_chars_slash l : of_chars ("/"%char :: l) = "/" +:+ of_chars l.
Proof. done. Qed.

(** Relative redirects stay at home: from any URL whose host is not an IPv6 literal, a
    [Location] without a scheme, however it is written, leads to a well-formed URL of the
    same scheme, host and port. *)
Theorem relative_redirects_stay url u location :
  parse_url url = Some u -> ":"%char ∉ chars (host u) -> location <> "" ->
  starts_with location "http://" = false -> starts_with location "https://" = false ->
  exists next v, resolve_redirect u location = Some next /\ parse_url next = Some v /\
    same_origin u v = true /\ url_ok v.
Proof.
  intros Hu%parse_url_ok Hcolon Hne H1 H2.
  assert (exists t, resolve_redirect u location =
    Some ((if https u then "https://" else "http://") +:+ host_with_port u +:+ of_chars ("/"%char :: t))) as [t Ht].
  { unfold resolve_redirect. destruct (str_empty location) eqn:He; [by apply str_empty_spec in He|].
    rewrite H1, H2. cbn [orb]. destruct (starts_with location "/") eqn:Hs.
    - apply starts_with_spec in Hs as [r ->]. exists (chars r). by rewrite str_app_assoc, of_chars_slash, of_chars_chars.
    - destruct Hu as (_ & _ & _ & _ & _ & t & Ht). rewrite Ht. rewrite str_app_assoc.
      destruct (split_last "/"%char ("/"%char :: t)) as [[d r]|] eqn:E; [|exists (chars location)].
      + apply split_last_Some in E as [E _]. assert (exists d', d ++ ["/"%char] = "/"%char :: d') as [d' ->].
        { destruct d as [|c d]; [by exists []|]. injection E as <- _. by exists (d ++ ["/"%char]). }
        exists (d' ++ chars location). by rewrite app_comm_cons, of_chars_app, of_chars_chars.
      + by rewrite of_chars_slash, of_chars_chars. }
  pose proof (parse_url_build u t Hu Hcolon) as Hv. eexists _, _. split; [exact Ht|]. split; [exact Hv|]. split.
  - unfold same_origin. simpl. by rewrite !bool_decide_true, iequals_refl.
  - by apply parse_url_ok in Hv.
Qed.

(** ** The bound on the number of endpoints *)

Section Cap.
  Context `{flds : !Fields} {W : Type} `{net : !Asio W}.

Lemma idle_of_set b m p : idle_of b (set_idle b m p) = m.
Proof. by destruct b. Qed.

(** The cap of 32 endpoints never applies: whatever the pool holds, a request has created
    the entry of its endpoint by looking for an idle socket, so its connection is kept
    afterwards unless that endpoint is full, and the number of endpoints grows with every new
    host. *)
Theorem endpoint_cap_never_applies key sock p w :
  let c1 := (take_idle key (p, w)).2 in
  let c2 := (return_idle key sock c1).2 in
  exists q, idle_of (k_https key) c1.1 !! key = Some q /\
    ((length q < kMaxSocketsPerEndpoint)%nat ->
      exists t, idle_of (k_https key) c2.1 = <[key := q ++ [(sock, t)]]> (idle_of (k_https key) c1.1)) /\
    dom (idle_of (k_https key) p) ∪ {[ key ]} = dom (idle_of (k_https key) c2.1).
Proof.
  unfold take_idle, return_idle, mbind, mreturn, get_state, put_state, lift. cbn [fst snd].
  set (q := removelast _). exists q. rewrite idle_of_set, lookup_insert_eq. split; [done|].
  rewrite (bool_decide_false (Some q = None)) by done. rewrite andb_false_r. cbn [default]. unfold id.
  destruct (Nat.leb_spec kMaxSocketsPerEndpoint (length q)) as [Hfull|Hroom]; cbn [fst snd];
    rewrite !idle_of_set, !insert_insert_eq, dom_insert_L; (split; [|set_solver]); [lia|intros _; eexists; by rewrite insert_insert_eq].
Qed.

End Cap.

(** ** A concrete network *)

Module MemNet.

#[export] Instance fields : Fields := {
  fields := string -> option string;
  no_fields := fun _ => None;
  set_field n v fs := fun n' => if iequals n n' then Some v else fs n';
  field fs n := fs n
}.

#[export] Instance fields_laws : FieldsLaws.
Proof. by split. Qed.

(** What was sent, in order; every host redirects ["/start"] to another host. *)
Definition World : Type := list (EndpointKey * WireRequest).

Definition answer (w : World) : HttpResponse :=
  match last w with
  | Some (_, r) => if bool_decide (w_target r = "/start") then MkResponse 302 [MkHeader "Location" "http://other.org/end"] ""
                   else MkResponse 200 [] "done"
  | None => MkResponse 500 [] ""
  end.

#[export] Instance net : Asio World := {
  Socket := EndpointKey;
  Endpoints := unit;
  make_socket key := mreturn key;
  set_sni _ _ := mreturn None;
  async_resolve _ _ := mreturn (inr ());
  async_connect _ _ _ := mreturn None;
  async_handshake _ _ := mreturn None;
  async_write s r _ := fun w => (None, w ++ [(s, r)]);
  async_read _ _ := fun w => (inr (answer w, true), w);
  shutdown _ := mreturn ();
  steady_now := mreturn 1000000000000
}.

#[export] Instance net_laws : AsioLaws (W := World) id id.
Proof. by split. Qed.

Definition empty_pool : ConnectionPool := MkPool ∅ ∅.

Lemma empty_pool_ok : pool_ok (W := World) id empty_pool.
Proof. intros b key q. by destruct b; simpl; rewrite lookup_empty. Qed.

(** A request with credentials to a host that redirects elsewhere. *)
Definition secret_request : HttpRequest :=
  MkRequest Post "http://api.org/start" [MkHeader "AUTHORIZATION" "Bearer x"] "q" 0.

End MemNet.
Import MemNet.

Lemma authorization_stays_on_origin_witness :
  let c := (request secret_request (empty_pool, [] : World)).2 in
  pool_ok (W := World) id c.1 /\
  (fun m => (k_host m.1, field (w_fields m.2) "authorization")) <$> c.2 =
    [("api.org", Some "Bearer x"); ("other.org", None)].
Proof.
  intros c. split; [|by vm_compute].
  exact (proj1 (authorization_stays_on_origin (W := World) id id secret_request empty_pool [] empty_pool_ok)).
Defined.

Lemma redirect_limit_never_reported_witness :
  exists e, (request (MkRequest Get "ftp://h/" [] "" 1) (empty_pool, [] : World)).1 = Err e /\ about_redirects e = false.
Proof.
  eexists. split; [reflexivity|].
  exact (redirect_limit_never_reported (MkRequest Get "ftp://h/" [] "" 1) (empty_pool, [] : World) _ eq_refl).
Defined.

Lemma relative_redirects_stay_witness :
  exists u next v, parse_url "https://h:8443/a/b" = Some u /\ resolve_redirect u "c?d" = Some next /\
    parse_url next = Some v /\ same_origin u v = true.
Proof.
  destruct (relative_redirects_stay "https://h:8443/a/b" (MkUrl true "h" "8443" "/a/b") "c?d") as (next & v & H1 & H2 & H3 & _);
    [by vm_compute|by apply (bool_decide_unpack _); vm_compute|done..|].
  by exists (MkUrl true "h" "8443" "/a/b"), next, v.
Defined.
