(* ===== verification/HttpDownload.v ===== *)
(** * Streaming downloads: [BeastHttpClient::download_to_file]

    The exchange that writes the body of a response to a file as it arrives, and the redirect
    loop around it, over the connections of [BeastHttpClient.v].  The incremental parser of Beast
    and the output file are parameters. *)

From S2P Require Import Prelude CoreError Ports Http BeastHttpClient.

Local Open Scope coro_scope.

(** 250 milliseconds on the steady clock. *)
Definition kProgressMinInterval : Z := 250000000.

(** The head of a response with its [keep_alive()]. *)
Record ResponseHead := MkHead { hd_status : Z; hd_headers : list HttpHeader; hd_keep_alive : bool }.

(** The error of a read: [need_buffer] only says that the chunk is full. *)
Inductive ReadEnd := ReadOk | NeedBuffer | ReadError (ec : BoostError).

(** The parser with a [buffer_body], and the destination file; opening and writing give the state
    of the stream, closing gives what [close] made of it. *)
Class StreamAsio (W : Type) `{flds : !Fields} `{net : !Asio W} := {
  async_read_header : Socket -> Z -> M W (BoostError + ResponseHead);
  parser_is_done : Socket -> M W bool;
  async_read_some : Socket -> Z -> M W (ReadEnd * list ascii)
}.
Class DestFile (W : Type) := {
  dest_open : string -> M W bool;
  dest_write : list ascii -> M W bool;
  dest_close : M W bool
}.

(** [on_progress], with the exception it may throw. *)
Definition ProgressCallback (W : Type) : Type := option (Z -> Z -> M W (option string)).

Section Download.
  Context `{flds : !Fields} {W : Type} `{net : !Asio W} `{stream : !StreamAsio W} `{file : !DestFile W}.
  Notation C := (ConnectionPool * W)%type.

(** A call of the callback, its exception swallowed. *)
Definition notify (on_progress : ProgressCallback W) (downloaded total : Z) : M W unit :=
  match on_progress with
  | Some f => co_await thrown <- f downloaded total; co_return ()
  | None => co_return ()
  end.

Definition is_success (code : Z) : bool := (200 <=? code) && (code <? 300).

(** The body length of the [Content-Length] field, -1 when there is none. *)
Definition content_length (headers : list HttpHeader) : Z :=
  match find_header "content-length" headers with
  | Some cl => default (-1) (stoll cl)
  | None => -1
  end.

(** The callback of a chunk, at most one in [kProgressMinInterval]; the value is [last_cb]. *)
Definition notify_throttled (on_progress : ProgressCallback W) (downloaded total last_cb : Z) : M W Z :=
  co_await now <- steady_now;
  match on_progress with
  | Some _ => if kProgressMinInterval <=? now - last_cb then (co_do notify on_progress downloaded total; co_return now) else co_return last_cb
  | None => co_return last_cb
  end.

(** The count of bytes, [last_cb], and the body kept in memory. *)
Record BodyState := MkBody { bd_downloaded : Z; bd_last_cb : Z; bd_kept : list ascii }.

(** A piece of the body: to the file, or to the memory when the status is no success. *)
Definition take_piece (dest : string) (success : bool) (on_progress : ProgressCallback W) (total : Z) (bytes : list ascii) (st : BodyState)
  : M W (Result BodyState) :=
  if (length bytes =? 0)%nat then co_return Ok st
  else
    co_await written <- (if success then dest_write bytes else co_return true);
    if negb written then co_return error Io ("write: " +:+ dest)
    else
      let downloaded := bd_downloaded st + Z.of_nat (length bytes) in
      co_await last_cb <- notify_throttled on_progress downloaded total (bd_last_cb st);
      co_return Ok (MkBody downloaded last_cb (if success then bd_kept st else bd_kept st ++ bytes)).

(** The loop over the body.  [None] is a loop that still runs when the fuel is out. *)
Fixpoint read_body (fuel : nat) (sock : Socket) (dest : string) (success : bool) (on_progress : ProgressCallback W) (total timeout : Z)
  (st : BodyState) : M W (option (Result BodyState)) :=
  match fuel with
  | O => co_return None
  | S fuel =>
      co_await finished <- parser_is_done sock;
      if finished then co_return Some (Ok st)
      else
        co_await got <- async_read_some sock timeout;
        match got.1 with
        | ReadError ec => co_return Some (translate_ec ec "http read body")
        | _ =>
            co_await taken <- take_piece dest success on_progress total got.2 st;
            match taken with
            | Err e => co_return Some (Err e)
            | Ok st => read_body fuel sock dest success on_progress total timeout st
            end
        end
  end.

(** The end of a file: its last report, and [close], whose outcome is not looked at. *)
Definition close_file : M W unit := co_await state <- dest_close; co_return ().
Definition finish_file (on_progress : ProgressCallback W) (downloaded total : Z) : M W unit :=
  co_do notify on_progress downloaded total; close_file.

(** The body of a response into the file it was opened for, which is closed on every way
    out. *)
Definition body_to_file (fuel : nat) (sock : Socket) (dest : string) (on_progress : ProgressCallback W) (timeout : Z) (head : ResponseHead)
  : M W (option (Result (HttpResponse * bool))) :=
  let success := is_success (hd_status head) in
  let total := content_length (hd_headers head) in
  co_await now <- steady_now;
  co_await read <- read_body fuel sock dest success on_progress total timeout (MkBody 0 (now - kProgressMinInterval) []);
  match read with
  | None => co_return None
  | Some (Err e) => co_do (if success then close_file else co_return ()); co_return Some (Err e)
  | Some (Ok st) =>
      co_do (if success then finish_file on_progress (bd_downloaded st) total else co_return ());
      co_return Some (Ok (MkResponse (hd_status head) (hd_headers head) (of_chars (bd_kept st)), hd_keep_alive head))
  end.

(** [exchange_to_file]. *)
Definition exchange_to_file (fuel : nat) (sock : Socket) (req : WireRequest) (dest : string) (on_progress : ProgressCallback W) (timeout : Z)
  : M W (option (Result (HttpResponse * bool))) :=
  co_await written <- async_write sock req timeout;
  match written with
  | Some ec => co_return Some (translate_ec ec "http write")
  | None =>
      co_await head <- async_read_header sock timeout;
      match head with
      | inl ec => co_return Some (translate_ec ec "http read header")
      | inr head =>
          co_await opened <- (if is_success (hd_status head) then dest_open dest else co_return true);
          if negb opened then co_return Some (error Io ("open for write: " +:+ dest))
          else body_to_file fuel sock dest on_progress timeout head
      end
  end.

(** One hop: a connection, the exchange, and the connection kept or closed. *)
Definition download_hop (fuel : nat) (key : EndpointKey) (req : WireRequest) (dest : string) (on_progress : ProgressCallback W) (timeout : Z)
  : M C (option (Result HttpResponse)) :=
  co_await idle <- take_idle key;
  co_await sock <- connection key idle timeout;
  match sock with
  | Err e => co_return Some (Err e)
  | Ok sock =>
      co_await outcome <- lift (exchange_to_file fuel sock req dest on_progress timeout);
      match outcome with
      | None => co_return None
      | Some (Err e) => co_return Some (Err e)
      | Some (Ok (resp, reusable)) => co_do (if reusable then return_idle key sock else lift (shutdown sock)); co_return Some (Ok resp)
      end
  end.

(** The loop of [download_to_file] with [hops] iterations left; it always asks with [GET]. *)
Fixpoint download_loop (hops fuel : nat) (orig : ParsedUrl) (redirected : bool) (url : string) (headers : list HttpHeader) (dest : string)
  (on_progress : ProgressCallback W) (timeout : Z) : M C (option (Result HttpResponse)) :=
  match hops with
  | O => co_return Some (error Network ("too many redirects (max " +:+ fmt_int (Z.of_nat kMaxRedirects) +:+ "): " +:+ url))
  | S more =>
      match parse_url url with
      | None => co_return Some (error InvalidArgument ("malformed URL (redirect): " +:+ url))
      | Some parsed =>
          let key := MkKey (https parsed) (host parsed) (port parsed) in
          let headers := hop_headers redirected orig parsed headers in
          let wire := MkWire Get (target parsed) (apply_headers "" headers (host_with_port parsed) false) "" in
          co_await outcome <- download_hop fuel key wire dest on_progress timeout;
          match outcome with
          | Some (Ok resp) =>
              if is_redirect (status_code resp) && (0 <? more)%nat then
                match find_header "location" (resp_headers resp) with
                | None => co_return Some (Ok resp)
                | Some location =>
                    match resolve_redirect parsed location with
                    | None => co_return Some (error Network ("redirect target malformed: " +:+ location))
                    | Some next => download_loop more fuel orig true next headers dest on_progress timeout
                    end
                end
              else co_return Some (Ok resp)
          | other => co_return other
          end
      end
  end.

(** [BeastHttpClient::download_to_file]. *)
Definition download_to_file (fuel : nat) (url dest : string) (on_progress : ProgressCallback W) (headers : list HttpHeader)
  : M C (option (Result HttpResponse)) :=
  match parse_url url with
  | None => co_return Some (error InvalidArgument ("malformed URL: " +:+ url))
  | Some orig => download_loop (S kMaxRedirects) fuel orig false url headers dest on_progress 60000
  end.

End Download.

(** ** What a download leaves in the file *)

Section Laws.
  Context `{flds : !Fields} {W : Type} `{net : !Asio W} `{stream : !StreamAsio W} `{file : !DestFile W}.
  Context (streamed received : W -> list ascii) (left : W -> nat) (on_progress : ProgressCallback W).
  Notation C := (ConnectionPool * W)%type.

(** The bytes given to the open file, the bytes of the body that the parser has handed over, and
    how many more reads it takes at most. *)
Definition seen (w : W) : list ascii * list ascii * nat := (streamed w, received w, left w).

Class StreamLaws : Prop := {
  st_header s t w h w' : async_read_header s t w = (inr h, w') -> received w' = [] /\ streamed w' = streamed w;
  st_done s w : seen (parser_is_done s w).2 = seen w;
  st_done_left s w : (parser_is_done s w).1 = true <-> left w = 0%nat;
  st_read s t w : left w <> 0%nat ->
    let r := async_read_some s t w in
    received r.2 = received w ++ r.1.2 /\ streamed r.2 = streamed w /\ ((forall ec, r.1.1 <> ReadError ec) -> (left r.2 < left w)%nat);
  st_open d w w' : dest_open d w = (true, w') -> seen w' = ([], received w, left w);
  st_write b w w' : dest_write b w = (true, w') -> seen w' = (streamed w ++ b, received w, left w);
  st_close :: Preserves seen dest_close;
  st_now :: Preserves seen steady_now;
  st_progress f d t : on_progress = Some f -> Preserves seen (f d t);
  st_make key :: Preserves seen (make_socket key);
  st_sni s h :: Preserves seen (set_sni s h);
  st_resolve h p :: Preserves seen (async_resolve h p);
  st_connect s e t :: Preserves seen (async_connect s e t);
  st_handshake s t :: Preserves seen (async_handshake s t);
  st_send s r t :: Preserves seen (async_write s r t);
  st_shutdown s :: Preserves seen (shutdown s)
}.
Context `{laws : !StreamLaws}.

Lemma notify_seen d t w : seen (notify on_progress d t w).2 = seen w.
Proof.
  unfold notify, mbind, mreturn. destruct on_progress as [f|] eqn:E; [|done].
  pose proof (@preserves _ _ _ _ _ (st_progress f d t E) w) as H. by destruct (f d t w).
Qed.

Lemma notify_throttled_seen d t l w : seen (notify_throttled on_progress d t l w).2 = seen w.
Proof.
  unfold notify_throttled, mbind, mreturn. pose proof (preserves (v := seen) (m := steady_now) w) as H.
  destruct (steady_now w) as [now w1]. cbn [snd] in H. pose proof (notify_seen d t w1) as Hn.
  destruct on_progress as [f|]; [|done]. destruct (_ <=? _); [|done]. destruct (notify (Some f) d t w1). cbn [snd] in *. congruence.
Qed.

(** What a piece of the body did: to the file, or to the memory. *)
Definition moved (success : bool) (w w' : W) (kept kept' l : list ascii) : Prop :=
  received w' = received w ++ l /\
  if success then streamed w' = streamed w ++ l /\ kept' = kept else streamed w' = streamed w /\ kept' = kept ++ l.

Lemma moved_nothing success w w' kept : streamed w' = streamed w -> received w' = received w -> moved success w w' kept kept [].
Proof. intros Hs Hr. unfold moved. rewrite Hs, Hr, !app_nil_r. by destruct success. Qed.

Lemma moved_trans success w1 w2 w3 k1 k2 k3 l1 l2 : moved success w1 w2 k1 k2 l1 -> moved success w2 w3 k2 k3 l2 -> moved success w1 w3 k1 k3 (l1 ++ l2).
Proof.
  intros [H1 H2] [H3 H4]. split; [by rewrite H3, H1, app_assoc|]. destruct success; destruct H2 as [H2 ->], H4 as [-> ->]; by rewrite H2, ?app_assoc.
Qed.

Lemma seen_parts w1 w2 : seen w1 = seen w2 -> streamed w1 = streamed w2 /\ received w1 = received w2 /\ left w1 = left w2.
Proof. by intros [= -> -> ->]. Qed.

Lemma take_piece_moves dest success total bytes st w :
  let x := take_piece dest success on_progress total bytes st w in
  forall st', x.1 = Ok st' -> left x.2 = left w /\
    if success then streamed x.2 = streamed w ++ bytes /\ received x.2 = received w /\ bd_kept st' = bd_kept st
    else streamed x.2 = streamed w /\ received x.2 = received w /\ bd_kept st' = bd_kept st ++ bytes.
Proof.
  unfold take_piece. destruct (Nat.eqb_spec (length bytes) 0) as [E%nil_length_inv|_].
  { rewrite E. cbn. intros st' [= <-]. rewrite !app_nil_r. by destruct success. }
  cbv zeta. rewrite mbind_proj. set (m := if success then _ else _).
  assert (forall w3, m w = (true, w3) -> seen w3 = if success then (streamed w ++ bytes, received w, left w) else seen w) as Hw.
  { intros w3. unfold m. destruct success; [apply st_write|by intros [= <-]]. }
  destruct (m w) as [[] w3]; cbn [negb fst snd]; [|done]. specialize (Hw w3 eq_refl). rewrite mbind_proj.
  set (d := bd_downloaded st + _). pose proof (notify_throttled_seen d total (bd_last_cb st) w3) as Hn. rewrite Hw in Hn.
  destruct (notify_throttled on_progress d total (bd_last_cb st) w3) as [cb w4]. cbn in *. intros st' [= <-].
  destruct success; injection Hn as -> -> ->; done.
Qed.

Lemma read_body_moves fuel sock dest success total timeout st w : (left w < fuel)%nat ->
  let x := read_body fuel sock dest success on_progress total timeout st w in
  exists r, x.1 = Some r /\ forall st', r = Ok st' -> exists l, moved success w x.2 (bd_kept st) (bd_kept st') l.
Proof.
  revert st w. induction fuel as [|fuel IH]; intros st w Hleft; [lia|]. cbn [read_body]. cbv zeta.
  rewrite mbind_proj. pose proof (st_done sock w) as Hd. pose proof (st_done_left sock w) as Hl.
  destruct (parser_is_done sock w) as [finished w1]. cbn [fst snd] in *. apply seen_parts in Hd as (Hd1 & Hd2 & Hd3).
  destruct finished.
  { eexists. split; [done|]. intros st' [= <-]. exists []. by apply moved_nothing. }
  rewrite mbind_proj. destruct (st_read sock timeout w1) as (Hr & Hs & Hlt); [rewrite Hd3; intros H; by apply Hl in H|].
  destruct (async_read_some sock timeout w1) as [[e bytes] w2]. cbn [fst snd] in *.
  destruct e as [| |ec]; [| |by eexists]; specialize (Hlt ltac:(done)); rewrite mbind_proj;
    pose proof (take_piece_moves dest success total bytes st w2) as Hp;
    destruct (take_piece dest success on_progress total bytes st w2) as [[st1|e] w3]; cbn [fst snd] in *; try (by eexists);
    destruct (Hp st1 eq_refl) as [Hl3 Hm3]; destruct (IH st1 w3) as (r & Hx & Hm); try lia; exists r; (split; [done|]); intros st' Hk;
    destruct (Hm st' Hk) as [l Hml]; exists (bytes ++ l); apply (moved_trans success w w3 _ _ (bd_kept st1)); try done; unfold moved;
    rewrite <- Hd1, <- Hd2, <- Hs, <- Hr; by destruct success as [], Hm3 as (-> & -> & ->).
Qed.

(** What a response left: a success has its whole body in the file and nothing in memory, any
    other has it in memory and the file as it was. *)
Definition delivered (w w' : W) (resp : HttpResponse) : Prop :=
  if is_success (status_code resp) then streamed w' = received w' /\ body resp = ""
  else streamed w' = streamed w /\ body resp = of_chars (received w').

Lemma delivered_seen w0 w w' w'' resp :
  streamed w0 = streamed w -> seen w'' = seen w' -> delivered w w' resp -> delivered w0 w'' resp.
Proof. unfold delivered. intros Hs [= -> -> _]. by rewrite Hs. Qed.

Lemma finish_seen d t w : seen (finish_file on_progress d t w).2 = seen w.
Proof.
  unfold finish_file, close_file. rewrite !mbind_proj, <- (notify_seen d t w). exact (preserves (v := seen) (m := dest_close) _).
Qed.

Lemma body_to_file_effect fuel sock dest timeout head w :
  (left w < fuel)%nat -> received w = [] -> (is_success (hd_status head) = true -> streamed w = []) ->
  let x := body_to_file fuel sock dest on_progress timeout head w in
  exists r, x.1 = Some r /\ forall o, r = Ok o -> status_code o.1 = hd_status head /\ delivered w x.2 o.1.
Proof.
  intros Hleft Hr Hs. unfold body_to_file. cbv zeta. rewrite mbind_proj. pose proof (preserves (v := seen) (m := steady_now) w) as Hn.
  destruct (steady_now w) as [t w1]. cbn [fst snd] in *. apply seen_parts in Hn as (Hn1 & Hn2 & Hn3). rewrite mbind_proj. set (st := MkBody _ _ _).
  destruct (read_body_moves fuel sock dest (is_success (hd_status head)) (content_length (hd_headers head)) timeout st w1) as (r & Hx & Hm); [lia|].
  destruct (read_body _ _ _ _ _ _ _ _ w1) as [x w2]. cbn [fst snd] in *. subst x. destruct r as [st'|e]; [|rewrite mbind_proj; by eexists].
  destruct (Hm st' eq_refl) as (l & Hrl & Hsl). rewrite Hn1, ?Hn2, Hr in *. rewrite mbind_proj. unfold delivered.
  destruct (is_success (hd_status head)) eqn:Ok; cbn [fst snd]; eexists; (split; [done|]); intros o [= <-]; cbn [fst snd status_code body]; (split; [done|]); rewrite Ok.
  - unfold mreturn. cbn [fst snd]. destruct (seen_parts _ _ (finish_seen (bd_downloaded st') (content_length (hd_headers head)) w2)) as (-> & -> & _).
    destruct Hsl as [-> Hk]. rewrite Hrl, (Hs eq_refl), Hk. done.
  - cbn. destruct Hsl as [-> Hk]. by rewrite Hrl, Hk.
Qed.

Context (fuel : nat) (Hfuel : forall s t w h w', async_read_header s t w = (inr h, w') -> (left w' < fuel)%nat).

Lemma exchange_to_file_effect sock req dest timeout w :
  let x := exchange_to_file fuel sock req dest on_progress timeout w in
  exists r, x.1 = Some r /\ forall o, r = Ok o -> delivered w x.2 o.1.
Proof.
  unfold exchange_to_file. cbv zeta. rewrite mbind_proj. pose proof (preserves (v := seen) (m := async_write sock req timeout) w) as Hw.
  destruct (async_write sock req timeout w) as [[ec|] w1]; cbn [fst snd] in *; [by eexists|]. apply seen_parts in Hw as (Hw & _).
  rewrite mbind_proj. pose proof (st_header sock timeout w1) as Hh. pose proof (Hfuel sock timeout w1) as Hlt.
  destruct (async_read_header sock timeout w1) as [[ec|head] w2]; cbn [fst snd] in *; [by eexists|].
  destruct (Hh head w2 eq_refl) as [Hr Hs]. specialize (Hlt head w2 eq_refl). rewrite mbind_proj.
  destruct (is_success (hd_status head)) eqn:Ok.
  - pose proof (st_open dest w2) as Ho. destruct (dest_open dest w2) as [[] w3]; cbn [fst snd negb]; [|by eexists].
    injection (Ho w3 eq_refl) as E1 E2 E3.
    destruct (body_to_file_effect fuel sock dest timeout head w3) as (r & Hx & Hd); [lia|congruence|done|].
    exists r. split; [done|]. intros o Ho'. destruct (Hd o Ho') as [Hst Hdel]. unfold delivered in *. by rewrite Hst, Ok in *.
  - destruct (body_to_file_effect fuel sock dest timeout head w2) as (r & Hx & Hd); [lia|done|by rewrite Ok|].
    exists r. split; [done|]. intros o Ho'. destruct (Hd o Ho') as [_ Hdel]. eapply delivered_seen; [|done|exact Hdel]; congruence.
Qed.

Lemma take_idle_seen key p w : seen (take_idle key (p, w)).2.2 = seen w.
Proof. unfold take_idle. rewrite !mbind_proj. cbn. exact (preserves (v := seen) (m := steady_now) w). Qed.

Lemma return_idle_seen key s p w : seen (return_idle key s (p, w)).2.2 = seen w.
Proof.
  unfold return_idle. rewrite mbind_proj. cbn [fst snd get_state]. cbv zeta. destruct (_ && _); [done|]. destruct (_ <=? _)%nat; [done|].
  rewrite mbind_proj. exact (preserves (v := seen) (m := steady_now) w).
Qed.

Lemma open_plain_seen key t w : seen (open_plain key t w).2 = seen w.
Proof.
  unfold open_plain. rewrite !mbind_proj, <- (preserves (v := seen) (m := make_socket key) w).
  destruct (make_socket key w) as [sock w1]. cbn [fst snd].
  pose proof (preserves (v := seen) (m := async_resolve (k_host key) (k_port key)) w1) as Hr.
  destruct (async_resolve (k_host key) (k_port key) w1) as [[ec|es] w2]; cbn [fst snd] in *; [done|]. rewrite mbind_proj, <- Hr.
  exact (preserves (v := seen) (m := async_connect sock es t) w2).
Qed.

Lemma open_tls_seen key t w : seen (open_tls key t w).2 = seen w.
Proof.
  unfold open_tls. rewrite !mbind_proj, <- (preserves (v := seen) (m := make_socket key) w).
  destruct (make_socket key w) as [sock w1]. cbn [fst snd].
  pose proof (preserves (v := seen) (m := set_sni sock (k_host key)) w1) as Hs.
  destruct (set_sni sock (k_host key) w1) as [[e|] w2]; cbn [fst snd] in *; [done|]. rewrite mbind_proj, <- Hs.
  pose proof (preserves (v := seen) (m := async_resolve (k_host key) (k_port key)) w2) as Hr.
  destruct (async_resolve (k_host key) (k_port key) w2) as [[ec|es] w3]; cbn [fst snd] in *; [done|]. rewrite mbind_proj, <- Hr.
  pose proof (preserves (v := seen) (m := async_connect sock es t) w3) as Hc.
  destruct (async_connect sock es t w3) as [[ec|] w4]; cbn [fst snd] in *; [done|]. rewrite mbind_proj, <- Hc.
  exact (preserves (v := seen) (m := async_handshake sock t) w4).
Qed.

Lemma connection_seen key idle t p w : seen (connection key idle t (p, w)).2.2 = seen w.
Proof.
  destruct idle; [done|]. unfold connection, lift. cbn [fst snd]. destruct (k_https key); [apply open_tls_seen|apply open_plain_seen].
Qed.

Lemma download_hop_effect key req dest timeout p w :
  let x := download_hop fuel key req dest on_progress timeout (p, w) in
  exists r, x.1 = Some r /\ forall resp, r = Ok resp -> delivered w x.2.2 resp.
Proof.
  unfold download_hop. cbv zeta. rewrite mbind_proj. pose proof (take_idle_seen key p w) as Ht.
  destruct (take_idle key (p, w)) as [idle [p1 w1]]. cbn [fst snd] in *. rewrite mbind_proj. pose proof (connection_seen key idle timeout p1 w1) as Hc.
  destruct (connection key idle timeout (p1, w1)) as [[sock|e] [p2 w2]]; cbn [fst snd] in *; [|by eexists]. rewrite mbind_proj.
  unfold lift. cbn [fst snd]. destruct (exchange_to_file_effect sock req dest timeout w2) as (r & Hx & Hd).
  destruct (exchange_to_file fuel sock req dest on_progress timeout w2) as [x w3]. cbn [fst snd] in *. subst x.
  destruct r as [[resp keep]|e]; [|by eexists]. rewrite mbind_proj. eexists. split; [done|]. intros resp' [= <-].
  apply (delivered_seen w w2 w3); [destruct (seen_parts _ _ Ht) as (? & _), (seen_parts _ _ Hc) as (? & _); congruence| |by apply (Hd (resp, keep))].
  destruct keep; [apply return_idle_seen|exact (preserves (v := seen) (m := shutdown sock) w3)].
Qed.

Lemma redirect_no_success code : is_redirect code = true -> is_success code = false.
Proof. unfold is_redirect, is_success. rewrite !orb_true_iff, !Z.eqb_eq. intros H. apply andb_false_iff. right. apply Z.ltb_ge. lia. Qed.

Lemma download_loop_effect hops orig redirected url headers dest timeout p w :
  let x := download_loop hops fuel orig redirected url headers dest on_progress timeout (p, w) in
  exists r, x.1 = Some r /\ forall resp, r = Ok resp -> delivered w x.2.2 resp.
Proof.
  revert redirected url headers p w. induction hops as [|more IH]; intros redirected url headers p w; [by eexists|]. cbn [download_loop]. cbv zeta.
  destruct (parse_url url) as [parsed|]; [|by eexists]. rewrite mbind_proj.
  set (key := MkKey _ _ _). set (wire := MkWire _ _ _ _). destruct (download_hop_effect key wire dest timeout p w) as (r & Hx & Hd).
  destruct (download_hop _ _ _ _ _ _ (p, w)) as [x [p1 w1]]. cbn [fst snd] in *. subst x. destruct r as [resp|e]; [|by eexists].
  specialize (Hd resp eq_refl). destruct (is_redirect (status_code resp)) eqn:Er; cbn [andb]; [|by eexists; split; [done|intros resp' [= <-]]].
  destruct (0 <? more)%nat; [|by eexists; split; [done|intros resp' [= <-]]].
  destruct (find_header "location" (resp_headers resp)) as [location|]; [|by eexists; split; [done|intros resp' [= <-]]].
  destruct (resolve_redirect parsed location) as [next|]; [|by eexists].
  unfold delivered in Hd. rewrite (redirect_no_success _ Er) in Hd. destruct Hd as [Hs _].
  destruct (IH true next (hop_headers redirected orig parsed headers) p1 w1) as (r & Hr & Hdel). exists r. split; [done|].
  intros resp' Hk. eapply delivered_seen; [|done|by apply Hdel]. done.
Qed.

(** C33. A download ends, and what it leaves is the response: with fuel for the reads of every
    response it returns, and when it returns a response of status 2xx the bytes given to the file
    are exactly the body of that response, redirects included; any other response comes back with
    its body in memory, and the file has not been touched. *)
Theorem download_delivers url dest headers p w :
  let x := download_to_file fuel url dest on_progress headers (p, w) in
  exists r, x.1 = Some r /\ forall resp, r = Ok resp -> delivered w x.2.2 resp.
Proof. unfold download_to_file. destruct (parse_url url) as [orig|]; [apply download_loop_effect|by eexists]. Qed.

End Laws.

(** ** Witness *)

(** A host that sends a redirect, and at its target a body of two pieces. *)
Module MemStream.
#[export] Existing Instance MemNet.fields.

Record World := MkWorld { asked : list string; pieces : list string; got : list ascii; disk : list ascii }.
Definition empty_world : World := MkWorld [] [] [] ["o"%char].

#[export] Instance net : Asio World := {
  Socket := unit;
  Endpoints := unit;
  make_socket _ := mreturn ();
  set_sni _ _ := mreturn None;
  async_resolve _ _ := mreturn (inr ());
  async_connect _ _ _ := mreturn None;
  async_handshake _ _ := mreturn None;
  async_write _ r _ := fun w => (None, MkWorld (w_target r :: asked w) (pieces w) (got w) (disk w));
  async_read _ _ := mreturn (inl (MkEc eof ""));
  shutdown _ := mreturn ();
  steady_now := mreturn 1000000000000
}.

#[export] Instance parser : StreamAsio World := {
  async_read_header _ _ := fun w =>
    if bool_decide (head (asked w) = Some "/file")
    then (inr (MkHead 200 [MkHeader "Content-Length" "4"] true), MkWorld (asked w) ["ab"; "cd"] [] (disk w))
    else (inr (MkHead 302 [MkHeader "Location" "/file"] true), MkWorld (asked w) ["moved"] [] (disk w));
  parser_is_done _ := fun w => (bool_decide (pieces w = []), w);
  async_read_some _ _ := fun w =>
    match pieces w with
    | [] => ((ReadOk, []), w)
    | x :: l => ((NeedBuffer, chars x), MkWorld (asked w) l (got w ++ chars x) (disk w))
    end
}.
#[export] Instance output : DestFile World := {
  dest_open _ := fun w => (true, MkWorld (asked w) (pieces w) (got w) []);
  dest_write b := fun w => (true, MkWorld (asked w) (pieces w) (got w) (disk w ++ b));
  dest_close := mreturn true
}.

Lemma stream_laws : StreamLaws disk got (fun w => length (pieces w)) (Some (fun _ _ => mreturn None)).
Proof.
  split; try done.
  - intros [] t w h w'. cbn. by destruct (bool_decide _); intros [= <- <-].
  - intros [] w. cbn. rewrite bool_decide_eq_true. by destruct (pieces w).
  - intros [] t [a [|x l] g d] Hl; [done|]. cbn. split_and!; [done|done|lia].
  - by intros d [] w' [= <-].
  - by intros b [] w' [= <-].
  - by intros f d t [= <-].
Qed.
End MemStream.

Section Example.
Import MemStream.

Lemma download_delivers_witness :
  let x := download_to_file (W := MemStream.World) 3 "http://h/start" "out" (Some (fun _ _ => mreturn None)) [] (MkPool ∅ ∅, empty_world) in
  disk x.2.2 = chars "abcd" /\ exists resp, x.1 = Some (Ok resp) /\ delivered disk got empty_world x.2.2 resp.
Proof.
  cbv zeta. split; [by vm_compute|].
  destruct (download_delivers disk got (fun w => length (pieces w)) (Some (fun _ _ => mreturn None)) (laws := stream_laws) 3
    ltac:(intros [] t w h w'; cbn; destruct (bool_decide _); intros [= <- <-]; cbn; lia) "http://h/start" "out" [] (MkPool ∅ ∅) empty_world)
    as (r & Hr & Hd).
  destruct r as [resp|e]; [by exists resp; split; [|apply Hd]|]. by vm_compute in Hr.
Defined.
End Example.
