(* ===== verification/Database.v ===== *)
(** * SQLite access shared by the repositories

    SQLite, sqlite_modern_cpp and Boost.Asio's channels are outside the repository.
    [ConnectionPool] is what the repositories use of [SqliteConnectionPool]: a lease that
    is returned at the end of the operation's scope.  Each repository states its own
    statements as an interface of its own. *)

From S2P Require Import Prelude CoreError TimeCodec Ports.

Local Open Scope coro_scope.

(** What a statement can throw: [sqlite::sqlite_exception] with its [get_code()], any other
    [std::exception]. *)
Inductive DbExn := SqliteException (get_code : Z) (what : string) | StdException (what : string).

(** [SqliteConnectionPool::acquire] and the destructor of the handle. *)
Class ConnectionPool (W : Type) := {
  pool_acquire : M W (Result unit);
  pool_release : M W unit
}.

(** [catch] arms shared by every operation. *)
Definition database_error {A} (op : string) (e : DbExn) : Result A :=
  match e with
  | SqliteException _ what => error Database (op +:+ " failed: " +:+ what)
  | StdException what => error Database (op +:+ " threw: " +:+ what)
  end.

Section Lease.
  Context {W : Type} `{!ConnectionPool W}.

(** [acquire()], the body, and the lease released at the end of its scope. *)
Definition with_lease {A} (body : M W (Result A)) : M W (Result A) :=
  co_try lease <- pool_acquire;
  co_await r <- body;
  co_do pool_release;
  co_return r.

(** ** Lemmas *)

(** A successful leased body was given a lease. *)
Lemma with_lease_inv {A} (body : M W (Result A)) w a w' :
  with_lease body w = (Ok a, w') ->
  exists w1 w2, pool_acquire w = (Ok (), w1) /\ body w1 = (Ok a, w2).
Proof.
  intros (() & w1 & Hacq & H)%try_bind_Ok_inv. exists w1. unfold mbind, mreturn in H.
  destruct (body w1) as [r w2]. exists w2. split; [done|]. destruct (pool_release w2). congruence.
Qed.

Lemma with_lease_run {A} (body : M W (Result A)) w w1 :
  pool_acquire w = (Ok (), w1) -> (with_lease body w).1 = (body w1).1.
Proof.
  intros H. unfold with_lease, try_bind, mbind, mreturn. rewrite H.
  destruct (body w1) as [r w2]. by destruct (pool_release w2).
Qed.

(** The effect of a leased body on an observation that leases do not touch. *)
Lemma with_lease_effect {A B} (v : W -> B) (body : M W (Result A)) w :
  Preserves v pool_acquire -> Preserves v pool_release ->
  (exists e, (with_lease body w).1 = Err e /\ v (with_lease body w).2 = v w) \/
  (exists w1, pool_acquire w = (Ok (), w1) /\ v w1 = v w /\
     (with_lease body w).1 = (body w1).1 /\ v (with_lease body w).2 = v (body w1).2).
Proof.
  intros Ha Hr. specialize (Ha w). unfold with_lease, try_bind, mbind, mreturn.
  destruct (pool_acquire w) as [[[]|e] w1]; simpl in *; [|left; by exists e].
  right. exists w1. split; [done|]. split; [done|].
  destruct (body w1) as [r w2]. simpl. specialize (Hr w2). by destruct (pool_release w2).
Qed.

#[global] Instance with_lease_frame {A B} (v : W -> B) (body : M W (Result A)) :
  Preserves v pool_acquire -> Preserves v pool_release -> Preserves v body -> Preserves v (with_lease body).
Proof. intros. unfold with_lease. frame. Qed.
End Lease.

(** Split an operation under a lease at [w], with respect to the observation [v]: either the
    lease was refused and nothing happened, or the body ran in a world [w1] that looks the
    same. *)
Ltac leased v w w1 Hw1 :=
  let Hr := fresh in let Ht := fresh in
  match goal with
  | |- context [with_lease ?b w] =>
      destruct (with_lease_effect v b w _ _) as [(? & ? & ?)|(w1 & _ & Hw1 & Hr & Ht)];
      destruct (with_lease b w) as [? ?]; simpl in *; subst; [done|rewrite Ht; clear Ht]
  end; unfold mbind, mreturn.
