(* ===== verification/SqliteTaskRepository.v ===== *)
(** * The SQLite task repository: [infrastructure/persistence/sqlite_task_repository.cpp]

    SQLite and sqlite_modern_cpp are outside the repository: [TasksDb] is the interface of
    the statements the code runs on table [tasks], and [TasksDbLaws] is their documented
    behaviour; connections are leased through [ConnectionPool] of [Database].  The
    repository is proved to satisfy [TaskRepositoryLaws]. *)

From Stdlib Require Import Sorted.
From stdpp Require Import sorting.
From S2P Require Import Prelude CoreError Identifiers Task TimeCodec Ports Database.

Local Open Scope coro_scope.

(** ** Column encodings *)

(** [kind_to_string]. *)
Definition kind_to_string (k : TaskKind) : string :=
  match k with Mirror => "Mirror" | Leech => "Leech" | Clone => "Clone" end.

(** [parse_kind]. *)
Definition parse_kind (s : string) : Result TaskKind :=
  if bool_decide (s = "Mirror") then Ok Mirror
  else if bool_decide (s = "Leech") then Ok Leech
  else if bool_decide (s = "Clone") then Ok Clone
  else error Deserialization ("Unknown TaskKind: " +:+ s).

(** [parse_downloader_kind]. *)
Definition parse_downloader_kind (s : string) : Result DownloaderKind :=
  if bool_decide (s = "None") then Ok NoDownloader
  else if bool_decide (s = "Aria2") then Ok Aria2
  else if bool_decide (s = "Qbittorrent") then Ok Qbittorrent
  else error Deserialization ("Unknown DownloaderKind: " +:+ s).

(** [parse_state]. *)
Definition parse_state (s : string) : Result TaskState :=
  if bool_decide (s = "Queued") then Ok Queued
  else if bool_decide (s = "Downloading") then Ok Downloading
  else if bool_decide (s = "Processing") then Ok Processing
  else if bool_decide (s = "Uploading") then Ok Uploading
  else if bool_decide (s = "Completed") then Ok Completed
  else if bool_decide (s = "Failed") then Ok Failed
  else if bool_decide (s = "Cancelled") then Ok CancelledState
  else error Deserialization ("Unknown TaskState: " +:+ s).

(** A row of table [tasks], with the columns of migrations V1 and V3. *)
Record TaskRow := MkRow {
  row_id : string;
  row_user_id : Z;
  row_chat_id : Z;
  row_status_message_id : Z;
  row_kind : string;
  row_state : string;
  row_source_url : string;
  row_error_message : option string;
  row_created_at : string;
  row_updated_at : string;
  row_downloader_kind : string;
  row_downloader_id : option string
}.

(** ** The database *)

(** The [WHERE] clauses of the repository's statements. *)
Inductive TaskWhere :=
| WhereId (id : string)
| WhereStateNotIn (states : list string)
| WhereUser (user : Z).

Inductive TaskOrder := Unordered | ByCreatedAsc | ByCreatedDesc.

Definition row_matches (c : TaskWhere) (r : TaskRow) : bool :=
  match c with
  | WhereId id => bool_decide (row_id r = id)
  | WhereStateNotIn states => bool_decide (row_state r ∉ states)
  | WhereUser u => bool_decide (row_user_id r = u)
  end.

(** [a] may precede [b] in the result. *)
Definition row_ordered (o : TaskOrder) (a b : TaskRow) : Prop :=
  match o with
  | Unordered => True
  | ByCreatedAsc => str_ltb (row_created_at b) (row_created_at a) = false
  | ByCreatedDesc => str_ltb (row_created_at a) (row_created_at b) = false
  end.

Class TasksDb (W : Type) := {
  insert_or_replace : TaskRow -> M W (DbExn + unit);
  select : TaskWhere -> TaskOrder -> M W (DbExn + list TaskRow);
  delete_row : string -> M W (DbExn + Z)
}.

(** A statement that throws has no effect (each is its own transaction); text compares
    byte by byte; [sqlite3_changes] counts the deleted rows. *)
Class TasksDbLaws (W : Type) `{!ConnectionPool W, !TasksDb W} (table : W -> gmap string TaskRow) : Prop := {
  acquire_frame w : table (pool_acquire w).2 = table w;
  release_frame w : table (pool_release w).2 = table w;
  insert_law r w :
    table (insert_or_replace r w).2 =
      match (insert_or_replace r w).1 with inr _ => <[row_id r := r]> (table w) | inl _ => table w end;
  select_frame c o w : table (select c o w).2 = table w;
  select_law c o w rows w' :
    select c o w = (inr rows, w') ->
    rows ≡ₚ filter (fun r => row_matches c r) (map_to_list (table w)).*2 /\
    StronglySorted (row_ordered o) rows;
  delete_law id w :
    table (delete_row id w).2 =
      match (delete_row id w).1 with inr _ => delete id (table w) | inl _ => table w end;
  delete_changes id w n w' :
    delete_row id w = (inr n, w') -> (n = 0 <-> table w !! id = None)
}.

Section Repository.
  Context {W : Type} `{!Clock W, !ConnectionPool W, !TasksDb W}.

(** The lambda [fail] of [reconstitute]. *)
Definition reconstitute_fail (step : string) (e : AppError) : Result Task :=
  error Deserialization ("reconstitute step '" +:+ step +:+ "' failed: " +:+ err_message e).

(** [if (auto r = task.op(); !r) return fail(step, r.error());]. *)
Definition replay (step : string) (op : Z -> Task -> Result unit * Task) (task : Task)
  (k : Task -> M W (Result Task)) : M W (Result Task) :=
  co_await r <- timed op task;
  match r with
  | (Err e, _) => co_return reconstitute_fail step e
  | (Ok _, task') => k task'
  end.

(** The lambda [attach_downloader_if_set]. *)
Definition attach_downloader_if_set (dk : DownloaderKind) (did : option string) (task : Task) : M W Task :=
  match did with
  | Some id => if bool_decide (dk = NoDownloader) then co_return task
               else co_await tp <- now; co_return attach_downloader (MkId id) dk tp task
  | None => co_return task
  end.

(** [reconstitute]. *)
Definition reconstitute (md : TaskMetadata) (target : TaskState) (err : option string)
  (dk : DownloaderKind) (did : option string) : M W (Result Task) :=
  let task := new_task md in
  let attach_and_return task := (co_await t <- attach_downloader_if_set dk did task; co_return Ok t) in
  match target with
  | Queued => attach_and_return task
  | Downloading => replay "start_download" start_download task attach_and_return
  | Processing =>
      replay "start_download" start_download task (fun t =>
      replay "begin_processing" begin_processing t attach_and_return)
  | Uploading =>
      replay "start_download" start_download task (fun t =>
      replay "begin_upload" begin_upload t attach_and_return)
  | Completed =>
      replay "start_download" start_download task (fun t =>
      replay "begin_upload" begin_upload t (fun t =>
      replay "mark_completed" mark_completed t attach_and_return))
  | Failed =>
      co_await t <- attach_downloader_if_set dk did task;
      replay "mark_failed" (mark_failed (default "(unknown)" err)) t (fun t => co_return Ok t)
  | CancelledState =>
      co_await t <- attach_downloader_if_set dk did task;
      replay "mark_cancelled" mark_cancelled t (fun t => co_return Ok t)
  end.

(** The parsed columns of a row, in the order in which errors are reported. *)
Definition parse_row (id : string) (r : TaskRow)
  : Result (TaskMetadata * TaskState * DownloaderKind) :=
  match parse_kind (row_kind r), parse_state (row_state r), parse_iso8601 (row_created_at r),
        parse_iso8601 (row_updated_at r), parse_downloader_kind (row_downloader_kind r) with
  | Err e, _, _, _, _ => Err e
  | _, Err e, _, _, _ => Err e
  | _, _, Err e, _, _ => Err e
  | _, _, _, Err e, _ => Err e
  | _, _, _, _, Err e => Err e
  | Ok kind, Ok st, Ok created, Ok updated, Ok dk =>
      Ok (MkMetadata (MkId id) (MkId (row_user_id r)) (MkId (row_chat_id r))
            (MkId (row_status_message_id r)) kind (row_source_url r) created updated, st, dk)
  end.

(** The row callback, shared by [find] and [collect_tasks]. *)
Definition read_row (id : string) (r : TaskRow) : M W (Result Task) :=
  match parse_row id r with
  | Err e => co_return Err e
  | Ok (md, st, dk) => reconstitute md st (row_error_message r) dk (row_downloader_id r)
  end.

(** The values [save] binds; an absent optional is bound as [NULL]. *)
Definition row_of (task : Task) : TaskRow :=
  let md := metadata task in
  MkRow (value (md_id md)) (value (md_user md)) (value (md_chat md)) (value (md_status_message md))
    (kind_to_string (md_kind md)) (task_state_to_string (state task)) (md_source_url md)
    (error_message task) (to_iso8601 (md_created_at md)) (to_iso8601 (md_updated_at md))
    (downloader_kind_to_string (downloader_kind task)) (value <$> downloader_id task).

(** [SqliteTaskRepository::save]. *)
Definition save (task : Task) : M W (Result unit) :=
  with_lease (
    co_await r <- insert_or_replace (row_of task);
    match r with
    | inr _ => co_return Ok ()
    | inl e => co_return database_error "save(Task)" e
    end).

(** The row loop of [find]: every row overwrites [parse_outcome]. *)
Definition find_rows (id : string) (rows : list TaskRow) : M W (option (Result Task)) :=
  mfold (fun _ r => co_await t <- read_row id r; co_return Some t) rows None.

(** [SqliteTaskRepository::find]. *)
Definition find (id : TaskId) : M W (Result (option Task)) :=
  with_lease (
    co_await rows <- select (WhereId (value id)) Unordered;
    match rows with
    | inl e => co_return database_error "find(TaskId)" e
    | inr rows =>
        co_await outcome <- find_rows (value id) rows;
        match outcome with
        | None => co_return Ok None
        | Some (Err e) => co_return Err e
        | Some (Ok t) => co_return Ok (Some t)
        end
    end).

(** [consume]: accumulate, stop after the first error. *)
Definition consume (acc : Result (list Task)) (r : TaskRow) : M W (Result (list Task)) :=
  match acc with
  | Err e => co_return Err e
  | Ok out =>
      co_await t <- read_row (row_id r) r;
      match t with
      | Err e => co_return Err e
      | Ok t => co_return Ok (out ++ [t])
      end
  end.

(** [collect_tasks]. *)
Definition collect_tasks (rows : list TaskRow) : M W (Result (list Task)) := mfold consume rows (Ok []).

(** The common shape of the two list queries. *)
Definition query_tasks (op : string) (c : TaskWhere) (o : TaskOrder) : M W (Result (list Task)) :=
  with_lease (
    co_await rows <- select c o;
    match rows with
    | inl e => co_return database_error op e
    | inr rows => collect_tasks rows
    end).

(** [SqliteTaskRepository::incomplete]. *)
Definition incomplete : M W (Result (list Task)) :=
  query_tasks "incomplete()" (WhereStateNotIn ["Completed"; "Failed"; "Cancelled"]) ByCreatedAsc.

(** [SqliteTaskRepository::for_user]. *)
Definition for_user (u : UserId) : M W (Result (list Task)) :=
  query_tasks "for_user()" (WhereUser (value u)) ByCreatedDesc.

(** [SqliteTaskRepository::remove]. *)
Definition remove_task (id : TaskId) : M W (Result unit) :=
  with_lease (
    co_await changes <- delete_row (value id);
    match changes with
    | inl e => co_return database_error "remove(TaskId)" e
    | inr n => if n =? 0
               then co_return error NotFound ("remove(TaskId): no task with id " +:+ value id)
               else co_return Ok ()
    end).

#[global] Instance sqlite_task_repository : TaskRepository W := {
  repo_save := save;
  repo_find := find;
  repo_incomplete := incomplete;
  repo_for_user := for_user;
  repo_remove := remove_task
}.

End Repository.

(** ** Lemmas: encodings *)

Lemma parse_kind_print k : parse_kind (kind_to_string k) = Ok k.
Proof. by destruct k. Qed.

Lemma parse_state_print s : parse_state (task_state_to_string s) = Ok s.
Proof. by destruct s. Qed.

Lemma parse_downloader_kind_print k : parse_downloader_kind (downloader_kind_to_string k) = Ok k.
Proof. by destruct k. Qed.

Lemma state_not_in_terminal s :
  task_state_to_string s ∉ ["Completed"; "Failed"; "Cancelled"] <-> is_terminal_state s = false.
Proof. destruct s; split; intros H; first [done | by set_solver | by (apply (bool_decide_unpack _); vm_compute)]. Qed.

(** The task a row stands for. *)
Definition held (r : TaskRow) : option Task :=
  match parse_row (row_id r) r with
  | Ok (md, st, dk) => Some (MkTask md st (row_error_message r) (MkId <$> row_downloader_id r) dk)
  | Err _ => None
  end.

Lemma parse_row_of t :
  storable t -> parse_row (task_key t) (row_of t) = Ok (stored_metadata (metadata t), state t, downloader_kind t).
Proof.
  intros (_ & _ & [Hc _] & [Hu _]). unfold parse_row, row_of, task_key. simpl.
  rewrite parse_kind_print, parse_state_print, !parse_to_iso8601, parse_downloader_kind_print by done.
  by destruct t as [[[] [] [] [] ? ? ? ?] ? ? ? ?].
Qed.

Lemma held_row_of t : storable t -> held (row_of t) = Some (stored t).
Proof.
  intros H. unfold held. change (row_id (row_of t)) with (task_key t). rewrite parse_row_of by done.
  unfold stored. do 2 f_equal. simpl. by destruct (downloader_id t) as [[]|].
Qed.

Lemma stored_key t : task_key (stored t) = task_key t.
Proof. done. Qed.

(** A task as the table keeps it. *)
Definition kept (t : Task) : Prop := storable t /\ stored t = t.

Lemma row_of_stored t : row_of (stored t) = row_of t.
Proof. unfold row_of, stored, stored_metadata, to_iso8601. simpl. by rewrite !floor_ms_floor_time. Qed.

Lemma kept_stored t : storable t -> kept (stored t).
Proof. intros H. split; [by apply storable_stored|apply stored_idemp]. Qed.

Lemma held_kept t : kept t -> held (row_of t) = Some t.
Proof. intros [H1 H2]. by rewrite held_row_of, H2. Qed.

Lemma row_of_inj t1 t2 : kept t1 -> kept t2 -> row_of t1 = row_of t2 -> t1 = t2.
Proof. intros H1 H2 E. apply (f_equal held) in E. rewrite !held_kept in E by done. congruence. Qed.

(** ** Lemmas: rows *)

Section RowLemmas.
  Implicit Types m : gmap string TaskRow.

Lemma rows_elem c m rows r :
  rows ≡ₚ filter (fun r => row_matches c r) (map_to_list m).*2 ->
  r ∈ rows <-> row_matches c r /\ exists k, m !! k = Some r.
Proof.
  intros ->. rewrite list_elem_of_filter, list_elem_of_fmap. split; intros [Hc H]; (split; [done|]).
  - destruct H as ([k r'] & -> & H%elem_of_map_to_list). eauto.
  - destruct H as [k H]. exists (k, r). split; [done|]. by apply elem_of_map_to_list.
Qed.

Lemma values_keys m :
  (forall k r, m !! k = Some r -> row_id r = k) -> row_id <$> (map_to_list m).*2 = (map_to_list m).*1.
Proof.
  intros Hkey. rewrite <-list_fmap_compose. apply list_fmap_ext. intros i [k r] Hi. simpl.
  apply Hkey, elem_of_map_to_list. by eapply list_elem_of_lookup_2.
Qed.

Lemma rows_NoDup c m rows :
  (forall k r, m !! k = Some r -> row_id r = k) ->
  rows ≡ₚ filter (fun r => row_matches c r) (map_to_list m).*2 -> NoDup (row_id <$> rows).
Proof.
  intros Hkey ->.
  assert (NoDup (row_id <$> (map_to_list m).*2)) as H.
  { rewrite values_keys by done. apply NoDup_fst_map_to_list. }
  eapply sublist_NoDup; [done|]. apply fmap_sublist, sublist_filter.
Qed.

(** A query by primary key returns the row of the key, if any. *)
Lemma rows_by_id m id rows :
  (forall k r, m !! k = Some r -> row_id r = k) ->
  rows ≡ₚ filter (fun r => row_matches (WhereId id) r) (map_to_list m).*2 ->
  rows = option_list (m !! id).
Proof.
  intros Hkey Hp. pose proof (rows_NoDup _ _ _ Hkey Hp) as Hnd.
  assert (forall r, r ∈ rows <-> m !! id = Some r) as Hel.
  { intros r. rewrite (rows_elem _ _ _ _ Hp). simpl. rewrite bool_decide_spec. split.
    - intros [<- [k Hk]]. by rewrite (Hkey _ _ Hk).
    - intros H. split; [by apply Hkey|eauto]. }
  destruct rows as [|r1 [|r2 rows]].
  - destruct (m !! id) as [r|] eqn:E; [|done]. exfalso. by apply (not_elem_of_nil r), Hel.
  - by rewrite (proj1 (Hel r1)) by set_solver.
  - exfalso. assert (Some r1 = Some r2) as [= ->].
    { rewrite <-(proj1 (Hel r1)), <-(proj1 (Hel r2)) by set_solver. done. }
    apply NoDup_cons in Hnd as [Hni _]. set_solver.
Qed.
End RowLemmas.

(** ** The repository satisfies its interface *)

Section Laws.
  Context {W : Type} `{!Clock W, !ConnectionPool W, !TasksDb W} (table : W -> gmap string TaskRow).
  Context `{!TasksDbLaws W table} `{!Preserves table now}.

(** Every row was written by [save]. *)
Definition repo_inv (w : W) : Prop :=
  forall k r, table w !! k = Some r -> exists t, kept t /\ r = row_of t /\ k = task_key t.

(** The tasks the table holds. *)
Definition repo_tasks (w : W) : gmap string Task := omap held (table w).

#[local] Instance acquire_preserves : Preserves table pool_acquire.
Proof. intros w. apply acquire_frame. Qed.
#[local] Instance release_preserves : Preserves table pool_release.
Proof. intros w. apply release_frame. Qed.
#[local] Instance select_preserves c o : Preserves table (select c o).
Proof. intros w. apply select_frame. Qed.

#[local] Instance read_row_frame id r : Preserves table (read_row id r).
Proof. unfold read_row, reconstitute, replay, attach_downloader_if_set. frame. Qed.

#[local] Instance find_preserves id : Preserves table (find id).
Proof. unfold find, find_rows. frame. Qed.

#[local] Instance query_preserves op c o : Preserves table (query_tasks op c o).
Proof. unfold query_tasks, collect_tasks, consume. frame. Qed.

Lemma repo_inv_keys w : repo_inv w -> forall k r, table w !! k = Some r -> row_id r = k.
Proof. intros Hinv k r H. destruct (Hinv k r H) as (t & _ & -> & ->). done. Qed.

Lemma repo_inv_frame w w' : table w' = table w -> repo_inv w -> repo_inv w'.
Proof. unfold repo_inv. by intros ->. Qed.

Lemma repo_tasks_frame w w' : table w' = table w -> repo_tasks w' = repo_tasks w.
Proof. unfold repo_tasks. by intros ->. Qed.

Lemma repo_tasks_lookup w k t :
  repo_inv w -> repo_tasks w !! k = Some t <-> kept t /\ table w !! k = Some (row_of t) /\ k = task_key t.
Proof.
  intros Hinv. unfold repo_tasks. rewrite lookup_omap_Some. split.
  - intros (r & Ht & Hr). destruct (Hinv k r Hr) as (t0 & Hs & -> & ->).
    rewrite held_kept in Ht by done. injection Ht as ->. done.
  - intros (Hs & Hr & ->). exists (row_of t). by rewrite held_kept.
Qed.

(** Binding the stored backend to a task that has none. *)
Lemma attach_equiv dk did md st err w :
  (did <> None <-> dk <> NoDownloader) ->
  (attach_downloader_if_set dk did (MkTask md st err None NoDownloader) w).1
    ≡ MkTask md st err (MkId <$> did) dk.
Proof.
  intros Hd. unfold attach_downloader_if_set, mbind, mreturn. destruct did as [id|].
  - rewrite bool_decide_false by (by apply Hd). by destruct (now w) as [tp w1].
  - assert (dk = NoDownloader) as -> by (destruct dk; naive_solver). done.
Qed.

Lemma attach_return dk did md st err w :
  (did <> None <-> dk <> NoDownloader) ->
  exists t, ((co_await t <- attach_downloader_if_set dk did (MkTask md st err None NoDownloader);
              co_return Ok t) w).1 = @Ok Task t /\ t ≡ MkTask md st err (MkId <$> did) dk.
Proof.
  intros Hd. pose proof (attach_equiv dk did md st err w Hd) as H. unfold mbind, mreturn.
  destruct (attach_downloader_if_set _ _ _ w) as [t w1]. eexists. by split.
Qed.

Lemma touch_equiv md tp st err did dk : MkTask (touch_metadata tp md) st err did dk ≡ MkTask md st err did dk.
Proof. done. Qed.

(** Replaying the transitions rebuilds the task, up to [updated_at]. *)
Lemma reconstitute_equiv md st err dk did w :
  (err <> None <-> st = Failed) -> (did <> None <-> dk <> NoDownloader) ->
  exists t, (reconstitute md st err dk did w).1 = Ok t /\ t ≡ MkTask md st err (MkId <$> did) dk.
Proof.
  intros Herr Hdid.
  assert (st <> Failed -> err = None) as Hnone by (destruct err; naive_solver).
  assert (forall tp w' s, s <> Failed -> s = st ->
    exists t, ((co_await t <- attach_downloader_if_set dk did (MkTask (touch_metadata tp md) s None None NoDownloader);
                co_return Ok t) w').1 = @Ok Task t /\ t ≡ MkTask md st err (MkId <$> did) dk) as Hret.
  { intros tp w' s Hs ->. rewrite (Hnone Hs). setoid_rewrite <-(touch_equiv md tp st). by apply attach_return. }
  unfold reconstitute, replay, timed. destruct st.
  - rewrite (Hnone ltac:(done)). by apply attach_return.
  - unfold mbind at 1 2, mreturn at 1. destruct (now w) as [tp w1]. by apply Hret.
  - unfold mbind at 1 2, mreturn at 1. destruct (now w) as [tp w1].
    simpl. unfold mbind at 1 2, mreturn at 1. destruct (now w1) as [tp2 w2]. by apply (Hret tp2).
  - unfold mbind at 1 2, mreturn at 1. destruct (now w) as [tp w1].
    simpl. unfold mbind at 1 2, mreturn at 1. destruct (now w1) as [tp2 w2]. by apply (Hret tp2).
  - unfold mbind at 1 2, mreturn at 1. destruct (now w) as [tp w1].
    simpl. unfold mbind at 1 2, mreturn at 1. destruct (now w1) as [tp2 w2].
    simpl. unfold mbind at 1 2, mreturn at 1. destruct (now w2) as [tp3 w3]. by apply (Hret tp3).
  - destruct err as [e|]; [|naive_solver].
    pose proof (attach_equiv dk did md Queued None w Hdid) as H. unfold mbind at 1, new_task.
    destruct (attach_downloader_if_set _ _ _ w) as [t w1]. simpl in H.
    unfold mbind, mreturn. destruct (now w1) as [tp w2]. unfold mark_failed, is_terminal.
    destruct H as (Hm & Hs & He & Hi & Hk). rewrite Hs. simpl in *. eexists. by split.
  - rewrite (Hnone ltac:(done)).
    pose proof (attach_equiv dk did md Queued None w Hdid) as H. unfold mbind at 1, new_task.
    destruct (attach_downloader_if_set _ _ _ w) as [t w1]. simpl in H.
    unfold mbind, mreturn. destruct (now w1) as [tp w2]. unfold mark_cancelled, is_terminal.
    destruct H as (Hm & Hs & He & Hi & Hk). rewrite Hs. simpl in *. eexists. by split.
Qed.

Lemma read_row_of t w :
  kept t -> exists t', (read_row (task_key t) (row_of t) w).1 = Ok t' /\ t' ≡ t.
Proof.
  intros [Hs Heq]. unfold read_row. rewrite parse_row_of by done. destruct Hs as (He & Hd & _).
  destruct (reconstitute_equiv (stored_metadata (metadata t)) (state t) (row_error_message (row_of t))
              (downloader_kind t) (row_downloader_id (row_of t)) w) as (t' & H1 & H2).
  - done.
  - simpl. rewrite <-Hd. by destruct (downloader_id t).
  - exists t'. split; [done|]. rewrite H2. transitivity (stored t); [|by rewrite Heq].
    by destruct t as [? ? ? [[]|] ?].
Qed.

(** What the select statements return in a table written by [save]. *)
Lemma select_rows c o w rows w' :
  repo_inv w -> select c o w = (inr rows, w') ->
  exists ts, rows = row_of <$> ts /\ Forall kept ts /\ NoDup ts /\
    StronglySorted (row_ordered o) rows /\
    forall t, t ∈ ts <-> repo_tasks w !! task_key t = Some t /\ row_matches c (row_of t) = true.
Proof.
  intros Hinv Hsel. destruct (select_law _ _ _ _ _ Hsel) as [Hp Hsort].
  pose proof (rows_NoDup _ _ _ (repo_inv_keys w Hinv) Hp) as Hnd.
  assert (exists ts, rows = row_of <$> ts /\ Forall kept ts) as (ts & -> & Hst).
  { assert (forall r, r ∈ rows -> exists t, kept t /\ r = row_of t) as Hall.
    { intros r [_ [k Hk]]%(rows_elem _ _ _ _ Hp). destruct (Hinv k r Hk) as (t & ? & ? & _). eauto. }
    clear -Hall. induction rows as [|r rows IH]; [by exists []|].
    destruct IH as (ts & -> & Hts); [intros; apply Hall; set_solver|].
    destruct (Hall r) as (t & Ht & ->); [set_solver|]. exists (t :: ts). by split; [|constructor]. }
  exists ts. rewrite Forall_forall in Hst. split_and!; try done; [by apply Forall_forall| |].
  { apply NoDup_fmap_1 in Hnd. by apply NoDup_fmap_1 in Hnd. }
  intros t. rewrite repo_tasks_lookup by done. split.
  - intros Hin. destruct (proj1 (rows_elem _ _ _ (row_of t) Hp)) as [Hm [k Hk]]; [by apply list_elem_of_fmap_2|].
    rewrite <-(repo_inv_keys w Hinv _ _ Hk) in Hk. split; [|by destruct (row_matches c (row_of t))].
    split_and!; auto.
  - intros [(Hkept & Hk & _) Hm].
    assert (row_of t ∈ row_of <$> ts) as Hin by (apply (rows_elem _ _ _ _ Hp); split; [by rewrite Hm|eauto]).
    apply list_elem_of_fmap in Hin as (t1 & Heq1 & Hin). apply row_of_inj in Heq1 as ->; auto.
Qed.

Lemma collect_rows ts acc w :
  Forall kept ts ->
  exists l, (mfold consume (row_of <$> ts) (Ok acc) w).1 = Ok (acc ++ l) /\ Forall2 (≡) l ts.
Proof.
  intros Hts. revert acc w. induction Hts as [|t ts Ht _ IH]; intros acc w.
  { exists []. simpl. by rewrite app_nil_r. }
  rewrite fmap_cons. cbn [mfold]. unfold mbind at 1, consume at 1, mbind at 1, mreturn.
  change (row_id (row_of t)) with (task_key t).
  destruct (read_row_of t w Ht) as (t' & Hr & Heq).
  destruct (read_row (task_key t) (row_of t) w) as [r w1]. simpl in Hr. subst r.
  destruct (IH (acc ++ [t']) w1) as (l & Hl & Hf). exists (t' :: l).
  rewrite Hl, <-app_assoc. split; [done|by constructor].
Qed.

Lemma sorted_created (R : Task -> Task -> Prop) o ts :
  (forall t1 t2, kept t1 -> kept t2 -> row_ordered o (row_of t1) (row_of t2) -> R t1 t2) ->
  Forall kept ts -> StronglySorted (row_ordered o) (row_of <$> ts) -> StronglySorted R ts.
Proof.
  intros HR Hk. induction Hk as [|t ts Ht Hts IH]; simpl; intros Hs; [constructor|].
  apply StronglySorted_inv in Hs as [Hs Hall]. constructor; [by apply IH|].
  rewrite Forall_forall in Hts. rewrite Forall_forall in Hall. apply Forall_forall. intros t2 Hin.
  apply HR; auto. apply Hall, list_elem_of_fmap_2. done.
Qed.

Lemma created_order t1 t2 :
  kept t1 -> kept t2 -> str_ltb (row_created_at (row_of t2)) (row_created_at (row_of t1)) = false ->
  md_created_at (metadata t1) <= md_created_at (metadata t2).
Proof.
  intros [(_ & _ & [H1 _] & _) E1] [(_ & _ & [H2 _] & _) E2]. simpl.
  rewrite to_iso8601_order by (by apply in_int64_representable). intros H%Z.ltb_ge.
  rewrite <-E1, <-E2. simpl. unfold floor_time. lia.
Qed.

Lemma query_spec op c o w l w' :
  repo_inv w -> query_tasks op c o w = (Ok l, w') ->
  exists ts, Forall2 (≡) l ts /\ Forall kept ts /\ NoDup ts /\
    StronglySorted (row_ordered o) (row_of <$> ts) /\
    forall t, t ∈ ts <-> repo_tasks w !! task_key t = Some t /\ row_matches c (row_of t) = true.
Proof.
  intros Hinv (w1 & w2 & Hacq & Hbody)%with_lease_inv.
  pose proof (acquire_frame w) as Hf. rewrite Hacq in Hf. simpl in Hf.
  rewrite <-(repo_tasks_frame _ _ Hf). apply (repo_inv_frame _ _ Hf) in Hinv.
  unfold mbind, mreturn in Hbody. destruct (select c o w1) as [[e|rows] w3] eqn:Hsel; [by destruct e|].
  destruct (select_rows _ _ _ _ _ Hinv Hsel) as (ts & -> & Hk & Hnd & Hsort & Hel).
  destruct (collect_rows ts [] w3 Hk) as (l0 & Hl & Hf2). unfold collect_tasks in Hbody.
  rewrite Hbody in Hl. simpl in Hl. simplify_eq. by exists ts.
Qed.
(** A statement run under a lease changes the table as the statement does, and the result
    is a success only if the statement ran. *)
Lemma save_effect t w :
  table (save t w).2 =
    if has_value (save t w).1 then <[row_id (row_of t) := row_of t]> (table w) else table w.
Proof.
  unfold save, with_lease, try_bind, mbind, mreturn. pose proof (acquire_frame w) as Ha.
  destruct (pool_acquire w) as [[[]|e] w1]; simpl in *; [|done].
  pose proof (insert_law (row_of t) w1) as Hi. rewrite Ha in Hi.
  destruct (insert_or_replace (row_of t) w1) as [[ex|[]] w2]; simpl in *.
  - pose proof (release_frame w2) as Hr. destruct (pool_release w2). simpl in *.
    destruct ex; simpl; congruence.
  - pose proof (release_frame w2) as Hr. destruct (pool_release w2). simpl in *. congruence.
Qed.

Lemma remove_effect id w :
  (has_value (remove_task id w).1 = true -> is_Some (table w !! value id)) /\
  table (remove_task id w).2 =
    if has_value (remove_task id w).1 then delete (value id) (table w) else table w.
Proof.
  unfold remove_task, with_lease, try_bind, mbind, mreturn. pose proof (acquire_frame w) as Ha.
  destruct (pool_acquire w) as [[[]|e] w1]; simpl in *; [|done].
  pose proof (delete_law (value id) w1) as Hd.
  destruct (delete_row (value id) w1) as [[ex|n] w2] eqn:E; simpl in *; rewrite Ha in Hd.
  - pose proof (release_frame w2) as Hr. destruct (pool_release w2). simpl in *.
    destruct ex; simpl; split; [done|congruence|done|congruence].
  - pose proof (delete_changes _ _ _ _ E) as Hn. rewrite Ha in Hn.
    destruct (Z.eqb_spec n 0); pose proof (release_frame w2) as Hr; destruct (pool_release w2);
      simpl in *; rewrite Hr, Hd; split; try done.
    + rewrite delete_id; [done|naive_solver].
    + intros _. destruct (table w !! value id); [eauto|naive_solver].
Qed.

(** With a lease and a row set, [find] reports the task of the key, if any. *)
Lemma find_available id w w1 rows w2 :
  repo_inv w -> pool_acquire w = (Ok (), w1) -> select (WhereId (value id)) Unordered w1 = (inr rows, w2) ->
  exists o, (find id w).1 = Ok o /\ option_Forall2 (≡) o (repo_tasks w !! value id).
Proof.
  intros Hinv Hacq Hsel. unfold find. rewrite (with_lease_run _ _ _ Hacq). unfold mbind at 1. rewrite Hsel.
  pose proof (acquire_frame w) as Hf. rewrite Hacq in Hf. simpl in Hf.
  rewrite <-(repo_tasks_frame _ _ Hf). apply (repo_inv_frame _ _ Hf) in Hinv.
  destruct (select_law _ _ _ _ _ Hsel) as [Hp _].
  apply (rows_by_id _ _ _ (repo_inv_keys w1 Hinv)) in Hp. unfold repo_tasks. rewrite lookup_omap.
  destruct (table w1 !! value id) as [r|] eqn:Hr; simpl in Hp; subst rows.
  - destruct (Hinv _ _ Hr) as (t & Hk & -> & Hid). rewrite Hid. simpl. rewrite held_kept by done.
    destruct (read_row_of t w2 Hk) as (t' & Hread & Heq).
    unfold find_rows, mfold, mbind, mreturn.
    destruct (read_row (task_key t) (row_of t) w2) as [r w4]. simpl in *. subst r. simpl. exists (Some t'). by split; [|constructor].
  - exists None. by split; [|constructor].
Qed.

Lemma find_result id w o w' :
  repo_inv w -> find id w = (Ok o, w') -> option_Forall2 (≡) o (repo_tasks w !! value id).
Proof.
  intros Hinv Hfind. destruct (with_lease_inv _ _ _ _ Hfind) as (w1 & w2 & Hacq & Hbody).
  unfold mbind at 1, mreturn in Hbody.
  destruct (select (WhereId (value id)) Unordered w1) as [[e|rows] w3] eqn:Hsel; [by destruct e|].
  destruct (find_available id w w1 rows w3 Hinv Hacq Hsel) as (o' & Ho & H).
  rewrite Hfind in Ho. by injection Ho as ->.
Qed.

#[global] Instance sqlite_repository_laws : TaskRepositoryLaws W repo_inv repo_tasks.
Proof.
  assert (forall t w, repo_inv w -> storable t -> repo_inv (save t w).2 /\
    repo_tasks (save t w).2 =
      if has_value (save t w).1 then <[task_key t := stored t]> (repo_tasks w) else repo_tasks w) as Hsave.
  { intros t w Hinv Hs. pose proof (save_effect t w) as He. unfold repo_inv, repo_tasks. rewrite He.
    destruct (has_value (save t w).1); [|done]. split.
    - intros k r. rewrite lookup_insert_Some. intros [[<- <-]|[_ Hr]]; [|by apply Hinv].
      exists (stored t). rewrite row_of_stored. by split; [apply kept_stored|].
    - apply omap_insert_Some. by apply held_row_of. }
  assert (forall id w, repo_inv w -> repo_inv (remove_task id w).2 /\
    (has_value (remove_task id w).1 = true -> is_Some (repo_tasks w !! value id)) /\
    repo_tasks (remove_task id w).2 =
      if has_value (remove_task id w).1 then delete (value id) (repo_tasks w) else repo_tasks w) as Hrem.
  { intros id w Hinv. destruct (remove_effect id w) as [Hsome He]. unfold repo_inv, repo_tasks. rewrite He.
    destruct (has_value (remove_task id w).1); [|done]. split_and!.
    - intros k r [_ Hr]%lookup_delete_Some. by apply Hinv.
    - intros _. destruct (Hsome eq_refl) as [r Hr]. rewrite lookup_omap, Hr. simpl.
      destruct (Hinv _ _ Hr) as (t & Hk & -> & _). rewrite held_kept by done. eauto.
    - apply omap_delete. }
  split.
  - intros t w Hinv Hs. by apply Hsave.
  - intros t w Hinv Hs. by apply Hsave.
  - intros id w. apply repo_inv_frame, find_preserves.
  - intros id w _. apply repo_tasks_frame, find_preserves.
  - intros id w o w'. apply find_result.
  - intros w. apply repo_inv_frame, query_preserves.
  - intros w _. apply repo_tasks_frame, query_preserves.
  - intros w l w' Hinv H. destruct (query_spec _ _ _ _ _ _ Hinv H) as (ts & Hf & Hk & Hnd & Hs & Hel).
    exists ts. split_and!; [done|done| |].
    + intros t. rewrite Hel. simpl. by rewrite bool_decide_eq_true, state_not_in_terminal.
    + eapply sorted_created; [|done..]. intros t1 t2 Hk1 Hk2. by apply created_order.
  - intros u w. apply repo_inv_frame, query_preserves.
  - intros u w _. apply repo_tasks_frame, query_preserves.
  - intros u w l w' Hinv H. destruct (query_spec _ _ _ _ _ _ Hinv H) as (ts & Hf & Hk & Hnd & Hs & Hel).
    exists ts. split_and!; [done|done| |].
    + intros t. rewrite Hel. simpl. rewrite bool_decide_eq_true. destruct u, (md_user (metadata t)). simpl. naive_solver.
    + eapply sorted_created; [|done..]. intros t1 t2 Hk1 Hk2. by apply created_order.
  - intros id w Hinv. by apply Hrem.
  - intros id w Hinv. by apply Hrem.
  - intros id w Hinv. by apply Hrem.
  - intros k t w Hinv Hk. apply repo_tasks_lookup in Hk as ([Hs Heq] & _ & ->); [|done]. done.
Qed.
End Laws.

(** ** A concrete database

    A table in memory whose statements never fail: the hypotheses on SQLite can hold, and
    the definitions run. *)

Module MemDb.

Definition row_le (o : TaskOrder) (a b : TaskRow) : Prop := row_ordered o a b.

#[local] Instance row_le_dec o a b : Decision (row_le o a b).
Proof. destruct o; simpl; solve_decision. Defined.

#[local] Instance row_le_trans o : Transitive (row_le o).
Proof.
  intros a b c. destruct o; simpl; [done|apply str_ge_trans|].
  intros H1 H2. by apply (str_ge_trans _ _ _ H2).
Qed.

#[local] Instance row_le_total o : Total (row_le o).
Proof. intros a b. destruct o; simpl; [by left|apply str_ge_total|apply str_ge_total]. Qed.

Notation World := (gmap string TaskRow).

#[export] Instance clock : Clock World := mreturn 1700000000000000000.

#[export] Instance pool : ConnectionPool World := {
  pool_acquire := mreturn (Ok ());
  pool_release := mreturn ()
}.

#[export] Instance db : TasksDb World := {
  insert_or_replace r := fun w => (inr (), <[row_id r := r]> w);
  select c o := fun w =>
    (inr (merge_sort (row_le o) (filter (fun r => row_matches c r) (map_to_list w).*2)), w);
  delete_row id := fun w => (inr (if decide (is_Some (w !! id)) then 1 else 0), delete id w)
}.

#[export] Instance db_laws : TasksDbLaws World id.
Proof.
  split; try done.
  - intros c o w rows w' [= <- <-]. split; [apply merge_sort_Permutation|].
    apply (StronglySorted_merge_sort (row_le o)).
  - intros k w n w' [= <- <-]. change (Datatypes.id w) with w. rewrite eq_None_not_Some.
    destruct (decide _); naive_solver lia.
Qed.

#[export] Instance clock_frame : Preserves (id : World -> World) now.
Proof. done. Qed.

Lemma empty_table_inv : repo_inv id (∅ : World).
Proof. intros k r H. by apply (lookup_empty_Some (M := gmap string) k r) in H. Qed.

(** A failed job of a user, as the mirror pipeline leaves it. *)
Definition sample (id : string) (created : Z) (st : TaskState) (err : option string) : Task :=
  MkTask (MkMetadata (MkId id) (MkId 7) (MkId (-100)) (MkId 3) Mirror "http://h/f" created created)
    st err (Some (MkId "2089b05ecca3d829")) Aria2.

Lemma sample_row_storable id n st err :
  valid_time n -> (err <> None <-> st = Failed) -> storable (sample id n st err).
Proof. intros Hn He. split_and!; simpl; done. Qed.

(** The table after saving some tasks. *)
Definition after (ts : list Task) : World := foldl (fun w t => (save t w).2) ∅ ts.

Lemma after_inv ts : Forall storable ts -> repo_inv id (after ts).
Proof.
  unfold after. generalize empty_table_inv. generalize (∅ : World). intros w Hw Hts. revert w Hw.
  induction Hts as [|t ts Ht _ IH]; intros w Hw; [done|]. cbn [foldl]. apply IH.
  exact (save_inv (inv := repo_inv id) (tasks := repo_tasks id) t w Hw Ht).
Qed.

End MemDb.

Import MemDb.

(** ** Theorems *)

(** C6. What [save] stores, [find] returns: after a successful [save] of a task the
    program can build, [find] of its id yields the same task (identity, metadata, state,
    error message and downloader binding; creation time at millisecond granularity; only
    [updated_at] may differ), every other id still yields what was stored before, and
    [find] fails only if the pool or the engine does: no stored row is unreadable. *)
Theorem sqlite_save_find {W} `{!Clock W, !ConnectionPool W, !TasksDb W} (table : W -> gmap string TaskRow)
  (Hdb : TasksDbLaws W table) (Hclock : Preserves table now) t w w1
  (Hinv : repo_inv table w) (Ht : storable t) (Hsave : save t w = (Ok (), w1)) :
  (forall o w2, find (md_id (metadata t)) w1 = (Ok o, w2) -> exists t', o = Some t' /\ t' ≡ stored t) /\
  (forall id o w2, value id <> task_key t -> find id w1 = (Ok o, w2) ->
     option_Forall2 (≡) o (repo_tasks table w !! value id)) /\
  (forall id wl rows ws, pool_acquire w1 = (Ok (), wl) ->
     select (WhereId (value id)) Unordered wl = (inr rows, ws) -> has_value (find id w1).1 = true).
Proof.
  pose proof (save_inv (inv := repo_inv table) (tasks := repo_tasks table) t w Hinv Ht) as Hinv1.
  pose proof (save_spec (inv := repo_inv table) (tasks := repo_tasks table) t w Hinv Ht) as Hs.
  simpl in *. rewrite Hsave in Hinv1, Hs. simpl in *. split_and!.
  - intros o w2 Hf. apply (find_result table) in Hf; [|done]. unfold task_key in Hs.
    rewrite Hs, lookup_insert in Hf. rewrite decide_True in Hf by done.
    inversion Hf as [t' ? Heq|]; subst. by exists t'.
  - intros id o w2 Hne Hf. apply (find_result table) in Hf; [|done].
    rewrite Hs, lookup_insert_ne in Hf by congruence. done.
  - intros id wl rows ws Ha Hsel.
    destruct (find_available table id w1 wl rows ws Hinv1 Ha Hsel) as (o & -> & _). done.
Qed.

Lemma sqlite_save_find_witness :
  let t := MemDb.sample "a" 1709210096789123456 Failed (Some "boom") in
  let w1 := (save t (∅ : MemDb.World)).2 in
  (find (MkId "a") w1).1 = Ok (Some (enter Failed 1700000000000000000 (stored t))) /\
  (forall o w2, find (MkId "a") w1 = (Ok o, w2) -> exists t', o = Some t' /\ t' ≡ stored t).
Proof.
  intros t w1. split; [vm_compute; reflexivity|].
  refine (proj1 (sqlite_save_find id MemDb.db_laws MemDb.clock_frame t ∅ w1 MemDb.empty_table_inv _ eq_refl)).
  apply MemDb.sample_row_storable; [by split; vm_compute|done].
Defined.

(** C11. [incomplete()] is exactly the unfinished work: it returns, each once and oldest
    first, the stored tasks that are not Completed, Failed or Cancelled, and changes
    nothing. *)
Theorem sqlite_incomplete_exact {W} `{!Clock W, !ConnectionPool W, !TasksDb W} (table : W -> gmap string TaskRow)
  (Hdb : TasksDbLaws W table) (Hclock : Preserves table now) w l w'
  (Hinv : repo_inv table w) (Hl : incomplete w = (Ok l, w')) :
  repo_tasks table w' = repo_tasks table w /\ NoDup (task_key <$> l) /\
  (forall id, id ∈ task_key <$> l <->
     exists t, repo_tasks table w !! id = Some t /\ is_terminal t = false) /\
  Forall (fun t => is_terminal t = false) l /\
  StronglySorted Z.le (md_created_at ∘ metadata <$> l).
Proof.
  pose proof (incomplete_frame (inv := repo_inv table) (tasks := repo_tasks table) w Hinv) as Hf.
  change (repo_incomplete w = (Ok l, w')) in Hl.
  destruct (incomplete_spec (inv := repo_inv table) (tasks := repo_tasks table) w l w' Hinv Hl) as (l0 & Heq & Hnd & Hel & Hs).
  rewrite Hl in Hf. simpl in Hf.
  assert (task_key <$> l = task_key <$> l0) as Hkeys.
  { clear -Heq. induction Heq as [|t t0 l l0 H _ IH]; [done|]. rewrite !fmap_cons, IH. f_equal.
    unfold task_key. by rewrite (task_equiv_id _ _ H). }
  assert (md_created_at ∘ metadata <$> l = md_created_at ∘ metadata <$> l0) as Hcr.
  { clear -Heq. induction Heq as [|t t0 l l0 H _ IH]; [done|]. rewrite !fmap_cons, IH. f_equal.
    destruct H as [H _]. by injection H. }
  rewrite Hkeys, Hcr. split_and!; [done| | | |].
  - apply NoDup_fmap_2_strong; [|done]. intros t1 t2 [H1 _]%Hel [H2 _]%Hel E. rewrite E in H1. congruence.
  - intros id. rewrite list_elem_of_fmap. split.
    + intros (t & -> & [H1 H2]%Hel). eauto.
    + intros (t & H1 & H2). exists t.
      destruct (tasks_storable (inv := repo_inv table) (tasks := repo_tasks table) id t w Hinv H1) as (_ & _ & Hid).
      split; [done|]. apply Hel. by rewrite Hid.
  - apply Forall_forall. intros t Hin. apply list_elem_of_lookup in Hin as [i Hi].
    destruct (Forall2_lookup_l _ _ _ _ _ Heq Hi) as (t0 & Hi0 & H0). rewrite H0.
    apply Hel. by eapply list_elem_of_lookup_2.
  - clear -Hs. induction Hs as [|t l0 _ IH Hall]; simpl; constructor; [done|]. by apply Forall_fmap.
Qed.

Lemma sqlite_incomplete_exact_witness :
  let w := MemDb.after [MemDb.sample "c" 3000000000 Uploading None;
                        MemDb.sample "b" 2000000000 Completed None;
                        MemDb.sample "a" 1000000000 Queued None] in
  exists l, (incomplete w).1 = Ok l /\ task_key <$> l = ["a"; "c"] /\ NoDup (task_key <$> l).
Proof.
  intros w.
  assert (repo_inv id w) as Hinv.
  { apply MemDb.after_inv.
    repeat (apply Forall_cons_2; [apply MemDb.sample_row_storable; [by split; vm_compute|done]|]). apply Forall_nil_2. }
  assert (exists l w', incomplete w = (Ok l, w') /\ task_key <$> l = ["a"; "c"]) as (l & w' & E & Hk).
  { do 2 eexists. split; [vm_compute; reflexivity|reflexivity]. }
  clearbody w. exists l. rewrite E. split; [done|]. split; [done|].
  apply (sqlite_incomplete_exact id MemDb.db_laws MemDb.clock_frame w l w' Hinv E).
Defined.

(** [remove] deletes exactly one task: on success the id was stored, [find] no longer
    yields it and no other task changes; on failure nothing changes; and given a lease and
    a working engine it fails with NotFound exactly when the id is not stored. *)
Theorem sqlite_remove_exact {W} `{!Clock W, !ConnectionPool W, !TasksDb W} (table : W -> gmap string TaskRow)
  (Hdb : TasksDbLaws W table) (Hclock : Preserves table now) id w
  (Hinv : repo_inv table w) :
  repo_inv table (remove_task id w).2 /\
  repo_tasks table (remove_task id w).2 =
    (if has_value (remove_task id w).1 then delete (value id) (repo_tasks table w) else repo_tasks table w) /\
  (forall o w2, has_value (remove_task id w).1 = true -> find id (remove_task id w).2 = (Ok o, w2) -> o = None) /\
  (forall wl n ws, pool_acquire w = (Ok (), wl) -> delete_row (value id) wl = (inr n, ws) ->
     (remove_task id w).1 = if decide (is_Some (repo_tasks table w !! value id)) then Ok ()
                            else error NotFound ("remove(TaskId): no task with id " +:+ value id)).
Proof.
  pose proof (remove_inv (inv := repo_inv table) (tasks := repo_tasks table) id w Hinv) as Hinv'.
  pose proof (remove_spec (inv := repo_inv table) (tasks := repo_tasks table) id w Hinv) as Hs. simpl in *.
  split_and!; [done|done| |].
  - intros o w2 Hok Hf. apply (find_result table) in Hf; [|done]. rewrite Hs, Hok in Hf.
    rewrite lookup_delete in Hf. rewrite decide_True in Hf by done. by inversion Hf.
  - intros wl n ws Ha Hd. unfold remove_task. rewrite (with_lease_run _ _ _ Ha). unfold mbind. rewrite Hd.
    pose proof (acquire_frame w) as Hf. rewrite Ha in Hf. simpl in Hf.
    pose proof (delete_changes _ _ _ _ Hd) as Hn. rewrite Hf in Hn.
    assert (repo_tasks table w !! value id = None <-> table w !! value id = None) as Hnone.
    { unfold repo_tasks. rewrite lookup_omap. destruct (table w !! value id) as [r|] eqn:E; [|done]. simpl.
      destruct (Hinv _ _ E) as (t & Hk & -> & _). by rewrite held_kept. }
    destruct (Z.eqb_spec n 0), (decide _) as [[t Ht]|Hno]; simpl; try done.
    + rewrite (proj2 Hnone) in Ht by naive_solver. done.
    + apply eq_None_not_Some in Hno. naive_solver.
Qed.

Lemma sqlite_remove_exact_witness :
  let w := MemDb.after [MemDb.sample "a" 1000000000 Queued None] in
  (remove_task (MkId "a") w).1 = Ok () /\ (remove_task (MkId "b") w).1 = error NotFound "remove(TaskId): no task with id b" /\
  repo_tasks id (remove_task (MkId "a") w).2 = delete "a" (repo_tasks id w).
Proof.
  intros w.
  assert (repo_inv id w) as Hinv.
  { apply MemDb.after_inv. apply Forall_cons_2; [|apply Forall_nil_2].
    apply MemDb.sample_row_storable; [by split; vm_compute|done]. }
  assert (has_value (remove_task (MkId "a") w).1 = true) as Hok by (vm_compute; reflexivity).
  split; [vm_compute; reflexivity|]. split; [vm_compute; reflexivity|]. clearbody w.
  pose proof (proj1 (proj2 (sqlite_remove_exact id MemDb.db_laws MemDb.clock_frame (MkId "a") w Hinv))) as H.
  rewrite Hok in H. exact H.
Defined.
