(* ===== verification/Registry.v ===== *)
(** * The cancellation channel: [application/active_task_registry.hpp]

    [ActiveTaskRegistry] maps a task to a shared [std::atomic<bool>]; the use case that
    runs the task and [CancelTask] hold the same flag.  The flags live in a store, and a
    [shared_ptr] is a reference into it, so that the aliasing is that of the code. *)

From S2P Require Import Prelude Identifiers.

Local Open Scope coro_scope.

(** A [std::shared_ptr<std::atomic<bool>>]. *)
Definition FlagRef := nat.

(** [class ActiveTaskRegistry] with the flags it has allocated; [next_ref] is fresh. *)
Record ActiveTaskRegistry := MkRegistry {
  map_ : gmap TaskId FlagRef;
  flags : gmap FlagRef bool;
  next_ref : FlagRef
}.

Definition empty_registry : ActiveTaskRegistry := MkRegistry ∅ ∅ 0%nat.

(** [ActiveTaskRegistry::register_task]. *)
Definition register_task (id : TaskId) (r : ActiveTaskRegistry) : FlagRef * ActiveTaskRegistry :=
  match map_ r !! id with
  | Some slot => (slot, r)
  | None => (next_ref r,
             MkRegistry (<[id := next_ref r]> (map_ r)) (<[next_ref r := false]> (flags r)) (S (next_ref r)))
  end.

(** [ActiveTaskRegistry::unregister]. *)
Definition unregister (id : TaskId) (r : ActiveTaskRegistry) : ActiveTaskRegistry :=
  MkRegistry (delete id (map_ r)) (flags r) (next_ref r).

(** [ActiveTaskRegistry::cancel]. *)
Definition cancel (id : TaskId) (r : ActiveTaskRegistry) : bool * ActiveTaskRegistry :=
  match map_ r !! id with
  | None => (false, r)
  | Some flag => (true, MkRegistry (map_ r) (<[flag := true]> (flags r)) (next_ref r))
  end.

(** [class ActiveTaskGuard]. *)
Record ActiveTaskGuard := MkGuard { guard_id : TaskId; guard_flag : FlagRef }.

(** [ActiveTaskGuard::ActiveTaskGuard]. *)
Definition make_guard (id : TaskId) (r : ActiveTaskRegistry) : ActiveTaskGuard * ActiveTaskRegistry :=
  let '(flag, r') := register_task id r in (MkGuard id flag, r').

(** [ActiveTaskGuard::~ActiveTaskGuard]. *)
Definition drop_guard (g : ActiveTaskGuard) (r : ActiveTaskRegistry) : ActiveTaskRegistry :=
  unregister (guard_id g) r.

(** [ActiveTaskGuard::cancelled]. *)
Definition guard_cancelled (g : ActiveTaskGuard) (r : ActiveTaskRegistry) : bool :=
  default false (flags r !! guard_flag g).

(** ** The registry as part of a world *)

Class HasRegistry (W : Type) := {
  get_registry : W -> ActiveTaskRegistry;
  set_registry : ActiveTaskRegistry -> W -> W;
  get_set_registry r w : get_registry (set_registry r w) = r
}.

(** [active_tasks_.cancel(id)] from a coroutine. *)
Definition active_tasks_cancel {W} `{!HasRegistry W} (id : TaskId) : M W bool := fun w =>
  let '(b, r) := cancel id (get_registry w) in (b, set_registry r w).

(** ** Invariant *)

(** Every registered flag is allocated, and no two tasks share one. *)
Record registry_ok (r : ActiveTaskRegistry) : Prop := {
  ok_allocated id f : map_ r !! id = Some f -> is_Some (flags r !! f);
  ok_injective id1 id2 f : map_ r !! id1 = Some f -> map_ r !! id2 = Some f -> id1 = id2;
  ok_fresh f : is_Some (flags r !! f) -> (f < next_ref r)%nat
}.

(** ** Abstract specification: which tasks run, and which of them were asked to stop *)

Definition abstract (r : ActiveTaskRegistry) : gmap TaskId bool :=
  (fun f => default false (flags r !! f)) <$> map_ r.

Inductive RegistryOp := Register (id : TaskId) | Unregister (id : TaskId) | Cancel (id : TaskId).

Definition run_registry_op (op : RegistryOp) (r : ActiveTaskRegistry) : ActiveTaskRegistry :=
  match op with
  | Register id => (register_task id r).2
  | Unregister id => unregister id r
  | Cancel id => (cancel id r).2
  end.

Definition spec_registry_op (op : RegistryOp) (m : gmap TaskId bool) : gmap TaskId bool :=
  match op with
  | Register id => match m !! id with Some _ => m | None => <[id := false]> m end
  | Unregister id => delete id m
  | Cancel id => alter (fun _ => true) id m
  end.

(** ** Lemmas *)

Lemma empty_registry_ok : registry_ok empty_registry.
Proof. split; simpl; intros *; rewrite ?lookup_empty; [done..|by intros []]. Qed.

Lemma register_ok id r : registry_ok r -> registry_ok (register_task id r).2.
Proof.
  intros Hr. unfold register_task. destruct (map_ r !! id) eqn:E; [done|]. simpl.
  assert (forall id' f, map_ r !! id' = Some f -> f <> next_ref r) as Hne.
  { intros id' f H ->. apply (ok_allocated r Hr), (ok_fresh r Hr) in H. lia. }
  split; simpl.
  - intros id' f [[-> <-]|[Hn H]]%lookup_insert_Some; [rewrite lookup_insert; by rewrite decide_True by done|].
    rewrite lookup_insert_ne by (symmetry; by eapply Hne). by eapply ok_allocated.
  - intros id1 id2 f [[-> <-]|[Hn1 H1]]%lookup_insert_Some [[-> H]|[Hn2 H2]]%lookup_insert_Some; try done.
    + by apply Hne in H2.
    + subst f. by apply Hne in H1.
    + by eapply ok_injective.
  - intros f [b [[<- _]|[Hn H]]%lookup_insert_Some]; [lia|].
    assert (f < next_ref r)%nat by (apply (ok_fresh r Hr); eauto). lia.
Qed.

Lemma unregister_ok id r : registry_ok r -> registry_ok (unregister id r).
Proof.
  intros Hr. split; simpl.
  - intros id' f [_ H]%lookup_delete_Some. by eapply ok_allocated.
  - intros id1 id2 f [_ H1]%lookup_delete_Some [_ H2]%lookup_delete_Some. by eapply ok_injective.
  - apply Hr.
Qed.

Lemma cancel_ok id r : registry_ok r -> registry_ok (cancel id r).2.
Proof.
  intros Hr. unfold cancel. destruct (map_ r !! id) as [f0|] eqn:E; [|done]. split; simpl.
  - intros id' f H. destruct (decide (f0 = f)) as [->|].
    + rewrite lookup_insert. by rewrite decide_True by done.
    + rewrite lookup_insert_ne by done. by eapply ok_allocated.
  - apply Hr.
  - intros f [b [[<- _]|[Hn H]]%lookup_insert_Some]; apply (ok_fresh r Hr); [by eapply ok_allocated|eauto].
Qed.

Lemma abstract_lookup r id : abstract r !! id = (fun f => default false (flags r !! f)) <$> map_ r !! id.
Proof. apply lookup_fmap. Qed.

Lemma run_registry_op_ok op r : registry_ok r -> registry_ok (run_registry_op op r).
Proof. destruct op; simpl; auto using register_ok, unregister_ok, cancel_ok. Qed.

Lemma run_registry_op_refines op r :
  registry_ok r -> abstract (run_registry_op op r) = spec_registry_op op (abstract r).
Proof.
  intros Hr. apply map_eq. intros id'. destruct op as [id|id|id]; simpl.
  - rewrite (abstract_lookup r id). unfold register_task.
    destruct (map_ r !! id) as [f|] eqn:E; simpl; [done|].
    destruct (decide (id = id')) as [<-|Hne].
    + rewrite abstract_lookup, lookup_insert_eq. simpl.
      rewrite lookup_insert_eq. simpl. by rewrite lookup_insert_eq.
    + rewrite abstract_lookup. simpl. rewrite !lookup_insert_ne, abstract_lookup by done.
      destruct (map_ r !! id') as [f|] eqn:E'; [|done]. simpl.
      rewrite lookup_insert_ne; [done|]. intros <-.
      apply (ok_allocated r Hr), (ok_fresh r Hr) in E'. lia.
  - unfold unregister. rewrite abstract_lookup. simpl.
    destruct (decide (id = id')) as [<-|Hne].
    + by rewrite !lookup_delete, !decide_True by done.
    + by rewrite !lookup_delete_ne, abstract_lookup by done.
  - unfold cancel. destruct (map_ r !! id) as [f|] eqn:E; simpl.
    + rewrite abstract_lookup. simpl. destruct (decide (id = id')) as [<-|Hne].
      * rewrite lookup_alter, decide_True, abstract_lookup, E by done. simpl.
        by rewrite lookup_insert, decide_True by done.
      * rewrite lookup_alter_ne, abstract_lookup by done. destruct (map_ r !! id') as [f'|] eqn:E'; [|done].
        simpl. rewrite lookup_insert_ne; [done|]. intros <-. by apply Hne, (ok_injective r Hr _ _ f).
    + destruct (decide (id = id')) as [<-|Hne].
      * by rewrite lookup_alter, decide_True, abstract_lookup, E by done.
      * by rewrite lookup_alter_ne by done.
Qed.

Lemma cancel_result id r : (cancel id r).1 = bool_decide (is_Some (abstract r !! id)).
Proof.
  unfold cancel. rewrite abstract_lookup. by destruct (map_ r !! id).
Qed.

(** A flag keeps its value until a cancel hits the task it is registered for. *)
Lemma flag_stable op r f :
  registry_ok r -> is_Some (flags r !! f) ->
  flags (run_registry_op op r) !! f =
    match op with
    | Cancel id => if bool_decide (map_ r !! id = Some f) then Some true else flags r !! f
    | _ => flags r !! f
    end.
Proof.
  intros Hr Hf. destruct op as [id|id|id]; simpl; [|done|].
  - unfold register_task. destruct (map_ r !! id); [done|]. simpl.
    rewrite lookup_insert_ne; [done|]. apply (ok_fresh r Hr) in Hf. lia.
  - unfold cancel. destruct (map_ r !! id) as [f'|]; simpl; [|done].
    destruct (decide (f' = f)) as [->|Hne].
    + by rewrite lookup_insert, decide_True, bool_decide_true by done.
    + rewrite lookup_insert_ne, bool_decide_false by congruence. done.
Qed.

Definition run_registry (ops : list RegistryOp) (r : ActiveTaskRegistry) : ActiveTaskRegistry :=
  foldl (fun r op => run_registry_op op r) r ops.

#[global] Instance RegistryOp_eq_dec : EqDecision RegistryOp.
Proof. solve_decision. Defined.

Lemma run_registry_ok ops r : registry_ok r -> registry_ok (run_registry ops r).
Proof. revert r. induction ops as [|op ops IH]; intros r Hr; simpl; [done|]. by apply IH, run_registry_op_ok. Qed.

(** While [id] stays registered with flag [f], only a cancel of [id] touches the flag. *)
Lemma flag_of_registered id f ops r :
  registry_ok r -> map_ r !! id = Some f -> Unregister id ∉ ops ->
  default false (flags (run_registry ops r) !! f) =
    bool_decide (Cancel id ∈ ops) || default false (flags r !! f).
Proof.
  revert r. induction ops as [|op ops IH]; intros r Hr Hid Hun; simpl; [done|].
  apply not_elem_of_cons in Hun as [Hop Hun].
  assert (map_ (run_registry_op op r) !! id = Some f) as Hid'.
  { destruct op as [i|i|i]; simpl.
    - unfold register_task. destruct (map_ r !! i) eqn:E; [done|]. simpl.
      rewrite lookup_insert_ne; [done|]. congruence.
    - rewrite lookup_delete_ne; [done|]. congruence.
    - unfold cancel. by destruct (map_ r !! i). }
  rewrite IH by auto using run_registry_op_ok.
  rewrite (flag_stable op r f Hr) by (by eapply ok_allocated).
  destruct (decide (op = Cancel id)) as [->|Hne].
  - rewrite (bool_decide_true (map_ r !! id = Some f)) by done. simpl.
    rewrite (bool_decide_true (Cancel id ∈ Cancel id :: ops)) by set_solver. by rewrite orb_true_r.
  - replace (bool_decide (Cancel id ∈ op :: ops)) with (bool_decide (Cancel id ∈ ops))
      by (apply bool_decide_ext; rewrite elem_of_cons; naive_solver).
    f_equal. destruct op as [i|i|i]; [done..|].
    rewrite bool_decide_false; [done|]. intros Hi. apply Hne. f_equal. by eapply ok_injective.
Qed.

(** ** Theorems *)

(** C9. The registry implements its contract: along every sequence of operations from the
    empty registry, the running tasks and their stop requests are those of the abstract
    map, [cancel] answers [true] exactly for a running task, and re-registering a running
    task hands out the flag it already has. *)
Theorem registry_refines_contract ops :
  let r := run_registry ops empty_registry in
  abstract r = foldl (fun m op => spec_registry_op op m) ∅ ops /\
  (forall id, (cancel id r).1 = bool_decide (is_Some (foldl (fun m op => spec_registry_op op m) ∅ ops !! id))) /\
  (forall id f, map_ r !! id = Some f -> register_task id r = (f, r)).
Proof.
  assert (forall r, registry_ok r ->
    abstract (run_registry ops r) = foldl (fun m op => spec_registry_op op m) (abstract r) ops) as Href.
  { induction ops as [|op ops IH]; intros r Hr; simpl; [done|].
    rewrite IH by by apply run_registry_op_ok. by rewrite run_registry_op_refines. }
  specialize (Href empty_registry empty_registry_ok).
  split_and!.
  - rewrite Href. unfold abstract. simpl. by rewrite fmap_empty.
  - intros id. rewrite cancel_result, Href. unfold abstract. simpl. by rewrite fmap_empty.
  - intros id f H. unfold register_task. by rewrite H.
Qed.

(** A stop request reaches the coroutine it is meant for, and no other: for a guard
    taken on a task that was not registered, [cancelled()] is [false] until [/cancel] of
    that very task and [true] ever after, whatever happens to other tasks in between, and
    destroying the guard makes the task unknown to [cancel]. *)
Theorem guard_observes_cancel id r g r1 ops
  (Hr : registry_ok r) (Hnew : map_ r !! id = None) (Hg : make_guard id r = (g, r1))
  (Hops : Unregister id ∉ ops) :
  guard_cancelled g (run_registry ops r1) = bool_decide (Cancel id ∈ ops) /\
  (cancel id (drop_guard g (run_registry ops r1))).1 = false /\
  guard_cancelled g (drop_guard g (run_registry ops r1)) = guard_cancelled g (run_registry ops r1).
Proof.
  unfold make_guard, register_task in Hg. rewrite Hnew in Hg. simplify_eq/=.
  pose proof (register_ok id r Hr) as Hr1. unfold register_task in Hr1. rewrite Hnew in Hr1. simpl in Hr1.
  unfold guard_cancelled, drop_guard. simpl. split_and!; [| |done].
  - rewrite (flag_of_registered id); [|done|simpl; apply lookup_insert_eq|done].
    simpl. by rewrite lookup_insert_eq, orb_false_r.
  - unfold cancel, unregister. simpl. by rewrite lookup_delete_eq.
Qed.

Lemma guard_observes_cancel_witness :
  let t1 := @MkId TaskIdTag _ "a" in let t2 := @MkId TaskIdTag _ "b" in
  let '(g, r1) := make_guard t1 empty_registry in
  guard_cancelled g (run_registry [Register t2; Cancel t2; Unregister t2] r1) = false /\
  guard_cancelled g (run_registry [Register t2; Cancel t1; Unregister t2] r1) = true.
Proof.
  intros t1 t2. split.
  - etransitivity; [refine (proj1 (guard_observes_cancel t1 empty_registry _ _ _ empty_registry_ok eq_refl eq_refl _))|].
    + by apply (bool_decide_unpack _); vm_compute.
    + by vm_compute.
  - etransitivity; [refine (proj1 (guard_observes_cancel t1 empty_registry _ _ _ empty_registry_ok eq_refl eq_refl _))|].
    + by apply (bool_decide_unpack _); vm_compute.
    + by vm_compute.
Defined.
