(* ===== verification/Progress.v ===== *)
(** * Progress display: the floating-point helpers of [core/formatting.cpp]

    A finite [double] is modelled by its exact value, a fraction over a power of two; each
    operation computes the exact result and rounds it once to 53 significant bits, ties to
    even. No value here is subnormal or overflows. *)

From S2P Require Import Prelude CoreError Formatting.

(** A finite [double]: [d_num / d_den], with [d_den] a power of two. *)
Record double := MkDouble { d_num : Z; d_den : Z }.

Definition double_of_Z (n : Z) : double := MkDouble n 1.

(** The [double] nearest to [n / d], for [0 <= n] and [0 < d]. *)
Definition round_fraction (n d : Z) : double :=
  if n =? 0 then double_of_Z 0
  else
    let k0 := 52 + Z.log2 d - Z.log2 n in
    let scaled k := (n * 2 ^ Z.max k 0, d * 2 ^ Z.max (- k) 0) in
    let '(a, b) := scaled k0 in
    let k := if a <? 2 ^ 52 * b then k0 + 1 else k0 in
    let '(a, b) := scaled k in
    MkDouble (round_half_even a b * 2 ^ Z.max (- k) 0) (2 ^ Z.max k 0).

(** [static_cast<double>] of a 64-bit integer. *)
Definition to_double (n : Z) : double := double_of_Z (Z.sgn n * round_to_double (Z.abs n)).

(** [a / b] and [a * b] on doubles, for [b <> 0]; the sign is the product of the signs. *)
Definition div_double (a b : double) : double :=
  let r := round_fraction (Z.abs (d_num a) * d_den b) (d_den a * Z.abs (d_num b)) in
  MkDouble (Z.sgn (d_num a) * Z.sgn (d_num b) * d_num r) (d_den r).
Definition mul_double (a b : double) : double :=
  let r := round_fraction (Z.abs (d_num a) * Z.abs (d_num b)) (d_den a * d_den b) in
  MkDouble (Z.sgn (d_num a) * Z.sgn (d_num b) * d_num r) (d_den r).

(** [clamp_fraction]; the NaN case does not arise. *)
Definition clamp_fraction (f : double) : double :=
  if d_num f <? 0 then double_of_Z 0
  else if d_den f <? d_num f then double_of_Z 1
  else f.

(** [std::string(n, c)]. *)
Definition str_repeat (n : nat) (c : ascii) : string := of_chars (replicate n c).

(** [render_progress_bar]. *)
Definition render_progress_bar_with (fraction : double) (width : nat) (filled empty : ascii) : string :=
  let f := clamp_fraction fraction in
  match width with
  | O => "[]"
  | _ =>
      let p := mul_double f (double_of_Z (Z.of_nat width)) in
      let fill_count := Z.to_nat (d_num p / d_den p) in
      let clamped := Nat.min fill_count width in
      "[" +:+ str_repeat clamped filled +:+ str_repeat (width - clamped) empty +:+ "]"
  end.
Definition render_progress_bar (fraction : double) : string :=
  render_progress_bar_with fraction 12 "#"%char "-"%char.

(** ["{:.1f}"]. *)
Definition fmt_fixed1 (x : double) : string :=
  let deci := round_half_even (10 * Z.abs (d_num x)) (d_den x) in
  (if d_num x <? 0 then "-" else "") +:+ fmt_int (deci / 10) +:+ "." +:+ fmt_int (deci mod 10).

(** ["{:.2f}"]. *)
Definition fmt_double2 (x : double) : string :=
  (if d_num x <? 0 then "-" else "") +:+ fmt_fixed2 (Z.abs (d_num x)) (d_den x).

(** [format_percent] with its default of one decimal. *)
Definition format_percent (fraction : double) : string :=
  fmt_fixed1 (mul_double (clamp_fraction fraction) (double_of_Z 100)) +:+ "%".

(** The fraction the renderers compute from the byte counts of a download. *)
Definition progress_fraction (downloaded total : Z) : double :=
  if total >? 0 then div_double (to_double downloaded) (to_double total) else double_of_Z 0.

(** ** Lemmas *)

Lemma log2_bounds n : 0 < n -> 2 ^ Z.log2 n <= n < 2 * 2 ^ Z.log2 n.
Proof. intros Hn. pose proof (Z.log2_spec n Hn) as H. rewrite Z.pow_succ_r in H by apply Z.log2_nonneg. lia. Qed.

(** The scaling leaves a quotient with at least 53 bits. *)
Lemma scaled_quotient n d k :
  0 < n -> 0 < d -> 52 + Z.log2 d - Z.log2 n <= k ->
  2 ^ 51 * (d * 2 ^ Z.max (- k) 0) <= n * 2 ^ Z.max k 0.
Proof.
  intros Hn Hd Hk. destruct (log2_bounds n Hn) as [H1 _], (log2_bounds d Hd) as [_ H2].
  pose proof (Z.log2_nonneg n). pose proof (Z.log2_nonneg d).
  transitivity (2 ^ 51 * (2 * 2 ^ Z.log2 d * 2 ^ Z.max (- k) 0)).
  { apply Z.mul_le_mono_nonneg_l; [lia|]. apply Z.mul_le_mono_nonneg_r; [|lia]. apply Z.pow_nonneg. lia. }
  transitivity (2 ^ Z.log2 n * 2 ^ Z.max k 0).
  2: { apply Z.mul_le_mono_nonneg_r; [|lia]. apply Z.pow_nonneg. lia. }
  replace (2 ^ 51 * (2 * 2 ^ Z.log2 d * 2 ^ Z.max (- k) 0)) with (2 ^ (52 + Z.log2 d + Z.max (- k) 0)).
  - rewrite <-Z.pow_add_r by lia. apply Z.pow_le_mono_r; lia.
  - rewrite !Z.pow_add_r by lia. change (2 ^ 52) with (2 ^ 51 * 2). ring.
Qed.

(** Rounding changes a fraction by at most one part in 2^53. *)
Lemma round_fraction_error n d :
  0 <= n -> 0 < d ->
  let r := round_fraction n d in
  0 < d_den r /\ 0 <= d_num r /\ 2 ^ 53 * Z.abs (d_num r * d - n * d_den r) <= n * d_den r.
Proof.
  intros Hn Hd. unfold round_fraction. destruct (Z.eqb_spec n 0) as [->|Hne]; [simpl; lia|].
  set (k0 := 52 + Z.log2 d - Z.log2 n). cbv zeta beta iota.
  set (k := if n * 2 ^ Z.max k0 0 <? 2 ^ 52 * (d * 2 ^ Z.max (- k0) 0) then k0 + 1 else k0).
  set (U := 2 ^ Z.max k 0). set (V := 2 ^ Z.max (- k) 0).
  assert (0 < U /\ 0 < V) as [HU HV] by (split; apply Z.pow_pos_nonneg; lia).
  assert (2 ^ 52 * (d * V) <= n * U) as Hq.
  { subst U V k. destruct (Z.ltb_spec (n * 2 ^ Z.max k0 0) (2 ^ 52 * (d * 2 ^ Z.max (- k0) 0))) as [H|H]; [|done].
    clear H. pose proof (scaled_quotient n d k0 ltac:(lia) Hd ltac:(lia)) as H.
    destruct (Z.leb_spec 0 k0).
    - replace (Z.max (k0 + 1) 0) with (Z.succ (Z.max k0 0)) by lia.
      replace (Z.max (- (k0 + 1)) 0) with (Z.max (- k0) 0) by lia. rewrite Z.pow_succ_r by lia.
      set (u := 2 ^ Z.max k0 0) in *. set (v := 2 ^ Z.max (- k0) 0) in *. lia.
    - replace (Z.max (- k0) 0) with (Z.succ (Z.max (- (k0 + 1)) 0)) in H by lia.
      replace (Z.max (k0 + 1) 0) with (Z.max k0 0) by lia. rewrite Z.pow_succ_r in H by lia.
      set (u := 2 ^ Z.max k0 0) in *. set (v := 2 ^ Z.max (- (k0 + 1)) 0) in *. lia. }
  cbn [d_num d_den]. pose proof (round_half_even_error (n * U) (d * V) ltac:(nia)) as He.
  set (q := round_half_even (n * U) (d * V)) in *. split_and!; [done| |].
  - apply Z.mul_nonneg_nonneg; [|lia]. nia.
  - replace (q * V * d - n * U) with (q * (d * V) - n * U) by ring. lia.
Qed.

(** Chained upper and lower bounds with one relative error each. *)
Lemma chain_le E a b c x y z :
  0 < E -> 0 < x -> 0 < y -> 0 <= a -> 0 <= b -> 0 <= c ->
  E * (a * y) <= b * x * (E + 1) -> E * (b * z) <= c * y * (E + 1) -> 0 < z ->
  E * E * (a * z) <= c * x * ((E + 1) * (E + 1)).
Proof.
  intros HE Hx Hy Ha Hb Hc H1 H2 Hz.
  assert (E * (a * y) * (E * z) <= b * x * (E + 1) * (E * z)) as H3 by (apply Z.mul_le_mono_nonneg_r; nia).
  assert (E * (b * z) * (x * (E + 1)) <= c * y * (E + 1) * (x * (E + 1))) as H4 by (apply Z.mul_le_mono_nonneg_r; nia).
  apply (Z.mul_le_mono_pos_r _ _ y); [done|]. lia.
Qed.

Lemma chain_ge E a b c x y z :
  1 < E -> 0 < x -> 0 < y -> 0 <= a -> 0 <= b -> 0 <= c ->
  b * x * (E - 1) <= E * (a * y) -> c * y * (E - 1) <= E * (b * z) -> 0 < z ->
  c * x * ((E - 1) * (E - 1)) <= E * E * (a * z).
Proof.
  intros HE Hx Hy Ha Hb Hc H1 H2 Hz.
  assert (b * x * (E - 1) * (E * z) <= E * (a * y) * (E * z)) as H3 by (apply Z.mul_le_mono_nonneg_r; nia).
  assert (c * y * (E - 1) * (x * (E - 1)) <= E * (b * z) * (x * (E - 1))) as H4 by (apply Z.mul_le_mono_nonneg_r; nia).
  apply (Z.mul_le_mono_pos_r _ _ y); [done|]. lia.
Qed.

(** [pn / P] approximates [12 * (m / D)], which approximates [12 * (d / t)]. *)
Lemma two_roundings m D pn P d t :
  0 < D -> 0 < P -> 0 <= m -> 0 <= pn -> 0 <= d <= t -> 0 < t < 2 ^ 48 ->
  2 ^ 53 * Z.abs (m * t - d * D) <= d * D -> 2 ^ 53 * Z.abs (pn * D - m * 12 * P) <= m * 12 * P ->
  12 * d - t <= pn / P * t <= 12 * d.
Proof.
  intros HD HP Hm Hpn Hd Ht H1 H2. set (E := 2 ^ 53) in *.
  assert (E = 9007199254740992) as HE by done.
  pose proof (Z.div_mod pn P ltac:(lia)) as Hdiv. pose proof (Z.mod_pos_bound pn P HP) as Hmod.
  set (c := pn / P) in *. set (r := pn mod P) in *.
  assert (0 <= c) as Hc by (apply Z.div_pos; lia).
  split.
  - pose proof (chain_ge E pn (m * 12) (d * 12) P D t ltac:(lia) HP HD Hpn ltac:(lia) ltac:(lia) ltac:(lia) ltac:(lia) ltac:(lia)) as Hk.
    assert ((12 * d * ((E - 1) * (E - 1))) * P <= (E * E * ((c + 1) * t)) * P) as Hk2.
    { transitivity (E * E * (pn * t)); [lia|].
      transitivity (E * E * ((c + 1) * P * t)); [|lia]. apply Z.mul_le_mono_nonneg_l; [nia|].
      apply Z.mul_le_mono_nonneg_r; lia. }
    apply Z.mul_le_mono_pos_r in Hk2; [|done]. rewrite HE in Hk2. lia.
  - pose proof (chain_le E pn (m * 12) (d * 12) P D t ltac:(lia) HP HD Hpn ltac:(lia) ltac:(lia) ltac:(lia) ltac:(lia) ltac:(lia)) as Hk.
    assert ((E * E * (c * t)) * P <= (12 * d * ((E + 1) * (E + 1))) * P) as Hk2.
    { transitivity (E * E * (pn * t)); [|lia].
      transitivity (E * E * (c * P * t)); [lia|]. apply Z.mul_le_mono_nonneg_l; [nia|].
      apply Z.mul_le_mono_nonneg_r; lia. }
    apply Z.mul_le_mono_pos_r in Hk2; [|done]. rewrite HE in Hk2. lia.
Qed.

Example percent_third : format_percent (progress_fraction 1 3) = "33.3%".
Proof. vm_compute. reflexivity. Qed.

Example bar_half : render_progress_bar (progress_fraction 512 1024) = "[######------]".
Proof. vm_compute. reflexivity. Qed.

(** The filled part of the bar. *)
Definition bar_fill (downloaded total : Z) : nat :=
  let p := mul_double (clamp_fraction (progress_fraction downloaded total)) (double_of_Z 12) in
  Nat.min (Z.to_nat (d_num p / d_den p)) 12.

Lemma progress_fraction_small d t :
  0 <= d -> 0 < t -> d < 2 ^ 53 -> t < 2 ^ 53 -> progress_fraction d t = round_fraction d t.
Proof.
  intros Hd Ht Hd2 Ht2. unfold progress_fraction, div_double, to_double. rewrite Z.gtb_ltb, (proj2 (Z.ltb_lt _ _)) by done.
  cbn [d_num d_den double_of_Z]. rewrite !Z.abs_eq, !round_to_double_exact by lia.
  assert (forall n, 0 <= n -> Z.sgn n * n = n) as Hsgn by (intros n Hn; lia).
  rewrite !Hsgn, !Z.abs_eq, Z.mul_1_r, Z.mul_1_l by lia. rewrite (Z.sgn_pos t), Z.mul_1_r by lia.
  destruct (Z.eq_dec d 0) as [->|Hne]; [done|]. rewrite Z.sgn_pos, Z.mul_1_l by lia. by destruct (round_fraction d t).
Qed.

Lemma round_to_double_pos n : 0 < n -> 0 < round_to_double n.
Proof.
  intros Hn. unfold round_to_double. destruct (Z.leb_spec (Z.log2 n - 52) 0); [done|].
  assert (0 < 2 ^ (Z.log2 n - 52)) as Hp by (apply Z.pow_pos_nonneg; lia).
  assert (2 ^ (Z.log2 n - 52) <= n) as Hle.
  { transitivity (2 ^ Z.log2 n); [apply Z.pow_le_mono_r; lia|by apply Z.log2_spec]. }
  apply Z.mul_pos_pos; [|done]. unfold round_half_even.
  assert (0 < n / 2 ^ (Z.log2 n - 52)) by (apply Z.div_str_pos; lia).
  destruct (_ ?= _); [destruct (Z.even _)| |]; lia.
Qed.

Lemma to_double_pos n : 0 < n -> 0 < d_num (to_double n).
Proof. intros Hn. simpl. rewrite Z.sgn_pos, Z.abs_eq by lia. pose proof (round_to_double_pos n Hn). lia. Qed.

Lemma to_double_nonpos n : n <= 0 -> d_num (to_double n) <= 0.
Proof.
  intros Hn. simpl. destruct (Z.eq_dec n 0) as [->|Hne]; [done|]. rewrite Z.sgn_neg by lia.
  pose proof (round_to_double_pos (Z.abs n) ltac:(lia)). lia.
Qed.

Lemma div_double_nonpos a b :
  d_num a <= 0 -> 0 < d_num b -> d_den a = 1 -> d_den b = 1 ->
  d_num (div_double a b) <= 0 /\ 0 < d_den (div_double a b).
Proof.
  intros Ha Hb Ea Eb. unfold div_double. rewrite Ea, Eb. cbv zeta. cbn [d_num d_den].
  destruct (round_fraction_error (Z.abs (d_num a) * 1) (1 * Z.abs (d_num b))) as (H1 & H2 & _); [lia..|].
  split; [|done]. rewrite (Z.sgn_pos (d_num b)) by done. assert (Z.sgn (d_num a) <= 0) by lia. nia.
Qed.

Lemma bar_fill_exact d t :
  0 <= d <= t -> 0 < t < 2 ^ 48 -> 12 * d - t <= Z.of_nat (bar_fill d t) * t <= 12 * d.
Proof.
  intros Hd Ht. unfold bar_fill. rewrite progress_fraction_small by lia.
  destruct (round_fraction_error d t ltac:(lia) ltac:(lia)) as (HD & Hm & He).
  destruct (round_fraction d t) as [m D]. cbn [d_num d_den] in *. unfold clamp_fraction. cbn [d_num d_den].
  rewrite (proj2 (Z.ltb_ge m 0)) by done. destruct (Z.ltb_spec D m) as [Hc|Hc].
  { assert (d = t) as ->; [|change (Nat.min _ 12) with 12%nat; lia].
    destruct (Z.eq_dec d t) as [|Hne]; [done|exfalso].
    assert ((D + 1) * t <= m * t) by (apply Z.mul_le_mono_nonneg_r; lia).
    assert (d * D <= (t - 1) * D) by (apply Z.mul_le_mono_nonneg_r; lia).
    assert (d * D <= 2 ^ 48 * D) by (apply Z.mul_le_mono_nonneg_r; lia). lia. }
  unfold mul_double. cbv zeta. cbn [d_num d_den double_of_Z]. change (Z.abs 12) with 12. rewrite !Z.mul_1_r, (Z.abs_eq m) by done.
  destruct (round_fraction_error (m * 12) D ltac:(lia) HD) as (HP & Hpn & He2).
  assert (Z.sgn m * d_num (round_fraction (m * 12) D) = d_num (round_fraction (m * 12) D)) as ->.
  { destruct (Z.eq_dec m 0) as [->|Hne]; [done|]. rewrite Z.sgn_pos by lia. lia. }
  destruct (round_fraction (m * 12) D) as [pn P]. cbn [d_num d_den] in *.
  pose proof (two_roundings m D pn P d t HD HP Hm Hpn Hd Ht He He2) as H.
  assert (0 <= pn / P) by (apply Z.div_pos; lia).
  destruct (Z.leb_spec (pn / P) 12).
  - rewrite Nat.min_l by lia. rewrite Z2Nat.id by lia. lia.
  - rewrite Nat.min_r by lia. nia.
Qed.

(** ** Theorem *)

(** C15. The progress bar tells the truth: for a download of less than 2^48 bytes (256 TiB),
    the rounding of the two floating-point operations included, the number of filled cells
    of the twelve never claims more than was downloaded and is at most one cell short of
    it; it always has twelve cells, and a total or a count that is not positive gives an
    empty one. *)
Theorem progress_bar_truthful downloaded total :
  render_progress_bar (progress_fraction downloaded total) =
    "[" +:+ str_repeat (bar_fill downloaded total) "#"%char
        +:+ str_repeat (12 - bar_fill downloaded total) "-"%char +:+ "]" /\
  (bar_fill downloaded total <= 12)%nat /\
  (total <= 0 \/ downloaded <= 0 -> bar_fill downloaded total = 0%nat) /\
  (0 <= downloaded <= total -> 0 < total < 2 ^ 48 ->
     12 * downloaded - total <= Z.of_nat (bar_fill downloaded total) * total <= 12 * downloaded).
Proof.
  split_and!.
  - unfold render_progress_bar, render_progress_bar_with, bar_fill. reflexivity.
  - unfold bar_fill. lia.
  - intros [Ht|Hd]; unfold bar_fill, progress_fraction.
    + rewrite Z.gtb_ltb, (proj2 (Z.ltb_ge _ _)) by lia. reflexivity.
    + destruct (Z.gtb_spec total 0) as [Ht|Ht]; [|reflexivity].
      destruct (div_double_nonpos (to_double downloaded) (to_double total)) as [H1 H2].
      { by apply to_double_nonpos. }
      { by apply to_double_pos. }
      { done. }
      { done. }
      destruct (div_double (to_double downloaded) (to_double total)) as [m D]. cbn [d_num d_den] in *. unfold clamp_fraction. cbn [d_num d_den].
      destruct (Z.ltb_spec m 0); [reflexivity|]. assert (m = 0) as -> by lia.
      by rewrite (proj2 (Z.ltb_ge D 0)) by lia.
  - apply bar_fill_exact.
Qed.

Lemma progress_bar_truthful_witness :
  render_progress_bar (progress_fraction 700 1000) = "[########----]" /\
  12 * 700 - 1000 <= Z.of_nat (bar_fill 700 1000) * 1000 <= 12 * 700.
Proof.
  split; [vm_compute; reflexivity|]. apply (progress_bar_truthful 700 1000); lia.
Defined.

