(* ===== verification/ConfigData.v ===== *)
(** * Configuration data: [core/configuration.hpp], [docs/configuration_reference.md]

    The configuration structs with their default values, and the reference manual's table
    of settings: key, type, default, environment variable and admissible values.
    [settings] lists the values of a configuration in the order of that table. *)

From S2P Require Import Prelude CoreError Progress.

(** A C++ [double], with the values that are not finite. *)
Inductive Float := Finite (v : double) | Infinity (negative : bool) | NaN.

(** [x < 0.0]: false of a NaN. *)
Definition below_zero (x : Float) : bool :=
  match x with Finite v => d_num v <? 0 | Infinity negative => negative | NaN => false end.

(** ** The structs; paths are their text, durations their number of units *)

(** [struct TelegramConfig]. *)
Record TelegramConfig := MkTelegramConfig {
  tg_api_id : Z; tg_api_hash : string; tg_bot_token : string; tg_database_directory : string; tg_owner_id : Z;
  tg_sudo_users : list Z; tg_authorized_chats : list Z; tg_upload_chunk_size_kb : Z;
  tg_download_chunk_size_kb : Z; tg_connection_retry_count_max : Z; tg_prefer_ipv6 : bool;
  tg_upload_parallelism : Z; tg_upload_files_parallelism : Z
}.

Definition default_telegram : TelegramConfig :=
  MkTelegramConfig 0 "" "" "tdlib" 0 [] [] 2048 1024 5 false 4 2.

(** [struct Aria2Config]. *)
Record Aria2Config := MkAria2Config {
  a2_rpc_url : string; a2_secret : string; a2_max_concurrent_downloads : Z; a2_request_timeout : Z;
  a2_max_connection_per_server : Z; a2_split : Z; a2_min_split_size : string; a2_disk_cache : string;
  a2_max_tries : Z; a2_retry_wait : Z; a2_max_overall_download_limit : Z; a2_max_overall_upload_limit : Z;
  a2_enable_dht : bool; a2_enable_pex : bool; a2_bt_max_peers : Z; a2_user_agent : string
}.

Definition default_aria2 : Aria2Config :=
  MkAria2Config "ws://localhost:6800/jsonrpc" "" 5 30 16 16 "1M" "128M" 5 5 0 0 true true 55 "aria2/1.37.0".

(** [struct QbittorrentConfig]. *)
Record QbittorrentConfig := MkQbittorrentConfig {
  qb_url : string; qb_username : string; qb_password : string; qb_seed_ratio_limit : Float;
  qb_seed_time_limit : Z; qb_max_active_downloads : Z; qb_max_active_uploads : Z; qb_max_active_torrents : Z;
  qb_max_connections : Z; qb_max_connections_per_torrent : Z; qb_max_uploads : Z;
  qb_max_uploads_per_torrent : Z; qb_up_limit : Z; qb_dl_limit : Z; qb_dht : bool; qb_pex : bool; qb_lsd : bool;
  qb_anonymous_mode : bool; qb_async_io_threads : Z; qb_disk_cache_mib : Z
}.

Definition default_qbittorrent : QbittorrentConfig :=
  MkQbittorrentConfig "http://localhost:8080" "admin" "" (Finite (double_of_Z 1)) 60 8 8 16 500 100 20 5 0 0
  true true true false 8 256.

(** [struct RcloneConfig]. *)
Record RcloneConfig := MkRcloneConfig {
  rc_executable : string; rc_config_path : string; rc_transfers : Z; rc_checkers : Z;
  rc_multi_thread_streams : Z; rc_multi_thread_cutoff : string; rc_drive_chunk_size : string;
  rc_buffer_size : string; rc_use_mmap : bool; rc_fast_list : bool; rc_drive_acknowledge_abuse : bool;
  rc_log_level : string; rc_extra_args : list string
}.

Definition default_rclone : RcloneConfig :=
  MkRcloneConfig "rclone" "" 8 16 4 "250M" "64M" "32M" true true true "NOTICE" [].

(** [struct GoogleDriveConfig]. *)
Record GoogleDriveConfig := MkGoogleDriveConfig {
  gd_credentials_path : string; gd_parent_folder_id : string; gd_use_service_accounts : bool;
  gd_sa_folder : string; gd_chunk_size : Z; gd_parallel_chunks_per_file : Z;
  gd_parallel_files_per_directory : Z; gd_max_retries : Z; gd_initial_retry_delay : Z
}.

Definition default_google_drive : GoogleDriveConfig :=
  MkGoogleDriveConfig "service_account.json" "" true "accounts" (8 * 1024 * 1024) 4 4 6 500.

(** [struct DatabaseConfig]. *)
Record DatabaseConfig := MkDatabaseConfig {
  dc_path : string; dc_busy_timeout : Z; dc_wal_mode : bool
}.

Definition default_database : DatabaseConfig :=
  MkDatabaseConfig "data/cmlb.db" 5000 true.

(** [struct LoggingConfig]. *)
Record LoggingConfig := MkLoggingConfig {
  lc_logs_dir : string; lc_level : string; lc_console : bool
}.

Definition default_logging : LoggingConfig :=
  MkLoggingConfig "logs" "info" true.

(** [struct PathsConfig]. *)
Record PathsConfig := MkPathsConfig {
  pt_download_dir : string; pt_data_dir : string
}.

Definition default_paths : PathsConfig :=
  MkPathsConfig "downloads" "data".

(** [struct AppConfig]. *)
Record AppConfig := MkAppConfig {
  cfg_telegram : TelegramConfig;
  cfg_aria2 : Aria2Config;
  cfg_qbittorrent : QbittorrentConfig;
  cfg_rclone : RcloneConfig;
  cfg_google_drive : GoogleDriveConfig;
  cfg_database : DatabaseConfig;
  cfg_logging : LoggingConfig;
  cfg_paths : PathsConfig
}.

Definition default_config : AppConfig :=
  MkAppConfig default_telegram default_aria2 default_qbittorrent default_rclone default_google_drive
  default_database default_logging default_paths.

(** ** The reference manual *)

Inductive Value :=
| VInt (z : Z) | VString (s : string) | VBool (b : bool) | VDouble (x : Float)
| VIds (l : list Z) | VStrings (l : list string).

(** The C++ type a setting is read as. *)
Inductive SettingType := TInt32 | TInt64 | TSize | TString | TBool | TDouble | TIds | TStrings.

Inductive Constraint :=
| Free
| NonZero
| NonEmpty
| Range (lo hi : Z)
| AtLeast (lo : Z)
| MultipleIn (lo hi unit : Z)
| NotNegative
| Prefixed (schemes : list string)
| OneOf (words : list string).

Definition satisfies (k : Constraint) (v : Value) : Prop :=
  match k, v with
  | Free, _ => True
  | NonZero, VInt z => z <> 0
  | NonEmpty, VString s => s <> ""
  | Range lo hi, VInt z => lo <= z <= hi
  | AtLeast lo, VInt z => lo <= z
  | MultipleIn lo hi unit, VInt z => lo <= z <= hi /\ (unit | z)
  | NotNegative, VDouble x => below_zero x = false
  | Prefixed schemes, VString s => Exists (fun p => exists rest, s = p +:+ rest) schemes
  | OneOf words, VString s => s ∈ words
  | _, _ => False
  end.

(** A row of the manual. *)
Record Row := row {
  r_section : string;
  r_key : string;
  r_type : SettingType;
  r_default : Value;
  r_variable : option string;
  r_constraint : Constraint
}.

Definition reference_telegram : list Row :=
  [row "telegram" "api_id" TInt32 (VInt 0) (Some "CMLB_TELEGRAM_API_ID") (NonZero);
   row "telegram" "api_hash" TString (VString "") (Some "CMLB_TELEGRAM_API_HASH") (NonEmpty);
   row "telegram" "bot_token" TString (VString "") (Some "CMLB_TELEGRAM_BOT_TOKEN") (NonEmpty);
   row "telegram" "database_directory" TString (VString "tdlib") (Some "CMLB_TELEGRAM_DATABASE_DIRECTORY") (Free);
   row "telegram" "owner_id" TInt64 (VInt 0) (Some "CMLB_TELEGRAM_OWNER_ID") (NonZero);
   row "telegram" "sudo_users" TIds (VIds []) (Some "CMLB_TELEGRAM_SUDO_USERS") (Free);
   row "telegram" "authorized_chats" TIds (VIds []) (Some "CMLB_TELEGRAM_AUTHORIZED_CHATS") (Free);
   row "telegram" "upload_chunk_size_kb" TInt32 (VInt 2048) (Some "CMLB_TELEGRAM_UPLOAD_CHUNK_SIZE_KB") (Range 1 65536);
   row "telegram" "download_chunk_size_kb" TInt32 (VInt 1024) (Some "CMLB_TELEGRAM_DOWNLOAD_CHUNK_SIZE_KB") (Range 1 65536);
   row "telegram" "connection_retry_count_max" TInt32 (VInt 5) (Some "CMLB_TELEGRAM_CONNECTION_RETRY_COUNT_MAX") (AtLeast 0);
   row "telegram" "prefer_ipv6" TBool (VBool false) (Some "CMLB_TELEGRAM_PREFER_IPV6") (Free);
   row "telegram" "upload_parallelism" TInt32 (VInt 4) (Some "CMLB_TELEGRAM_UPLOAD_PARALLELISM") (Range 1 32);
   row "telegram" "upload_files_parallelism" TInt32 (VInt 2) (Some "CMLB_TELEGRAM_UPLOAD_FILES_PARALLELISM") (Range 1 32)].

Definition reference_aria2 : list Row :=
  [row "aria2" "rpc_url" TString (VString "ws://localhost:6800/jsonrpc") (Some "CMLB_ARIA2_RPC_URL") (Prefixed ["ws://"; "wss://"]);
   row "aria2" "secret" TString (VString "") (Some "CMLB_ARIA2_SECRET") (Free);
   row "aria2" "max_concurrent_downloads" TInt32 (VInt 5) (Some "CMLB_ARIA2_MAX_CONCURRENT_DOWNLOADS") (AtLeast 1);
   row "aria2" "request_timeout" TInt64 (VInt 30) (Some "CMLB_ARIA2_REQUEST_TIMEOUT") (AtLeast 1);
   row "aria2" "max_connection_per_server" TInt32 (VInt 16) (Some "CMLB_ARIA2_MAX_CONNECTION_PER_SERVER") (Range 1 16);
   row "aria2" "split" TInt32 (VInt 16) (Some "CMLB_ARIA2_SPLIT") (Range 1 16);
   row "aria2" "min_split_size" TString (VString "1M") (Some "CMLB_ARIA2_MIN_SPLIT_SIZE") (Free);
   row "aria2" "disk_cache" TString (VString "128M") (Some "CMLB_ARIA2_DISK_CACHE") (Free);
   row "aria2" "max_tries" TInt32 (VInt 5) (Some "CMLB_ARIA2_MAX_TRIES") (AtLeast 0);
   row "aria2" "retry_wait" TInt64 (VInt 5) (Some "CMLB_ARIA2_RETRY_WAIT") (AtLeast 0);
   row "aria2" "max_overall_download_limit" TInt64 (VInt 0) (Some "CMLB_ARIA2_MAX_OVERALL_DOWNLOAD_LIMIT") (AtLeast 0);
   row "aria2" "max_overall_upload_limit" TInt64 (VInt 0) (Some "CMLB_ARIA2_MAX_OVERALL_UPLOAD_LIMIT") (AtLeast 0);
   row "aria2" "enable_dht" TBool (VBool true) (Some "CMLB_ARIA2_ENABLE_DHT") (Free);
   row "aria2" "enable_pex" TBool (VBool true) (Some "CMLB_ARIA2_ENABLE_PEX") (Free);
   row "aria2" "bt_max_peers" TInt32 (VInt 55) (Some "CMLB_ARIA2_BT_MAX_PEERS") (AtLeast 1);
   row "aria2" "user_agent" TString (VString "aria2/1.37.0") (Some "CMLB_ARIA2_USER_AGENT") (Free)].

Definition reference_qbittorrent : list Row :=
  [row "qbittorrent" "url" TString (VString "http://localhost:8080") (Some "CMLB_QBITTORRENT_URL") (Prefixed ["http://"; "https://"]);
   row "qbittorrent" "username" TString (VString "admin") (Some "CMLB_QBITTORRENT_USERNAME") (Free);
   row "qbittorrent" "password" TString (VString "") (Some "CMLB_QBITTORRENT_PASSWORD") (Free);
   row "qbittorrent" "seed_ratio_limit" TDouble (VDouble (Finite (double_of_Z 1))) (Some "CMLB_QBITTORRENT_SEED_RATIO_LIMIT") (NotNegative);
   row "qbittorrent" "seed_time_limit" TInt64 (VInt 60) (Some "CMLB_QBITTORRENT_SEED_TIME_LIMIT") (AtLeast 0);
   row "qbittorrent" "max_active_downloads" TInt32 (VInt 8) (Some "CMLB_QBITTORRENT_MAX_ACTIVE_DOWNLOADS") (AtLeast 1);
   row "qbittorrent" "max_active_uploads" TInt32 (VInt 8) (Some "CMLB_QBITTORRENT_MAX_ACTIVE_UPLOADS") (AtLeast 1);
   row "qbittorrent" "max_active_torrents" TInt32 (VInt 16) (Some "CMLB_QBITTORRENT_MAX_ACTIVE_TORRENTS") (AtLeast 1);
   row "qbittorrent" "max_connections" TInt32 (VInt 500) (Some "CMLB_QBITTORRENT_MAX_CONNECTIONS") (AtLeast 1);
   row "qbittorrent" "max_connections_per_torrent" TInt32 (VInt 100) (Some "CMLB_QBITTORRENT_MAX_CONNECTIONS_PER_TORRENT") (AtLeast 1);
   row "qbittorrent" "max_uploads" TInt32 (VInt 20) (Some "CMLB_QBITTORRENT_MAX_UPLOADS") (AtLeast 1);
   row "qbittorrent" "max_uploads_per_torrent" TInt32 (VInt 5) (Some "CMLB_QBITTORRENT_MAX_UPLOADS_PER_TORRENT") (AtLeast 1);
   row "qbittorrent" "up_limit" TInt64 (VInt 0) (Some "CMLB_QBITTORRENT_UP_LIMIT") (AtLeast (-1));
   row "qbittorrent" "dl_limit" TInt64 (VInt 0) (Some "CMLB_QBITTORRENT_DL_LIMIT") (AtLeast (-1));
   row "qbittorrent" "dht" TBool (VBool true) (Some "CMLB_QBITTORRENT_DHT") (Free);
   row "qbittorrent" "pex" TBool (VBool true) (Some "CMLB_QBITTORRENT_PEX") (Free);
   row "qbittorrent" "lsd" TBool (VBool true) (Some "CMLB_QBITTORRENT_LSD") (Free);
   row "qbittorrent" "anonymous_mode" TBool (VBool false) (Some "CMLB_QBITTORRENT_ANONYMOUS_MODE") (Free);
   row "qbittorrent" "async_io_threads" TInt32 (VInt 8) (Some "CMLB_QBITTORRENT_ASYNC_IO_THREADS") (AtLeast 1);
   row "qbittorrent" "disk_cache_mib" TInt32 (VInt 256) (Some "CMLB_QBITTORRENT_DISK_CACHE_MIB") (AtLeast (-1))].

Definition reference_rclone : list Row :=
  [row "rclone" "executable" TString (VString "rclone") (Some "CMLB_RCLONE_EXECUTABLE") (Free);
   row "rclone" "config_path" TString (VString "") (Some "CMLB_RCLONE_CONFIG_PATH") (Free);
   row "rclone" "transfers" TInt32 (VInt 8) (Some "CMLB_RCLONE_TRANSFERS") (Range 1 64);
   row "rclone" "checkers" TInt32 (VInt 16) (Some "CMLB_RCLONE_CHECKERS") (Range 1 256);
   row "rclone" "multi_thread_streams" TInt32 (VInt 4) (Some "CMLB_RCLONE_MULTI_THREAD_STREAMS") (Range 1 64);
   row "rclone" "multi_thread_cutoff" TString (VString "250M") (Some "CMLB_RCLONE_MULTI_THREAD_CUTOFF") (Free);
   row "rclone" "drive_chunk_size" TString (VString "64M") (Some "CMLB_RCLONE_DRIVE_CHUNK_SIZE") (Free);
   row "rclone" "buffer_size" TString (VString "32M") (Some "CMLB_RCLONE_BUFFER_SIZE") (Free);
   row "rclone" "use_mmap" TBool (VBool true) (Some "CMLB_RCLONE_USE_MMAP") (Free);
   row "rclone" "fast_list" TBool (VBool true) (Some "CMLB_RCLONE_FAST_LIST") (Free);
   row "rclone" "drive_acknowledge_abuse" TBool (VBool true) (Some "CMLB_RCLONE_DRIVE_ACKNOWLEDGE_ABUSE") (Free);
   row "rclone" "log_level" TString (VString "NOTICE") (Some "CMLB_RCLONE_LOG_LEVEL") (OneOf ["DEBUG"; "INFO"; "NOTICE"; "ERROR"]);
   row "rclone" "extra_args" TStrings (VStrings []) None (Free)].

Definition reference_google_drive : list Row :=
  [row "google_drive" "credentials_path" TString (VString "service_account.json") (Some "CMLB_GOOGLE_DRIVE_CREDENTIALS_PATH") (Free);
   row "google_drive" "parent_folder_id" TString (VString "") (Some "CMLB_GOOGLE_DRIVE_PARENT_FOLDER_ID") (Free);
   row "google_drive" "use_service_accounts" TBool (VBool true) (Some "CMLB_GOOGLE_DRIVE_USE_SERVICE_ACCOUNTS") (Free);
   row "google_drive" "sa_folder" TString (VString "accounts") (Some "CMLB_GOOGLE_DRIVE_SA_FOLDER") (Free);
   row "google_drive" "chunk_size" TSize (VInt 8388608) (Some "CMLB_GOOGLE_DRIVE_CHUNK_SIZE") (MultipleIn (256 * 1024) (512 * 1024 * 1024) (256 * 1024));
   row "google_drive" "parallel_chunks_per_file" TInt32 (VInt 4) (Some "CMLB_GOOGLE_DRIVE_PARALLEL_CHUNKS_PER_FILE") (Range 1 64);
   row "google_drive" "parallel_files_per_directory" TInt32 (VInt 4) (Some "CMLB_GOOGLE_DRIVE_PARALLEL_FILES_PER_DIRECTORY") (Range 1 64);
   row "google_drive" "max_retries" TInt32 (VInt 6) (Some "CMLB_GOOGLE_DRIVE_MAX_RETRIES") (AtLeast 0);
   row "google_drive" "initial_retry_delay" TInt64 (VInt 500) (Some "CMLB_GOOGLE_DRIVE_INITIAL_RETRY_DELAY_MS") (AtLeast 0)].

Definition reference_database : list Row :=
  [row "database" "path" TString (VString "data/cmlb.db") (Some "CMLB_DATABASE_PATH") (NonEmpty);
   row "database" "busy_timeout" TInt64 (VInt 5000) (Some "CMLB_DATABASE_BUSY_TIMEOUT") (Range 0 60000);
   row "database" "wal_mode" TBool (VBool true) (Some "CMLB_DATABASE_WAL_MODE") (Free)].

Definition reference_logging : list Row :=
  [row "logging" "logs_dir" TString (VString "logs") (Some "CMLB_LOGGING_LOGS_DIR") (NonEmpty);
   row "logging" "level" TString (VString "info") (Some "CMLB_LOGGING_LEVEL") (OneOf ["trace"; "debug"; "info"; "warn"; "warning"; "error"; "err"; "critical"; "fatal"; "off"]);
   row "logging" "console" TBool (VBool true) (Some "CMLB_LOGGING_CONSOLE") (Free)].

Definition reference_paths : list Row :=
  [row "paths" "download_dir" TString (VString "downloads") (Some "CMLB_PATHS_DOWNLOAD_DIR") (NonEmpty);
   row "paths" "data_dir" TString (VString "data") (Some "CMLB_PATHS_DATA_DIR") (NonEmpty)].

Definition reference : list Row :=
  reference_telegram ++ reference_aria2 ++ reference_qbittorrent ++ reference_rclone ++
  reference_google_drive ++ reference_database ++ reference_logging ++ reference_paths.

Definition settings_telegram (c : TelegramConfig) : list Value :=
  [VInt (tg_api_id c); VString (tg_api_hash c); VString (tg_bot_token c); VString (tg_database_directory c);
   VInt (tg_owner_id c); VIds (tg_sudo_users c); VIds (tg_authorized_chats c); VInt (tg_upload_chunk_size_kb c);
   VInt (tg_download_chunk_size_kb c); VInt (tg_connection_retry_count_max c); VBool (tg_prefer_ipv6 c);
   VInt (tg_upload_parallelism c); VInt (tg_upload_files_parallelism c)].

Definition settings_aria2 (c : Aria2Config) : list Value :=
  [VString (a2_rpc_url c); VString (a2_secret c); VInt (a2_max_concurrent_downloads c);
   VInt (a2_request_timeout c); VInt (a2_max_connection_per_server c); VInt (a2_split c);
   VString (a2_min_split_size c); VString (a2_disk_cache c); VInt (a2_max_tries c); VInt (a2_retry_wait c);
   VInt (a2_max_overall_download_limit c); VInt (a2_max_overall_upload_limit c); VBool (a2_enable_dht c);
   VBool (a2_enable_pex c); VInt (a2_bt_max_peers c); VString (a2_user_agent c)].

Definition settings_qbittorrent (c : QbittorrentConfig) : list Value :=
  [VString (qb_url c); VString (qb_username c); VString (qb_password c); VDouble (qb_seed_ratio_limit c);
   VInt (qb_seed_time_limit c); VInt (qb_max_active_downloads c); VInt (qb_max_active_uploads c);
   VInt (qb_max_active_torrents c); VInt (qb_max_connections c); VInt (qb_max_connections_per_torrent c);
   VInt (qb_max_uploads c); VInt (qb_max_uploads_per_torrent c); VInt (qb_up_limit c); VInt (qb_dl_limit c);
   VBool (qb_dht c); VBool (qb_pex c); VBool (qb_lsd c); VBool (qb_anonymous_mode c);
   VInt (qb_async_io_threads c); VInt (qb_disk_cache_mib c)].

Definition settings_rclone (c : RcloneConfig) : list Value :=
  [VString (rc_executable c); VString (rc_config_path c); VInt (rc_transfers c); VInt (rc_checkers c);
   VInt (rc_multi_thread_streams c); VString (rc_multi_thread_cutoff c); VString (rc_drive_chunk_size c);
   VString (rc_buffer_size c); VBool (rc_use_mmap c); VBool (rc_fast_list c);
   VBool (rc_drive_acknowledge_abuse c); VString (rc_log_level c); VStrings (rc_extra_args c)].

Definition settings_google_drive (c : GoogleDriveConfig) : list Value :=
  [VString (gd_credentials_path c); VString (gd_parent_folder_id c); VBool (gd_use_service_accounts c);
   VString (gd_sa_folder c); VInt (gd_chunk_size c); VInt (gd_parallel_chunks_per_file c);
   VInt (gd_parallel_files_per_directory c); VInt (gd_max_retries c); VInt (gd_initial_retry_delay c)].

Definition settings_database (c : DatabaseConfig) : list Value :=
  [VString (dc_path c); VInt (dc_busy_timeout c); VBool (dc_wal_mode c)].

Definition settings_logging (c : LoggingConfig) : list Value :=
  [VString (lc_logs_dir c); VString (lc_level c); VBool (lc_console c)].

Definition settings_paths (c : PathsConfig) : list Value :=
  [VString (pt_download_dir c); VString (pt_data_dir c)].

Definition settings (c : AppConfig) : list Value :=
  settings_telegram (cfg_telegram c) ++ settings_aria2 (cfg_aria2 c) ++
  settings_qbittorrent (cfg_qbittorrent c) ++ settings_rclone (cfg_rclone c) ++
  settings_google_drive (cfg_google_drive c) ++ settings_database (cfg_database c) ++
  settings_logging (cfg_logging c) ++ settings_paths (cfg_paths c).

(** A configuration respects the table when every value satisfies its row's constraint. *)
Definition row_ok (r : Row) (v : Value) : Prop := satisfies (r_constraint r) v.
Definition respects_reference (cfg : AppConfig) : Prop := Forall2 row_ok reference (settings cfg).

(** The rows whose constraint is the code's own: the manual prints none for them. *)
Definition unstated : list (string * string) :=
  [("aria2", "max_overall_download_limit"); ("aria2", "max_overall_upload_limit"); ("database", "path");
   ("logging", "logs_dir"); ("paths", "download_dir"); ("paths", "data_dir")].

(** The constraint the manual prints in its last column. *)
Definition printed_constraint (r : Row) : Constraint :=
  if decide ((r_section r, r_key r) ∈ unstated) then Free else r_constraint r.
Definition respects_manual (cfg : AppConfig) : Prop :=
  Forall2 (fun r v => satisfies (printed_constraint r) v) reference (settings cfg).

(** A configuration is determined by its settings. *)
Lemma settings_inj c c' : settings c = settings c' -> c = c'.
Proof.
  destruct c as [[] [] [] [] [] [] [] []], c' as [[] [] [] [] [] [] [] []].
  intros H. cbv [settings settings_telegram settings_aria2 settings_qbittorrent settings_rclone settings_google_drive
    settings_database settings_logging settings_paths app] in H. cbn in H. injection H. intros. subst. reflexivity.
Qed.

Lemma respects_reference_manual cfg : respects_reference cfg -> respects_manual cfg.
Proof.
  intros H. eapply Forall2_impl; [exact H|]. cbn beta. unfold row_ok, printed_constraint. intros r v Hv.
  by destruct (decide _).
Qed.
