(* ===== verification/SqlitePool.v ===== *)
(** * The connection pool: [persistence/sqlite_connection_pool.cpp]

    The slots of the pool as a step relation over the channel that holds the free ones, with the
    coroutines that wait for one, and the opening of the connections.  [sqlite::database] and the
    file system are parameters. *)

From S2P Require Import Prelude CoreError ConfigData Database.

Local Open Scope coro_scope.

(** ** Opening *)

(** A connection is opened at a path and executes statements; each can throw. *)
Class SqliteOpen (W : Type) := {
  connection : Type;
  create_parent_directories : string -> M W (option string);
  open_database : string -> M W (string + connection);
  execute_statement : connection -> string -> M W (option string);
  select_one : connection -> M W (DbExn + Z)
}.

(** The statements of [open_one]. *)
Definition pragmas (cfg : DatabaseConfig) : list string :=
  (if dc_wal_mode cfg then ["PRAGMA journal_mode = WAL;"] else []) ++
  ["PRAGMA synchronous = NORMAL;"; "PRAGMA busy_timeout = " +:+ fmt_int (dc_busy_timeout cfg) +:+ ";"; "PRAGMA foreign_keys = ON;";
   "PRAGMA temp_store = MEMORY;"; "PRAGMA mmap_size = 268435456;"; "PRAGMA cache_size = -65536;"; "PRAGMA wal_autocheckpoint = 1000;";
   "PRAGMA optimize;"].

(** [kDefaultPoolSize]. *)
Definition kDefaultPoolSize : nat := 8.

Section Opening.
  Context {W : Type} `{opener : !SqliteOpen W} (cfg : DatabaseConfig).

(** The statements in turn, up to the first that throws. *)
Fixpoint execute_all (db : connection (W := W)) (l : list string) : M W (string + connection (W := W)) :=
  match l with
  | [] => co_return (inr db)
  | s :: l =>
      co_await failed <- execute_statement db s;
      match failed with Some what => co_return (inl what) | None => execute_all db l end
  end.

Definition has_parent_path (path : string) : bool := bool_decide ("/"%char ∈ chars path).

(** [open_one]: a thrown exception on the left. *)
Definition open_one : M W (string + connection (W := W)) :=
  co_await failed <- (if has_parent_path (dc_path cfg) then create_parent_directories (dc_path cfg) else co_return None);
  match failed with
  | Some what => co_return (inl what)
  | None =>
      co_await opened <- open_database (dc_path cfg);
      match opened with inl what => co_return (inl what) | inr db => execute_all db (pragmas cfg) end
  end.

Fixpoint open_many (n : nat) (acc : list (connection (W := W))) : M W (string + list (connection (W := W))) :=
  match n with
  | O => co_return (inr acc)
  | S n =>
      co_await opened <- open_one;
      match opened with inl what => co_return (inl what) | inr db => open_many n (acc ++ [db]) end
  end.

(** The constructor's connections: all of them, or an exception. *)
Definition open_pool (pool_size : nat) : M W (string + list (connection (W := W))) :=
  if (pool_size =? 0)%nat then co_return (inl "SqliteConnectionPool: pool_size must be >= 1") else open_many pool_size [].

End Opening.

(** ** Slots *)

(** A coroutine in [acquire]: waiting in the channel, given what it waited for, holding a handle,
    or gone. *)
Inductive Borrower := Queued | Given (slot : nat) | Refused | Holding (slot : nat) | Gone.

(** The channel: its buffer, the receivers in their order, and whether it is closed. *)
Record Pool := MkPool {
  pool_size : nat;
  free_slots : list nat;
  receivers : list nat;
  closed : bool;
  borrowers : gmap nat Borrower
}.

(** The constructor's priming of the channel. *)
Definition fresh_pool (n : nat) : Pool := MkPool n (seq 0 n) [] false ∅.

Definition set_borrower (b : nat) (st : Borrower) (p : Pool) : Pool :=
  MkPool (pool_size p) (free_slots p) (receivers p) (closed p) (<[b := st]> (borrowers p)).

Inductive PoolEvent :=
| Acquire (b : nat)
| Resume (b : nat)
| Release (b : nat)
| MoveHandle (src dst : nat)
| Abandon (b : nat)
| Close.

(** [async_receive]: a buffered slot, an error from a closed channel, or a place in the queue. *)
Definition receive (b : nat) (p : Pool) : Pool :=
  match free_slots p with
  | slot :: rest => MkPool (pool_size p) rest (receivers p) (closed p) (<[b := Given slot]> (borrowers p))
  | [] =>
      if closed p then set_borrower b Refused p
      else MkPool (pool_size p) [] (receivers p ++ [b]) (closed p) (<[b := Queued]> (borrowers p))
  end.

(** [try_send]: to the first receiver, else to the buffer when there is room; a closed channel
    takes nothing. *)
Definition try_send (slot : nat) (p : Pool) : Pool :=
  if closed p then p
  else match receivers p with
       | b :: rest => MkPool (pool_size p) (free_slots p) rest (closed p) (<[b := Given slot]> (borrowers p))
       | [] => if (length (free_slots p) <? pool_size p)%nat
               then MkPool (pool_size p) (free_slots p ++ [slot]) [] (closed p) (borrowers p)
               else p
       end.

(** [release_] of a handle that owns a slot; any other handle has none to return. *)
Definition release_ (b : nat) (p : Pool) : Pool :=
  match borrowers p !! b with Some (Holding slot) => try_send slot (set_borrower b Gone p) | _ => p end.

(** The call [acquire]. *)
Definition acquire (b : nat) (p : Pool) : option Pool :=
  match borrowers p !! b with None | Some Gone => Some (receive b p) | _ => None end.

(** Its resumption: a handle, or the error [ResourceExhausted] and nothing held. *)
Definition resume (b : nat) (p : Pool) : option Pool :=
  match borrowers p !! b with
  | Some (Given slot) => Some (set_borrower b (Holding slot) p)
  | Some Refused => Some (set_borrower b Gone p)
  | _ => None
  end.

(** The move constructor, and the move assignment, which first returns what the target holds. *)
Definition move_handle (src dst : nat) (p : Pool) : option Pool :=
  match borrowers p !! src, borrowers p !! dst with
  | Some (Holding slot), (None | Some Gone | Some (Holding _)) =>
      Some (if (src =? dst)%nat then p else set_borrower dst (Holding slot) (set_borrower src Gone (release_ dst p)))
  | _, _ => None
  end.

(** The cancellation of a call that waits takes its receiver out of the channel. *)
Definition abandon (b : nat) (p : Pool) : option Pool :=
  match borrowers p !! b with
  | Some Queued =>
      Some (MkPool (pool_size p) (free_slots p) (filter (fun r => r <> b) (receivers p)) (closed p) (<[b := Gone]> (borrowers p)))
  | _ => None
  end.

(** The destructor closes the channel, which refuses every receiver. *)
Definition close (p : Pool) : Pool :=
  MkPool (pool_size p) (free_slots p) [] true (foldr (fun b m => <[b := Refused]> m) (borrowers p) (receivers p)).

(** The steps while the pool lives; after its destructor only a refused call can go on, since
    anything else touches the pool. *)
Definition pool_step (e : PoolEvent) (p : Pool) : option Pool :=
  if closed p then match e with Resume b => match borrowers p !! b with Some Refused => resume b p | _ => None end | _ => None end
  else match e with
       | Acquire b => acquire b p
       | Resume b => resume b p
       | Release b => match borrowers p !! b with Some (Holding _) => Some (release_ b p) | _ => None end
       | MoveHandle src dst => move_handle src dst p
       | Abandon b => abandon b p
       | Close => Some (close p)
       end.

Fixpoint pool_run (es : list PoolEvent) (p : Pool) : option Pool :=
  match es with [] => Some p | e :: es => p' ← pool_step e p; pool_run es p' end.

(** [ping] on the connection it was given, or on the refusal of [acquire]; its handle is released
    either way. *)
Definition ping {W : Type} `{opener : !SqliteOpen W} (acquired : Result (connection (W := W))) : M W (Result unit) :=
  match acquired with
  | Err e => co_return (Err e)
  | Ok db =>
      co_await probe <- select_one db;
      match probe with
      | inl e => co_return (database_error "ping" e)
      | inr probe => co_return (if probe =? 1 then Ok tt else error CoreError.Database ("ping: SELECT 1 returned " +:+ fmt_int probe))
      end
  end.

(** ** The lease *)

Definition slots_of (st : Borrower) : list nat := match st with Given slot | Holding slot => [slot] | _ => [] end.

(** The slots that coroutines have, and the ones a given coroutine has. *)
Definition lent (m : gmap nat Borrower) : list nat := map_to_list m ≫= (fun e => slots_of e.2).

Definition slots_at (m : gmap nat Borrower) (b : nat) : list nat := default [] (slots_of <$> m !! b).

Lemma lent_fresh m b st : m !! b = None -> lent (<[b := st]> m) ≡ₚ slots_of st ++ lent m.
Proof. intros H. unfold lent. by rewrite map_to_list_insert. Qed.

Lemma lent_split m b : lent m ≡ₚ slots_at m b ++ lent (delete b m).
Proof.
  unfold slots_at. destruct (m !! b) as [st|] eqn:E; cbn.
  - rewrite <- (lent_fresh (delete b m) b st) by apply lookup_delete_eq. by rewrite insert_delete_id.
  - by rewrite delete_id.
Qed.

Lemma lent_insert m b st : lent (<[b := st]> m) ≡ₚ slots_of st ++ lent (delete b m).
Proof. rewrite <- insert_delete_eq. apply lent_fresh, lookup_delete_eq. Qed.

Lemma lent_replace m b st : slots_at m b = slots_of st -> lent (<[b := st]> m) ≡ₚ lent m.
Proof. intros H. by rewrite lent_insert, (lent_split m b), H. Qed.

(** A pool that is open, with a slot in [hand] on its way back to it: the slots are all there,
    each once; nobody waits while one is free; the queue is the coroutines that wait. *)
Record accounted (n : nat) (hand : list nat) (p : Pool) : Prop := {
  acc_size : pool_size p = n;
  acc_open : closed p = false;
  acc_slots : hand ++ free_slots p ++ lent (borrowers p) ≡ₚ seq 0 n;
  acc_idle : receivers p <> [] -> free_slots p = [];
  acc_distinct : NoDup (receivers p);
  acc_queue : forall b, b ∈ receivers p <-> borrowers p !! b = Some Queued
}.

Lemma lent_empty : lent ∅ = [].
Proof. unfold lent. by rewrite map_to_list_empty. Qed.

Lemma fresh_accounted n : accounted n [] (fresh_pool n).
Proof.
  constructor; simpl; try done; [by rewrite lent_empty, app_nil_r|constructor|].
  intros b. rewrite lookup_empty. split; [by intros ?%elem_of_nil|done].
Qed.

(** A coroutine that neither waited nor waits. *)
Lemma queue_skip p b st :
  borrowers p !! b <> Some Queued -> st <> Queued ->
  (forall c, c ∈ receivers p <-> borrowers p !! c = Some Queued) ->
  forall c, c ∈ receivers p <-> <[b := st]> (borrowers p) !! c = Some Queued.
Proof.
  intros Hb Hst Hq c. destruct (decide (c = b)) as [->|Hc].
  - rewrite lookup_insert_eq, Hq. split; congruence.
  - by rewrite lookup_insert_ne by congruence.
Qed.

Lemma set_borrower_accounted n hand hand' b st p :
  accounted n hand p -> borrowers p !! b <> Some Queued -> st <> Queued ->
  hand ++ slots_at (borrowers p) b ≡ₚ hand' ++ slots_of st -> accounted n hand' (set_borrower b st p).
Proof.
  intros [Hs Ho Hl Hi Hd Hq] Hb Hst Hp. constructor; simpl; try done; [|by apply queue_skip].
  rewrite <- Hl. rewrite lent_insert, (lent_split (borrowers p) b).
  transitivity ((hand' ++ slots_of st) ++ free_slots p ++ lent (delete b (borrowers p))); [solve_Permutation|].
  rewrite <- Hp. solve_Permutation.
Qed.

Lemma receive_accounted n b p :
  accounted n [] p -> borrowers p !! b = None \/ borrowers p !! b = Some Gone -> accounted n [] (receive b p).
Proof.
  intros A Hb. pose proof A as [Hs Ho Hl Hi Hd Hq]. unfold receive.
  assert (b ∉ receivers p) as Hnew by (rewrite Hq; destruct Hb; congruence).
  assert (slots_at (borrowers p) b = []) as Hnone by (unfold slots_at; destruct Hb as [-> | ->]; done).
  destruct (free_slots p) as [|slot rest] eqn:E.
  - rewrite Ho. constructor; simpl; try done.
    + by rewrite (lent_replace _ _ Queued) by done.
    + apply NoDup_app. split; [done|]. split; [by intros c Hc ->%list_elem_of_singleton|apply NoDup_singleton].
    + intros c. rewrite elem_of_app, list_elem_of_singleton. destruct (decide (c = b)) as [->|Hc].
      * rewrite lookup_insert_eq. tauto.
      * rewrite lookup_insert_ne by congruence. rewrite Hq. tauto.
  - assert (receivers p = []) as Hempty by (destruct (receivers p); [done|]; discriminate Hi; done).
    constructor; simpl; try done.
    + rewrite lent_insert. simpl in Hl. rewrite <- Hl, (lent_split (borrowers p) b), Hnone. simpl. solve_Permutation.
    + apply queue_skip; [destruct Hb; congruence|done|exact Hq].
Qed.

Lemma try_send_accounted n slot p : accounted n [slot] p -> accounted n [] (try_send slot p).
Proof.
  intros [Hs Ho Hl Hi Hd Hq]. unfold try_send. rewrite Ho.
  destruct (receivers p) as [|b rest] eqn:E.
  - assert (length (free_slots p) < pool_size p)%nat as Hroom.
    { apply Permutation_length in Hl. simpl in Hl. rewrite length_app, length_seq in Hl. lia. }
    apply Nat.ltb_lt in Hroom. rewrite Hroom. constructor; simpl; try done. rewrite <- Hl. solve_Permutation.
  - apply NoDup_cons in Hd as [Hb Hd].
    assert (borrowers p !! b = Some Queued) as Hwait by (apply Hq; left).
    constructor; simpl; try done.
    + rewrite lent_insert, <- Hl, (lent_split (borrowers p) b). unfold slots_at. rewrite Hwait. simpl. solve_Permutation.
    + intros _. by apply Hi.
    + intros c. destruct (decide (c = b)) as [->|Hc]; [rewrite lookup_insert_eq; split; congruence|].
      rewrite lookup_insert_ne by congruence. rewrite <- Hq, elem_of_cons. split; [tauto|]. intros [?|?]; congruence.
Qed.

Lemma slots_at_lookup m b st : m !! b = Some st -> slots_at m b = slots_of st.
Proof. intros H. unfold slots_at. by rewrite H. Qed.

Lemma release_accounted n b p : accounted n [] p -> accounted n [] (release_ b p).
Proof.
  intros A. unfold release_. destruct (borrowers p !! b) as [[| | |slot|]|] eqn:E; try done.
  apply try_send_accounted, (set_borrower_accounted n [] [slot]); [done|congruence|done|].
  by rewrite (slots_at_lookup _ _ _ E).
Qed.

Lemma abandon_accounted n b p p' : accounted n [] p -> abandon b p = Some p' -> accounted n [] p'.
Proof.
  unfold abandon. intros [Hs Ho Hl Hi Hd Hq] H. destruct (borrowers p !! b) as [[| | | |]|] eqn:E; try discriminate.
  injection H as <-. constructor; simpl; try done.
  - by rewrite (lent_replace _ _ Gone) by (by rewrite (slots_at_lookup _ _ _ E)).
  - intros Hne. apply Hi. intros Hnil. by rewrite Hnil in Hne.
  - by apply NoDup_filter.
  - intros c. rewrite list_elem_of_filter. destruct (decide (c = b)) as [->|Hc].
    + rewrite lookup_insert_eq. split; [tauto|done].
    + rewrite lookup_insert_ne by congruence. rewrite Hq. tauto.
Qed.

Lemma try_send_other n hand slot p c :
  accounted n hand p -> borrowers p !! c <> Some Queued -> borrowers (try_send slot p) !! c = borrowers p !! c.
Proof.
  intros [Hs Ho Hl Hi Hd Hq] Hc. unfold try_send. rewrite Ho. destruct (receivers p) as [|b rest] eqn:E.
  - by destruct (_ <? _)%nat.
  - simpl. apply lookup_insert_ne. intros <-. apply Hc, Hq. left.
Qed.

(** The release of a handle leaves its owner with nothing and every other handle alone. *)
Lemma release_lookup n p b c :
  accounted n [] p -> borrowers p !! c <> Some Queued ->
  borrowers (release_ b p) !! c =
  match borrowers p !! b with Some (Holding _) => if decide (c = b) then Some Gone else borrowers p !! c | _ => borrowers p !! c end.
Proof.
  intros A Hc. unfold release_. destruct (borrowers p !! b) as [[| | |slot|]|] eqn:E; try done.
  assert (accounted n [slot] (set_borrower b Gone p)) as A'.
  { apply (set_borrower_accounted n [] [slot]); [done|congruence|done|]. by rewrite (slots_at_lookup _ _ _ E). }
  rewrite (try_send_other n [slot]); [|done|]; simpl; destruct (decide (c = b)) as [->|Hcb];
    by rewrite ?lookup_insert_eq, ?lookup_insert_ne by congruence.
Qed.

Lemma move_accounted n src dst p p' : accounted n [] p -> move_handle src dst p = Some p' -> accounted n [] p'.
Proof.
  intros A. unfold move_handle. destruct (borrowers p !! src) as [[| | |slot|]|] eqn:Es; try discriminate.
  intros H. assert (Some (if (src =? dst)%nat then p else set_borrower dst (Holding slot) (set_borrower src Gone (release_ dst p))) = Some p'
    /\ borrowers p !! dst <> Some Queued /\ (borrowers p !! dst = None \/ borrowers p !! dst = Some Gone \/ exists t, borrowers p !! dst = Some (Holding t)))
    as (H' & Hdq & Hd) by (destruct (borrowers p !! dst) as [[| | |t|]|]; naive_solver). clear H. injection H' as <-.
  destruct (Nat.eqb_spec src dst) as [|Hne]; [done|].
  assert (borrowers (release_ dst p) !! src = Some (Holding slot)) as Hsrc.
  { rewrite (release_lookup n) by (done || congruence). rewrite decide_False by done. rewrite Es. by destruct (borrowers p !! dst) as [[]|]. }
  assert (borrowers (release_ dst p) !! dst <> Some Queued /\ slots_at (borrowers (release_ dst p)) dst = []) as [Hq Hz].
  { unfold slots_at. rewrite (release_lookup n) by done. rewrite decide_True by done. by destruct Hd as [-> | [-> | [t ->]]]. }
  apply (set_borrower_accounted n [slot] []); simpl.
  - apply (set_borrower_accounted n [] [slot]); [by apply release_accounted|congruence|done|].
    by rewrite (slots_at_lookup _ _ _ Hsrc).
  - by rewrite lookup_insert_ne.
  - done.
  - unfold slots_at in *. rewrite lookup_insert_ne by done. by rewrite Hz.
Qed.

Lemma resume_accounted n b p p' : accounted n [] p -> resume b p = Some p' -> accounted n [] p'.
Proof.
  intros A. unfold resume. destruct (borrowers p !! b) as [[| | | |]|] eqn:E; try discriminate; intros [= <-];
    (apply (set_borrower_accounted n [] []); [done|congruence|done|by rewrite (slots_at_lookup _ _ _ E)]).
Qed.

(** After the destructor: no coroutine is left waiting. *)
Definition shut (p : Pool) : Prop := closed p = true /\ forall b, borrowers p !! b <> Some Queued.

Lemma refused_lookup (l : list nat) (m : gmap nat Borrower) (b : nat) : foldr (fun b m => <[b := Refused]> m) m l !! b = if decide (b ∈ l) then Some Refused else m !! b.
Proof.
  induction l as [|c l IH]; [by rewrite decide_False by apply not_elem_of_nil|]. cbn [foldr].
  destruct (decide (b = c)) as [->|Hbc]; [rewrite lookup_insert_eq, decide_True by left; done|].
  rewrite lookup_insert_ne, IH by congruence. apply decide_ext. rewrite elem_of_cons. tauto.
Qed.

Lemma pool_step_keeps n e p p' : pool_step e p = Some p' -> accounted n [] p \/ shut p -> accounted n [] p' \/ shut p'.
Proof.
  unfold pool_step. intros H [A|[Hc Hq]].
  - rewrite (acc_open _ _ _ A) in H. destruct e as [b|b|b|src dst|b|].
    + left. unfold acquire in H. destruct (borrowers p !! b) as [[]|] eqn:E; try discriminate; injection H as <-; apply receive_accounted; tauto.
    + left. by apply (resume_accounted n b p).
    + left. destruct (borrowers p !! b) as [[]|]; try discriminate. injection H as <-. by apply release_accounted.
    + left. by apply (move_accounted n src dst p).
    + left. by apply (abandon_accounted n b p).
    + right. injection H as <-. split; [done|]. intros b. simpl. rewrite refused_lookup. pose proof (acc_queue _ _ _ A b).
      destruct (decide (b ∈ receivers p)); [done|tauto].
  - right. rewrite Hc in H. destruct e as [|b| | | |]; try discriminate. unfold resume in H.
    destruct (borrowers p !! b) as [[]|] eqn:E; try discriminate. injection H as <-. split; [done|]. intros c. simpl.
    destruct (decide (c = b)) as [->|]; [by rewrite lookup_insert_eq|by rewrite lookup_insert_ne].
Qed.

Lemma pool_run_keeps n es p p' : pool_run es p = Some p' -> accounted n [] p \/ shut p -> accounted n [] p' \/ shut p'.
Proof.
  revert p. induction es as [|e es IH]; intros p; simpl; [by intros [= ->]|].
  destruct (pool_step e p) as [q|] eqn:E; simpl; [|done]. intros H A. apply (IH q H). by apply (pool_step_keeps n e p).
Qed.

Lemma lent_exclusive m b1 b2 slot :
  NoDup (lent m) -> slot ∈ slots_at m b1 -> slot ∈ slots_at m b2 -> b1 = b2.
Proof.
  intros Hn H1 H2. destruct (decide (b1 = b2)) as [|Hne]; [done|]. exfalso. rewrite (lent_split m b1) in Hn.
  apply NoDup_app in Hn as (_ & Hn & _). apply (Hn slot H1). rewrite (lent_split _ b2). apply elem_of_app. left.
  unfold slots_at in *. by rewrite lookup_delete_ne.
Qed.

(** C22. A connection is lent to one coroutine at a time and none is lost: while the pool is open, its
    free slots and the lent ones are all [n] of them, each once; two coroutines with the same
    slot are one; a call waits only while all the connections are out; and the release of a
    handle gives its connection to the call that has waited longest. *)
Theorem pool_exclusive n es p (Hrun : pool_run es (fresh_pool n) = Some p) (Hopen : closed p = false) :
  free_slots p ++ lent (borrowers p) ≡ₚ seq 0 n /\
  (forall b1 b2 slot, slot ∈ slots_at (borrowers p) b1 -> slot ∈ slots_at (borrowers p) b2 -> b1 = b2) /\
  (forall b slot, slot ∈ slots_at (borrowers p) b -> (slot < n)%nat /\ slot ∉ free_slots p) /\
  (forall b, borrowers p !! b = Some Queued -> free_slots p = [] /\ length (lent (borrowers p)) = n) /\
  (forall b rest h slot, receivers p = b :: rest -> borrowers p !! h = Some (Holding slot) ->
    exists p', pool_step (Release h) p = Some p' /\ receivers p' = rest /\ borrowers p' !! b = Some (Given slot)).
Proof.
  destruct (pool_run_keeps n es _ _ Hrun (or_introl (fresh_accounted n))) as [[Hs Ho Hl Hi Hd Hq]|[? _]]; [|congruence]. simpl in Hl.
  assert (NoDup (free_slots p ++ lent (borrowers p))) as Hn by (rewrite Hl; apply NoDup_seq).
  apply NoDup_app in Hn as (_ & Hsep & Hn).
  split; [done|]. split; [by intros b1 b2 slot; apply lent_exclusive|]. split; [|split].
  - intros b slot Hb. assert (slot ∈ lent (borrowers p)) as Hb' by (rewrite (lent_split _ b); apply elem_of_app; by left). split.
    + apply (elem_of_seq 0 n slot). rewrite <- Hl. apply elem_of_app. by right.
    + intros Hf. by apply (Hsep slot).
  - intros b Hb. apply Hq in Hb. rewrite Hi in Hl by (intros Hnil; rewrite Hnil in Hb; by apply not_elem_of_nil in Hb). split; [|].
    + apply Hi. intros Hnil. rewrite Hnil in Hb. by apply not_elem_of_nil in Hb.
    + by rewrite Hl, length_seq.
  - intros b rest h slot Hr Hh. unfold pool_step, release_. rewrite Ho, Hh. eexists. split; [done|]. unfold try_send, set_borrower. simpl.
    rewrite Ho, Hr. simpl. by rewrite lookup_insert_eq.
Qed.

(** Two connections, three calls: the third waits and is served by the first release. *)
Definition three_calls : list PoolEvent := [Acquire 1; Acquire 2; Acquire 3; Resume 1; Resume 2; Release 1; Resume 3].

Lemma pool_exclusive_witness :
  exists p, pool_run three_calls (fresh_pool 2) = Some p /\ borrowers p !! 3%nat = Some (Holding 0) /\ free_slots p = [] /\
  free_slots p ++ lent (borrowers p) ≡ₚ seq 0 2.
Proof.
  destruct (pool_run three_calls (fresh_pool 2)) as [p|] eqn:E; [|vm_compute in E; discriminate].
  exists p. split; [done|]. pose proof E as E'. vm_compute in E'. injection E' as E'.
  split; [by rewrite <- E'|]. split; [by rewrite <- E'|].
  apply (pool_exclusive 2 three_calls p E). by rewrite <- E'.
Defined.
