(* ===== verification/Json.v ===== *)
(** * What the program uses of [nlohmann::json]

    The library is outside the repository: its values are the abstract type [json] of the
    class [Json], whose operations are the members the code calls.  A call that can throw
    returns the text of the exception on the left. *)

From S2P Require Import Prelude ConfigData.

(** [json_find] is [None] for [end()], and so for anything that is not an object; [elements]
    is a range-for over an array. *)
Class Json := {
  json : Type;
  json_parse : string -> string + json;
  json_dump : json -> string + string;
  is_object : json -> bool;
  is_array : json -> bool;
  is_string : json -> bool;
  is_null : json -> bool;
  is_number_integer : json -> bool;
  json_find : json -> string -> option json;
  elements : json -> list json;
  get_int32 : json -> string + Z;
  get_int64 : json -> string + Z;
  get_size : json -> string + Z;
  get_bool : json -> string + bool;
  get_double : json -> string + Float;
  get_string : json -> string + string;
  get_ids : json -> string + list Z;
  get_strings : json -> string + list string;
  not_an_object : json -> string;
  no_such_key : json -> string -> string;
  json_null : json;
  json_of_string : string -> json;
  json_of_int : Z -> json;
  json_of_bool : bool -> json;
  json_of_double : Float -> json;
  json_array : list json -> json;
  json_object : list (string * json) -> json
}.

Section Accessors.
  Context `{!Json}.

(** [j.contains(key)]. *)
Definition contains_key (j : json) (key : string) : bool := bool_decide (is_Some (json_find j key)).

(** [j.value(key, dflt)]: throws unless [j] is an object and the member converts. *)
Definition json_value {A} (get : json -> string + A) (j : json) (key : string) (dflt : A) : string + A :=
  if is_object j then match json_find j key with Some v => get v | None => inr dflt end
  else inl (not_an_object j).

(** [j.at(key)]. *)
Definition json_at (j : json) (key : string) : string + json :=
  match json_find j key with Some v => inr v | None => inl (no_such_key j key) end.

(** [if (j.contains(key) && j[key].is_string()) ... j[key].get<std::string>()]. *)
Definition string_member (j : json) (key : string) : option string :=
  match json_find j key with
  | Some v => if is_string v then match get_string v with inr s => Some s | inl _ => None end else None
  | None => None
  end.

(** [if (j.contains(key) && j[key].is_array()) for (... : j[key])]. *)
Definition array_member (j : json) (key : string) : list json :=
  match json_find j key with
  | Some v => if is_array v then elements v else []
  | None => []
  end.

End Accessors.

(** ** A concrete instance, for examples *)

Module MemJson.
Inductive node :=
  | JNull
  | JBool (b : bool)
  | JInt (z : Z)
  | JDouble (x : Float)
  | JString (s : string)
  | JArray (l : list node)
  | JObject (members : list (string * node)).

Fixpoint member (key : string) (l : list (string * node)) : option node :=
  match l with
  | [] => None
  | (k, v) :: rest => if String.eqb k key then Some v else member key rest
  end.

(** [dump] refuses a string that is not UTF-8; here, one with a byte above 127. *)
Definition refused (j : node) : bool :=
  match j with JString s => negb (forallb (fun c => (code c <? 128)%N) (chars s)) | _ => false end.

(** The texts it can read are those of a table. *)
Definition json_of_table (texts : list (string * node)) : Json := {|
  json := node;
  json_parse text := match member text texts with Some j => inr j | None => inl "parse error" end;
  json_dump j :=
    match j with
    | JString s => inr s
    | JObject l => if existsb (fun m => refused m.2) l then inl "type_error.316: invalid UTF-8 byte" else inr "{}"
    | _ => inr "{}"
    end;
  is_object j := match j with JObject _ => true | _ => false end;
  is_array j := match j with JArray _ => true | _ => false end;
  is_string j := match j with JString _ => true | _ => false end;
  is_null j := match j with JNull => true | _ => false end;
  is_number_integer j := match j with JInt _ => true | _ => false end;
  json_find j key := match j with JObject l => member key l | _ => None end;
  elements j := match j with JArray l => l | _ => [] end;
  get_int32 j := match j with JInt z => inr z | _ => inl "type must be number" end;
  get_int64 j := match j with JInt z => inr z | _ => inl "type must be number" end;
  get_size j := match j with JInt z => inr z | _ => inl "type must be number" end;
  get_bool j := match j with JBool b => inr b | _ => inl "type must be boolean" end;
  get_double j := match j with JDouble x => inr x | _ => inl "type must be number" end;
  get_string j := match j with JString s => inr s | _ => inl "type must be string" end;
  get_ids _ := inl "type must be array";
  get_strings _ := inl "type must be array";
  not_an_object _ := "cannot use value() with this type";
  no_such_key _ key := "key '" +:+ key +:+ "' not found";
  json_null := JNull;
  json_of_string := JString;
  json_of_int := JInt;
  json_of_bool := JBool;
  json_of_double := JDouble;
  json_array := JArray;
  json_object := JObject
|}.

Definition sample_json : Json := json_of_table [].
End MemJson.
