(* ===== verification/Configuration.v ===== *)
(** * Configuration: [core/configuration.cpp]

    JSON file, environment overrides, validation.  The JSON libraries are parameters
    ([Json.v]); the process environment and [std::strtod] are [Environ].  A section parser is
    a coroutine over the list of errors it appends to. *)

From Equations Require Import Equations.
From S2P Require Import Prelude CoreError Progress ConfigData Json.

(** ** The JSON document and the environment *)

(** [std::getenv], and [std::strtod] on a whole string: [None] when it sets [errno] or stops
    early. *)
Class Environ := {
  getenv : string -> option string;
  strtod : string -> option Float
}.

(** The configuration file: [std::ifstream] and the two JSON parsers run on its text. *)
Inductive FileText := CannotOpen | ReadFailed | Contents (text : string).
Class ConfigFile `{!Json} := {
  read_file : string -> FileText;
  boost_parse_error : string -> option string
}.

(** ** Environment values *)

(** [parse_int<Int>]: [std::from_chars] that must consume the whole text.  Only signed types
    accept a minus sign; nothing accepts a plus sign or white space. *)
Definition parse_int (lo hi : Z) (text : string) : option Z :=
  let '(negative, digits) :=
    match chars text with
    | "-"%char :: rest => if lo <? 0 then (true, rest) else (false, chars text)
    | all => (false, all)
    end in
  match digits with
  | [] => None
  | _ =>
      if forallb isdigit digits then
        let value := if negative : bool then - dec_value 0 digits else dec_value 0 digits in
        if (lo <=? value) && (value <=? hi) then Some value else None
      else None
  end.

Definition parse_int32 : string -> option Z := parse_int (- 2 ^ 31) (2 ^ 31 - 1).
Definition parse_int64 : string -> option Z := parse_int INT64_MIN INT64_MAX.
Definition parse_size : string -> option Z := parse_int 0 (2 ^ 64 - 1).

(** [parse_bool]. *)
Definition parse_bool (text : string) : option bool :=
  if bool_decide (text ∈ ["1"; "true"; "TRUE"; "True"; "yes"; "on"]) then Some true
  else if bool_decide (text ∈ ["0"; "false"; "FALSE"; "False"; "no"; "off"]) then Some false
  else None.

(** A comma, a space or a tab. *)
Definition is_separator (c : ascii) : bool := bool_decide (c = ","%char) || (code c =? 32)%N || (code c =? 9)%N.

Definition token_char (c : ascii) : bool := negb (is_separator c).

(** The outer loop of [parse_id_list]: skip separators, take a token, stop when there is
    none.  Tokens that are no 64-bit integer are dropped. *)
Equations? id_tokens (text : list ascii) : list Z by wf (length text) lt :=
  id_tokens text with inspect (drop_while is_separator text) := {
    | exist _ [] _ => [];
    | exist _ (first :: rest) E =>
        option_list (parse_int64 (of_chars (first :: take_while token_char rest)))
          ++ id_tokens (drop_while token_char rest) }.
Proof. apply (f_equal length) in E. pose proof (drop_while_le is_separator text). pose proof (drop_while_le token_char rest). cbn in E. lia. Defined.

(** [parse_id_list]. *)
Definition parse_id_list (text : string) : list Z := id_tokens (chars text).

(** [parse_log_level] of [core/logger.cpp]; the level itself is spdlog's. *)
Definition log_level_known (text : string) : bool :=
  bool_decide (text ∈ ["trace"; "debug"; "info"; "warn"; "warning"; "error"; "err"; "critical"; "fatal"; "off"]).

(** ** Validation *)

(** [if (bad) errors.emplace_back(InvalidConfiguration, message)]. *)
Definition require (bad : bool) (message : string) : list AppError :=
  if bad then [MkError InvalidConfiguration message] else [].

Definition outside (lo hi z : Z) : bool := (z <? lo) || (z >? hi).

Definition validate_telegram (c : TelegramConfig) : list AppError :=
  require (tg_api_id c =? 0) "telegram.api_id must be non-zero" ++
  require (str_empty (tg_api_hash c)) "telegram.api_hash must not be empty" ++
  require (tg_owner_id c =? 0) "telegram.owner_id must be non-zero" ++
  require (str_empty (tg_bot_token c)) "telegram.bot_token must not be empty" ++
  require (outside 1 65536 (tg_upload_chunk_size_kb c)) "telegram.upload_chunk_size_kb must be in [1, 65536]" ++
  require (outside 1 65536 (tg_download_chunk_size_kb c)) "telegram.download_chunk_size_kb must be in [1, 65536]" ++
  require (tg_connection_retry_count_max c <? 0) "telegram.connection_retry_count_max must be >= 0" ++
  require (outside 1 32 (tg_upload_parallelism c)) "telegram.upload_parallelism must be in [1, 32]" ++
  require (outside 1 32 (tg_upload_files_parallelism c)) "telegram.upload_files_parallelism must be in [1, 32]".

Definition validate_aria2 (c : Aria2Config) : list AppError :=
  (if str_empty (a2_rpc_url c) then require true "aria2.rpc_url must not be empty"
   else require (negb (starts_with (a2_rpc_url c) "ws://") && negb (starts_with (a2_rpc_url c) "wss://"))
          "aria2.rpc_url must start with ws:// or wss://") ++
  require (a2_max_concurrent_downloads c <=? 0) "aria2.max_concurrent_downloads must be positive" ++
  require (a2_request_timeout c <=? 0) "aria2.request_timeout must be positive" ++
  require (outside 1 16 (a2_max_connection_per_server c)) "aria2.max_connection_per_server must be in [1, 16]" ++
  require (outside 1 16 (a2_split c)) "aria2.split must be in [1, 16]" ++
  require (a2_max_tries c <? 0) "aria2.max_tries must be >= 0" ++
  require (a2_retry_wait c <? 0) "aria2.retry_wait must be >= 0" ++
  require (a2_bt_max_peers c <? 1) "aria2.bt_max_peers must be >= 1" ++
  require (a2_max_overall_download_limit c <? 0) "aria2.max_overall_download_limit must be >= 0" ++
  require (a2_max_overall_upload_limit c <? 0) "aria2.max_overall_upload_limit must be >= 0".

(** The lambda [qbit_pos]. *)
Definition qbit_pos (name : string) (v : Z) : list AppError :=
  require (v <? 1) ("qbittorrent." +:+ name +:+ " must be >= 1").

Definition validate_qbittorrent (c : QbittorrentConfig) : list AppError :=
  (if str_empty (qb_url c) then require true "qbittorrent.url must not be empty"
   else require (negb (starts_with (qb_url c) "http://") && negb (starts_with (qb_url c) "https://"))
          ("qbittorrent.url must start with http:// or https:// (got '" +:+ qb_url c +:+ "')")) ++
  require (below_zero (qb_seed_ratio_limit c)) "qbittorrent.seed_ratio_limit must be >= 0" ++
  require (qb_seed_time_limit c <? 0) "qbittorrent.seed_time_limit must be >= 0" ++
  qbit_pos "max_active_downloads" (qb_max_active_downloads c) ++
  qbit_pos "max_active_uploads" (qb_max_active_uploads c) ++
  qbit_pos "max_active_torrents" (qb_max_active_torrents c) ++
  qbit_pos "max_connections" (qb_max_connections c) ++
  qbit_pos "max_connections_per_torrent" (qb_max_connections_per_torrent c) ++
  qbit_pos "max_uploads" (qb_max_uploads c) ++
  qbit_pos "max_uploads_per_torrent" (qb_max_uploads_per_torrent c) ++
  qbit_pos "async_io_threads" (qb_async_io_threads c) ++
  require (qb_disk_cache_mib c <? -1) "qbittorrent.disk_cache_mib must be -1 or >= 0" ++
  require (qb_up_limit c <? -1) "qbittorrent.up_limit must be -1 (unlimited), 0 (qBit default), or > 0 (bytes/sec)" ++
  require (qb_dl_limit c <? -1) "qbittorrent.dl_limit must be -1 (unlimited), 0 (qBit default), or > 0 (bytes/sec)".

Definition validate_rclone (c : RcloneConfig) : list AppError :=
  require (outside 1 64 (rc_transfers c)) "rclone.transfers must be in [1, 64]" ++
  require (outside 1 256 (rc_checkers c)) "rclone.checkers must be in [1, 256]" ++
  require (outside 1 64 (rc_multi_thread_streams c)) "rclone.multi_thread_streams must be in [1, 64]" ++
  let lvl := rc_log_level c in
  require (negb (bool_decide (lvl = "DEBUG")) && negb (bool_decide (lvl = "INFO")) &&
           negb (bool_decide (lvl = "NOTICE")) && negb (bool_decide (lvl = "ERROR")))
    ("rclone.log_level must be one of DEBUG, INFO, NOTICE, ERROR (got '" +:+ lvl +:+ "')").

Definition kMinChunk : Z := 256 * 1024.
Definition kMaxChunk : Z := 512 * 1024 * 1024.

Definition validate_google_drive (c : GoogleDriveConfig) : list AppError :=
  require (outside kMinChunk kMaxChunk (gd_chunk_size c)) "google_drive.chunk_size must be in [256 KiB, 512 MiB]" ++
  require (negb (gd_chunk_size c mod kMinChunk =? 0)) "google_drive.chunk_size must be a multiple of 256 KiB" ++
  require (outside 1 64 (gd_parallel_chunks_per_file c)) "google_drive.parallel_chunks_per_file must be in [1, 64]" ++
  require (outside 1 64 (gd_parallel_files_per_directory c))
    "google_drive.parallel_files_per_directory must be in [1, 64]" ++
  require (gd_max_retries c <? 0) "google_drive.max_retries must be >= 0" ++
  require (gd_initial_retry_delay c <? 0) "google_drive.initial_retry_delay must be >= 0".

Definition validate_database (c : DatabaseConfig) : list AppError :=
  require (str_empty (dc_path c)) "database.path must not be empty" ++
  (if dc_busy_timeout c <? 0 then require true "database.busy_timeout must be >= 0"
   else require (dc_busy_timeout c >? 60000)
          ("database.busy_timeout must be <= 60000 ms " +:+
           "(longer waits indicate a deeper deadlock; raise deliberately if absolutely required)")).

Definition validate_logging (c : LoggingConfig) : list AppError :=
  require (negb (log_level_known (lc_level c))) ("logging.level is not a recognized level: " +:+ lc_level c) ++
  require (str_empty (lc_logs_dir c)) "logging.logs_dir must not be empty".

Definition validate_paths (c : PathsConfig) : list AppError :=
  require (str_empty (pt_download_dir c)) "paths.download_dir must not be empty" ++
  require (str_empty (pt_data_dir c)) "paths.data_dir must not be empty".

(** [Configuration::validate]. *)
Definition validate (cfg : AppConfig) : list AppError :=
  validate_telegram (cfg_telegram cfg) ++ validate_aria2 (cfg_aria2 cfg) ++
  validate_qbittorrent (cfg_qbittorrent cfg) ++ validate_rclone (cfg_rclone cfg) ++
  validate_google_drive (cfg_google_drive cfg) ++ validate_database (cfg_database cfg) ++
  validate_logging (cfg_logging cfg) ++ validate_paths (cfg_paths cfg).

Open Scope coro_scope.

Section Load.
  Context `{!Json, !Environ}.

(** ** Environment overrides: a missing or malformed variable leaves the old value *)

(** [env_int], [env_bool], [env_double] and their relatives, by the parser they use. *)
Definition env_with {A} (parse : string -> option A) (name : string) (old : A) : A :=
  match getenv name with
  | None => old
  | Some text => match parse text with Some v => v | None => old end
  end.

Definition env_int32 : string -> Z -> Z := env_with parse_int32.
Definition env_int64 : string -> Z -> Z := env_with parse_int64.
Definition env_size : string -> Z -> Z := env_with parse_size.
Definition env_bool : string -> bool -> bool := env_with parse_bool.
Definition env_double : string -> Float -> Float := env_with strtod.
Definition env_string (name : string) (old : string) : string := default old (getenv name).
Definition env_ids (name : string) (old : list Z) : list Z :=
  match getenv name with None => old | Some text => parse_id_list text end.

Definition override_telegram (c : TelegramConfig) : TelegramConfig :=
  MkTelegramConfig
    (env_int32 "CMLB_TELEGRAM_API_ID" (tg_api_id c))
    (env_string "CMLB_TELEGRAM_API_HASH" (tg_api_hash c))
    (env_string "CMLB_TELEGRAM_BOT_TOKEN" (tg_bot_token c))
    (env_string "CMLB_TELEGRAM_DATABASE_DIRECTORY" (tg_database_directory c))
    (env_int64 "CMLB_TELEGRAM_OWNER_ID" (tg_owner_id c))
    (env_ids "CMLB_TELEGRAM_SUDO_USERS" (tg_sudo_users c))
    (env_ids "CMLB_TELEGRAM_AUTHORIZED_CHATS" (tg_authorized_chats c))
    (env_int32 "CMLB_TELEGRAM_UPLOAD_CHUNK_SIZE_KB" (tg_upload_chunk_size_kb c))
    (env_int32 "CMLB_TELEGRAM_DOWNLOAD_CHUNK_SIZE_KB" (tg_download_chunk_size_kb c))
    (env_int32 "CMLB_TELEGRAM_CONNECTION_RETRY_COUNT_MAX" (tg_connection_retry_count_max c))
    (env_bool "CMLB_TELEGRAM_PREFER_IPV6" (tg_prefer_ipv6 c))
    (env_int32 "CMLB_TELEGRAM_UPLOAD_PARALLELISM" (tg_upload_parallelism c))
    (env_int32 "CMLB_TELEGRAM_UPLOAD_FILES_PARALLELISM" (tg_upload_files_parallelism c)).

Definition override_aria2 (c : Aria2Config) : Aria2Config :=
  MkAria2Config
    (env_string "CMLB_ARIA2_RPC_URL" (a2_rpc_url c))
    (env_string "CMLB_ARIA2_SECRET" (a2_secret c))
    (env_int32 "CMLB_ARIA2_MAX_CONCURRENT_DOWNLOADS" (a2_max_concurrent_downloads c))
    (env_int64 "CMLB_ARIA2_REQUEST_TIMEOUT" (a2_request_timeout c))
    (env_int32 "CMLB_ARIA2_MAX_CONNECTION_PER_SERVER" (a2_max_connection_per_server c))
    (env_int32 "CMLB_ARIA2_SPLIT" (a2_split c))
    (env_string "CMLB_ARIA2_MIN_SPLIT_SIZE" (a2_min_split_size c))
    (env_string "CMLB_ARIA2_DISK_CACHE" (a2_disk_cache c))
    (env_int32 "CMLB_ARIA2_MAX_TRIES" (a2_max_tries c))
    (env_int64 "CMLB_ARIA2_RETRY_WAIT" (a2_retry_wait c))
    (env_int64 "CMLB_ARIA2_MAX_OVERALL_DOWNLOAD_LIMIT" (a2_max_overall_download_limit c))
    (env_int64 "CMLB_ARIA2_MAX_OVERALL_UPLOAD_LIMIT" (a2_max_overall_upload_limit c))
    (env_bool "CMLB_ARIA2_ENABLE_DHT" (a2_enable_dht c))
    (env_bool "CMLB_ARIA2_ENABLE_PEX" (a2_enable_pex c))
    (env_int32 "CMLB_ARIA2_BT_MAX_PEERS" (a2_bt_max_peers c))
    (env_string "CMLB_ARIA2_USER_AGENT" (a2_user_agent c)).

Definition override_qbittorrent (c : QbittorrentConfig) : QbittorrentConfig :=
  MkQbittorrentConfig
    (env_string "CMLB_QBITTORRENT_URL" (qb_url c))
    (env_string "CMLB_QBITTORRENT_USERNAME" (qb_username c))
    (env_string "CMLB_QBITTORRENT_PASSWORD" (qb_password c))
    (env_double "CMLB_QBITTORRENT_SEED_RATIO_LIMIT" (qb_seed_ratio_limit c))
    (env_int64 "CMLB_QBITTORRENT_SEED_TIME_LIMIT" (qb_seed_time_limit c))
    (env_int32 "CMLB_QBITTORRENT_MAX_ACTIVE_DOWNLOADS" (qb_max_active_downloads c))
    (env_int32 "CMLB_QBITTORRENT_MAX_ACTIVE_UPLOADS" (qb_max_active_uploads c))
    (env_int32 "CMLB_QBITTORRENT_MAX_ACTIVE_TORRENTS" (qb_max_active_torrents c))
    (env_int32 "CMLB_QBITTORRENT_MAX_CONNECTIONS" (qb_max_connections c))
    (env_int32 "CMLB_QBITTORRENT_MAX_CONNECTIONS_PER_TORRENT" (qb_max_connections_per_torrent c))
    (env_int32 "CMLB_QBITTORRENT_MAX_UPLOADS" (qb_max_uploads c))
    (env_int32 "CMLB_QBITTORRENT_MAX_UPLOADS_PER_TORRENT" (qb_max_uploads_per_torrent c))
    (env_int64 "CMLB_QBITTORRENT_UP_LIMIT" (qb_up_limit c))
    (env_int64 "CMLB_QBITTORRENT_DL_LIMIT" (qb_dl_limit c))
    (env_bool "CMLB_QBITTORRENT_DHT" (qb_dht c))
    (env_bool "CMLB_QBITTORRENT_PEX" (qb_pex c))
    (env_bool "CMLB_QBITTORRENT_LSD" (qb_lsd c))
    (env_bool "CMLB_QBITTORRENT_ANONYMOUS_MODE" (qb_anonymous_mode c))
    (env_int32 "CMLB_QBITTORRENT_ASYNC_IO_THREADS" (qb_async_io_threads c))
    (env_int32 "CMLB_QBITTORRENT_DISK_CACHE_MIB" (qb_disk_cache_mib c)).

Definition override_rclone (c : RcloneConfig) : RcloneConfig :=
  MkRcloneConfig
    (env_string "CMLB_RCLONE_EXECUTABLE" (rc_executable c))
    (env_string "CMLB_RCLONE_CONFIG_PATH" (rc_config_path c))
    (env_int32 "CMLB_RCLONE_TRANSFERS" (rc_transfers c))
    (env_int32 "CMLB_RCLONE_CHECKERS" (rc_checkers c))
    (env_int32 "CMLB_RCLONE_MULTI_THREAD_STREAMS" (rc_multi_thread_streams c))
    (env_string "CMLB_RCLONE_MULTI_THREAD_CUTOFF" (rc_multi_thread_cutoff c))
    (env_string "CMLB_RCLONE_DRIVE_CHUNK_SIZE" (rc_drive_chunk_size c))
    (env_string "CMLB_RCLONE_BUFFER_SIZE" (rc_buffer_size c))
    (env_bool "CMLB_RCLONE_USE_MMAP" (rc_use_mmap c))
    (env_bool "CMLB_RCLONE_FAST_LIST" (rc_fast_list c))
    (env_bool "CMLB_RCLONE_DRIVE_ACKNOWLEDGE_ABUSE" (rc_drive_acknowledge_abuse c))
    (env_string "CMLB_RCLONE_LOG_LEVEL" (rc_log_level c))
    (rc_extra_args c).

Definition override_google_drive (c : GoogleDriveConfig) : GoogleDriveConfig :=
  MkGoogleDriveConfig
    (env_string "CMLB_GOOGLE_DRIVE_CREDENTIALS_PATH" (gd_credentials_path c))
    (env_string "CMLB_GOOGLE_DRIVE_PARENT_FOLDER_ID" (gd_parent_folder_id c))
    (env_bool "CMLB_GOOGLE_DRIVE_USE_SERVICE_ACCOUNTS" (gd_use_service_accounts c))
    (env_string "CMLB_GOOGLE_DRIVE_SA_FOLDER" (gd_sa_folder c))
    (env_size "CMLB_GOOGLE_DRIVE_CHUNK_SIZE" (gd_chunk_size c))
    (env_int32 "CMLB_GOOGLE_DRIVE_PARALLEL_CHUNKS_PER_FILE" (gd_parallel_chunks_per_file c))
    (env_int32 "CMLB_GOOGLE_DRIVE_PARALLEL_FILES_PER_DIRECTORY" (gd_parallel_files_per_directory c))
    (env_int32 "CMLB_GOOGLE_DRIVE_MAX_RETRIES" (gd_max_retries c))
    (env_int64 "CMLB_GOOGLE_DRIVE_INITIAL_RETRY_DELAY_MS" (gd_initial_retry_delay c)).

Definition override_database (c : DatabaseConfig) : DatabaseConfig :=
  MkDatabaseConfig
    (env_string "CMLB_DATABASE_PATH" (dc_path c))
    (env_int64 "CMLB_DATABASE_BUSY_TIMEOUT" (dc_busy_timeout c))
    (env_bool "CMLB_DATABASE_WAL_MODE" (dc_wal_mode c)).

Definition override_logging (c : LoggingConfig) : LoggingConfig :=
  MkLoggingConfig
    (env_string "CMLB_LOGGING_LOGS_DIR" (lc_logs_dir c))
    (env_string "CMLB_LOGGING_LEVEL" (lc_level c))
    (env_bool "CMLB_LOGGING_CONSOLE" (lc_console c)).

Definition override_paths (c : PathsConfig) : PathsConfig :=
  MkPathsConfig
    (env_string "CMLB_PATHS_DOWNLOAD_DIR" (pt_download_dir c))
    (env_string "CMLB_PATHS_DATA_DIR" (pt_data_dir c)).

(** [Configuration::apply_env_overrides]. *)
Definition apply_env_overrides (cfg : AppConfig) : AppConfig :=
  MkAppConfig
    (override_telegram (cfg_telegram cfg))
    (override_aria2 (cfg_aria2 cfg))
    (override_qbittorrent (cfg_qbittorrent cfg))
    (override_rclone (cfg_rclone cfg))
    (override_google_drive (cfg_google_drive cfg))
    (override_database (cfg_database cfg))
    (override_logging (cfg_logging cfg))
    (override_paths (cfg_paths cfg)).

(** ** The JSON document *)

(** [obj.contains(key)]. *)
Definition contains (obj : json) (key : string) : bool := bool_decide (is_Some (json_find obj key)).

(** The value a field ends up with and the error it adds: missing and null fields keep the
    old value, and so does one of the wrong type. *)
Definition read_value {A} (get : json -> string + A) (obj : json) (key : string) (old : A) : A * list AppError :=
  match json_find obj key with
  | None => (old, [])
  | Some it =>
      if is_null it then (old, [])
      else match get it with
           | inr v => (v, [])
           | inl what => (old, [MkError JsonParse ("field '" +:+ key +:+ "': " +:+ what)])
           end
  end.

(** [read_field], [read_seconds], [read_minutes], [read_millis]. *)
Definition read_field {A} (get : json -> string + A) (obj : json) (key : string) (out : A)
  : M (list AppError) A := fun errors =>
  ((read_value get obj key out).1, errors ++ (read_value get obj key out).2).

(** [section]: a member that is an object. *)
Definition section (doc : json) (key : string) : option json :=
  match json_find doc key with
  | Some it => if is_object it then Some it else None
  | None => None
  end.

Definition parse_telegram (obj : json) (out : TelegramConfig) : M (list AppError) TelegramConfig :=
  co_await api_id <- read_field get_int32 obj "api_id" (tg_api_id out);
  co_await api_hash <- read_field get_string obj "api_hash" (tg_api_hash out);
  co_await bot_token <- read_field get_string obj "bot_token" (tg_bot_token out);
  co_await database_directory <- read_field get_string obj "database_directory" (tg_database_directory out);
  co_await owner_id <- read_field get_int64 obj "owner_id" (tg_owner_id out);
  co_await sudo_users <- read_field get_ids obj "sudo_users" (tg_sudo_users out);
  co_await authorized_chats <- read_field get_ids obj "authorized_chats" (tg_authorized_chats out);
  co_await upload_chunk_size_kb <- read_field get_int32 obj "upload_chunk_size_kb" (tg_upload_chunk_size_kb out);
  co_await download_chunk_size_kb <- read_field get_int32 obj "download_chunk_size_kb" (tg_download_chunk_size_kb out);
  co_await connection_retry_count_max <- read_field get_int32 obj "connection_retry_count_max" (tg_connection_retry_count_max out);
  co_await prefer_ipv6 <- read_field get_bool obj "prefer_ipv6" (tg_prefer_ipv6 out);
  co_await upload_parallelism <- read_field get_int32 obj "upload_parallelism" (tg_upload_parallelism out);
  co_await upload_files_parallelism <- read_field get_int32 obj "upload_files_parallelism" (tg_upload_files_parallelism out);
  co_return (MkTelegramConfig api_id api_hash bot_token database_directory owner_id sudo_users authorized_chats
  upload_chunk_size_kb download_chunk_size_kb connection_retry_count_max prefer_ipv6 upload_parallelism
  upload_files_parallelism).

Definition parse_aria2 (obj : json) (out : Aria2Config) : M (list AppError) Aria2Config :=
  co_await rpc_url <- read_field get_string obj "rpc_url" (a2_rpc_url out);
  co_await secret <- read_field get_string obj "secret" (a2_secret out);
  co_await max_concurrent_downloads <- read_field get_int32 obj "max_concurrent_downloads" (a2_max_concurrent_downloads out);
  co_await request_timeout <- read_field get_int64 obj "request_timeout" (a2_request_timeout out);
  co_await max_connection_per_server <- read_field get_int32 obj "max_connection_per_server" (a2_max_connection_per_server out);
  co_await split <- read_field get_int32 obj "split" (a2_split out);
  co_await min_split_size <- read_field get_string obj "min_split_size" (a2_min_split_size out);
  co_await disk_cache <- read_field get_string obj "disk_cache" (a2_disk_cache out);
  co_await max_tries <- read_field get_int32 obj "max_tries" (a2_max_tries out);
  co_await retry_wait <- read_field get_int64 obj "retry_wait" (a2_retry_wait out);
  co_await max_overall_download_limit <- read_field get_int64 obj "max_overall_download_limit" (a2_max_overall_download_limit out);
  co_await max_overall_upload_limit <- read_field get_int64 obj "max_overall_upload_limit" (a2_max_overall_upload_limit out);
  co_await enable_dht <- read_field get_bool obj "enable_dht" (a2_enable_dht out);
  co_await enable_pex <- read_field get_bool obj "enable_pex" (a2_enable_pex out);
  co_await bt_max_peers <- read_field get_int32 obj "bt_max_peers" (a2_bt_max_peers out);
  co_await user_agent <- read_field get_string obj "user_agent" (a2_user_agent out);
  co_return (MkAria2Config rpc_url secret max_concurrent_downloads request_timeout max_connection_per_server
  split min_split_size disk_cache max_tries retry_wait max_overall_download_limit max_overall_upload_limit
  enable_dht enable_pex bt_max_peers user_agent).

Definition parse_qbittorrent (obj : json) (out : QbittorrentConfig) : M (list AppError) QbittorrentConfig :=
  co_await url <- read_field get_string obj "url" (qb_url out);
  co_await username <- read_field get_string obj "username" (qb_username out);
  co_await password <- read_field get_string obj "password" (qb_password out);
  co_await seed_ratio_limit <- read_field get_double obj "seed_ratio_limit" (qb_seed_ratio_limit out);
  co_await seed_time_limit <- read_field get_int64 obj "seed_time_limit" (qb_seed_time_limit out);
  co_await max_active_downloads <- read_field get_int32 obj "max_active_downloads" (qb_max_active_downloads out);
  co_await max_active_uploads <- read_field get_int32 obj "max_active_uploads" (qb_max_active_uploads out);
  co_await max_active_torrents <- read_field get_int32 obj "max_active_torrents" (qb_max_active_torrents out);
  co_await max_connections <- read_field get_int32 obj "max_connections" (qb_max_connections out);
  co_await max_connections_per_torrent <- read_field get_int32 obj "max_connections_per_torrent" (qb_max_connections_per_torrent out);
  co_await max_uploads <- read_field get_int32 obj "max_uploads" (qb_max_uploads out);
  co_await max_uploads_per_torrent <- read_field get_int32 obj "max_uploads_per_torrent" (qb_max_uploads_per_torrent out);
  co_await up_limit <- read_field get_int64 obj "up_limit" (qb_up_limit out);
  co_await dl_limit <- read_field get_int64 obj "dl_limit" (qb_dl_limit out);
  co_await dht <- read_field get_bool obj "dht" (qb_dht out);
  co_await pex <- read_field get_bool obj "pex" (qb_pex out);
  co_await lsd <- read_field get_bool obj "lsd" (qb_lsd out);
  co_await anonymous_mode <- read_field get_bool obj "anonymous_mode" (qb_anonymous_mode out);
  co_await async_io_threads <- read_field get_int32 obj "async_io_threads" (qb_async_io_threads out);
  co_await disk_cache_mib <- read_field get_int32 obj "disk_cache_mib" (qb_disk_cache_mib out);
  co_return (MkQbittorrentConfig url username password seed_ratio_limit seed_time_limit max_active_downloads
  max_active_uploads max_active_torrents max_connections max_connections_per_torrent max_uploads
  max_uploads_per_torrent up_limit dl_limit dht pex lsd anonymous_mode async_io_threads disk_cache_mib).

Definition parse_rclone (obj : json) (out : RcloneConfig) : M (list AppError) RcloneConfig :=
  co_await executable <- read_field get_string obj "executable" (rc_executable out);
  co_await executable <-
    (if negb (contains obj "executable") && contains obj "path"
     then read_field get_string obj "path" executable else co_return executable);
  co_await config_path <- read_field get_string obj "config_path" (rc_config_path out);
  co_await transfers <- read_field get_int32 obj "transfers" (rc_transfers out);
  co_await checkers <- read_field get_int32 obj "checkers" (rc_checkers out);
  co_await multi_thread_streams <- read_field get_int32 obj "multi_thread_streams" (rc_multi_thread_streams out);
  co_await multi_thread_cutoff <- read_field get_string obj "multi_thread_cutoff" (rc_multi_thread_cutoff out);
  co_await drive_chunk_size <- read_field get_string obj "drive_chunk_size" (rc_drive_chunk_size out);
  co_await buffer_size <- read_field get_string obj "buffer_size" (rc_buffer_size out);
  co_await use_mmap <- read_field get_bool obj "use_mmap" (rc_use_mmap out);
  co_await fast_list <- read_field get_bool obj "fast_list" (rc_fast_list out);
  co_await drive_acknowledge_abuse <- read_field get_bool obj "drive_acknowledge_abuse" (rc_drive_acknowledge_abuse out);
  co_await log_level <- read_field get_string obj "log_level" (rc_log_level out);
  co_await extra_args <- read_field get_strings obj "extra_args" (rc_extra_args out);
  co_return (MkRcloneConfig executable config_path transfers checkers multi_thread_streams multi_thread_cutoff
  drive_chunk_size buffer_size use_mmap fast_list drive_acknowledge_abuse log_level extra_args).

Definition parse_gdrive (obj : json) (out : GoogleDriveConfig) : M (list AppError) GoogleDriveConfig :=
  co_await credentials_path <- read_field get_string obj "credentials_path" (gd_credentials_path out);
  co_await parent_folder_id <- read_field get_string obj "parent_folder_id" (gd_parent_folder_id out);
  co_await use_service_accounts <- read_field get_bool obj "use_service_accounts" (gd_use_service_accounts out);
  co_await sa_folder <- read_field get_string obj "sa_folder" (gd_sa_folder out);
  co_await chunk_size <- read_field get_size obj "chunk_size" (gd_chunk_size out);
  co_await parallel_chunks_per_file <- read_field get_int32 obj "parallel_chunks_per_file" (gd_parallel_chunks_per_file out);
  co_await parallel_files_per_directory <- read_field get_int32 obj "parallel_files_per_directory" (gd_parallel_files_per_directory out);
  co_await max_retries <- read_field get_int32 obj "max_retries" (gd_max_retries out);
  co_await initial_retry_delay <- read_field get_int64 obj "initial_retry_delay" (gd_initial_retry_delay out);
  co_return (MkGoogleDriveConfig credentials_path parent_folder_id use_service_accounts sa_folder chunk_size
  parallel_chunks_per_file parallel_files_per_directory max_retries initial_retry_delay).

Definition parse_database (obj : json) (out : DatabaseConfig) : M (list AppError) DatabaseConfig :=
  co_await path <- read_field get_string obj "path" (dc_path out);
  co_await busy_timeout <- read_field get_int64 obj "busy_timeout" (dc_busy_timeout out);
  co_await wal_mode <- read_field get_bool obj "wal_mode" (dc_wal_mode out);
  co_return (MkDatabaseConfig path busy_timeout wal_mode).

Definition parse_logging (obj : json) (out : LoggingConfig) : M (list AppError) LoggingConfig :=
  co_await logs_dir <- read_field get_string obj "logs_dir" (lc_logs_dir out);
  co_await level <- read_field get_string obj "level" (lc_level out);
  co_await console <- read_field get_bool obj "console" (lc_console out);
  co_return (MkLoggingConfig logs_dir level console).

Definition parse_paths (obj : json) (out : PathsConfig) : M (list AppError) PathsConfig :=
  co_await download_dir <- read_field get_string obj "download_dir" (pt_download_dir out);
  co_await data_dir <- read_field get_string obj "data_dir" (pt_data_dir out);
  co_return (MkPathsConfig download_dir data_dir).

(** A section parser runs when the section is there. *)
Definition in_section {A} (s : option json) (parse : json -> A -> M (list AppError) A) (out : A)
  : M (list AppError) A :=
  match s with Some obj => parse obj out | None => co_return out end.

(** The sections of [from_json], with the older name of the Drive section. *)
Definition read_sections (doc : json) (cfg : AppConfig) : M (list AppError) AppConfig :=
  co_await tg <- in_section (section doc "telegram") parse_telegram (cfg_telegram cfg);
  co_await a2 <- in_section (section doc "aria2") parse_aria2 (cfg_aria2 cfg);
  co_await qb <- in_section (section doc "qbittorrent") parse_qbittorrent (cfg_qbittorrent cfg);
  co_await rc <- in_section (section doc "rclone") parse_rclone (cfg_rclone cfg);
  co_await gd <- in_section (match section doc "google_drive" with
                             | Some s => Some s
                             | None => section doc "gdrive"
                             end) parse_gdrive (cfg_google_drive cfg);
  co_await dc <- in_section (section doc "database") parse_database (cfg_database cfg);
  co_await lc <- in_section (section doc "logging") parse_logging (cfg_logging cfg);
  co_await pt <- in_section (section doc "paths") parse_paths (cfg_paths cfg);
  co_return (MkAppConfig tg a2 qb rc gd dc lc pt).

(** The two top-level fields of older files; their errors are dropped. *)
Definition legacy_fields (doc : json) (cfg : AppConfig) : AppConfig :=
  let legacy_dl := (read_value get_string doc "download_dir" "").1 in
  let legacy_level := (read_value get_string doc "log_level" "").1 in
  let lc := cfg_logging cfg in
  let pt := cfg_paths cfg in
  MkAppConfig (cfg_telegram cfg) (cfg_aria2 cfg) (cfg_qbittorrent cfg) (cfg_rclone cfg) (cfg_google_drive cfg)
    (cfg_database cfg)
    (if str_empty legacy_level then lc else MkLoggingConfig (lc_logs_dir lc) legacy_level (lc_console lc))
    (if str_empty legacy_dl then pt else MkPathsConfig legacy_dl (pt_data_dir pt)).

(** One line per error. *)
Definition error_line (e : AppError) : string :=
  "[" +:+ error_code_name (err_code e) +:+ "] " +:+ err_message e.
Fixpoint join_errors (errors : list AppError) : string :=
  match errors with
  | [] => ""
  | [e] => error_line e
  | e :: rest => error_line e +:+ newline +:+ join_errors rest
  end.

(** The configuration [from_json] builds, and the errors met on the way. *)
Definition assemble (doc : json) : AppConfig * list AppError :=
  let '(cfg, parse_errors) := read_sections doc default_config [] in
  (apply_env_overrides (legacy_fields doc cfg), parse_errors).

(** [Configuration::from_json]. *)
Definition from_json (doc : json) : Result AppConfig :=
  if negb (is_object doc) then error InvalidConfiguration "root of config JSON must be an object"
  else
    let '(cfg, parse_errors) := assemble doc in
    match parse_errors ++ validate cfg with
    | [] => Ok cfg
    | errors => error InvalidConfiguration (join_errors errors)
    end.

(** [Configuration::load]. *)
Definition load `{!ConfigFile} (path : string) : Result AppConfig :=
  match read_file path with
  | CannotOpen => error FileSystem ("cannot open config file: " +:+ path)
  | ReadFailed => error Io ("failed to read " +:+ path)
  | Contents contents =>
      match boost_parse_error contents with
      | Some what => error JsonParse ("JSON parse error in " +:+ path +:+ ": " +:+ what)
      | None =>
          match json_parse contents with
          | inl what => error JsonParse ("JSON parse error in " +:+ path +:+ ": " +:+ what)
          | inr doc => from_json doc
          end
      end
  end.

(** ** Abstract specification: the words of an id list

    [split_words [] text] cuts the text at every separator, in one structural pass. *)
Fixpoint split_words (word text : list ascii) : list (list ascii) :=
  match text with
  | [] => [word]
  | c :: rest => if is_separator c then word :: split_words [] rest else split_words (word ++ [c]) rest
  end.

Definition id_words (text : list ascii) : list (list ascii) :=
  filter (fun w => w <> []) (split_words [] text).

(** ** Abstract specification: the value the reference manual promises for a row

    The default, replaced by the JSON value, by the old top-level name, by the environment,
    in this order. *)

(** The section of a row, with the older name of the Drive section. *)
Definition section_of (doc : json) (name : string) : option json :=
  if String.eqb name "google_drive"
  then match section doc "google_drive" with Some s => Some s | None => section doc "gdrive" end
  else section doc name.

(** The key a row is read from, with the older name of the rclone executable. *)
Definition key_of (obj : json) (r : Row) : string :=
  if String.eqb (r_section r) "rclone" && String.eqb (r_key r) "executable" &&
     (negb (contains obj "executable") && contains obj "path")
  then "path" else r_key r.

Definition json_setting (ty : SettingType) (obj : json) (key : string) (old : Value) : Value :=
  match ty, old with
  | TInt32, VInt z => VInt (read_value get_int32 obj key z).1
  | TInt64, VInt z => VInt (read_value get_int64 obj key z).1
  | TSize, VInt z => VInt (read_value get_size obj key z).1
  | TString, VString s => VString (read_value get_string obj key s).1
  | TBool, VBool b => VBool (read_value get_bool obj key b).1
  | TDouble, VDouble x => VDouble (read_value get_double obj key x).1
  | TIds, VIds l => VIds (read_value get_ids obj key l).1
  | TStrings, VStrings l => VStrings (read_value get_strings obj key l).1
  | _, _ => old
  end.

Definition env_setting (ty : SettingType) (variable : option string) (old : Value) : Value :=
  match variable with
  | None => old
  | Some name =>
      match ty, old with
      | TInt32, VInt z => VInt (env_int32 name z)
      | TInt64, VInt z => VInt (env_int64 name z)
      | TSize, VInt z => VInt (env_size name z)
      | TString, VString s => VString (env_string name s)
      | TBool, VBool b => VBool (env_bool name b)
      | TDouble, VDouble x => VDouble (env_double name x)
      | TIds, VIds l => VIds (env_ids name l)
      | _, _ => old
      end
  end.

(** The old top-level names win over the sections when they are non-empty strings. *)
Definition legacy_setting (doc : json) (r : Row) (old : Value) : Value :=
  let top key := let s := (read_value get_string doc key "").1 in if str_empty s then old else VString s in
  if String.eqb (r_section r) "paths" && String.eqb (r_key r) "download_dir" then top "download_dir"
  else if String.eqb (r_section r) "logging" && String.eqb (r_key r) "level" then top "log_level"
  else old.

Definition documented_value (doc : json) (r : Row) : Value :=
  env_setting (r_type r) (r_variable r) (legacy_setting doc r
    match section_of doc (r_section r) with
    | Some obj => json_setting (r_type r) obj (key_of obj r) (r_default r)
    | None => r_default r
    end).

(** ** Abstract specification: the type of a document

    The readers are the JSON library's own conversions, one per type of the table. *)

(** Why a member cannot be read as a value of the type, when it cannot. *)
Definition type_problem (ty : SettingType) (it : json) : option string :=
  let problem {A} (got : string + A) := match got with inl what => Some what | inr _ => None end in
  match ty with
  | TInt32 => problem (get_int32 it)
  | TInt64 => problem (get_int64 it)
  | TSize => problem (get_size it)
  | TString => problem (get_string it)
  | TBool => problem (get_bool it)
  | TDouble => problem (get_double it)
  | TIds => problem (get_ids it)
  | TStrings => problem (get_strings it)
  end.

(** The member a row is read from: one under the row's key of the row's section, when the
    section is there as an object and the member is not null. *)
Definition member_of (doc : json) (r : Row) : option json :=
  match section_of doc (r_section r) with
  | Some obj =>
      match json_find obj (key_of obj r) with
      | Some it => if is_null it then None else Some it
      | None => None
      end
  | None => None
  end.

(** Every member the table knows has its row's type. *)
Definition well_typed (doc : json) : Prop :=
  Forall (fun r => forall it, member_of doc r = Some it -> type_problem (r_type r) it = None) reference.

(** The complaint about a row. *)
Definition row_problem (doc : json) (r : Row) : list AppError :=
  match section_of doc (r_section r), member_of doc r with
  | Some obj, Some it =>
      match type_problem (r_type r) it with
      | Some what => [MkError JsonParse ("field '" +:+ key_of obj r +:+ "': " +:+ what)]
      | None => []
      end
  | _, _ => []
  end.

(** ** Lemmas *)

(** What a reader adds to the errors, by type. *)
Definition complaints (ty : SettingType) (obj : json) (key : string) : list AppError :=
  match json_find obj key with
  | Some it =>
      if is_null it then []
      else match type_problem ty it with
           | Some what => [MkError JsonParse ("field '" +:+ key +:+ "': " +:+ what)]
           | None => []
           end
  | None => []
  end.

Lemma row_problem_complaints doc r :
  row_problem doc r =
  match section_of doc (r_section r) with Some obj => complaints (r_type r) obj (key_of obj r) | None => [] end.
Proof.
  unfold row_problem, member_of, complaints. destruct (section_of doc (r_section r)) as [obj|]; [|done].
  destruct (json_find obj (key_of obj r)) as [it|]; [|done]. by destruct (is_null it).
Qed.

(** A document is well typed exactly when no row complains. *)
Lemma well_typed_complaints doc : well_typed doc <-> concat (row_problem doc <$> reference) = [].
Proof.
  unfold well_typed. generalize reference as rows. induction rows as [|r rows IH]; cbn [fmap list_fmap concat];
    [by split|].
  rewrite Forall_cons, app_nil, IH. apply and_iff_compat_r. unfold row_problem, member_of.
  destruct (section_of doc (r_section r)) as [obj|]; [|by split].
  destruct (json_find obj (key_of obj r)) as [it|]; [|by split].
  destruct (is_null it); [by split|]. split.
  - intros Hp. by rewrite (Hp it eq_refl).
  - intros Hp ? [= <-]. by destruct (type_problem (r_type r) it).
Qed.

Lemma read_field_errors {A} (get : json -> string + A) ty obj key out errors :
  (forall it, type_problem ty it = match get it with inl what => Some what | inr _ => None end) ->
  (read_field get obj key out errors).2 = errors ++ complaints ty obj key.
Proof.
  intros Hp. unfold read_field, read_value, complaints. cbn [snd]. destruct (json_find obj key) as [it|]; [|done].
  destruct (is_null it); [done|]. rewrite Hp. by destruct (get it).
Qed.

(** The errors of a section's reads, in the order of its rows. *)
Ltac section_errors :=
  rewrite ?mbind_proj; cbn [mreturn snd];
  repeat first
    [ rewrite (read_field_errors get_int32 TInt32) by done | rewrite (read_field_errors get_int64 TInt64) by done
    | rewrite (read_field_errors get_size TSize) by done | rewrite (read_field_errors get_string TString) by done
    | rewrite (read_field_errors get_bool TBool) by done | rewrite (read_field_errors get_double TDouble) by done
    | rewrite (read_field_errors get_ids TIds) by done | rewrite (read_field_errors get_strings TStrings) by done ];
  rewrite <- ?app_assoc.

Definition obj_problems (obj : json) (rows : list Row) : list AppError :=
  concat ((fun r => complaints (r_type r) obj (key_of obj r)) <$> rows).

Ltac section_problems rows :=
  intros; section_errors; unfold obj_problems; cbn [rows fmap list_fmap concat]; cbn -[complaints];
  rewrite ?app_nil_r; reflexivity.

Lemma telegram_problems obj out errors :
  (parse_telegram obj out errors).2 = errors ++ obj_problems obj reference_telegram.
Proof. unfold parse_telegram. section_problems reference_telegram. Qed.

Lemma aria2_problems obj out errors :
  (parse_aria2 obj out errors).2 = errors ++ obj_problems obj reference_aria2.
Proof. unfold parse_aria2. section_problems reference_aria2. Qed.

Lemma qbittorrent_problems obj out errors :
  (parse_qbittorrent obj out errors).2 = errors ++ obj_problems obj reference_qbittorrent.
Proof. unfold parse_qbittorrent. section_problems reference_qbittorrent. Qed.

Lemma google_drive_problems obj out errors :
  (parse_gdrive obj out errors).2 = errors ++ obj_problems obj reference_google_drive.
Proof. unfold parse_gdrive. section_problems reference_google_drive. Qed.

Lemma database_problems obj out errors :
  (parse_database obj out errors).2 = errors ++ obj_problems obj reference_database.
Proof. unfold parse_database. section_problems reference_database. Qed.

Lemma logging_problems obj out errors :
  (parse_logging obj out errors).2 = errors ++ obj_problems obj reference_logging.
Proof. unfold parse_logging. section_problems reference_logging. Qed.

Lemma paths_problems obj out errors :
  (parse_paths obj out errors).2 = errors ++ obj_problems obj reference_paths.
Proof. unfold parse_paths. section_problems reference_paths. Qed.

(** The old name of the executable is read only where the new one is missing. *)
Lemma rclone_problems obj out errors :
  (parse_rclone obj out errors).2 = errors ++ obj_problems obj reference_rclone.
Proof.
  unfold parse_rclone. destruct (negb (contains obj "executable") && contains obj "path") eqn:Hold.
  - assert (complaints TString obj "executable" = []) as He.
    { apply andb_prop in Hold as [Hno _]. apply negb_true_iff, bool_decide_eq_false in Hno. unfold complaints.
      destruct (json_find obj "executable") eqn:?; [|done]. by destruct Hno. }
    section_errors. unfold obj_problems. cbn [reference_rclone fmap list_fmap concat].
    unfold key_of at 1. cbn [r_section r_key]. rewrite Hold. cbn -[complaints]. rewrite He, !app_nil_r. reflexivity.
  - section_errors. unfold obj_problems. cbn [reference_rclone fmap list_fmap concat].
    unfold key_of at 1. cbn [r_section r_key]. rewrite Hold. cbn -[complaints]. rewrite !app_nil_r. reflexivity.
Qed.

(** The rows of one section, through its parser. *)
Lemma section_complaints {A} (parse : json -> A -> M (list AppError) A) rows doc name out errors :
  (forall obj out errors, (parse obj out errors).2 = errors ++ obj_problems obj rows) ->
  Forall (fun r => r_section r = name) rows ->
  (in_section (section_of doc name) parse out errors).2 = errors ++ concat (row_problem doc <$> rows).
Proof.
  intros Hp Hr. assert (concat (row_problem doc <$> rows) =
    match section_of doc name with Some obj => obj_problems obj rows | None => [] end) as ->.
  { clear Hp. unfold obj_problems. induction Hr as [|r rows <- _ IH]; cbn [fmap list_fmap concat].
    - by destruct (section_of doc name).
    - rewrite row_problem_complaints, IH. by destruct (section_of doc (r_section r)). }
  unfold in_section. destruct (section_of doc name); [apply Hp|]. by rewrite app_nil_r.
Qed.

(** One section of the manual against its parser and its overrides: both sides compute, once
    it is known whether the section is there. *)
Ltac section_rows rows :=
  intros; unfold in_section;
  repeat match goal with |- context [section ?d ?k] => destruct (section d k) eqn:? end;
  cbv [rows documented_value section_of key_of legacy_setting fmap list_fmap r_section r_key r_type r_variable
    r_default String.eqb Ascii.eqb Bool.eqb andb];
  repeat match goal with H : section _ _ = _ |- _ => rewrite ?H; clear H end;
  try reflexivity.

Lemma telegram_rows doc errors :
  settings_telegram (override_telegram (in_section (section doc "telegram") parse_telegram default_telegram errors).1)
  = documented_value doc <$> reference_telegram.
Proof. section_rows reference_telegram. Qed.

Lemma aria2_rows doc errors :
  settings_aria2 (override_aria2 (in_section (section doc "aria2") parse_aria2 default_aria2 errors).1)
  = documented_value doc <$> reference_aria2.
Proof. section_rows reference_aria2. Qed.

Lemma qbittorrent_rows doc errors :
  settings_qbittorrent (override_qbittorrent (in_section (section doc "qbittorrent") parse_qbittorrent default_qbittorrent errors).1)
  = documented_value doc <$> reference_qbittorrent.
Proof. section_rows reference_qbittorrent. Qed.

Lemma database_rows doc errors :
  settings_database (override_database (in_section (section doc "database") parse_database default_database errors).1)
  = documented_value doc <$> reference_database.
Proof. section_rows reference_database. Qed.

Lemma rclone_rows doc errors :
  settings_rclone (override_rclone (in_section (section doc "rclone") parse_rclone default_rclone errors).1)
  = documented_value doc <$> reference_rclone.
Proof.
  intros. unfold in_section. destruct (section doc "rclone") as [obj|] eqn:?; [|section_rows reference_rclone].
  section_rows reference_rclone. unfold parse_rclone.
  destruct (contains obj "executable") eqn:Hk; [reflexivity|]. destruct (contains obj "path"); [|reflexivity].
  apply bool_decide_eq_false in Hk.
  assert (json_find obj "executable" = None) as He by (apply eq_None_not_Some; tauto).
  unfold read_field, mbind, read_value. rewrite He. reflexivity.
Qed.

Lemma google_drive_rows doc errors :
  settings_google_drive (override_google_drive
    (in_section (section_of doc "google_drive") parse_gdrive default_google_drive errors).1)
  = documented_value doc <$> reference_google_drive.
Proof. intros. unfold section_of. cbn [String.eqb Ascii.eqb Bool.eqb]. section_rows reference_google_drive. Qed.

Lemma legacy_rows doc errors errors' :
  let lc := (in_section (section doc "logging") parse_logging default_logging errors).1 in
  let pt := (in_section (section doc "paths") parse_paths default_paths errors').1 in
  let cfg := legacy_fields doc
    (MkAppConfig default_telegram default_aria2 default_qbittorrent default_rclone default_google_drive
      default_database lc pt) in
  settings_logging (override_logging (cfg_logging cfg)) ++ settings_paths (override_paths (cfg_paths cfg))
  = documented_value doc <$> reference_logging ++ reference_paths.
Proof.
  intros lc pt cfg. rewrite fmap_app. f_equal; subst lc pt cfg; unfold legacy_fields; cbn [cfg_logging cfg_paths].
  - destruct (str_empty (read_value get_string doc "log_level" "").1) eqn:Hl; section_rows reference_logging;
      rewrite ?Hl; reflexivity.
  - destruct (str_empty (read_value get_string doc "download_dir" "").1) eqn:Hl; section_rows reference_paths;
      rewrite ?Hl; reflexivity.
Qed.

(** Every setting, read by the chain of section parsers. *)
Lemma settings_assembled doc : settings (assemble doc).1 = documented_value doc <$> reference.
Proof.
  unfold assemble, read_sections. rewrite !mbind_proj.
  cbn [mreturn fst snd default_config cfg_telegram cfg_aria2 cfg_qbittorrent cfg_rclone cfg_google_drive cfg_database
    cfg_logging cfg_paths].
  unfold settings, apply_env_overrides, reference. rewrite !fmap_app.
  cbn [legacy_fields cfg_telegram cfg_aria2 cfg_qbittorrent cfg_rclone cfg_google_drive cfg_database].
  change (match section doc "google_drive" with Some s => Some s | None => section doc "gdrive" end)
    with (section_of doc "google_drive").
  rewrite telegram_rows, aria2_rows, qbittorrent_rows, rclone_rows, google_drive_rows, database_rows. do 6 f_equal.
  rewrite <- fmap_app. erewrite <- legacy_rows. reflexivity.
Qed.

(** The errors met on the way are the rows' complaints, in the order of the table. *)
Lemma assemble_problems doc : (assemble doc).2 = concat (row_problem doc <$> reference).
Proof.
  unfold assemble. destruct (read_sections doc default_config []) as [cfg errors] eqn:E. cbn [snd].
  apply (f_equal snd) in E. cbn [snd] in E. subst errors. unfold read_sections. rewrite !mbind_proj. cbn [mreturn snd].
  change (match section doc "google_drive" with Some s => Some s | None => section doc "gdrive" end)
    with (section_of doc "google_drive").
  rewrite (section_complaints parse_paths reference_paths doc "paths" _ _ paths_problems) by by repeat constructor.
  rewrite (section_complaints parse_logging reference_logging doc "logging" _ _ logging_problems) by by repeat constructor.
  rewrite (section_complaints parse_database reference_database doc "database" _ _ database_problems) by by repeat constructor.
  rewrite (section_complaints parse_gdrive reference_google_drive doc "google_drive" _ _ google_drive_problems) by by repeat constructor.
  rewrite (section_complaints parse_rclone reference_rclone doc "rclone" _ _ rclone_problems) by by repeat constructor.
  rewrite (section_complaints parse_qbittorrent reference_qbittorrent doc "qbittorrent" _ _ qbittorrent_problems) by by repeat constructor.
  rewrite (section_complaints parse_aria2 reference_aria2 doc "aria2" _ _ aria2_problems) by by repeat constructor.
  rewrite (section_complaints parse_telegram reference_telegram doc "telegram" _ _ telegram_problems) by by repeat constructor.
  unfold reference. rewrite !fmap_app, !concat_app, <- !app_assoc. reflexivity.
Qed.

End Load.

(** Validation: each check fails exactly when its row's constraint does. *)

Lemma require_nil bad message : require bad message = [] <-> bad = false.
Proof. by destruct bad. Qed.

Lemma outside_false lo hi z : outside lo hi z = false <-> lo <= z <= hi.
Proof. unfold outside. rewrite orb_false_iff. lia. Qed.

Lemma below_false lo z : (z <? lo) = false <-> lo <= z.
Proof. lia. Qed.

Lemma not_positive_false z : (z <=? 0) = false <-> 1 <= z.
Proof. lia. Qed.

Lemma mod_check z m : 0 < m -> negb (z mod m =? 0) = false <-> (m | z).
Proof. intros H. rewrite negb_false_iff, Z.eqb_eq. apply Z.mod_divide. lia. Qed.

Lemma scheme_check url a b message message' :
  a <> "" -> b <> "" ->
  (if str_empty url then require true message else require (negb (starts_with url a) && negb (starts_with url b)) message')
    = [] <-> satisfies (Prefixed [a; b]) (VString url).
Proof.
  intros Ha Hb. cbn [satisfies]. rewrite Exists_cons, Exists_cons, Exists_nil.
  destruct (str_empty url) eqn:He.
  - apply str_empty_spec in He as ->. split; [done|].
    intros [[r Hr]|[[r Hr]|[]]]; [by destruct a|by destruct b].
  - rewrite require_nil, andb_false_iff, !negb_false_iff, !starts_with_spec. tauto.
Qed.

Lemma empty_check s : str_empty s = false <-> s <> "".
Proof. by destruct s. Qed.

(** Each check of a section is one row of the manual: the equivalences above, in either
    direction. *)
Ltac check_row :=
  cbn [satisfies r_constraint];
  first [exact I | assumption | apply outside_false; assumption | apply below_false; assumption
        | apply not_positive_false; assumption | apply empty_check; assumption | apply Z.eqb_neq; assumption].

Ltac validate_section rows :=
  unfold rows; split; intros Hchecks;
  [ repeat match goal with H : _ ++ _ = [] |- _ => apply app_nil in H as [? ?] end;
    repeat match goal with H : require _ _ = [] |- _ => apply require_nil in H end;
    repeat (apply Forall2_cons; split); try apply Forall2_nil; try done; try check_row
  | repeat match goal with H : Forall2 _ (_ :: _) (_ :: _) |- _ => apply Forall2_cons in H as [? ?] end;
    cbn [satisfies r_constraint] in *; repeat (apply app_nil; split); try (apply require_nil; check_row) ].

Lemma validate_telegram_rows c : validate_telegram c = [] <-> Forall2 row_ok reference_telegram (settings_telegram c).
Proof. unfold validate_telegram, settings_telegram, row_ok. validate_section reference_telegram. Qed.

Lemma validate_aria2_rows c : validate_aria2 c = [] <-> Forall2 row_ok reference_aria2 (settings_aria2 c).
Proof.
  unfold validate_aria2, settings_aria2, row_ok.
  validate_section reference_aria2; by eapply scheme_check.
Qed.

Lemma validate_qbittorrent_rows c :
  validate_qbittorrent c = [] <-> Forall2 row_ok reference_qbittorrent (settings_qbittorrent c).
Proof.
  unfold validate_qbittorrent, qbit_pos, settings_qbittorrent, row_ok.
  validate_section reference_qbittorrent; by eapply scheme_check.
Qed.

Lemma validate_rclone_rows c : validate_rclone c = [] <-> Forall2 row_ok reference_rclone (settings_rclone c).
Proof.
  unfold validate_rclone, settings_rclone, row_ok.
  assert (forall word : string, negb (bool_decide (word = "DEBUG")) && negb (bool_decide (word = "INFO")) &&
    negb (bool_decide (word = "NOTICE")) && negb (bool_decide (word = "ERROR")) = false <->
    word ∈ ["DEBUG"; "INFO"; "NOTICE"; "ERROR"]) as Hw.
  { intros word. rewrite !andb_false_iff, !negb_false_iff, !bool_decide_eq_true. set_solver. }
  cbn zeta. validate_section reference_rclone; [by apply Hw|by apply require_nil, Hw].
Qed.

Lemma validate_google_drive_rows c :
  validate_google_drive c = [] <-> Forall2 row_ok reference_google_drive (settings_google_drive c).
Proof.
  unfold validate_google_drive, settings_google_drive, row_ok.
  assert (outside kMinChunk kMaxChunk (gd_chunk_size c) = false /\ negb (gd_chunk_size c mod kMinChunk =? 0) = false <->
    satisfies (MultipleIn (256 * 1024) (512 * 1024 * 1024) (256 * 1024)) (VInt (gd_chunk_size c))) as Hm.
  { cbn [satisfies]. by rewrite outside_false, mod_check. }
  validate_section reference_google_drive; [by apply Hm|by apply require_nil, Hm..].
Qed.

Lemma validate_database_rows c : validate_database c = [] <-> Forall2 row_ok reference_database (settings_database c).
Proof.
  unfold validate_database, settings_database, row_ok.
  assert (forall z m m', (if z <? 0 then require true m else require (z >? 60000) m') = [] <-> 0 <= z <= 60000) as Hb.
  { intros z m m'. destruct (Z.ltb_spec z 0); rewrite require_nil; [split; [done|lia]|lia]. }
  validate_section reference_database; by eapply Hb.
Qed.

Lemma validate_logging_rows c : validate_logging c = [] <-> Forall2 row_ok reference_logging (settings_logging c).
Proof.
  unfold validate_logging, log_level_known, settings_logging, row_ok.
  validate_section reference_logging.
  - cbn [satisfies]. by eapply bool_decide_eq_true, negb_false_iff.
  - by apply require_nil, negb_false_iff, bool_decide_eq_true.
Qed.

Lemma validate_paths_rows c : validate_paths c = [] <-> Forall2 row_ok reference_paths (settings_paths c).
Proof. unfold validate_paths, settings_paths, row_ok. validate_section reference_paths. Qed.

Lemma Forall2_app_iff {A B} (P : A -> B -> Prop) l1 l2 k1 k2 :
  length l1 = length k1 -> Forall2 P (l1 ++ l2) (k1 ++ k2) <-> Forall2 P l1 k1 /\ Forall2 P l2 k2.
Proof. intros H. split; [by apply Forall2_app_inv|]. intros [??]. by apply Forall2_app. Qed.

Lemma validate_reference cfg : validate cfg = [] <-> respects_reference cfg.
Proof.
  unfold validate, respects_reference, reference, settings. rewrite !app_nil.
  rewrite validate_telegram_rows, validate_aria2_rows, validate_qbittorrent_rows, validate_rclone_rows,
    validate_google_drive_rows, validate_database_rows, validate_logging_rows, validate_paths_rows.
  rewrite !Forall2_app_iff by reflexivity. done.
Qed.


(** ** Environment values *)

Lemma parse_int_range lo hi text z : parse_int lo hi text = Some z -> lo <= z <= hi.
Proof.
  unfold parse_int. destruct (match chars text with "-"%char :: _ => _ | _ => _ end) as [negative digits].
  destruct digits as [|d ds]; [done|]. destruct (forallb isdigit (d :: ds)); [|done].
  cbn zeta. destruct (lo <=? _) eqn:H1; [|done]. destruct (_ <=? hi) eqn:H2; [|done].
  intros [= <-]. apply Z.leb_le in H1, H2. done.
Qed.

(** A run of digits is read in full. *)
Lemma parse_int_digits lo hi n :
  0 <= n -> (lo <=? n) && (n <=? hi) = true -> parse_int lo hi (of_chars (fmt_nat_chars n)) = Some n.
Proof.
  intros Hn Hr. unfold parse_int. rewrite chars_of_chars.
  pose proof (fmt_nat_chars_digits n Hn) as Hd. pose proof (dec_value_fmt_nat n Hn) as Hv.
  assert (forallb isdigit (fmt_nat_chars n) = true) as Hb.
  { apply forallb_forall. intros c Hc. by apply (proj1 (Forall_forall _ _) Hd), list_elem_of_In. }
  destruct (fmt_nat_chars_nonempty n) as (c & l & Hl). rewrite Hl in *.
  assert (c <> "-"%char) as Hc by (intros ->; inversion Hd; done).
  replace (match c with "-"%char => _ | _ => _ end) with (false, c :: l).
  2: { symmetry. destruct c as [[] [] [] [] [] [] [] []]; done. }
  cbn zeta iota beta. by rewrite Hb, Hv, Hr.
Qed.

Lemma parse_int_minus hi lo n :
  lo < 0 -> 0 <= n -> (lo <=? - n) && (- n <=? hi) = true ->
  parse_int lo hi (of_chars ("-"%char :: fmt_nat_chars n)) = Some (- n).
Proof.
  intros Hlo Hn Hr. unfold parse_int. rewrite chars_of_chars. rewrite (proj2 (Z.ltb_lt lo 0) Hlo).
  pose proof (fmt_nat_chars_digits n Hn) as Hd. pose proof (dec_value_fmt_nat n Hn) as Hv.
  assert (forallb isdigit (fmt_nat_chars n) = true) as Hb.
  { apply forallb_forall. intros c Hc. by apply (proj1 (Forall_forall _ _) Hd), list_elem_of_In. }
  destruct (fmt_nat_chars_nonempty n) as (c & l & Hl). rewrite Hl in *.
  cbn zeta iota beta. by rewrite Hb, Hv, Hr.
Qed.

(** What [std::to_string] prints is read back. *)
Lemma parse_int64_fmt z : in_int64 z -> parse_int64 (fmt_int z) = Some z.
Proof.
  unfold in_int64, parse_int64, fmt_int. intros Hz. destruct (Z.ltb_spec z 0).
  - rewrite parse_int_minus by (unfold INT64_MIN in *; lia). f_equal. lia.
  - apply parse_int_digits; lia.
Qed.

(** ** Lists of ids *)

Lemma split_words_token word token rest :
  Forall (fun c => token_char c = true) token -> split_words word (token ++ rest) = split_words (word ++ token) rest.
Proof.
  intros H. revert word. induction H as [|c l Hc _ IH]; intros word; cbn; [by rewrite app_nil_r|].
  apply negb_true_iff in Hc. rewrite Hc, IH. by rewrite <- app_assoc.
Qed.

Lemma id_words_separators seps rest :
  Forall (fun c => is_separator c = true) seps -> id_words (seps ++ rest) = id_words rest.
Proof.
  unfold id_words. induction 1 as [|c l Hc _ IH]; [done|]. cbn [app split_words]. rewrite Hc. by rewrite filter_cons_False by naive_solver.
Qed.

(** A word, up to the separator that ends it. *)
Lemma id_words_token token rest :
  token <> [] -> Forall (fun c => token_char c = true) token ->
  (forall c r, rest = c :: r -> is_separator c = true) ->
  id_words (token ++ rest) = token :: id_words rest.
Proof.
  intros Hne Ht Hr. unfold id_words. rewrite split_words_token by done. cbn [app].
  destruct rest as [|c r]; cbn [split_words].
  - rewrite filter_cons_True by done. by rewrite filter_cons_False by naive_solver.
  - rewrite (Hr c r eq_refl). rewrite filter_cons_True by done. by rewrite filter_cons_False by naive_solver.
Qed.

(** The loop of [parse_id_list] reads exactly the words that are 64-bit integers. *)
Lemma id_tokens_words text : id_tokens text = omap (fun w => parse_int64 (of_chars w)) (id_words text).
Proof.
  induction text as [text IH] using (induction_ltof1 _ (@length ascii)). unfold ltof in IH.
  rewrite id_tokens_equation_1.
  replace (id_words text) with (id_words (drop_while is_separator text)).
  2: { rewrite <- (take_while_drop_while is_separator text) at 2.
       by rewrite id_words_separators by apply take_while_Forall. }
  pose proof (drop_while_le is_separator text) as Hle.
  destruct (inspect (drop_while is_separator text)) as [[|c rest] E];
    rewrite (f_equal id_words E); rewrite E in Hle; cbn [id_tokens_unfold_clause_1]; [done|].
  pose proof (drop_while_head _ _ _ _ E) as Hc.
  rewrite <- (take_while_drop_while token_char rest) at 3. rewrite app_comm_cons.
  rewrite id_words_token.
  - rewrite IH.
    + cbn [omap list_omap]. by destruct (parse_int64 _).
    + pose proof (drop_while_le token_char rest). cbn in Hle. lia.
  - done.
  - constructor; [unfold token_char; by rewrite Hc|apply take_while_Forall].
  - intros d r Hd. apply drop_while_head in Hd. by apply negb_false_iff in Hd.
Qed.

(** Printed ids are words, and hold no separator. *)
Lemma fmt_int_token z : in_int64 z ->
  chars (fmt_int z) <> [] /\ Forall (fun c => token_char c = true) (chars (fmt_int z)).
Proof.
  assert (forall n, 0 <= n -> Forall (fun c => token_char c = true) (fmt_nat_chars n)) as Hd.
  { intros n Hn. eapply Forall_impl; [by apply fmt_nat_chars_digits|]. cbn beta. intros c Hc.
    unfold token_char, is_separator. unfold isdigit in Hc. apply negb_true_iff.
    destruct (decide (c = ","%char)) as [->|]; [done|]. rewrite bool_decide_false by done.
    apply andb_prop in Hc as [H1%N.leb_le H2%N.leb_le]. rewrite !orb_false_iff, !N.eqb_neq. repeat split; lia. }
  intros Hz. unfold fmt_int. rewrite chars_of_chars. destruct (Z.ltb_spec z 0).
  - split; [done|]. constructor; [done|]. apply Hd. lia.
  - destruct (fmt_nat_chars_nonempty z) as (c & l & Hl). split; [by rewrite Hl|]. by apply Hd.
Qed.

(** ** A concrete environment and document, for examples *)

Module MemConfig.
Import MemJson.

#[global] Existing Instance sample_json.

#[global] Instance sample_environ : Environ := {
  getenv name := if String.eqb name "CMLB_ARIA2_SPLIT" then Some "8"
                 else if String.eqb name "CMLB_TELEGRAM_SUDO_USERS" then Some "11, 12" else None;
  strtod _ := None
}.

(** The minimal configuration of the reference manual. *)
Definition minimal : node := JObject [
  ("telegram", JObject [("api_id", JInt 1234567); ("api_hash", JString "0123456789abcdef0123456789abcdef");
                        ("bot_token", JString "123456789:AAH"); ("owner_id", JInt 987654321)]);
  ("aria2", JObject [("rpc_url", JString "ws://127.0.0.1:6800/jsonrpc"); ("secret", JString "s")])].

(** The required section, and another one. *)
Definition with_section (name : string) (body : node) : node := JObject [
  ("telegram", JObject [("api_id", JInt 1234567); ("api_hash", JString "0123456789abcdef0123456789abcdef");
                        ("bot_token", JString "123456789:AAH"); ("owner_id", JInt 987654321)]);
  (name, body)].
End MemConfig.

(** ** Theorems *)

(** Loading order: whatever the JSON document and the environment hold, each of the 79
    settings of the reference manual ends up with the value the manual's table promises for
    its row: the default, unless the document gives a readable value under the row's section
    and key, unless an old top-level name is set, unless the row's environment variable holds
    a well-formed value.  The built-in defaults are the ones of the table. *)
Theorem config_loading_order `{!Json, !Environ} (doc : json) :
  settings default_config = r_default <$> reference /\
  settings (assemble doc).1 = documented_value doc <$> reference.
Proof. split; [reflexivity|apply settings_assembled]. Qed.

(** C16. [from_json] accepts a document exactly when it is an object, every member the table
    knows has its row's type (a member that is missing or null has any, and so have the
    members of a section that is no object, which the code passes over), and every setting,
    with the value of [config_loading_order], satisfies its row's constraint; it then returns
    those settings.  Any other object is refused with one error that lists, in the order of
    the table, every row whose member is mistyped, and then every failed check.  The
    constraints are those the manual prints, and six more that only the code has
    ([unstated]). *)
Theorem config_accepts_exactly_reference `{!Json, !Environ} (doc : json) :
  (forall cfg, from_json doc = Ok cfg <->
     is_object doc = true /\ well_typed doc /\ settings cfg = documented_value doc <$> reference /\
     respects_reference cfg) /\
  (forall cfg, from_json doc = Ok cfg -> respects_manual cfg) /\
  (forall e, is_object doc = true -> from_json doc = Err e ->
     exists cfg, settings cfg = documented_value doc <$> reference /\
       err_code e = InvalidConfiguration /\
       err_message e = join_errors (concat (row_problem doc <$> reference) ++ validate cfg)).
Proof.
  assert (forall cfg, from_json doc = Ok cfg <-> is_object doc = true /\ well_typed doc /\
    settings cfg = documented_value doc <$> reference /\ respects_reference cfg) as Hok.
  { intros cfg. rewrite well_typed_complaints, <- assemble_problems, <- settings_assembled, <- validate_reference.
    unfold from_json. destruct (is_object doc); [|naive_solver]. cbn [negb].
    destruct (assemble doc) as [built errors]; cbn [fst snd]. pose proof (app_nil errors (validate built)) as Hn.
    destruct (errors ++ validate built) as [|e l]; split.
    - intros [= <-]. naive_solver.
    - by intros (_ & _ & ->%settings_inj & _).
    - done.
    - intros (_ & He & ->%settings_inj & Hv). by pose proof (proj2 Hn (conj He Hv)). }
  split; [exact Hok|]. split.
  - intros cfg Hc. by apply respects_reference_manual, (proj1 (Hok cfg) Hc).
  - intros e Ho He. exists (assemble doc).1. split; [apply settings_assembled|].
    revert He. rewrite <- assemble_problems. unfold from_json. rewrite Ho. cbn [negb].
    destruct (assemble doc) as [built errors]; cbn [fst snd].
    destruct (errors ++ validate built) as [|e' l]; [done|]. by intros [= <-].
Qed.

(** The minimal document; one whose [aria2] is a number, which is passed over; one with a
    mistyped member; and one with an empty path, which the manual does not rule out. *)
Lemma config_accepts_exactly_reference_witness :
  (exists cfg, from_json MemConfig.minimal = Ok cfg /\ respects_reference cfg /\ respects_manual cfg /\
     a2_split (cfg_aria2 cfg) = 8 /\ tg_sudo_users (cfg_telegram cfg) = [11; 12]) /\
  (exists cfg, from_json (MemConfig.with_section "aria2" (MemJson.JInt 5)) = Ok cfg /\
     well_typed (MemConfig.with_section "aria2" (MemJson.JInt 5)) /\
     a2_rpc_url (cfg_aria2 cfg) = "ws://localhost:6800/jsonrpc") /\
  (exists e, from_json (MemConfig.with_section "aria2" (MemJson.JObject [("split", MemJson.JString "8")])) = Err e /\
     err_message e = "[JsonParse] field 'split': type must be number" /\
     ~ well_typed (MemConfig.with_section "aria2" (MemJson.JObject [("split", MemJson.JString "8")]))) /\
  (exists e, from_json (MemConfig.with_section "database" (MemJson.JObject [("path", MemJson.JString "")])) = Err e /\
     err_message e = "[InvalidConfiguration] database.path must not be empty").
Proof.
  assert (from_json MemConfig.minimal = Ok (assemble MemConfig.minimal).1) as H by (vm_compute; reflexivity).
  set (number := MemConfig.with_section "aria2" (MemJson.JInt 5)).
  assert (from_json number = Ok (assemble number).1) as Hn by (vm_compute; reflexivity).
  split.
  { pose proof (proj1 (proj1 (config_accepts_exactly_reference MemConfig.minimal) _) H) as (_ & _ & _ & Hr).
    pose proof (proj1 (proj2 (config_accepts_exactly_reference MemConfig.minimal)) _ H) as Hm.
    eexists. split; [exact H|]. split; [exact Hr|]. split; [exact Hm|]. split; vm_compute; reflexivity. }
  split.
  { pose proof (proj1 (proj1 (config_accepts_exactly_reference number) _) Hn) as (_ & Ht & _ & _).
    eexists. split; [exact Hn|]. split; [exact Ht|]. vm_compute; reflexivity. }
  split; [|eexists; split; vm_compute; reflexivity].
  eexists. split; [vm_compute; reflexivity|]. split; [vm_compute; reflexivity|].
  intros Ht. apply well_typed_complaints in Ht. vm_compute in Ht. discriminate Ht.
Defined.

(** C17. Id lists: the scanning loop of [parse_id_list] terminates and yields, in order, the
    words of the text that are 64-bit integers, where the words are what is left between
    commas, spaces and tabs; so printed ids are read back whatever separates them. *)
Theorem config_id_lists_exact (text lead : list ascii) (ids : list (Z * list ascii)) (last : Z) :
  Forall (fun c => is_separator c = true) lead ->
  Forall (fun p => in_int64 p.1 /\ p.2 <> [] /\ Forall (fun c => is_separator c = true) p.2) ids ->
  in_int64 last ->
  parse_id_list (of_chars text) = omap (fun w => parse_int64 (of_chars w)) (id_words text) /\
  parse_id_list (of_chars (lead ++ concat ((fun p => chars (fmt_int p.1) ++ p.2) <$> ids) ++ chars (fmt_int last)))
    = ids.*1 ++ [last].
Proof.
  intros Hlead Hids Hlast. unfold parse_id_list. rewrite !chars_of_chars, !id_tokens_words. split; [done|].
  rewrite id_words_separators by done. clear Hlead.
  induction Hids as [|[id seps] ids (Hid & Hne & Hs) _ IH]; cbn [fmap list_fmap concat app].
  - rewrite <- (app_nil_r (chars (fmt_int last))). destruct (fmt_int_token last Hlast).
    rewrite id_words_token by done. cbn. by rewrite of_chars_chars, parse_int64_fmt.
  - cbn [fst snd] in *. destruct (fmt_int_token id Hid). rewrite <- !app_assoc.
    rewrite id_words_token; [|done..|].
    + rewrite id_words_separators by done. cbn [omap list_omap]. rewrite of_chars_chars, parse_int64_fmt by done.
      by rewrite IH.
    + intros c r. destruct seps as [|c' seps]; [done|]. intros [= <- _]. by inversion Hs.
Qed.

Lemma config_id_lists_exact_witness :
  parse_id_list ",11, -12" = [11; -12] /\ parse_id_list "abc" = [].
Proof.
  split; [|vm_compute; reflexivity].
  refine (proj2 (config_id_lists_exact [] [","%char] [(11, [","%char; " "%char])] (-12) _ _ _)).
  - by constructor.
  - constructor; [|constructor]. repeat split; [done|done|done|by repeat constructor].
  - done.
Defined.
