(* ===== verification/Metrics.v ===== *)
(** * Host metrics: [system/system_metrics.hpp], [application/show_stats.cpp]

    What the sampler reports, the clock it is measured against, and the report behind
    [/stats]. *)

From S2P Require Import Prelude CoreError Ports Progress.

Local Open Scope coro_scope.

(** [struct SystemSnapshot]. *)
Record SystemSnapshot := MkSnapshot {
  cpu_usage_percent : double;
  ram_used_bytes : Z;
  ram_total_bytes : Z;
  disk_used_bytes : Z;
  disk_total_bytes : Z;
  sn_bot_uptime : Z;
  system_uptime : Z;
  load_average_1m : double;
  load_average_5m : double;
  load_average_15m : double
}.

(** [SystemMetrics::snapshot()], [std::chrono::steady_clock::now()] in nanoseconds, and the
    start of the process on that clock. *)
Class SystemMetrics (W : Type) := {
  snapshot : M W SystemSnapshot;
  steady_now : M W Z;
  bot_start_time : Z
}.

(** [duration_cast<seconds>(steady_clock::now() - bot_start_time_)]. *)
Definition bot_uptime {W} `{!SystemMetrics W} : M W Z :=
  co_await tp <- steady_now; co_return Z.quot (tp - bot_start_time (W := W)) 1000000000.

(** [struct StatsReport]. *)
Record StatsReport := MkReport {
  sr_metrics : SystemSnapshot;
  sr_bot_uptime : Z;
  sr_active_downloads : Z;
  sr_unavailable_downloaders : list string
}.

Section ShowStats.
  Context {W : Type} `{!SystemMetrics W, !Downloaders W}.

(** [add_backend_stats]. *)
Definition add_backend_stats (label : string) (d : DownloaderInterface W) (report : StatsReport) : M W StatsReport :=
  co_await stats <- global_stats d;
  match stats with
  | Err _ => co_return MkReport (sr_metrics report) (sr_bot_uptime report) (sr_active_downloads report)
                         (sr_unavailable_downloaders report ++ [label])
  | Ok stats => co_return MkReport (sr_metrics report) (sr_bot_uptime report)
                            (sr_active_downloads report + gs_active_count stats) (sr_unavailable_downloaders report)
  end.

(** [ShowStats::execute]. *)
Definition show_stats_execute : M W (Result StatsReport) :=
  co_await metrics <- snapshot;
  co_await uptime <- bot_uptime;
  let report := MkReport metrics uptime 0 [] in
  co_await report <- add_backend_stats "aria2" aria2_ report;
  co_await report <- add_backend_stats "qbittorrent" qbit_ report;
  co_return Ok report.

End ShowStats.
