(* ===== verification/HostMetrics.v ===== *)
(** * The host metrics sampler: [system/system_metrics.cpp], on Linux

    The counters of [/proc] as text, read with the extractors of a C++ stream, and the CPU usage
    from the difference with the previous sample, in 64-bit unsigned and [double] arithmetic.  The
    files, the load averages and the file system are parameters. *)

From S2P Require Import Prelude CoreError Formatting Ports Progress Metrics.

Local Open Scope coro_scope.

(** ** Formatted input *)

Definition UINT64_MAX : Z := 2 ^ 64 - 1.
Definition to_uint64 (z : Z) : Z := z mod 2 ^ 64.

(** An input stream: the text that is left, and whether an extraction has failed. *)
Record IStream := MkStream { rest : list ascii; failed : bool }.
Definition open_text (s : list ascii) : IStream := MkStream s false.

(** The sentry of an extractor: white space is skipped, and the end of the text fails. *)
Definition sentry (f : IStream) : option (list ascii) :=
  if failed f then None
  else match drop_while isspace (rest f) with [] => None | l => Some l end.

(** [f >> word]; a failed sentry leaves the word. *)
Definition extract_word (old : string) (f : IStream) : string * IStream :=
  match sentry f with
  | None => (old, MkStream [] true)
  | Some l => (of_chars (take_while (fun c => negb (isspace c)) l), MkStream (drop_while (fun c => negb (isspace c)) l) false)
  end.

(** The sign and the digits of a number. *)
Definition split_number (l : list ascii) : bool * list ascii * list ascii :=
  let '(negative, l) := match l with
                        | "-"%char :: l => (true, l)
                        | "+"%char :: l => (false, l)
                        | _ => (false, l)
                        end in
  (negative, take_while isdigit l, drop_while isdigit l).

(** [f >> n] for an unsigned 64-bit [n]: no digits give 0 and too many the largest value, both
    failures; a minus sign negates modulo 2^64. *)
Definition extract_uint64 (old : Z) (f : IStream) : Z * IStream :=
  match sentry f with
  | None => (old, MkStream [] true)
  | Some l =>
      let '(negative, digits, l) := split_number l in
      match digits with
      | [] => (0, MkStream l true)
      | _ => let v := dec_value 0 digits in
             if UINT64_MAX <? v then (UINT64_MAX, MkStream l true)
             else (if negative then to_uint64 (- v) else v, MkStream l false)
      end
  end.

(** [f >> n] for a signed 64-bit [n]. *)
Definition extract_int64 (old : Z) (f : IStream) : Z * IStream :=
  match sentry f with
  | None => (old, MkStream [] true)
  | Some l =>
      let '(negative, digits, l) := split_number l in
      match digits with
      | [] => (0, MkStream l true)
      | _ => let v := if negative then - dec_value 0 digits else dec_value 0 digits in
             if v <? INT64_MIN then (INT64_MIN, MkStream l true)
             else if INT64_MAX <? v then (INT64_MAX, MkStream l true)
             else (v, MkStream l false)
      end
  end.

(** [std::getline] until it fails: the lines of a text. *)
Fixpoint getlines (cur l : list ascii) : list (list ascii) :=
  match l with
  | [] => match cur with [] => [] | _ => [cur] end
  | c :: l => if bool_decide (c = "010"%char) then cur :: getlines [] l else getlines (cur ++ [c]) l
  end.

(** ** The readers *)

(** [None] is a file that does not open, or an error code.  [load_averages] gives the ones that
    [getloadavg] filled; a size is [std::uintmax_t]. *)
Class Host (W : Type) := {
  read_proc : string -> M W (option string);
  load_averages : M W (list double);
  current_path : M W (option string);
  disk_space : string -> M W (option (Z * Z));
  now_ns : M W Z;
  read_double : string -> double
}.

(** Eight counters in turn, each from 0. *)
Fixpoint extract_counters (n : nat) (f : IStream) : list Z :=
  match n with
  | O => []
  | S n => let '(v, f) := extract_uint64 0 f in v :: extract_counters n f
  end.

(** The counters of the first line of [/proc/stat]: idle and total ticks. *)
Definition ticks_of (text : string) : option (Z * Z) :=
  let '(label, f) := extract_word "" (open_text (chars text)) in
  if negb (String.eqb label "cpu") then None
  else match extract_counters 8 f with
       | [user; nice; system; idle; iowait; irq; softirq; steal] =>
           Some (to_uint64 (idle + iowait), to_uint64 (user + nice + system + idle + iowait + irq + softirq + steal))
       | _ => None
       end.

(** One line of [/proc/meminfo]. *)
Definition meminfo_line (acc : Z * Z) (line : list ascii) : Z * Z :=
  if list_prefixb (chars "MemTotal:") line then ((extract_int64 acc.1 (open_text (drop 9 line))).1, acc.2)
  else if list_prefixb (chars "MemAvailable:") line then (acc.1, (extract_int64 acc.2 (open_text (drop 13 line))).1)
  else acc.

(** Used and total bytes. *)
Definition memory_of (text : string) : Z * Z :=
  let '(total_kb, avail_kb) := foldl meminfo_line (0, 0) (getlines [] (chars text)) in
  (Z.max ((total_kb - avail_kb) * 1024) 0, total_kb * 1024).

(** [static_cast<std::int64_t>] of the seconds of [/proc/uptime]. *)
Definition truncate_double (x : double) : Z := Z.quot (d_num x) (d_den x).

(** ** CPU usage *)

(** The sampler's state between two snapshots. *)
Record CpuState := MkCpu { prev_idle_ticks : Z; prev_total_ticks : Z; has_prev_sample : bool }.

(** The differences in [std::uint64_t], and [100.0 * busy / total]. *)
Definition cpu_percent (s : CpuState) (idle total : Z) : double :=
  let d_idle := to_uint64 (idle - prev_idle_ticks s) in
  let d_total := to_uint64 (total - prev_total_ticks s) in
  if d_total >? 0
  then div_double (mul_double (double_of_Z 100) (to_double (to_uint64 (d_total - d_idle)))) (to_double d_total)
  else double_of_Z 0.

(** The block of [snapshot] under the lock; without a previous sample nothing is stored. *)
Definition sample_cpu (ticks : option (Z * Z)) (s : CpuState) : double * CpuState :=
  match ticks with
  | Some (idle, total) => if has_prev_sample s then (cpu_percent s idle total, MkCpu idle total true) else (double_of_Z 0, s)
  | None => (double_of_Z 0, s)
  end.

Section Snapshot.
  Context {W : Type} `{host : !Host W}.
  Notation C := (CpuState * W)%type.

(** [read_cpu_ticks]. *)
Definition read_cpu_ticks : M W (option (Z * Z)) :=
  co_await stat <- read_proc "/proc/stat"; co_return (stat ≫= ticks_of).

(** [read_memory_linux]. *)
Definition read_memory_linux : M W (Z * Z) :=
  co_await f <- read_proc "/proc/meminfo"; co_return (match f with Some text => memory_of text | None => (0, 0) end).

(** [read_system_uptime_linux]. *)
Definition read_system_uptime_linux : M W Z :=
  co_await f <- read_proc "/proc/uptime";
  co_return (match f with Some text => truncate_double (read_double (W := W) text) | None => 0 end).

(** [read_disk]: used and total. *)
Definition read_disk : M W (Z * Z) :=
  co_await cwd <- current_path;
  match cwd with
  | None => co_return (0, 0)
  | Some cwd =>
      co_await info <- disk_space cwd;
      co_return match info with
                | Some (capacity, available) => (Z.max (to_int64 (capacity - available)) 0, to_int64 capacity)
                | None => (0, 0)
                end
  end.

(** The constructor: the first sample. *)
Definition prime : M W CpuState :=
  co_await ticks <- read_cpu_ticks;
  co_return match ticks with Some (idle, total) => MkCpu idle total true | None => MkCpu 0 0 false end.

(** [SystemMetrics::snapshot]. *)
Definition take_snapshot (start_time : Z) : M C SystemSnapshot :=
  co_await now <- lift now_ns;
  co_await loads <- lift load_averages;
  co_await ticks <- lift read_cpu_ticks;
  co_await s <- get_state;
  let '(cpu, s) := sample_cpu ticks s in
  co_do put_state s;
  co_await ram <- lift read_memory_linux;
  co_await uptime <- lift read_system_uptime_linux;
  co_await disk <- lift read_disk;
  let load i := default (double_of_Z 0) (loads !! i) in
  co_return MkSnapshot cpu ram.1 ram.2 disk.1 disk.2 (Z.quot (now - start_time) 1000000000) uptime (load 0%nat) (load 1%nat) (load 2%nat).

(** The sampler behind the interface of the presentation. *)
Definition linux_metrics (start_time bot_start : Z) : SystemMetrics C := {|
  snapshot := take_snapshot start_time;
  steady_now := lift now_ns;
  bot_start_time := bot_start
|}.

End Snapshot.

(** The usual first line of [/proc/stat]. *)
Example ticks_example : ticks_of "cpu  10 2 3 100 5 0 1 0 0 0
cpu0 1 1" = Some (105, 121).
Proof. reflexivity. Qed.
Example ticks_short : ticks_of "cpu 10 2" = Some (0, 12).
Proof. reflexivity. Qed.
Example memory_example : memory_of "MemTotal:       1000 kB
MemFree:  10 kB
MemAvailable:    400 kB
" = (614400, 1024000).
Proof. reflexivity. Qed.

(** ** Lemmas: rounding *)

(** An integer of 53 bits is a double. *)
Lemma round_half_even_1 n : round_half_even n 1 = n.
Proof. unfold round_half_even. rewrite Z.div_1_r, Z.mod_1_r. done. Qed.

Lemma round_fraction_shift n d : 0 < n -> 0 < d -> n < 2 ^ 52 * d ->
  exists U, 0 < U /\ round_fraction n d = MkDouble (round_half_even (n * U) d) U.
Proof.
  intros Hn Hd Hlt. unfold round_fraction. rewrite (proj2 (Z.eqb_neq _ _)) by lia. set (k0 := 52 + Z.log2 d - Z.log2 n).
  cbv zeta beta iota. set (k := if _ <? _ then k0 + 1 else k0).
  assert (0 <= k0) as Hk0.
  { pose proof (Z.log2_le_mono n (d * 2 ^ 52) ltac:(lia)) as H. rewrite Z.log2_mul_pow2 in H by lia. lia. }
  assert (0 <= k) as Hk by (subst k; destruct (_ <? _); lia).
  exists (2 ^ Z.max k 0). split; [apply Z.pow_pos_nonneg; lia|].
  rewrite (Z.max_r (- k) 0) by lia. by rewrite Z.pow_0_r, !Z.mul_1_r.
Qed.

Lemma round_half_even_upper n d m : 0 < d -> n <= m * d -> round_half_even n d <= m.
Proof.
  intros Hd H. pose proof (round_half_even_error n d Hd). nia.
Qed.

(** Rounding does not pass an integer. *)
Lemma round_fraction_upper n d m : 0 <= n -> 0 < d -> 0 <= m < 2 ^ 52 -> n <= m * d -> d_num (round_fraction n d) <= m * d_den (round_fraction n d).
Proof.
  intros Hn Hd Hm H. destruct (Z.eq_dec n 0) as [->|Hne]; [unfold round_fraction; simpl; lia|].
  destruct (round_fraction_shift n d) as (U & HU & ->); [lia..|nia|]. cbn [d_num d_den].
  apply round_half_even_upper; [done|]. nia.
Qed.

(** An integer is rounded to itself. *)
Lemma round_fraction_int n : 0 <= n < 2 ^ 52 -> d_num (round_fraction n 1) = n * d_den (round_fraction n 1).
Proof.
  intros Hn. destruct (Z.eq_dec n 0) as [->|Hne]; [done|].
  destruct (round_fraction_shift n 1) as (U & HU & ->); [lia..|]. cbn [d_num d_den]. apply round_half_even_1.
Qed.

(** ** Lemmas: the percentage *)

Lemma to_double_small n : 0 <= n < 2 ^ 53 -> to_double n = double_of_Z n.
Proof.
  intros Hn. unfold to_double. rewrite Z.abs_eq, round_to_double_exact by lia.
  destruct (Z.eq_dec n 0) as [->|]; [done|]. by rewrite Z.sgn_pos, Z.mul_1_l by lia.
Qed.

Lemma sgn_num n d : 0 <= n -> 0 < d -> Z.sgn n * d_num (round_fraction n d) = d_num (round_fraction n d).
Proof.
  intros Hn Hd. destruct (Z.eq_dec n 0) as [->|]; [done|]. rewrite Z.sgn_pos by lia. lia.
Qed.

(** [100.0 * x / t]: the division is the only rounding. *)
Definition percentage (x t : Z) : double := div_double (mul_double (double_of_Z 100) (to_double x)) (to_double t).

Lemma percentage_rounds x t : 0 <= x < 2 ^ 45 -> 0 < t < 2 ^ 44 ->
  exists D, 0 < D /\ d_num (percentage x t) = d_num (round_fraction (100 * x * D) (D * t)) /\
    d_den (percentage x t) = d_den (round_fraction (100 * x * D) (D * t)).
Proof.
  intros Hx Ht. unfold percentage. rewrite !to_double_small by lia.
  pose proof (round_fraction_int (100 * x) ltac:(lia)) as Hm. destruct (round_fraction_error (100 * x) 1) as (HD & HN & _); [lia..|].
  assert (mul_double (double_of_Z 100) (double_of_Z x) = MkDouble (100 * x * d_den (round_fraction (100 * x) 1)) (d_den (round_fraction (100 * x) 1))) as ->.
  { unfold mul_double. cbn [d_num d_den double_of_Z]. cbv zeta. rewrite (Z.abs_eq x), Z.mul_1_r by lia. change (Z.abs 100) with 100. f_equal.
    rewrite <- Hm. change (Z.sgn 100) with 1. rewrite Z.mul_1_l. rewrite <- (sgn_num (100 * x) 1) at 2 by lia. f_equal.
    destruct (Z.eq_dec x 0) as [->|]; [done|]. rewrite !Z.sgn_pos; lia. }
  set (D := d_den _) in *. exists D. split; [done|]. unfold div_double. cbn [d_num d_den double_of_Z]. cbv zeta.
  rewrite !Z.mul_1_r, (Z.abs_eq t), (Z.abs_eq (100 * x * D)) by nia. split; [|done]. rewrite (Z.sgn_pos t), Z.mul_1_r by lia.
  apply sgn_num; nia.
Qed.

Lemma percentage_at_most x t : 0 <= x <= t -> 0 < t < 2 ^ 44 -> 0 <= d_num (percentage x t) <= 100 * d_den (percentage x t) /\ 0 < d_den (percentage x t).
Proof.
  intros Hx Ht. destruct (percentage_rounds x t) as (D & HD & -> & ->); [lia..|].
  destruct (round_fraction_error (100 * x * D) (D * t)) as (H1 & H2 & _); [nia..|]. split; [|done]. split; [done|].
  apply round_fraction_upper; nia.
Qed.

Lemma percentage_above x t : t < x < 2 ^ 45 -> 0 < t < 2 ^ 44 -> 100 * d_den (percentage x t) < d_num (percentage x t).
Proof.
  intros Hx Ht. destruct (percentage_rounds x t) as (D & HD & -> & ->); [lia..|].
  destruct (round_fraction_error (100 * x * D) (D * t)) as (H1 & H2 & H3); [nia..|].
  set (n := d_num _) in *. set (d := d_den _) in *. destruct (Z.lt_ge_cases (100 * d) n) as [|Hle]; [done|exfalso].
  assert (n * (D * t) <= 100 * d * (D * t)) by (apply Z.mul_le_mono_nonneg_r; nia).
  assert (100 * (d * D) <= 100 * (x - t) * (d * D)) by (apply Z.mul_le_mono_nonneg_r; nia).
  assert (100 * (d * D) <= 100 * x * D * d - n * (D * t)) by nia.
  assert (100 * x * D * d = 100 * x * (d * D)) by ring. assert (0 < d * D) by nia. nia.
Qed.

(** The CPU usage: with a previous sample, when the idle time grew by no more than the total,
    the reported value is a percentage, between 0 and 100, whatever the counters have wrapped
    around; when the idle counters fell back while the total grew, as Linux documents for the time
    waiting for input and output, the difference wraps around and the value is above 100. *)
Theorem cpu_usage_range s idle total (Htotal : 0 < to_uint64 (total - prev_total_ticks s) < 2 ^ 44) :
  let v := cpu_percent s idle total in
  let d_total := to_uint64 (total - prev_total_ticks s) in
  (to_uint64 (idle - prev_idle_ticks s) <= d_total -> 0 <= d_num v <= 100 * d_den v /\ 0 < d_den v) /\
  (forall back, 0 < back < 2 ^ 44 -> idle = prev_idle_ticks s - back -> 100 * d_den v < d_num v).
Proof.
  cbv zeta. unfold cpu_percent. set (d_total := to_uint64 (total - prev_total_ticks s)) in *.
  rewrite Z.gtb_ltb, (proj2 (Z.ltb_lt _ _)) by lia. split.
  - intros H. pose proof (Z.mod_pos_bound (idle - prev_idle_ticks s) (2 ^ 64) ltac:(lia)) as Hb. fold (to_uint64 (idle - prev_idle_ticks s)) in Hb.
    set (d_idle := to_uint64 (idle - _)) in *. assert (to_uint64 (d_total - d_idle) = d_total - d_idle) as -> by (apply Z.mod_small; lia).
    apply (percentage_at_most (d_total - d_idle) d_total); lia.
  - intros back Hback ->. replace (prev_idle_ticks s - back - prev_idle_ticks s) with (- back) by lia.
    assert (to_uint64 (d_total - to_uint64 (- back)) = d_total + back) as ->; [|apply (percentage_above (d_total + back) d_total); lia].
    unfold to_uint64 in *. rewrite Zminus_mod_idemp_r. rewrite Z.mod_small; lia.
Qed.

(** A tick of idle time taken back while ten pass. *)
Lemma cpu_usage_range_witness :
  fmt_fixed1 (cpu_percent (MkCpu 500 1000 true) 499 1010) = "110.0" /\
  let v := cpu_percent (MkCpu 500 1000 true) 499 1010 in 100 * d_den v < d_num v.
Proof.
  split; [vm_compute; reflexivity|].
  exact (proj2 (cpu_usage_range (MkCpu 500 1000 true) 499 1010 ltac:(vm_compute; split; reflexivity)) 1 ltac:(lia) eq_refl).
Defined.

(** A sampler whose first reading failed never has a previous sample: the usage it reports is 0
    for ever. *)
Lemma unprimed_never_samples ticks s : has_prev_sample s = false -> sample_cpu ticks s = (double_of_Z 0, s).
Proof. intros H. unfold sample_cpu. rewrite H. by destruct ticks as [[]|]. Qed.
