(* ===== verification/HostMetricsDesktop.v ===== *)
(** * The host metrics sampler on macOS and Windows: [system/system_metrics.cpp]

    The readers of the other two platforms and the snapshots made of them.  The calls of Mach and
    of the Windows API are parameters; their counters have the width that the headers give them. *)

From S2P Require Import Prelude CoreError Formatting Ports Progress Metrics HostMetrics.

Local Open Scope coro_scope.

Definition to_uint32 (z : Z) : Z := z mod 2 ^ 32.

(** ** macOS *)

(** [cpu_ticks], each a [natural_t]: 32 bits. *)
Record CpuTicks := MkTicks { cpu_user : Z; cpu_system : Z; cpu_nice : Z; cpu_idle : Z }.

(** The calls; [None] is a failure.  [vm_pages] gives the free and the inactive pages, [boot_time]
    and [wall_seconds] are seconds since the epoch. *)
Class MacHost (W : Type) := {
  cpu_load : M W (option CpuTicks);
  hw_memsize : M W (option Z);
  page_size : M W Z;
  vm_pages : M W (option (Z * Z));
  boot_time : M W (option Z);
  wall_seconds : M W Z
}.

(** Idle and total ticks; the sum is computed in 32 bits before it is widened. *)
Definition mac_ticks (t : CpuTicks) : Z * Z := (cpu_idle t, to_uint32 (cpu_user t + cpu_system t + cpu_nice t + cpu_idle t)).

(** Used bytes from the total, the page size and the pages. *)
Definition mac_used (total page : Z) (pages : option (Z * Z)) : Z :=
  match pages with Some (free, inactive) => Z.max (total - (free + inactive) * page) 0 | None => 0 end.

(** The difference of two 64-bit counts. *)
Definition uptime_since (boot : option Z) (now : Z) : Z := match boot with Some b => now - b | None => 0 end.

(** ** Windows *)

(** [FILETIME]. *)
Record FileTime := MkFileTime { dwLowDateTime : Z; dwHighDateTime : Z }.
Definition filetime_to_uint64 (ft : FileTime) : Z := Z.lor (Z.shiftl (dwHighDateTime ft) 32) (dwLowDateTime ft).

(** [system_times]: idle, kernel and user; [memory_status]: total and available bytes. *)
Class WinHost (W : Type) := {
  system_times : M W (option (FileTime * FileTime * FileTime));
  memory_status : M W (option (Z * Z));
  tick_count : M W Z
}.

Definition win_ticks (t : FileTime * FileTime * FileTime) : Z * Z :=
  let '(idle, kernel, user) := t in (filetime_to_uint64 idle, to_uint64 (filetime_to_uint64 kernel + filetime_to_uint64 user)).

(** Used and total bytes. *)
Definition win_memory (m : option (Z * Z)) : Z * Z :=
  match m with Some (total, avail) => (to_int64 (to_uint64 (total - avail)), to_int64 total) | None => (0, 0) end.

(** ** Snapshots *)

Section Snapshots.
  Context {W : Type} `{host : !Host W}.
  Notation C := (CpuState * W)%type.

(** The first sample, and the block of [snapshot] under the lock, over any reader of ticks. *)
Definition prime_with (ticks : M W (option (Z * Z))) : M W CpuState :=
  co_await t <- ticks;
  co_return match t with Some (idle, total) => MkCpu idle total true | None => MkCpu 0 0 false end.
Definition sample_with (ticks : M W (option (Z * Z))) : M C double :=
  co_await t <- lift ticks;
  co_await s <- get_state;
  let '(cpu, s) := sample_cpu t s in
  co_do put_state s;
  co_return cpu.

Section Mac.
  Context `{mac : !MacHost W}.

Definition read_cpu_ticks_mac : M W (option (Z * Z)) := co_await info <- cpu_load; co_return (mac_ticks <$> info).

Definition read_memory_mac : M W (Z * Z) :=
  co_await mem_size <- hw_memsize;
  co_await page <- page_size;
  co_await vm <- vm_pages;
  let total := default 0 mem_size in co_return (mac_used total page vm, total).

Definition read_system_uptime_mac : M W Z :=
  co_await boot <- boot_time;
  match boot with
  | None => co_return 0
  | Some b => co_await now <- wall_seconds; co_return (uptime_since (Some b) now)
  end.

Definition snapshot_mac (start_time : Z) : M C SystemSnapshot :=
  co_await now <- lift now_ns;
  co_await loads <- lift load_averages;
  co_await cpu <- sample_with read_cpu_ticks_mac;
  co_await ram <- lift read_memory_mac;
  co_await uptime <- lift read_system_uptime_mac;
  co_await disk <- lift read_disk;
  let load i := default (double_of_Z 0) (loads !! i) in
  co_return MkSnapshot cpu ram.1 ram.2 disk.1 disk.2 (Z.quot (now - start_time) 1000000000) uptime (load 0%nat) (load 1%nat) (load 2%nat).

End Mac.

Section Windows.
  Context `{win : !WinHost W}.

Definition read_cpu_ticks_win : M W (option (Z * Z)) := co_await t <- system_times; co_return (win_ticks <$> t).
Definition read_memory_win : M W (Z * Z) := co_await m <- memory_status; co_return (win_memory m).
Definition read_system_uptime_win : M W Z := co_await ms <- tick_count; co_return (to_int64 (ms / 1000)).

Definition snapshot_win (start_time : Z) : M C SystemSnapshot :=
  co_await now <- lift now_ns;
  co_await cpu <- sample_with read_cpu_ticks_win;
  co_await ram <- lift read_memory_win;
  co_await uptime <- lift read_system_uptime_win;
  co_await disk <- lift read_disk;
  let zero := double_of_Z 0 in
  co_return MkSnapshot cpu ram.1 ram.2 disk.1 disk.2 (Z.quot (now - start_time) 1000000000) uptime zero zero zero.

End Windows.

End Snapshots.

(** ** What the counters can say *)

(** On Windows the usage is a percentage: the kernel time includes the idle time, so between two
    samples the idle time grows by no more than the total, which never wraps around in practice
    (a [FILETIME] counts 100 ns). *)
Theorem win_usage_range idle0 kernel0 user0 idle kernel user
    (Hidle : 0 <= filetime_to_uint64 idle - filetime_to_uint64 idle0 <= filetime_to_uint64 kernel - filetime_to_uint64 kernel0)
    (Huser : 0 <= filetime_to_uint64 user - filetime_to_uint64 user0)
    (Hsome : 0 < filetime_to_uint64 kernel - filetime_to_uint64 kernel0 + (filetime_to_uint64 user - filetime_to_uint64 user0) < 2 ^ 44) :
  let s := MkCpu (win_ticks (idle0, kernel0, user0)).1 (win_ticks (idle0, kernel0, user0)).2 true in
  let v := cpu_percent s (win_ticks (idle, kernel, user)).1 (win_ticks (idle, kernel, user)).2 in
  0 <= d_num v <= 100 * d_den v /\ 0 < d_den v.
Proof.
  cbv zeta. cbn [win_ticks fst snd].
  set (i0 := filetime_to_uint64 idle0) in *. set (k0 := filetime_to_uint64 kernel0) in *. set (u0 := filetime_to_uint64 user0) in *.
  set (i := filetime_to_uint64 idle) in *. set (k := filetime_to_uint64 kernel) in *. set (u := filetime_to_uint64 user) in *.
  assert (to_uint64 (to_uint64 (k + u) - to_uint64 (k0 + u0)) = k - k0 + (u - u0)) as Ht.
  { unfold to_uint64. rewrite <- Zminus_mod, Z.mod_small; lia. }
  apply (cpu_usage_range (MkCpu i0 (to_uint64 (k0 + u0)) true) i (to_uint64 (k + u))); cbn [prev_total_ticks prev_idle_ticks]; rewrite Ht; [lia|].
  unfold to_uint64. rewrite Z.mod_small; lia.
Qed.

(** On macOS the total is a 32-bit sum.  When it wraps around while the idle counter does not, a
    machine that only idled is reported as fully used. *)
Definition mac_sample (t0 t : CpuTicks) : double :=
  cpu_percent (MkCpu (mac_ticks t0).1 (mac_ticks t0).2 true) (mac_ticks t).1 (mac_ticks t).2.

Example mac_idle_reported_busy :
  fmt_fixed1 (mac_sample (MkTicks (2 ^ 30) (2 ^ 30) (2 ^ 30) (2 ^ 30 - 100)) (MkTicks (2 ^ 30) (2 ^ 30) (2 ^ 30) (2 ^ 30 + 100))) = "100.0" /\
  fmt_fixed1 (mac_sample (MkTicks 5 5 5 1000) (MkTicks 5 5 5 1200)) = "0.0".
Proof. split; vm_compute; reflexivity. Qed.

(** Memory in use lies between nothing and everything. *)
Theorem desktop_memory_range total page free inactive avail
    (Htotal : 0 <= total < 2 ^ 63) (Hpages : 0 <= page /\ 0 <= free /\ 0 <= inactive) (Havail : 0 <= avail <= total) :
  0 <= mac_used total page (Some (free, inactive)) <= total /\
  win_memory (Some (total, avail)) = (total - avail, total).
Proof.
  split; [unfold mac_used; nia|]. unfold win_memory, to_int64, to_uint64. rewrite (Z.mod_small (total - avail)) by lia.
  rewrite !Z.mod_small by lia. f_equal; lia.
Qed.

Lemma win_usage_range_witness :
  let s := MkCpu (win_ticks (MkFileTime 10 1, MkFileTime 20 1, MkFileTime 5 1)).1 (win_ticks (MkFileTime 10 1, MkFileTime 20 1, MkFileTime 5 1)).2 true in
  let t := win_ticks (MkFileTime 60 1, MkFileTime 110 1, MkFileTime 15 1) in
  fmt_fixed1 (cpu_percent s t.1 t.2) = "50.0" /\ 0 < d_den (cpu_percent s t.1 t.2).
Proof.
  split; [vm_compute; reflexivity|].
  refine (proj2 (win_usage_range (MkFileTime 10 1) (MkFileTime 20 1) (MkFileTime 5 1) (MkFileTime 60 1) (MkFileTime 110 1) (MkFileTime 15 1) _ _ _));
    vm_compute; repeat split; discriminate || reflexivity.
Defined.

Lemma desktop_memory_range_witness :
  0 <= mac_used (2 ^ 34) 4096 (Some (1000, 2000)) <= 2 ^ 34 /\ win_memory (Some (2 ^ 34, 2 ^ 33)) = (2 ^ 34 - 2 ^ 33, 2 ^ 34).
Proof. apply (desktop_memory_range (2 ^ 34) 4096 1000 2000 (2 ^ 33)); lia. Defined.
