(* ===== verification/Environment.v ===== *)
(** * The environment of the use cases

    How the ports share a world: each acts on its own part.  The theorems about use cases
    are proved for every environment of this kind; [MemWorld] is a concrete one. *)

From Stdlib Require Import Sorted.
From stdpp Require Import sorting.
From S2P Require Import Prelude CoreError Identifiers Task TimeCodec Ports Registry.

Local Open Scope coro_scope.

(** ** What the use cases rely on

    The ports act on separate parts of the world: the repository on the stored tasks, the
    registry on its flags, a backend on the job it is told about ([calls] is the log of
    what the backends were asked to do). *)

Inductive BackendCall :=
| CallRemove (k : DownloaderKind) (g : Gid) (delete_files : bool)
| CallPause (k : DownloaderKind) (g : Gid)
| CallResume (k : DownloaderKind) (g : Gid)
| CallStatus (k : DownloaderKind) (g : Gid).

Section Environment.
  Context {W : Type} `{!Clock W, !TaskRepository W, !Downloaders W, !MessengerInterface W, !HasRegistry W}.
  Context (inv : W -> Prop) (tasks : W -> gmap string Task) (calls : W -> list BackendCall).

(** The step from [w] to [w'] leaves every part alone. *)
Record neutral (w w' : W) : Prop := {
  n_inv : inv w -> inv w';
  n_tasks : tasks w' = tasks w;
  n_registry : get_registry w' = get_registry w;
  n_calls : calls w' = calls w
}.

(** The step from [w] to [w'] is a call of a backend. *)
Record backend_step (c : BackendCall) (w w' : W) : Prop := {
  b_inv : inv w -> inv w';
  b_tasks : tasks w' = tasks w;
  b_registry : get_registry w' = get_registry w;
  b_calls : calls w' = calls w ++ [c]
}.

Class PortFrames : Prop := {
  clock_valid w : valid_time (now w).1;
  clock_neutral w : neutral w (now w).2;
  send_neutral chat html w : neutral w (send_html chat html w).2;
  remove_step k d g b w : backend_of k = Some d -> backend_step (CallRemove k g b) w (remove d g b w).2;
  pause_step k d g w : backend_of k = Some d -> backend_step (CallPause k g) w (pause d g w).2;
  resume_step k d g w : backend_of k = Some d -> backend_step (CallResume k g) w (resume d g w).2;
  repo_registry_save t w : get_registry (repo_save t w).2 = get_registry w /\ calls (repo_save t w).2 = calls w;
  repo_registry_find id w : get_registry (repo_find id w).2 = get_registry w /\ calls (repo_find id w).2 = calls w;
  repo_registry_incomplete w :
    get_registry (repo_incomplete w).2 = get_registry w /\ calls (repo_incomplete w).2 = calls w;
  set_registry_frame r w :
    (inv w -> inv (set_registry r w)) /\ tasks (set_registry r w) = tasks w /\ calls (set_registry r w) = calls w
}.
End Environment.

(** ** Lemmas *)

Section Neutral.
  Context {W : Type} `{!Clock W, !TaskRepository W, !Downloaders W, !MessengerInterface W, !HasRegistry W}.
  Context (inv : W -> Prop) (tasks : W -> gmap string Task) (calls : W -> list BackendCall).
  Context `{!TaskRepositoryLaws W inv tasks} `{!PortFrames inv tasks calls}.

Notation neutral := (neutral inv tasks calls).

#[export] Instance neutral_trans : Transitive neutral.
Proof. intros w1 w2 w3 [H1 H2 H3 H4] [H5 H6 H7 H8]. split; [auto|congruence..]. Qed.

Lemma find_neutral id w : inv w -> neutral w (repo_find id w).2.
Proof.
  intros Hinv. destruct (repo_registry_find inv tasks calls id w) as [H1 H2].
  split; [by intros; apply find_inv|by apply find_frame|done|done].
Qed.

Lemma incomplete_neutral w : inv w -> neutral w (repo_incomplete w).2.
Proof.
  intros Hinv. destruct (repo_registry_incomplete inv tasks calls w) as [H1 H2].
  split; [by intros; apply incomplete_inv|by apply incomplete_frame|done|done].
Qed.

(** The loaded task against the stored one. *)
Lemma find_loaded id w t w1 :
  inv w -> repo_find id w = (Ok (Some t), w1) ->
  exists t0, tasks w !! value id = Some t0 /\ t ≡ t0 /\ storable t0 /\ stored t0 = t0 /\ task_key t0 = value id.
Proof.
  intros Hinv H. apply (find_spec (inv := inv) (tasks := tasks)) in H; [|done].
  destruct (tasks w !! value id) as [t0|] eqn:Hl; inversion H; subst. exists t0.
  destruct (tasks_storable (inv := inv) _ _ _ Hinv Hl) as (? & ? & ?). done.
Qed.
End Neutral.

(** ** A concrete environment

    Everything in memory, no call fails; the clock stands still. *)

Module MemWorld.

Record World := MkWorld {
  w_tasks : gmap string Task;
  w_registry : ActiveTaskRegistry;
  w_calls : list BackendCall;
  w_sent : list (ChatId * string);
  w_answers : list (CallbackQueryId * string * bool)
}.

Definition empty : World := MkWorld ∅ empty_registry [] [] [].

Definition upd_tasks (f : gmap string Task -> gmap string Task) (w : World) : World :=
  MkWorld (f (w_tasks w)) (w_registry w) (w_calls w) (w_sent w) (w_answers w).
Definition log_call (c : BackendCall) (w : World) : World :=
  MkWorld (w_tasks w) (w_registry w) (w_calls w ++ [c]) (w_sent w) (w_answers w).
Definition log_sent (s : ChatId * string) (w : World) : World :=
  MkWorld (w_tasks w) (w_registry w) (w_calls w) (w_sent w ++ [s]) (w_answers w).

#[export] Instance clock : Clock World := mreturn 1700000000000000000.

(** Every download is half way. *)
Definition running (g : Gid) : DownloadStatus := MkStatus g "job" DDownloading 1000 500 0 100 0 5 None None [] None None.

Definition backend (k : DownloaderKind) : DownloaderInterface World :=
  MkDownloader World
    (fun uri w => (Ok (MkId uri), w))
    (fun g w => (Ok (), log_call (CallPause k g) w))
    (fun g w => (Ok (), log_call (CallResume k g) w))
    (fun g b w => (Ok (), log_call (CallRemove k g b) w))
    (fun g w => (Ok (running g), log_call (CallStatus k g) w)) (mreturn (Ok [])) (mreturn (Ok (MkGlobalStats 0 0 0 0 0))) true.

#[export] Instance downloaders : Downloaders World := {
  aria2_ := backend Aria2;
  qbit_ := backend Qbittorrent
}.

#[export] Instance messenger : MessengerInterface World := {
  send_html chat html w := (Ok (MkId 1), log_sent (chat, html) w);
  edit_html chat _ html w := (Ok (), log_sent (chat, html) w);
  edit_html_with_keyboard chat _ html _ w := (Ok (), log_sent (chat, html) w);
  send_html_with_keyboard chat html _ w := (Ok (MkId 1), log_sent (chat, html) w);
  edit_keyboard _ _ _ w := (Ok (), w);
  send_file chat path _ _ w := (Ok (MkId 1), log_sent (chat, path) w);
  answer_callback q text alert w :=
    (Ok (), MkWorld (w_tasks w) (w_registry w) (w_calls w) (w_sent w) (w_answers w ++ [(q, text, alert)]));
  delete_message _ _ w := (Ok (), w)
}.

#[export] Instance settings : UserSettingsRepository World := {
  us_get _ := mreturn (Ok None);
  us_save _ := mreturn (Ok ());
  us_remove _ := mreturn (Ok ())
}.

#[export] Instance has_registry : HasRegistry World := {
  get_registry := w_registry;
  set_registry r w := MkWorld (w_tasks w) r (w_calls w) (w_sent w) (w_answers w);
  get_set_registry r w := eq_refl
}.

Definition older (a b : Task) : Prop := md_created_at (metadata a) <= md_created_at (metadata b).

#[local] Instance older_dec a b : Decision (older a b).
Proof. unfold older. apply _. Defined.
#[local] Instance older_trans : Transitive older.
Proof. unfold older. intros a b c. lia. Qed.
#[local] Instance older_total : Total older.
Proof. unfold older. intros a b. lia. Qed.

Definition listing (P : Task -> bool) (w : World) : list Task :=
  merge_sort older (filter (fun t => P t = true) (map_to_list (w_tasks w)).*2).

#[export] Instance repository : TaskRepository World := {
  repo_save t w := (Ok (), upd_tasks <[task_key t := stored t]> w);
  repo_find id w := (Ok (w_tasks w !! value id), w);
  repo_incomplete w := (Ok (listing (fun t => negb (is_terminal t)) w), w);
  repo_for_user u w := (Ok (reverse (listing (fun t => bool_decide (md_user (metadata t) = u)) w)), w);
  repo_remove id w := match w_tasks w !! value id with
                      | Some _ => (Ok (), upd_tasks (delete (value id)) w)
                      | None => (error NotFound "no task", w)
                      end
}.

Definition inv (w : World) : Prop :=
  forall k t, w_tasks w !! k = Some t -> storable t /\ stored t = t /\ task_key t = k.

Lemma empty_inv : inv empty.
Proof. intros k t H. by apply (lookup_empty_Some (M := gmap string) k t) in H. Qed.

Lemma listing_spec P w :
  inv w -> NoDup (listing P w) /\ StronglySorted older (listing P w) /\
  forall t, t ∈ listing P w <-> w_tasks w !! task_key t = Some t /\ P t = true.
Proof.
  intros Hinv. unfold listing. split_and!.
  - rewrite merge_sort_Permutation. apply NoDup_filter.
    assert (NoDup (task_key <$> (map_to_list (w_tasks w)).*2)) as H; [|by apply NoDup_fmap_1 in H].
    assert (task_key <$> (map_to_list (w_tasks w)).*2 = (map_to_list (w_tasks w)).*1) as ->.
    { rewrite <-list_fmap_compose. apply list_fmap_ext. intros i [k t] Hi. simpl.
      apply Hinv, elem_of_map_to_list. by eapply list_elem_of_lookup_2. }
    apply NoDup_fst_map_to_list.
  - apply (StronglySorted_merge_sort older).
  - intros t. rewrite merge_sort_Permutation, list_elem_of_filter, list_elem_of_fmap. split.
    + intros [HP ([k t'] & -> & H%elem_of_map_to_list)]. simpl in *.
      destruct (Hinv _ _ H) as (_ & _ & <-). done.
    + intros [H HP]. split; [done|]. exists (task_key t, t). split; [done|]. by apply elem_of_map_to_list.
Qed.

Lemma sorted_reverse (R : relation Task) l : StronglySorted R l -> StronglySorted (flip R) (reverse l).
Proof.
  induction 1 as [|t l _ IH Hall]; [constructor|]. rewrite reverse_cons.
  apply StronglySorted_app_2; [|done|by repeat constructor].
  intros x1 x2 Hx1 Hx2. rewrite elem_of_reverse in Hx1. apply list_elem_of_singleton in Hx2 as ->.
  rewrite Forall_forall in Hall. unfold flip. by apply Hall.
Qed.

Lemma inv_insert t w : inv w -> storable t -> inv (upd_tasks <[task_key t := stored t]> w).
Proof.
  intros Hinv Ht k t'. simpl. intros [[<- <-]|[_ H]]%lookup_insert_Some; [|by apply Hinv].
  split_and!; [by apply storable_stored|apply stored_idemp|done].
Qed.

#[export] Instance repository_laws : TaskRepositoryLaws World inv w_tasks.
Proof.
  split; try done.
  - intros t w Hinv Ht. by apply inv_insert.
  - intros id w o w' Hinv [= <- <-]. destruct (w_tasks w !! value id); by constructor.
  - intros w l w' Hinv [= <- <-].
    destruct (listing_spec (fun t => negb (is_terminal t)) w Hinv) as (H1 & H2 & H3).
    exists (listing (fun t => negb (is_terminal t)) w). split_and!; [done|done| |done].
    intros t. rewrite H3. by rewrite negb_true_iff.
  - intros u w l w' Hinv [= <- <-].
    destruct (listing_spec (fun t => bool_decide (md_user (metadata t) = u)) w Hinv) as (H1 & H2 & H3).
    eexists. split_and!; [reflexivity|by rewrite reverse_Permutation| |by apply sorted_reverse].
    intros t. by rewrite elem_of_reverse, H3, bool_decide_eq_true.
  - intros id w Hinv. simpl. destruct (w_tasks w !! value id) as [t0|]; [|done].
    intros k t H. simpl in H. apply lookup_delete_Some in H as [_ H]. by apply Hinv.
  - intros id w _. simpl. by destruct (w_tasks w !! value id).
  - intros id w _. simpl. destruct (w_tasks w !! value id); [eauto|done].
  - intros k t w Hinv. apply Hinv.
Qed.

#[export] Instance frames : PortFrames inv w_tasks w_calls.
Proof.
  split; try done.
  - intros k d g b w. by destruct k; intros [= <-].
  - intros k d g w. by destruct k; intros [= <-].
  - intros k d g w. by destruct k; intros [= <-].
Qed.

(** The world that holds some tasks. *)
Definition holding (ts : list Task) : World := foldl (fun w t => upd_tasks <[task_key t := stored t]> w) empty ts.

Lemma holding_inv ts : Forall storable ts -> inv (holding ts).
Proof.
  unfold holding. generalize empty_inv. generalize empty. intros w Hw Hts. revert w Hw.
  induction Hts as [|t ts Ht _ IH]; intros w Hw; [done|]. cbn [foldl]. by apply IH, inv_insert.
Qed.

(** A job of user 7 in chat [chat], bound to a backend. *)
Definition sample (id : string) (chat : Z) (st : TaskState) (k : DownloaderKind) : Task :=
  MkTask (MkMetadata (MkId id) (MkId 7) (MkId chat) (MkId 3) Mirror "http://h/f" 1000000000 1000000000)
    st None (Some (MkId ("gid-" +:+ id))) k.

Lemma sample_storable id chat st k : st <> Failed -> k <> NoDownloader -> storable (sample id chat st k).
Proof. intros H1 H2. split_and!; simpl; try done; by split; vm_compute. Qed.

End MemWorld.
