(* ===== verification/Encodings.v ===== *)
(** * Text encodings: percent-encoding, Base64 and Base64url

    The encoders of [qbittorrent_downloader.cpp], [aria2_downloader.cpp] and
    [google_drive_uploader.cpp] side by side, with reference decoders.  OpenSSL's Base64
    filter is the parameter [openssl_base64]. *)

From S2P Require Import Prelude.

(** [lia] on quotients and remainders. *)
#[local] Ltac Zify.zify_post_hook ::= Z.to_euclidean_division_equations.

(** ** Percent-encoding *)

Definition hex_digits : list ascii := chars "0123456789ABCDEF".

Definition hex_digit (n : N) : ascii := nth (N.to_nat n) hex_digits "0"%char.

Definition unreserved (c : ascii) : bool :=
  ((65 <=? code c) && (code c <=? 90) || (97 <=? code c) && (code c <=? 122) || (48 <=? code c) && (code c <=? 57))%N
  || bool_decide (c ∈ ["-"; "_"; "."; "~"]%char).

(** [url_encode], one byte at a time. *)
Definition encode_byte (c : ascii) : list ascii :=
  if unreserved c then [c]
  else ["%"%char; hex_digit (N.land (N.shiftr (code c) 4) 15); hex_digit (N.land (code c) 15)].

Definition url_encode (s : string) : string := of_chars (concat (map encode_byte (chars s))).

(** [url_escape] of the Drive uploader. *)
Definition safe_chars : list ascii := chars "ABCDEFGHIJKLMNOPQRSTUVWXYZabcdefghijklmnopqrstuvwxyz0123456789-_.~".

Definition escape_byte (c : ascii) : list ascii :=
  if bool_decide (c ∈ safe_chars) then [c] else ["%"%char; hex_digit (code c / 16)%N; hex_digit (code c mod 16)%N].

Definition url_escape (s : string) : string := of_chars (concat (map escape_byte (chars s))).

(** ** Base64 *)

Definition base64_tab : list ascii := chars "ABCDEFGHIJKLMNOPQRSTUVWXYZabcdefghijklmnopqrstuvwxyz0123456789+/".

Definition tab (n : N) : ascii := nth (N.to_nat n) base64_tab "A"%char.

(** [base64_encode]: whole groups of three bytes, then the tail with its padding. *)
Fixpoint base64_chars (data : list ascii) : list ascii :=
  match data with
  | x0 :: x1 :: x2 :: rest =>
      let b0 := code x0 in let b1 := code x1 in let b2 := code x2 in
      tab (N.land (N.shiftr b0 2) 63)
      :: tab (N.land (N.lor (N.shiftl b0 4) (N.shiftr b1 4)) 63)
      :: tab (N.land (N.lor (N.shiftl b1 2) (N.shiftr b2 6)) 63)
      :: tab (N.land b2 63)
      :: base64_chars rest
  | [x0; x1] =>
      let b0 := code x0 in let b1 := code x1 in
      [tab (N.land (N.shiftr b0 2) 63); tab (N.land (N.lor (N.shiftl b0 4) (N.shiftr b1 4)) 63);
       tab (N.land (N.shiftl b1 2) 63); "="%char]
  | [x0] =>
      let b0 := code x0 in let b1 := 0%N in
      [tab (N.land (N.shiftr b0 2) 63); tab (N.land (N.lor (N.shiftl b0 4) (N.shiftr b1 4)) 63); "="%char; "="%char]
  | [] => []
  end.

Definition base64_encode (data : string) : string := of_chars (base64_chars (chars data)).

(** [base64url]: OpenSSL's filter, then the other alphabet without padding. *)
Class OpenSslBase64 := openssl_base64 : string -> string.

Definition url_digit (c : ascii) : ascii := if bool_decide (c = "+"%char) then "-"%char else if bool_decide (c = "/"%char) then "_"%char else c.

Fixpoint strip_padding (l : list ascii) : list ascii :=
  match l with
  | [] => []
  | c :: rest => match strip_padding rest with
                 | [] => if bool_decide (c = "="%char) then [] else [c]
                 | rest => c :: rest
                 end
  end.

Definition base64url `{!OpenSslBase64} (data : string) : string :=
  of_chars (strip_padding (map url_digit (chars (openssl_base64 data)))).

(** ** Lemmas: percent-encoding *)

Definition hex_value (c : ascii) : option N :=
  if isdigit c then Some (code c - 48)%N
  else if ((65 <=? code c) && (code c <=? 70))%N then Some (code c - 55)%N else None.

(** Reference decoder of percent-encoding. *)
Fixpoint percent_decode (l : list ascii) : option (list ascii) :=
  match l with
  | [] => Some []
  | "%"%char :: rest =>
      match rest with
      | a :: b :: rest =>
          match hex_value a, hex_value b, percent_decode rest with
          | Some x, Some y, Some s => Some (ascii_of_N (16 * x + y) :: s)
          | _, _, _ => None
          end
      | _ => None
      end
  | c :: rest => match percent_decode rest with Some s => Some (c :: s) | None => None end
  end.

(** A predicate on bytes, decided on all of them. *)
Definition all_bytes (P : ascii -> bool) : bool := forall_range (fun n => P (ascii_of_N (Z.to_N n))) 256 0.

Lemma all_bytes_spec P : all_bytes P = true -> forall c, P c = true.
Proof.
  intros H c. unfold all_bytes in H. pose proof (forall_range_spec _ _ _ H (Z.of_N (code c))) as Hc.
  cbn beta in Hc. rewrite N2Z.id in Hc. unfold code in Hc. rewrite ascii_N_embedding in Hc. apply Hc.
  pose proof (N_ascii_bounded c). change (Z.of_nat 256) with 256. lia.
Qed.

(** The bytes of an encoding: neither separator of a form. *)
Definition form_safe (c : ascii) : bool := negb (bool_decide (c = "&"%char)) && negb (bool_decide (c = "="%char)).

Lemma encode_byte_checks c :
  forallb form_safe (encode_byte c) = true /\
  (encode_byte c = [c] /\ c <> "%"%char \/
   exists a b x y, encode_byte c = ["%"%char; a; b] /\ hex_value a = Some x /\ hex_value b = Some y /\ ascii_of_N (16 * x + y) = c).
Proof.
  assert (forall c, (forallb form_safe (encode_byte c) &&
    match encode_byte c with
    | [d] => bool_decide (d = c) && negb (bool_decide (c = "%"%char))
    | [p; a; b] => bool_decide (p = "%"%char) &&
        match hex_value a, hex_value b with
        | Some x, Some y => bool_decide (ascii_of_N (16 * x + y) = c) | _, _ => false end
    | _ => false
    end) = true) as H by (apply all_bytes_spec; vm_compute; reflexivity).
  specialize (H c). apply andb_true_iff in H as [H1 H2]. split; [done|].
  destruct (encode_byte c) as [|p [|a [|b [|]]]]; try done.
  - apply andb_true_iff in H2 as [->%bool_decide_eq_true H]. left. split; [done|]. by apply negb_true_iff, bool_decide_eq_false in H.
  - apply andb_true_iff in H2 as [->%bool_decide_eq_true H]. right.
    destruct (hex_value a) as [x|] eqn:Ea; [|done]. destruct (hex_value b) as [y|] eqn:Eb; [|done].
    apply bool_decide_eq_true in H. by exists a, b, x, y.
Qed.

Lemma percent_decode_encode s rest :
  percent_decode (concat (map encode_byte s) ++ rest) = option_map (app s) (percent_decode rest).
Proof.
  induction s as [|c s IH]; cbn [map concat app].
  - by destruct (percent_decode rest).
  - rewrite <- app_assoc. destruct (encode_byte_checks c) as [_ [[-> Hc]|(a & b & x & y & -> & Ha & Hb & <-)]]; cbn [app].
    + assert (forall l, percent_decode (c :: l) = match percent_decode l with Some s => Some (c :: s) | None => None end) as ->.
      { intros l. destruct c as [[][][][][][][][]]; try done. }
      rewrite IH. by destruct (percent_decode rest).
    + cbn [percent_decode]. rewrite Ha, Hb, IH. by destruct (percent_decode rest).
Qed.

Lemma url_encode_safe s : Forall (fun c => form_safe c = true) (chars (url_encode s)).
Proof.
  unfold url_encode. rewrite chars_of_chars. induction (chars s) as [|c l IH]; [constructor|]. simpl.
  apply Forall_app. split; [|done]. destruct (encode_byte_checks c) as [H _].
  apply Forall_forall. intros d Hd%list_elem_of_In. by rewrite forallb_forall in H; apply H.
Qed.

(** Reference decoder of separated words. *)
Fixpoint split_on (sep : ascii) (l : list ascii) : list (list ascii) :=
  match l with
  | [] => [[]]
  | c :: rest =>
      if bool_decide (c = sep) then [] :: split_on sep rest
      else match split_on sep rest with
           | [] => [[c]]
           | w :: ws => (c :: w) :: ws
           end
  end.

Lemma split_on_none sep l : Forall (fun c => c <> sep) l -> split_on sep l = [l].
Proof. induction 1 as [|c l Hc _ IH]; simpl; [done|]. by rewrite bool_decide_false, IH. Qed.

Lemma split_on_app sep l rest :
  Forall (fun c => c <> sep) l -> split_on sep (l ++ sep :: rest) = l :: split_on sep rest.
Proof.
  induction 1 as [|c l Hc _ IH]; simpl; [by rewrite bool_decide_true|]. by rewrite bool_decide_false, IH.
Qed.

(** ** Lemmas: Base64 *)


(** The value of a digit, and the reference decoder of RFC 4648. *)
Definition digit_of (c : ascii) : option N := N.of_nat <$> find_idx (fun d => bool_decide (d = c)) base64_tab.

Fixpoint base64_decode (l : list ascii) : option (list ascii) :=
  match l with
  | [] => Some []
  | c0 :: c1 :: c2 :: c3 :: rest =>
      v0 ← digit_of c0; v1 ← digit_of c1;
      let x0 := ascii_of_N (4 * v0 + v1 / 16) in
      if bool_decide (c3 = "="%char) then
        match rest with
        | [] => if bool_decide (c2 = "="%char) then Some [x0]
                else v2 ← digit_of c2; Some [x0; ascii_of_N (16 * (v1 mod 16) + v2 / 4)]
        | _ => None
        end
      else
        v2 ← digit_of c2; v3 ← digit_of c3; out ← base64_decode rest;
        Some (x0 :: ascii_of_N (16 * (v1 mod 16) + v2 / 4) :: ascii_of_N (64 * (v2 mod 4) + v3) :: out)
  | _ => None
  end%N.

Lemma tab_checks : forall_range (fun n => bool_decide (digit_of (tab (Z.to_N n)) = Some (Z.to_N n)) && negb (bool_decide (tab (Z.to_N n) = "="%char))) 64 0 = true.
Proof. vm_compute. reflexivity. Qed.

Lemma digit_of_tab n : (n < 64)%N -> digit_of (tab n) = Some n /\ tab n <> "="%char.
Proof.
  intros H. pose proof (forall_range_spec _ _ _ tab_checks (Z.of_N n)) as Hc. cbn beta in Hc. rewrite N2Z.id in Hc.
  specialize (Hc ltac:(change (Z.of_nat 64) with 64; lia)).
  apply andb_true_iff in Hc as [H1%bool_decide_eq_true H2%negb_true_iff%bool_decide_eq_false]. done.
Qed.

(** The 6-bit groups, arithmetically. *)
Definition group_checks (a b : Z) : bool :=
  let a := Z.to_N a in let b := Z.to_N b in
  ((N.land (N.shiftr a 2) 63 =? a / 4) && (N.land a 63 =? a mod 64)
   && (N.land (N.lor (N.shiftl a 4) (N.shiftr b 4)) 63 =? 16 * (a mod 4) + b / 16)
   && (N.land (N.lor (N.shiftl a 2) (N.shiftr b 6)) 63 =? 4 * (a mod 16) + b / 64)
   && (N.land (N.shiftl a 2) 63 =? 4 * (a mod 16)))%N.

Lemma all_group_checks : forall_range (fun a => forall_range (group_checks a) 256 0) 256 0 = true.
Proof. vm_compute. reflexivity. Qed.

Lemma groups a b : (a < 256)%N -> (b < 256)%N ->
  (N.land (N.shiftr a 2) 63 = a / 4 /\ N.land a 63 = a mod 64 /\
   N.land (N.lor (N.shiftl a 4) (N.shiftr b 4)) 63 = 16 * (a mod 4) + b / 16 /\
   N.land (N.lor (N.shiftl a 2) (N.shiftr b 6)) 63 = 4 * (a mod 16) + b / 64 /\
   N.land (N.shiftl a 2) 63 = 4 * (a mod 16))%N.
Proof.
  intros Ha Hb. pose proof (forall_range_spec _ _ _ all_group_checks (Z.of_N a)) as H. cbn beta in H.
  specialize (H ltac:(change (Z.of_nat 256) with 256; lia)).
  apply (forall_range_spec _ _ _) with (z := Z.of_N b) in H; [|change (Z.of_nat 256) with 256; lia].
  unfold group_checks in H. rewrite !N2Z.id in H. rewrite !andb_true_iff, !N.eqb_eq in H. tauto.
Qed.

Lemma code_lt c : (code c < 256)%N.
Proof. apply N_ascii_bounded. Qed.

Lemma ascii_of_code c n : n = code c -> ascii_of_N n = c.
Proof. intros ->. apply ascii_N_embedding. Qed.

(** Decoding one quantum. *)
Lemma decode_4 v0 v1 v2 v3 rest : (v0 < 64)%N -> (v1 < 64)%N -> (v2 < 64)%N -> (v3 < 64)%N ->
  base64_decode (tab v0 :: tab v1 :: tab v2 :: tab v3 :: rest) =
    out ← base64_decode rest;
    Some (ascii_of_N (4 * v0 + v1 / 16) :: ascii_of_N (16 * (v1 mod 16) + v2 / 4) :: ascii_of_N (64 * (v2 mod 4) + v3) :: out)%N.
Proof.
  intros H0 H1 H2 H3. destruct (digit_of_tab v0 H0) as [E0 _], (digit_of_tab v1 H1) as [E1 _], (digit_of_tab v2 H2) as [E2 _],
    (digit_of_tab v3 H3) as [E3 N3]. simpl. rewrite E0, E1. simpl. rewrite bool_decide_false, E2, E3 by done. done.
Qed.

Lemma decode_3 v0 v1 v2 : (v0 < 64)%N -> (v1 < 64)%N -> (v2 < 64)%N ->
  base64_decode [tab v0; tab v1; tab v2; "="%char] = Some [ascii_of_N (4 * v0 + v1 / 16); ascii_of_N (16 * (v1 mod 16) + v2 / 4)]%N.
Proof.
  intros H0 H1 H2. destruct (digit_of_tab v0 H0) as [E0 _], (digit_of_tab v1 H1) as [E1 _], (digit_of_tab v2 H2) as [E2 N2].
  simpl. rewrite E0, E1. simpl. rewrite bool_decide_false, E2 by done. done.
Qed.

Lemma decode_2 v0 v1 : (v0 < 64)%N -> (v1 < 64)%N ->
  base64_decode [tab v0; tab v1; "="%char; "="%char] = Some [ascii_of_N (4 * v0 + v1 / 16)]%N.
Proof. intros H0 H1. destruct (digit_of_tab v0 H0) as [E0 _], (digit_of_tab v1 H1) as [E1 _]. simpl. by rewrite E0, E1. Qed.

Lemma base64_decode_encode data : base64_decode (base64_chars data) = Some data.
Proof.
  revert data. fix IH 1. intros [|x0 [|x1 [|x2 rest]]]; [clear IH; done|..|pose proof (IH rest) as IH1]; clear IH; cbn [base64_chars].
  - pose proof (code_lt x0) as H0. destruct (groups (code x0) 0 H0 eq_refl) as (G0 & _ & G1 & _ & _).
    rewrite G0, G1, decode_2 by lia. do 2 f_equal. apply ascii_of_code. lia.
  - pose proof (code_lt x0) as H0. pose proof (code_lt x1) as H1. destruct (groups (code x0) (code x1) H0 H1) as (G0 & _ & G1 & _ & _).
    destruct (groups (code x1) 0 H1 eq_refl) as (_ & _ & _ & _ & G2).
    rewrite G0, G1, G2, decode_3 by lia. f_equal. f_equal; [|f_equal]; apply ascii_of_code; lia.
  - pose proof (code_lt x0) as H0. pose proof (code_lt x1) as H1. pose proof (code_lt x2) as H2.
    destruct (groups (code x0) (code x1) H0 H1) as (G0 & _ & G1 & _ & _).
    destruct (groups (code x1) (code x2) H1 H2) as (_ & _ & _ & G2 & _). destruct (groups (code x2) 0 H2 eq_refl) as (_ & G3 & _).
    rewrite G0, G1, G2, G3, decode_4 by lia. rewrite IH1. simpl. f_equal. f_equal; [|f_equal; [|f_equal]]; apply ascii_of_code; lia.
Qed.

Lemma base64_length data : Z.of_nat (length (base64_chars data)) = 4 * ((Z.of_nat (length data) + 2) / 3).
Proof.
  revert data. fix IH 1. intros [|x0 [|x1 [|x2 rest]]]; [clear IH; done|clear IH; done|clear IH; done|].
  cbn [base64_chars length]. specialize (IH rest). lia.
Qed.

(** Torrents survive their encoding: for every byte string the standard decoder gives back
    exactly the bytes that [base64_encode] was given, and the text has four characters for
    every three bytes or part of three. *)
Theorem base64_roundtrip data :
  base64_decode (chars (base64_encode data)) = Some (chars data) /\
  Z.of_nat (length (chars (base64_encode data))) = 4 * ((Z.of_nat (length (chars data)) + 2) / 3).
Proof. unfold base64_encode. rewrite chars_of_chars. split; [apply base64_decode_encode|apply base64_length]. Qed.

(** ** Lemmas: Base64url *)

Definition std_digit (c : ascii) : ascii := if bool_decide (c = "-"%char) then "+"%char else if bool_decide (c = "_"%char) then "/"%char else c.

(** The decoder of RFC 4648 for the URL alphabet: the padding is put back. *)
Definition base64url_decode (l : list ascii) : option (list ascii) :=
  base64_decode (map std_digit l ++ replicate (Z.to_nat (- Z.of_nat (length l) mod 4)) "="%char).

Lemma url_digit_checks c :
  c ∈ base64_tab -> std_digit (url_digit c) = c /\ url_digit c ∈ safe_chars /\ url_digit c <> "="%char /\ url_digit c <> "."%char.
Proof.
  intros Hc. assert (forall c, (negb (bool_decide (c ∈ base64_tab)) ||
    bool_decide (std_digit (url_digit c) = c) && bool_decide (url_digit c ∈ safe_chars)
    && negb (bool_decide (url_digit c = "="%char)) && negb (bool_decide (url_digit c = "."%char))) = true) as H
    by (apply all_bytes_spec; vm_compute; reflexivity).
  specialize (H c). rewrite bool_decide_true in H by done. simpl in H.
  by rewrite !andb_true_iff, !negb_true_iff, !bool_decide_eq_true, !bool_decide_eq_false in H; tauto.
Qed.

Lemma tab_in n : tab n ∈ base64_tab.
Proof.
  unfold tab. apply list_elem_of_In. destruct (nth_in_or_default (N.to_nat n) base64_tab "A"%char) as [H| ->]; [done|by left].
Qed.

(** Digits, then at most two padding characters, in whole quanta. *)
Lemma base64_shape data : exists digits k,
  base64_chars data = digits ++ replicate k "="%char /\ Forall (fun c => c ∈ base64_tab) digits /\
  (k <= 2)%nat /\ (Z.of_nat (length digits) + Z.of_nat k) mod 4 = 0.
Proof.
  revert data. fix IH 1. intros [|x0 [|x1 [|x2 rest]]].
  - clear IH. exists [], 0%nat. split_and!; [done|constructor|lia|done].
  - clear IH. eexists [_; _], 2%nat. split_and!; [done|rewrite !Forall_cons; auto using tab_in|lia|done].
  - clear IH. eexists [_; _; _], 1%nat. split_and!; [done|rewrite !Forall_cons; auto using tab_in|lia|done].
  - destruct (IH rest) as (digits & k & E & Hd & Hk & Hl). clear IH. cbn [base64_chars]. rewrite E.
    eexists (_ :: _ :: _ :: _ :: digits), k. split_and!; [done|rewrite !Forall_cons; auto using tab_in|done|cbn [length]; lia].
Qed.

Lemma strip_padding_app l k : Forall (fun c => c <> "="%char) l -> strip_padding (l ++ replicate k "="%char) = l.
Proof.
  intros H. assert (strip_padding (replicate k "="%char) = []) as Hk by (induction k as [|k IH]; simpl; by rewrite ?IH).
  induction H as [|c l Hc Hl IH]; simpl; [done|]. rewrite IH. destruct l; [|done]. by rewrite bool_decide_false.
Qed.

Section Base64Url.
  Context `{ssl : !OpenSslBase64}.
  Hypothesis openssl_rfc4648 : forall s, openssl_base64 s = base64_encode s.

Lemma base64url_digits data : exists digits,
  chars (base64url data) = map url_digit digits /\ Forall (fun c => c ∈ base64_tab) digits /\
  base64_chars (chars data) = digits ++ replicate (Z.to_nat (- Z.of_nat (length digits) mod 4)) "="%char.
Proof.
  unfold base64url. rewrite chars_of_chars, openssl_rfc4648. unfold base64_encode. rewrite chars_of_chars.
  destruct (base64_shape (chars data)) as (digits & k & E & Hd & Hk & Hl). exists digits. rewrite E. split_and!; [|done|].
  - rewrite map_app.
    assert (map url_digit (replicate k "="%char) = replicate k "="%char) as -> by exact (fmap_replicate url_digit k "="%char).
    apply strip_padding_app. apply Forall_map. eapply Forall_impl; [exact Hd|]. by intros c (_ & _ & H & _)%url_digit_checks.
  - do 2 f_equal. lia.
Qed.

(** The text of an encoding needs no escaping and holds no dot. *)
Lemma base64url_safe data : Forall (fun c => c ∈ safe_chars /\ c <> "."%char) (chars (base64url data)).
Proof.
  destruct (base64url_digits data) as (digits & -> & Hd & _). apply Forall_map. eapply Forall_impl; [exact Hd|].
  by intros c (_ & H1 & _ & H2)%url_digit_checks.
Qed.

Lemma base64url_decode_encode data : base64url_decode (chars (base64url data)) = Some (chars data).
Proof.
  destruct (base64url_digits data) as (digits & -> & Hd & E). unfold base64url_decode. rewrite length_map, map_map.
  assert (map (fun c => std_digit (url_digit c)) digits = digits) as ->.
  { clear E. induction Hd as [|c l Hc _ IH]; simpl; [done|]. by rewrite IH, (proj1 (url_digit_checks c Hc)). }
  rewrite <- E. apply base64_decode_encode.
Qed.

End Base64Url.

(** ** Two encoders, one encoding *)

Lemma escape_byte_encode_byte c : escape_byte c = encode_byte c.
Proof.
  assert (forall c, bool_decide (escape_byte c = encode_byte c) = true) as H by (apply all_bytes_spec; vm_compute; reflexivity).
  exact (bool_decide_eq_true_1 _ (H c)).
Qed.

(** The Drive client and the qBittorrent client escape alike: [url_escape] and
    [url_encode], one written with a table of safe characters and a format string, the other
    with ranges and shifts, are the same function, and percent-decoding inverts both on every
    byte string. *)
Theorem url_escape_is_url_encode s :
  url_escape s = url_encode s /\ percent_decode (chars (url_escape s)) = Some (chars s).
Proof.
  assert (url_escape s = url_encode s) as H.
  { unfold url_escape, url_encode. do 2 f_equal. apply map_ext, escape_byte_encode_byte. }
  split; [done|]. rewrite H. unfold url_encode. rewrite chars_of_chars.
  rewrite <- (app_nil_r (concat _)), percent_decode_encode. simpl. by rewrite app_nil_r.
Qed.

(** Text of safe characters escapes to itself. *)
Lemma url_escape_safe s : Forall (fun c => c ∈ safe_chars) (chars s) -> url_escape s = s.
Proof.
  intros H. unfold url_escape. transitivity (of_chars (chars s)); [f_equal|apply of_chars_chars].
  induction H as [|c l Hc _ IH]; cbn [map concat]; [done|].
  rewrite IH. unfold escape_byte. by rewrite bool_decide_true.
Qed.
