(* ===== verification/QbittorrentDownloader.v ===== *)
(** * The qBittorrent backend: [download/qbittorrent_downloader.cpp]

    The Web API adapter over any [HttpClient]: login and session cookie, the retry after a
    403, form and multipart bodies, and the translation of torrents into [DownloadStatus].
    nlohmann::json is [Json]; the random number generator is [Random]; the iteration order of
    an unordered set is [HashOrder].

    The session is shared by every call on the adapter, and each access to it takes the lock
    on its own.  What the other calls do to it before such an access is the parameter
    [OtherCalls]: any change of the session, and of the world. *)

From S2P Require Import Prelude CoreError Identifiers Ports Http Progress ConfigData Json Encodings.

Local Open Scope coro_scope.

(** ** Encodings *)

(** [make_form]. *)
Definition form_field (f : string * string) : string := url_encode f.1 +:+ "=" +:+ url_encode f.2.
Fixpoint make_form (fields : list (string * string)) : string :=
  match fields with
  | [] => ""
  | [f] => form_field f
  | f :: rest => form_field f +:+ "&" +:+ make_form rest
  end.

(** [parse_sid]. *)
Definition parse_sid (set_cookie : string) : string :=
  match split_first (chars "SID=") (chars set_cookie) with
  | None => ""
  | Some (_, rest) => of_chars (take_while (fun c => negb (bool_decide (c = ";"%char))) rest)
  end.

(** [random_boundary]. *)
Definition random_boundary {W} `{!Random W} : M W string :=
  co_await tail <- random_chars 16 "abcdefghijklmnopqrstuvwxyzABCDEFGHIJKLMNOPQRSTUVWXYZ0123456789";
  co_return ("----CmlbQbBoundary" +:+ tail).

Definition crlf : string := of_chars ["013"; "010"]%char.
Definition quote : string := of_chars ["034"]%char.

(** [struct MultipartFile]. *)
Record MultipartFile := MkFile {
  field_name : string;
  file_name : string;
  content_type : string;
  bytes : string
}.

(** [build_multipart]. *)
Definition text_part (boundary : string) (f : string * string) : string :=
  "--" +:+ boundary +:+ crlf +:+ "Content-Disposition: form-data; name=" +:+ quote +:+ f.1 +:+ quote +:+ crlf +:+ crlf
  +:+ f.2 +:+ crlf.
Definition file_part (boundary : string) (f : MultipartFile) : string :=
  "--" +:+ boundary +:+ crlf +:+ "Content-Disposition: form-data; name=" +:+ quote +:+ field_name f +:+ quote
  +:+ "; filename=" +:+ quote +:+ file_name f +:+ quote +:+ crlf
  +:+ "Content-Type: " +:+ content_type f +:+ crlf +:+ crlf +:+ bytes f +:+ crlf.
Definition build_multipart (boundary : string) (text_fields : list (string * string)) (files : list MultipartFile) : string :=
  foldr (fun f s => text_part boundary f +:+ s) (foldr (fun f s => file_part boundary f +:+ s)
    ("--" +:+ boundary +:+ "--" +:+ crlf) files) text_fields.

(** ** Torrents *)

(** [parse_state]; an unknown state is logged and taken for queued. *)
Definition parse_state (text : string) : DownloadState :=
  if bool_decide (text ∈ ["downloading"; "metaDL"; "stalledDL"; "checkingDL"; "forcedDL"]) then DDownloading
  else if bool_decide (text ∈ ["queuedDL"; "queuedUP"; "allocating"]) then DQueued
  else if bool_decide (text ∈ ["pausedDL"; "pausedUP"]) then DPaused
  else if bool_decide (text ∈ ["uploading"; "stalledUP"; "forcedUP"; "checkingUP"]) then DSeeding
  else if bool_decide (text ∈ ["error"; "missingFiles"; "unknown"]) then DError
  else if bool_decide (text = "moving") then DDownloading
  else DQueued.

Section Torrents.
  Context `{json_lib : !Json}.

Definition int_member (j : json) (key : string) : string + option Z :=
  match json_find j key with
  | None => inr None
  | Some v => match get_int32 v with inl what => inl what | inr n => inr (Some n) end
  end.

(** [to_status]: an exception on the left. *)
Definition to_status (j : json) : string + DownloadStatus :=
  try total <- json_value get_int64 j "size" 0;
  try completed <- json_value get_int64 j "completed" 0;
  try uploaded <- json_value get_int64 j "uploaded" 0;
  try dlspeed <- json_value get_int64 j "dlspeed" 0;
  try upspeed <- json_value get_int64 j "upspeed" 0;
  try eta <- json_value get_int64 j "eta" 0;
  try seeds <- int_member j "num_seeds";
  try leechs <- int_member j "num_leechs";
  inr (MkStatus (MkId (default "" (string_member j "hash"))) (default "" (string_member j "name"))
         (match string_member j "state" with Some text => parse_state text | None => DQueued end)
         total completed uploaded dlspeed upspeed eta None (string_member j "save_path") [] seeds leechs).

(** [for (const auto& t : arr) out.push_back(to_status(t))]. *)
Fixpoint all_status (l : list json) : string + list DownloadStatus :=
  match l with
  | [] => inr []
  | t :: rest => try s <- to_status t; try out <- all_status rest; inr (s :: out)
  end.

(** The switch of [global_stats]. *)
Definition count_state (ds : DownloadState) (g : GlobalStats) : GlobalStats :=
  let '(MkGlobalStats dl up a w s) := g in
  match ds with
  | DDownloading => MkGlobalStats dl up (a + 1) w s
  | DQueued => MkGlobalStats dl up a (w + 1) s
  | _ => MkGlobalStats dl up a w (s + 1)
  end.

(** Its loop; an exception keeps the counts so far. *)
Fixpoint count_states (l : list json) (g : GlobalStats) : GlobalStats :=
  match l with
  | [] => g
  | t :: rest => match json_value get_string t "state" "" with
                 | inl _ => g
                 | inr text => count_states rest (count_state (parse_state text) g)
                 end
  end.

End Torrents.

(** ** The adapter *)

(** [session_id_] and [connected_]. *)
Record Session := MkSession { session_id : string; connected : bool }.

Definition no_session : Session := MkSession "" false.

(** The calls that run concurrently, up to the next access of this one to the session. *)
Class OtherCalls (W : Type) := other_calls : M (Session * W) unit.

(** The order in which an unordered set is iterated. *)
Class HashOrder := {
  hash_order : gset string -> list string;
  elem_of_hash_order h s : h ∈ hash_order s <-> h ∈ s
}.

Definition kDefaultRequestTimeout : Z := 30000.

Section Adapter.
  Context `{json_lib : !Json} {W : Type} `{http : !HttpClient W, rng : !Random W, hash_lib : !HashOrder}.
  Context `{others : !OtherCalls W}.
  Context (config : QbittorrentConfig).

Notation C := (Session * W)%type.

(** The constructor strips trailing slashes. *)
Definition base_url : string :=
  of_chars (reverse (drop_while (fun c => bool_decide (c = "/"%char)) (reverse (chars (qb_url config))))).

Definition url (path : string) : string :=
  if negb (str_empty path) && negb (starts_with path "/") then base_url +:+ "/" +:+ path else base_url +:+ path.

(** [connected()] and [session_id()]: two reads, between which the session can change. *)
Definition is_connected : M C bool := co_do other_calls; co_await s <- get_state; co_return (connected s).
Definition current_session_id : M C string := co_do other_calls; co_await s <- get_state; co_return (session_id s).

Definition store_session (sid : string) : M C unit :=
  co_do other_calls; put_state (MkSession sid (negb (str_empty sid))).
Definition clear_session : M C unit := co_do other_calls; put_state no_session.

Definition urlencoded : HttpHeader := MkHeader "Content-Type" "application/x-www-form-urlencoded".
Definition sid_cookie (sid : string) : HttpHeader := MkHeader "Cookie" ("SID=" +:+ sid).

Definition above_zero (x : Float) : bool :=
  match x with Finite v => 0 <? d_num v | Infinity negative => negb negative | NaN => false end.

(** The preferences that [push_preferences] sends; dumping numbers and booleans never throws. *)
Definition preferences : json :=
  json_object (
    [("max_active_downloads", json_of_int (qb_max_active_downloads config));
     ("max_active_uploads", json_of_int (qb_max_active_uploads config));
     ("max_active_torrents", json_of_int (qb_max_active_torrents config));
     ("max_connec", json_of_int (qb_max_connections config));
     ("max_connec_per_torrent", json_of_int (qb_max_connections_per_torrent config));
     ("max_uploads", json_of_int (qb_max_uploads config));
     ("max_uploads_per_torrent", json_of_int (qb_max_uploads_per_torrent config));
     ("up_limit", json_of_int (qb_up_limit config));
     ("dl_limit", json_of_int (qb_dl_limit config));
     ("dht", json_of_bool (qb_dht config));
     ("pex", json_of_bool (qb_pex config));
     ("lsd", json_of_bool (qb_lsd config));
     ("anonymous_mode", json_of_bool (qb_anonymous_mode config));
     ("async_io_threads", json_of_int (qb_async_io_threads config));
     ("disk_cache", json_of_int (qb_disk_cache_mib config))]
    ++ (if above_zero (qb_seed_ratio_limit config)
        then [("max_ratio_enabled", json_of_bool true); ("max_ratio", json_of_double (qb_seed_ratio_limit config))]
        else [("max_ratio_enabled", json_of_bool false)])
    ++ (if 0 <? qb_seed_time_limit config
        then [("max_seeding_time_enabled", json_of_bool true); ("max_seeding_time", json_of_int (qb_seed_time_limit config))]
        else [("max_seeding_time_enabled", json_of_bool false)])
    ++ [("max_ratio_act", json_of_int 0)]).

Definition dump_text (j : json) : string := match json_dump j with inr s => s | inl _ => "" end.

(** [push_preferences]. *)
Definition push_preferences : M C (Result unit) :=
  co_await sid <- current_session_id;
  co_try resp <- lift (http_request (MkRequest Post (url "/api/v2/app/setPreferences")
    [urlencoded; MkHeader "Referer" base_url; sid_cookie sid]
    ("json=" +:+ url_encode (dump_text preferences)) kDefaultRequestTimeout));
  co_return (if negb (status_code resp =? 200)
             then error QbittorrentApi ("setPreferences HTTP " +:+ fmt_int (status_code resp) +:+ ": " +:+ body resp)
             else Ok ()).

(** The loop of [login] over the headers: the first session cookie that is not empty. *)
Fixpoint session_cookie (headers : list HttpHeader) : option string :=
  match headers with
  | [] => None
  | h :: rest =>
      if bool_decide (h_name h = "Set-Cookie") || bool_decide (h_name h = "set-cookie")
      then (if str_empty (parse_sid (h_value h)) then session_cookie rest else Some (parse_sid (h_value h)))
      else session_cookie rest
  end.

Definition login_request : HttpRequest :=
  MkRequest Post (url "/api/v2/auth/login") [urlencoded; MkHeader "Referer" base_url]
    (make_form [("username", qb_username config); ("password", qb_password config)]) kDefaultRequestTimeout.

(** [login]; the outcome of [push_preferences] is only logged. *)
Definition login : M C (Result unit) :=
  co_try resp <- lift (http_request login_request);
  if negb (status_code resp =? 200)
  then co_return error Unauthenticated ("qBittorrent login HTTP " +:+ fmt_int (status_code resp))
  else if negb (str_contains (body resp) "Ok.")
  then co_return error Unauthenticated ("qBittorrent login rejected: " +:+ body resp)
  else match session_cookie (resp_headers resp) with
       | None => co_return error Unauthenticated "qBittorrent login: SID cookie missing"
       | Some sid =>
           co_do store_session sid;
           co_await pushed <- push_preferences;
           co_return Ok ()
       end.

(** [ensure_login]. *)
Definition ensure_login : M C (Result unit) :=
  co_await connected <- is_connected;
  if connected : bool then co_return Ok () else login.

Definition add_header (h : HttpHeader) (r : HttpRequest) : HttpRequest :=
  MkRequest (rq_method r) (rq_url r) (rq_headers r ++ [h]) (rq_body r) (rq_timeout r).

(** [std::erase_if] on the cookie of the first attempt. *)
Definition drop_cookies (r : HttpRequest) : HttpRequest :=
  MkRequest (rq_method r) (rq_url r) (filter (fun h => h_name h <> "Cookie") (rq_headers r)) (rq_body r) (rq_timeout r).

(** [authed_request]. *)
Definition authed_request (req : HttpRequest) : M C (Result HttpResponse) :=
  co_try logged_in <- ensure_login;
  co_await sid <- current_session_id;
  let req := add_header (sid_cookie sid) req in
  co_try resp <- lift (http_request req);
  if status_code resp =? 403 then
    co_do clear_session;
    co_try again <- login;
    co_await sid <- current_session_id;
    lift (http_request (add_header (sid_cookie sid) (drop_cookies req)))
  else co_return Ok resp.

Definition get_request (path : string) : HttpRequest := MkRequest Get (url path) [] "" kDefaultRequestTimeout.
Definition form_request (path body : string) : HttpRequest :=
  MkRequest Post (url path) [urlencoded] body kDefaultRequestTimeout.

Definition unexpected_status {A} (what : string) (resp : HttpResponse) : Result A :=
  error QbittorrentApi (what +:+ " HTTP " +:+ fmt_int (status_code resp)).

(** The loop of [snapshot_hashes] over an array. *)
Definition hashes_of (l : list json) : gset string :=
  list_to_set (omap (fun t => string_member t "hash") l).

(** [snapshot_hashes]. *)
Definition snapshot_hashes : M C (Result (gset string)) :=
  co_try resp <- authed_request (get_request "/api/v2/torrents/info");
  co_return (if negb (status_code resp =? 200) then unexpected_status "torrents/info" resp
             else match json_parse (body resp) with
                  | inl what => error JsonParse what
                  | inr arr => Ok (if is_array arr then hashes_of (elements arr) else ∅)
                  end).

(** [add_common]. *)
Definition add_common (text_fields : list (string * string)) (files : list MultipartFile) (options : DownloadOptions)
  : M C (Result Gid) :=
  let text_fields := text_fields ++ (match save_directory options with Some d => [("savepath", d)] | None => [] end)
                       ++ extras options in
  co_try before <- snapshot_hashes;
  co_await boundary <- lift random_boundary;
  co_try resp <- authed_request (MkRequest Post (url "/api/v2/torrents/add")
    [MkHeader "Content-Type" ("multipart/form-data; boundary=" +:+ boundary)]
    (build_multipart boundary text_fields files) kDefaultRequestTimeout);
  if negb (status_code resp =? 200)
  then co_return error QbittorrentApi ("torrents/add HTTP " +:+ fmt_int (status_code resp) +:+ ": " +:+ body resp)
  else if str_contains (body resp) "Fails"
  then co_return error QbittorrentApi ("torrents/add rejected: " +:+ body resp)
  else
    co_try after <- snapshot_hashes;
    co_return match filter (fun h => h ∉ before) (hash_order after) with
              | h :: _ => Ok (MkId h)
              | [] => error QbittorrentApi "torrents/add accepted but no new hash visible (duplicate?)"
              end.

(** ** The operations *)

Definition qbit_add_uri (uri : string) (options : DownloadOptions) : M C (Result Gid) :=
  add_common [("urls", uri)] [] options.

Definition qbit_add_torrent (torrent_data : string) (options : DownloadOptions) : M C (Result Gid) :=
  add_common [] [MkFile "torrents" "upload.torrent" "application/x-bittorrent" torrent_data] options.

(** The calls that only look at the status code. *)
Definition command (path form what : string) : M C (Result unit) :=
  co_try resp <- authed_request (form_request path form);
  co_return (if negb (status_code resp =? 200) then unexpected_status what resp else Ok ()).

Definition qbit_pause (id : Gid) : M C (Result unit) :=
  command "/api/v2/torrents/pause" ("hashes=" +:+ url_encode (value id)) "torrents/pause".

Definition qbit_resume (id : Gid) : M C (Result unit) :=
  command "/api/v2/torrents/resume" ("hashes=" +:+ url_encode (value id)) "torrents/resume".

Definition qbit_remove (id : Gid) (delete_files : bool) : M C (Result unit) :=
  command "/api/v2/torrents/delete"
    (make_form [("hashes", value id); ("deleteFiles", if delete_files then "true" else "false")]) "torrents/delete".

Definition qbit_status (id : Gid) : M C (Result DownloadStatus) :=
  co_try resp <- authed_request (get_request ("/api/v2/torrents/info?hashes=" +:+ url_encode (value id)));
  co_return (if negb (status_code resp =? 200) then unexpected_status "torrents/info" resp
             else match json_parse (body resp) with
                  | inl what => error JsonParse what
                  | inr arr =>
                      match (if is_array arr then elements arr else []) with
                      | [] => error NotFound ("qBittorrent torrent not found: " +:+ value id)
                      | front :: _ => match to_status front with inl what => error JsonParse what | inr s => Ok s end
                      end
                  end).

Definition qbit_active : M C (Result (list DownloadStatus)) :=
  co_try resp <- authed_request (get_request "/api/v2/torrents/info?filter=downloading");
  co_return (if negb (status_code resp =? 200) then unexpected_status "torrents/info" resp
             else match json_parse (body resp) with
                  | inl what => error JsonParse what
                  | inr arr => match all_status (if is_array arr then elements arr else []) with
                               | inl what => error JsonParse what
                               | inr out => Ok out
                               end
                  end).

(** The counts of [global_stats], from a second request whose failures do not matter. *)
Definition torrent_counts (info : Result HttpResponse) (g : GlobalStats) : GlobalStats :=
  match info with
  | Err _ => g
  | Ok resp => if status_code resp =? 200
               then match json_parse (body resp) with
                    | inl _ => g
                    | inr arr => if is_array arr then count_states (elements arr) g else g
                    end
               else g
  end.

Definition qbit_global_stats : M C (Result GlobalStats) :=
  co_try resp <- authed_request (get_request "/api/v2/transfer/info");
  if negb (status_code resp =? 200) then co_return unexpected_status "transfer/info" resp
  else match (try j <- json_parse (body resp);
              try dl <- json_value get_int64 j "dl_info_speed" 0;
              try up <- json_value get_int64 j "up_info_speed" 0;
              inr (MkGlobalStats dl up 0 0 0)) with
       | inl what => co_return error JsonParse what
       | inr stats =>
           co_await info <- authed_request (get_request "/api/v2/torrents/info");
           co_return Ok (torrent_counts info stats)
       end.

(** The backend as the use cases see it; [supports_pipelining] keeps the interface's default. *)
Definition qbittorrent : DownloaderInterface C :=
  MkDownloader C (fun uri => qbit_add_uri uri (MkOptions None [])) qbit_pause qbit_resume qbit_remove qbit_status
    qbit_active qbit_global_stats false.

End Adapter.

(** ** Lemmas: encodings *)

(** Reference decoder of a form body. *)
Definition not_equals (c : ascii) : bool := negb (bool_decide (c = "="%char)).

Definition parse_field (l : list ascii) : option (string * string) :=
  match percent_decode (take_while not_equals l), percent_decode (drop 1 (drop_while not_equals l)) with
  | Some k, Some v => Some (of_chars k, of_chars v)
  | _, _ => None
  end.

Definition parse_form (s : string) : option (list (string * string)) := mapM parse_field (split_on "&"%char (chars s)).

Lemma form_field_parse f : parse_field (chars (form_field f)) = Some f.
Proof.
  destruct f as [k v]. unfold parse_field, form_field. rewrite !chars_app. change (chars "=") with ["="%char]. cbn [app fst snd].
  assert (Forall (fun c => not_equals c = true) (chars (url_encode k))) as Hk.
  { eapply Forall_impl; [apply url_encode_safe|]. intros c. unfold form_safe, not_equals. by intros [_ ?]%andb_true_iff. }
  rewrite drop_while_all by done. cbn [drop_while]. change (not_equals "="%char) with false. cbn beta iota. change (drop 1 (?c :: ?l)) with l.
  assert (take_while not_equals (chars (url_encode k) ++ "="%char :: chars (url_encode v)) = chars (url_encode k)) as ->.
  { induction Hk as [|c l Hc _ IH]; simpl; [done|]. by rewrite Hc, IH. }
  unfold url_encode. rewrite !chars_of_chars.
  pose proof (percent_decode_encode (chars k) []) as H1. pose proof (percent_decode_encode (chars v) []) as H2.
  rewrite !app_nil_r in *. rewrite H1, H2. simpl. by rewrite !app_nil_r, !of_chars_chars.
Qed.

Lemma form_field_safe f : Forall (fun c => c <> "&"%char) (chars (form_field f)).
Proof.
  assert (forall s, Forall (fun c => c <> "&"%char) (chars (url_encode s))) as H.
  { intros s. eapply Forall_impl; [apply url_encode_safe|]. intros c. unfold form_safe.
    by intros [?%negb_true_iff%bool_decide_eq_false _]%andb_true_iff. }
  unfold form_field. rewrite !chars_app, !Forall_app. split_and!; [done| |done]. by repeat constructor.
Qed.

(** Form bodies are unambiguous: whatever bytes the names and values hold, a password or
    a torrent hash included, the standard decoding of the body that [make_form] builds gives
    back exactly the fields, in order. *)
Theorem form_roundtrip fields : fields <> [] -> parse_form (make_form fields) = Some fields.
Proof.
  unfold parse_form. induction fields as [|f rest IH]; [done|]. intros _. destruct rest as [|g rest].
  - cbn [make_form]. rewrite split_on_none by apply form_field_safe. simpl. by rewrite form_field_parse.
  - change (make_form (f :: g :: rest)) with (form_field f +:+ "&" +:+ make_form (g :: rest)).
    rewrite !chars_app. change (chars "&") with ["&"%char]. cbn [app]. rewrite split_on_app by apply form_field_safe.
    cbn [mapM]. by rewrite form_field_parse, IH.
Qed.

(** ** Sessions *)

Section Auth.
  Context `{json_lib : !Json} {W : Type} `{http : !HttpClient W, rng : !Random W, hash_lib : !HashOrder}.
  Context `{others : !OtherCalls W}.
  Context (config : QbittorrentConfig) (sent : W -> list HttpRequest).

(** [sent] is the log of this call: its requests are appended, those of the others are not in it. *)
Class HttpLog : Prop := {
  http_logged r w : sent (http_request r w).2 = sent w ++ [r];
  others_unlogged c : sent (other_calls c).2.2 = sent c.2
}.
Context `{logged : !HttpLog}.

Notation C := (Session * W)%type.

Definition session_ok (s : Session) : Prop := connected s = true -> session_id s <> "".

(** No other call ends the session: none is refused with a 403. *)
Definition kept : Prop :=
  forall c : C, session_ok c.1 ->
    session_ok (other_calls c).2.1 /\ (connected c.1 = true -> connected (other_calls c).2.1 = true).

Definition preferences_request (sid : string) : HttpRequest :=
  MkRequest Post (url config "/api/v2/app/setPreferences")
    [urlencoded; MkHeader "Referer" (base_url config); sid_cookie sid]
    ("json=" +:+ url_encode (dump_text (preferences config))) kDefaultRequestTimeout.

(** What the adapter may send on behalf of [req], with ids that satisfy [P]. *)
Definition authentic (P : string -> Prop) (req r : HttpRequest) : Prop :=
  r = login_request config \/ exists sid, P sid /\ (r = preferences_request sid \/ r = add_header (sid_cookie sid) req).

Lemma authentic_impl (P Q : string -> Prop) req r :
  (forall sid, P sid -> Q sid) -> authentic P req r -> authentic Q req r.
Proof. intros H [->|(sid & Hp & Hr)]; [by left|]. right. exists sid. auto. Qed.

Lemma session_cookie_nonempty hs sid : session_cookie hs = Some sid -> sid <> "".
Proof.
  induction hs as [|h hs IH]; simpl; [done|]. destruct (_ || _); [|done].
  destruct (str_empty (parse_sid (h_value h))) eqn:E; [done|]. intros [= <-] H. by rewrite H in E.
Qed.

(** The condition [K] under which ids are not empty. *)
Section Kept.
  Context (K : Prop) (others_keep : K -> kept).

Definition nonempty (sid : string) : Prop := K -> sid <> "".
Definition sound (s : Session) : Prop := K -> session_ok s.
Definition up (s : Session) : Prop := K -> connected s = true.

(** A read of the id sees anything, but nothing empty while a session is kept. *)
Lemma current_session_id_effect c : sound c.1 -> up c.1 ->
  let '(sid, c') := current_session_id c in
  nonempty sid /\ sent c'.2 = sent c.2 /\ sound c'.1 /\ up c'.1.
Proof.
  intros Hs Hu. unfold current_session_id. rewrite !mbind_proj. cbn [get_state mreturn fst snd].
  pose proof (others_unlogged c) as Ho. unfold nonempty, sound, up in *.
  assert (K -> session_ok (other_calls c).2.1 /\ connected (other_calls c).2.1 = true) as H.
  { intros k. destruct (others_keep k c (Hs k)) as [Hs' Hu']. auto. }
  split_and!; [|done|intros k; by destruct (H k)..]. intros k. destruct (H k) as [Hs' Hu']. by apply Hs'.
Qed.

Lemma is_connected_effect c : sound c.1 ->
  let '(b, c') := is_connected c in
  sent c'.2 = sent c.2 /\ sound c'.1 /\ (b = true -> up c'.1).
Proof.
  intros Hs. unfold is_connected. rewrite !mbind_proj. cbn [get_state mreturn fst snd].
  pose proof (others_unlogged c) as Ho. split_and!; [done|intros k; by apply (others_keep k c (Hs k))|by intros Hc _].
Qed.

Lemma store_session_effect sid c : sid <> "" ->
  sent (store_session sid c).2.2 = sent c.2 /\ sound (store_session sid c).2.1 /\ up (store_session sid c).2.1.
Proof.
  intros Hne. unfold store_session. rewrite mbind_proj. cbn [put_state fst snd]. pose proof (others_unlogged c) as Ho.
  split_and!; [done|by intros _ _|]. intros _. simpl. destruct (str_empty sid) eqn:E; [|done]. by apply str_empty_spec in E.
Qed.

Lemma clear_session_effect c : sent (clear_session c).2.2 = sent c.2 /\ sound (clear_session c).2.1.
Proof. unfold clear_session. rewrite mbind_proj. cbn [put_state fst snd]. split; [apply others_unlogged|by intros _]. Qed.

Lemma push_preferences_effect req c : sound c.1 -> up c.1 ->
  let '(r, c') := push_preferences config c in
  sound c'.1 /\ up c'.1 /\ exists sid, sent c'.2 = sent c.2 ++ [preferences_request sid] /\
    authentic nonempty req (preferences_request sid).
Proof.
  intros Hs Hu. unfold push_preferences, try_bind. rewrite mbind_proj.
  pose proof (current_session_id_effect c Hs Hu) as H1. destruct (current_session_id c) as [sid [s1 w1]].
  destruct H1 as (Hsid & Hl & Hs1 & Hu1). cbn [fst snd] in *. rewrite mbind_proj. cbn [lift fst snd].
  fold (preferences_request sid). pose proof (http_logged (preferences_request sid) w1) as Hlog. rewrite Hl in Hlog.
  destruct (http_request (preferences_request sid) w1) as [[resp|e] w2]; cbn [fst snd mreturn] in *;
    (split; [done|]; split; [done|]; exists sid; split; [exact Hlog|]; right; exists sid; split; [done|by left]).
Qed.

(** Logging in sends the login and at most the preferences, and succeeds with a session. *)
Lemma login_effect req c : sound c.1 ->
  let '(r, c') := login config c in
  sound c'.1 /\ (r = Ok () -> up c'.1) /\
  exists l, sent c'.2 = sent c.2 ++ login_request config :: l /\ (length l <= 1)%nat /\ Forall (authentic nonempty req) l.
Proof.
  intros Hs. unfold login, try_bind. rewrite mbind_proj. pose proof (http_logged (login_request config) c.2) as Hlog.
  destruct c as [s w]. cbn [lift fst snd] in *. destruct (http_request (login_request config) w) as [[resp|e] w1]; cbn [fst snd mreturn] in *.
  2: { split_and!; [done..|]. exists []; split_and!; simpl; auto. }
  destruct (negb (status_code resp =? 200)); [split_and!; [done..|]; exists []; split_and!; simpl; auto|].
  destruct (negb (str_contains (body resp) "Ok.")); [split_and!; [done..|]; exists []; split_and!; simpl; auto|].
  destruct (session_cookie (resp_headers resp)) as [sid|] eqn:Hsid; [|split_and!; [done..|]; exists []; split_and!; simpl; auto].
  apply session_cookie_nonempty in Hsid. rewrite !mbind_proj.
  destruct (store_session_effect sid (s, w1) Hsid) as (Hl2 & Hs2 & Hu2).
  pose proof (push_preferences_effect req (store_session sid (s, w1)).2 Hs2 Hu2) as H3.
  destruct (push_preferences config (store_session sid (s, w1)).2) as [r3 c3]. destruct H3 as (Hs3 & Hu3 & sid' & Hl3 & Ha).
  cbn [mreturn fst snd] in *. split_and!; [done|done|]. exists [preferences_request sid'].
  rewrite Hl3, Hl2, Hlog, <- app_assoc. split_and!; [done|simpl; lia|by constructor].
Qed.

Lemma ensure_login_effect req c : sound c.1 ->
  let '(r, c') := ensure_login config c in
  sound c'.1 /\ (r = Ok () -> up c'.1) /\
  exists l, sent c'.2 = sent c.2 ++ l /\ (length l <= 2)%nat /\ Forall (authentic nonempty req) l.
Proof.
  intros Hs. unfold ensure_login. rewrite mbind_proj. pose proof (is_connected_effect c Hs) as H1.
  destruct (is_connected c) as [b c1]. destruct H1 as (Hl1 & Hs1 & Hu1). cbn [fst snd]. destruct b; cbn [mreturn].
  - split_and!; [done|auto|]. exists []. rewrite app_nil_r. split_and!; [done|simpl; lia|done].
  - pose proof (login_effect req c1 Hs1) as H2. destruct (login config c1) as [r c']. destruct H2 as (Hs2 & Hr & l & Hl & Hn & Hf).
    split_and!; [done|done|]. exists (login_request config :: l). rewrite <- Hl1. split_and!; [done|simpl; lia|].
    constructor; [by left|done].
Qed.

Lemma drop_own_cookie req sid :
  Forall (fun h => h_name h <> "Cookie") (rq_headers req) -> drop_cookies (add_header (sid_cookie sid) req) = req.
Proof.
  intros H. destruct req as [m u hs b t]. unfold drop_cookies, add_header. simpl in *. f_equal.
  rewrite filter_app. rewrite (filter_cons_False _ (sid_cookie sid)) by (simpl; tauto). rewrite filter_nil, app_nil_r.
  induction H as [|h hs Hh _ IH]; [done|]. by rewrite filter_cons_True, IH.
Qed.

(** The call itself, with the id that is read for it. *)
Lemma send_effect req c : sound c.1 -> up c.1 ->
  let '(r, c') := (co_await sid <- current_session_id; lift (http_request (add_header (sid_cookie sid) req))) c in
  sound c'.1 /\ exists sid, sent c'.2 = sent c.2 ++ [add_header (sid_cookie sid) req] /\
    authentic nonempty req (add_header (sid_cookie sid) req).
Proof.
  intros Hs Hu. rewrite mbind_proj. pose proof (current_session_id_effect c Hs Hu) as H1.
  destruct (current_session_id c) as [sid [s1 w1]]. destruct H1 as (Hsid & Hl & Hs1 & Hu1). cbn [lift fst snd] in *.
  split; [done|]. exists sid. rewrite http_logged, Hl. split; [done|]. right. exists sid. split; [done|by right].
Qed.

(** The first attempt and, after a 403, the second. *)
Lemma authed_request_effect req c :
  sound c.1 -> Forall (fun h => h_name h <> "Cookie") (rq_headers req) ->
  let '(r, c') := authed_request config req c in
  sound c'.1 /\
  exists l, sent c'.2 = sent c.2 ++ l /\ (length l <= 6)%nat /\ Forall (authentic nonempty req) l /\
    match r with
    | Ok resp => (exists sid, last l = Some (add_header (sid_cookie sid) req)) /\
                 (status_code resp = 403 -> login_request config ∈ l)
    | Err _ => True
    end.
Proof.
  intros Hs Hreq. unfold authed_request, try_bind. rewrite mbind_proj.
  pose proof (ensure_login_effect req c Hs) as H1.
  destruct (ensure_login config c) as [[[]|e] c1]; destruct H1 as (Hs1 & Hu1 & l1 & Hl1 & Hn1 & Hf1); cbn [fst snd mreturn] in *.
  2: { split; [done|]. exists l1. split_and!; [done|lia|done|done]. }
  specialize (Hu1 eq_refl). rewrite mbind_proj. pose proof (current_session_id_effect c1 Hs1 Hu1) as H2.
  destruct (current_session_id c1) as [sid [s2 w2]]. destruct H2 as (Hsid & Hl2 & Hs2 & Hu2). rewrite mbind_proj.
  cbn [lift fst snd] in *. set (call := add_header (sid_cookie sid) req).
  pose proof (http_logged call w2) as Hlog. rewrite Hl2, Hl1, <- app_assoc in Hlog.
  assert (Forall (authentic nonempty req) (l1 ++ [call])) as Hf2.
  { apply Forall_app. split; [done|]. constructor; [|done]. right. exists sid. split; [done|by right]. }
  destruct (http_request call w2) as [[resp|e] w3]; cbn [fst snd mreturn] in *.
  2: { split; [done|]. exists (l1 ++ [call]). rewrite length_app. split_and!; [done|simpl; lia|done|done]. }
  destruct (Z.eqb_spec (status_code resp) 403) as [H403|H403].
  2: { split; [done|]. exists (l1 ++ [call]). rewrite length_app, last_snoc. split_and!; [done|simpl; lia|done|by exists sid|done]. }
  rewrite mbind_proj. destruct (clear_session_effect (s2, w3)) as [Hl4 Hs4].
  set (c4 := (clear_session (s2, w3)).2) in *. cbn [fst snd] in Hl4. rewrite mbind_proj.
  pose proof (login_effect req c4 Hs4) as H5.
  destruct (login config c4) as [[[]|e] c5]; destruct H5 as (Hs5 & Hu5 & l5 & Hl5 & Hn5 & Hf5); cbn [fst snd mreturn] in *;
    rewrite Hl4, Hlog, <- !app_assoc in Hl5.
  2: { split; [done|]. exists (l1 ++ [call] ++ login_request config :: l5).
       rewrite !length_app. split_and!; [done|simpl; lia| |done].
       rewrite app_assoc. apply Forall_app. split; [done|]. constructor; [by left|done]. }
  pose proof (send_effect req c5 Hs5 (Hu5 eq_refl)) as H6.
  unfold call. rewrite drop_own_cookie by done. fold call.
  destruct ((co_await sid <- current_session_id; lift (http_request (add_header (sid_cookie sid) req))) c5) as [r c6].
  destruct H6 as (Hs6 & sid6 & Hl6 & Ha6). rewrite Hl5, <- !app_assoc in Hl6. split; [done|].
  exists (l1 ++ [call] ++ login_request config :: l5 ++ [add_header (sid_cookie sid6) req]). split_and!.
  - rewrite Hl6. by rewrite <- ?app_assoc.
  - rewrite !length_app. simpl. rewrite length_app. simpl. lia.
  - rewrite app_assoc. apply Forall_app. split; [done|]. constructor; [by left|]. apply Forall_app. split; [done|by constructor].
  - destruct r as [resp6|e]; [|done]. split; [exists sid6|intros _; set_solver].
    by rewrite !app_assoc, app_comm_cons, app_assoc, last_snoc.
Qed.
End Kept.

(** A request with a session cookie that names no session. *)
Definition anonymous (r : HttpRequest) : Prop := sid_cookie "" ∈ rq_headers r.

Lemma sid_cookie_inj sid sid' : sid_cookie sid = sid_cookie sid' -> sid = sid'.
Proof. intros H. injection H as H. exact H. Qed.

Lemma authentic_named req r :
  Forall (fun h => h_name h <> "Cookie") (rq_headers req) -> authentic (fun sid => sid <> "") req r -> ~ anonymous r.
Proof.
  unfold anonymous. intros Hreq [->|(sid & Hne & [->| ->])]; cbn [login_request preferences_request add_header rq_headers].
  - intros [H|[H|H%elem_of_nil]%elem_of_cons]%elem_of_cons; [discriminate H|discriminate H|done].
  - intros [H|[H|[H|H%elem_of_nil]%elem_of_cons]%elem_of_cons]%elem_of_cons; [discriminate H|discriminate H| |done].
    by apply sid_cookie_inj in H.
  - intros [H|H%list_elem_of_singleton]%elem_of_app; [|by apply sid_cookie_inj in H].
    by apply (proj1 (Forall_forall _ _) Hreq) in H.
Qed.

(** C23. Authentication, with any number of calls that share the session: whatever the server
    answers and whatever the other calls do to the session meanwhile, a call sends six requests
    at most; each is the login, the preferences or the call itself with exactly one session
    cookie, never a stale one beside a new one; the password leaves only in the login; an
    answer is that of the call, sent last, and one with a 403 is returned only after logging in
    again.  As long as no other call ends the session under it, no request names an empty
    session; when one does, [cleared_session_sent] says what happens. *)
Theorem requests_authenticated req s w :
  Forall (fun h => h_name h <> "Cookie") (rq_headers req) ->
  let '(r, (s', w')) := authed_request config req (s, w) in
  exists l, sent w' = sent w ++ l /\ (length l <= 6)%nat /\ Forall (authentic (fun _ => True) req) l /\
    (kept -> session_ok s -> session_ok s' /\ Forall (fun r => ~ anonymous r) l) /\
    match r with
    | Ok resp => (exists sid, last l = Some (add_header (sid_cookie sid) req)) /\
                 (status_code resp = 403 -> login_request config ∈ l)
    | Err _ => True
    end.
Proof.
  intros Hreq. pose proof (authed_request_effect (kept /\ session_ok s) (@proj1 _ _) req (s, w) (@proj2 _ _) Hreq) as H.
  destruct (authed_request config req (s, w)) as [r [s' w']]. destruct H as (Hs & l & Hl & Hn & Hf & Hr).
  exists l. split_and!; [done|done| | |done].
  - eapply Forall_impl; [exact Hf|]. intros r'. by apply authentic_impl.
  - intros Hk Hok. split; [by apply Hs|]. eapply Forall_impl; [exact Hf|]. intros r' Ha.
    apply (authentic_named req); [done|]. eapply authentic_impl; [|exact Ha]. intros sid Hsid. by apply Hsid.
Qed.

(** What follows a 403 only adds requests. *)
Lemma retry_effect req c : exists l,
  sent ((co_do clear_session; co_try again <- login config; co_await sid <- current_session_id;
         lift (http_request (add_header (sid_cookie sid) req))) c).2.2 = sent c.2 ++ l.
Proof.
  rewrite mbind_proj. destruct (clear_session_effect False c) as [Hl1 _]. unfold try_bind. rewrite mbind_proj.
  pose proof (login_effect False (False_ind kept) req (clear_session c).2 (False_ind _)) as H.
  destruct (login config (clear_session c).2) as [[[]|e] c2]; destruct H as (_ & _ & l & Hl2 & _); cbn [fst snd mreturn] in *;
    rewrite Hl1 in Hl2; [|by eexists].
  pose proof (send_effect False (False_ind kept) req c2 (False_ind _) (False_ind _)) as H3.
  destruct ((co_await sid <- current_session_id; lift (http_request (add_header (sid_cookie sid) req))) c2) as [r c3].
  destruct H3 as (_ & sid & Hl3 & _). cbn [snd]. rewrite Hl3, Hl2, <- app_assoc. by eexists.
Qed.

(** The two reads of the session are not one: when a call finds a session, and another call
    ends it before the id is read, the request goes out with an empty id. *)
Theorem cleared_session_sent req s w :
  connected (other_calls (s, w)).2.1 = true -> (other_calls (other_calls (s, w)).2).2.1 = no_session ->
  exists l, sent (authed_request config req (s, w)).2.2 = sent w ++ add_header (sid_cookie "") req :: l /\
            anonymous (add_header (sid_cookie "") req).
Proof.
  intros Hc Hn. unfold authed_request, try_bind, ensure_login, is_connected.
  pose proof (others_unlogged (s, w)) as Ho1. destruct (other_calls (s, w)) as [[] c1] eqn:E1. cbn [fst snd] in *.
  pose proof (others_unlogged c1) as Ho2. destruct (other_calls c1) as [[] c2] eqn:E2. cbn [fst snd] in *.
  rewrite !mbind_proj, E1. cbn [get_state mreturn fst snd]. rewrite Hc. cbn [mreturn fst snd].
  assert (current_session_id c1 = ("", (no_session, c2.2))) as Hsid.
  { unfold current_session_id. rewrite !mbind_proj, E2. cbn [get_state mreturn fst snd]. destruct c2; cbn in *. by rewrite Hn. }
  rewrite (mbind_proj current_session_id), Hsid. cbn [fst snd]. rewrite mbind_proj. cbn [lift fst snd].
  set (call := add_header (sid_cookie "") req).
  assert (anonymous call) as Ha.
  { unfold anonymous, call, add_header. cbn [rq_headers]. rewrite elem_of_app, list_elem_of_singleton. by right. }
  pose proof (http_logged call c2.2) as Hlog. rewrite Ho2, Ho1 in Hlog.
  destruct (http_request call c2.2) as [[resp|e] w3]; cbn [fst snd mreturn] in *; [|by exists []].
  destruct (status_code resp =? 403); [|by exists []].
  destruct (retry_effect (drop_cookies call) (no_session, w3)) as [l Hl]. cbn [fst snd] in Hl.
  exists l. split; [|done]. unfold call in *. unfold try_bind in Hl. rewrite Hl, Hlog. by rewrite <- app_assoc.
Qed.
End Auth.

(** ** What a status says *)

Section Status.
  Context `{json_lib : !Json} {W : Type} `{http : !HttpClient W, rng : !Random W, hash_lib : !HashOrder, others : !OtherCalls W}.
  Context (config : QbittorrentConfig).

Lemma parse_state_never_complete text : parse_state text <> DComplete.
Proof. unfold parse_state. by repeat crush_match. Qed.

Lemma to_status_files j st : to_status j = inr st -> ds_files st = [] /\ ds_state st <> DComplete.
Proof.
  unfold to_status, throwing_bind. repeat crush_match; try done; intros [= <-]; simpl; split; try done.
  all: apply parse_state_never_complete.
Qed.

(** No status of this backend names a file, nor says that a download is complete. *)
Lemma qbit_status_files id c st : (qbit_status config id c).1 = Ok st -> ds_files st = [] /\ ds_state st <> DComplete.
Proof.
  unfold qbit_status, try_bind. rewrite mbind_proj. destruct (authed_request _ _ c) as [[resp|e] c1]; [|done].
  cbn [fst snd mreturn]. repeat crush_match; try done. intros [= <-]. by eapply to_status_files.
Qed.

End Status.

(** ** A concrete server *)

Module MemQbit.

#[export] Instance json_lib : Json := MemJson.json_of_table [
  ("torrents", MemJson.JArray [MemJson.JObject [("hash", MemJson.JString "h"); ("state", MemJson.JString "uploading");
                                                ("size", MemJson.JInt 10)]])].

(** The requests received. *)
Definition World : Type := list HttpRequest.

Definition count_url (u : string) (w : World) : nat := length (filter (fun r => rq_url r = u) w).

(** It forgets its first session, so that the first call is refused. *)
Definition respond (r : HttpRequest) (w : World) : HttpResponse :=
  if bool_decide (rq_url r = "http://q/api/v2/auth/login")
  then MkResponse 200 [MkHeader "Set-Cookie" ("SID=s" +:+ fmt_int (Z.of_nat (length w)) +:+ "; HttpOnly")] "Ok."
  else if bool_decide (rq_url r = "http://q/api/v2/app/setPreferences") then MkResponse 200 [] ""
  else if (count_url "http://q/api/v2/auth/login" w <? 2)%nat then MkResponse 403 [] "Forbidden"
  else MkResponse 200 [] "torrents".

#[export] Instance http : HttpClient World := fun r w => (Ok (respond r w), w ++ [r]).

(** Alone on the adapter. *)
#[export] Instance alone : OtherCalls World := mreturn ().
#[export] Instance log : HttpLog (W := World) id.
Proof. by split. Qed.

(** Beside a call that ends the session at its second access. *)
Definition ended_by_another : OtherCalls (World * nat) := fun c =>
  ((), (if bool_decide (c.2.2 = 1%nat) then no_session else c.1, (c.2.1, S c.2.2))).
Definition counting_http : HttpClient (World * nat) := fun r w => (Ok (respond r w.1), (w.1 ++ [r], w.2)).
Definition counting_log : HttpLog (http := counting_http) (others := ended_by_another) fst.
Proof. by split. Qed.
#[export] Instance rng : Random World := fun n => mreturn 0%nat.
#[export] Program Instance hash_order : HashOrder := {| hash_order s := base.elements s |}.
Next Obligation. intros. apply elem_of_elements. Qed.

Definition config : QbittorrentConfig :=
  let d := default_qbittorrent in
  MkQbittorrentConfig "http://q//" "bot" "p&ss=1" (qb_seed_ratio_limit d) 60 8 8 16 500 100 20 5 0 0 true true true false 8 256.

End MemQbit.
Import MemQbit.

Lemma requests_authenticated_witness :
  let '(r, (s, w)) := authed_request config (get_request config "/api/v2/torrents/info") (no_session, [] : World) in
  session_ok s /\ session_id s = "s3" /\ length w = 6%nat /\ login_request config ∈ w /\ Forall (fun r => ~ anonymous r) w.
Proof.
  pose proof (requests_authenticated (W := World) config id (get_request config "/api/v2/torrents/info") no_session []
    ltac:(constructor)) as H.
  destruct (authed_request config (get_request config "/api/v2/torrents/info") (no_session, [] : World)) as [r [s w]] eqn:E.
  destruct H as (l & Hl & _ & _ & Hkept & _). cbn in Hl. subst l.
  destruct Hkept as [Hs Hf]; [by intros c Hc; split|done|]. split; [exact Hs|].
  vm_compute in E. injection E as <- <- <-. split; [reflexivity|]. split; [reflexivity|]. split; [|exact Hf]. vm_compute. left.
Defined.

Lemma cleared_session_sent_witness :
  exists l, (authed_request (http := counting_http) (others := ended_by_another) config
               (get_request config "/api/v2/torrents/info") (MkSession "s1" true, ([], 0%nat))).2.2.1
            = add_header (sid_cookie "") (get_request config "/api/v2/torrents/info") :: l.
Proof.
  destruct (cleared_session_sent (logged := counting_log) config fst (get_request config "/api/v2/torrents/info")
    (MkSession "s1" true) ([], 0%nat) eq_refl eq_refl) as (l & Hl & _).
  exists l. exact Hl.
Defined.

Lemma form_roundtrip_witness :
  parse_form (make_form [("username", "bot"); ("password", "p&ss=1")]) = Some [("username", "bot"); ("password", "p&ss=1")].
Proof. apply (form_roundtrip [("username", "bot"); ("password", "p&ss=1")]). done. Defined.
