(* ===== verification/Aria2Rpc.v ===== *)
(** * Calls over the aria2 connection: [download/aria2_downloader.cpp], [Aria2Downloader::Impl]

    Requests and replies share one WebSocket; a reply finds its call through the map
    [pending_] and wakes it by cancelling its timer.  A step is what a coroutine runs between
    two suspension points; the network decides which event comes next.  A cancelled coroutine
    leaves at its next [co_await], as Boost.Asio documents.

    The reader and the pieces that follow a [post] run on the strand.  What follows a write
    does not: the coroutine of a call goes on where its caller runs, and there starts the wait
    on its timer or, when the write failed, wakes the other calls and erases its slot.  The
    model takes each of those pieces as one step too.  So it covers every order of the pieces
    but not two of them at once, which in the code is a data race on the map and on the
    timers, whose effect the language leaves open. *)

From S2P Require Import Prelude CoreError ConfigData Json.

(** Where a call is suspended. *)
Inductive Phase {json : Type} :=
| Posted
| SendPosted
| Writing
| Waiting
| Fetching
| Returned (r : Result json).
Arguments Phase : clear implicits.

Section Rpc.
  Context `{json_lib : !Json} (timeout_ms : Z).

(** [struct PendingCall] with the place of the coroutine that owns it. *)
Record PendingCall := MkCall {
  phase : Phase json;
  response : option json;
  failure : option AppError
}.

(** [connected_], whether a stream exists, the keys of [pending_], and every call with the slot
    its request id owns; ids are fresh. *)
Record Rpc := MkRpc {
  connected : bool;
  stream : bool;
  pending : gset string;
  calls : gmap string PendingCall
}.

Definition initial : Rpc := MkRpc false false ∅ ∅.

Inductive Event :=
| Issue (id : string)
| Resume (id : string)
| Written (id : string)
| WriteFailed (id what : string)
| WriteThrew (id what : string)
| Received (text : string)
| StreamCreated
| Connected
| ConnectFailed
| Disconnected
| TimedOut (id what : string).

Definition set_call (id : string) (c : PendingCall) (s : Rpc) : Rpc :=
  MkRpc (connected s) (stream s) (pending s) (<[id := c]> (calls s)).
Definition at_phase (p : Phase json) (c : PendingCall) : PendingCall := MkCall p (response c) (failure c).

(** [pending_.erase(id)] and the return. *)
Definition finish (id : string) (r : Result json) (c : PendingCall) (s : Rpc) : Rpc :=
  MkRpc (connected s) (stream s) (pending s ∖ {[ id ]}) (<[id := at_phase (Returned r) c]> (calls s)).

(** [wake->cancel()]: it wakes a coroutine that is waiting; cancelling a timer that nobody waits
    on does nothing. *)
Definition wake (c : PendingCall) : PendingCall :=
  match phase c with Waiting => at_phase Fetching c | _ => c end.

(** [fail_all_pending]. *)
Definition fail_call (e : AppError) (c : PendingCall) : PendingCall :=
  wake (MkCall (phase c) (response c) (Some e)).
Definition fail_all_pending (e : AppError) (s : Rpc) : Rpc :=
  MkRpc (connected s) (stream s) (pending s)
    (map_imap (fun id c => Some (if bool_decide (id ∈ pending s) then fail_call e c else c)) (calls s)).

(** What [call_with_correlation] returns once it is awake. *)
Definition outcome (c : PendingCall) : Result json :=
  match response c, failure c with
  | Some v, _ => Ok v
  | None, Some e => Err e
  | None, None => error Aria2Rpc "aria2 RPC slot abandoned without response"
  end.

(** ** Messages *)

Inductive Reply :=
| Ignored
| Threw (what : string)
| ReplyTo (id : string) (r : Result json).

(** The parsing part of [handle_message]; [e.value(...)] may throw. *)
Definition reply_of (text : string) : Reply :=
  match json_parse text with
  | inl _ => Ignored
  | inr doc =>
      match string_member doc "id" with
      | None => Ignored
      | Some id =>
          match json_find doc "error" with
          | Some e =>
              match json_value get_int32 e "code" (-1), json_value get_string e "message" "unknown" with
              | inl what, _ => Threw what
              | _, inl what => Threw what
              | inr code, inr message =>
                  ReplyTo id (error Aria2Rpc ("aria2 RPC error " +:+ fmt_int code +:+ ": " +:+ message))
              end
          | None =>
              match json_find doc "result" with
              | Some v => ReplyTo id (Ok v)
              | None => ReplyTo id (error Aria2Rpc "aria2 response missing both result and error")
              end
          end
      end
  end.

(** Filling the slot. *)
Definition fill (r : Result json) (c : PendingCall) : PendingCall :=
  wake match r with
       | Ok v => MkCall (phase c) (Some v) (failure c)
       | Err e => MkCall (phase c) (response c) (Some e)
       end.

(** The end of [read_until_disconnect]. *)
Definition disconnect (s : Rpc) : Rpc :=
  let s := fail_all_pending (MkError Network "aria2 connection lost") (MkRpc false (stream s) (pending s) (calls s)) in
  MkRpc (connected s) false (pending s) (calls s).

(** [handle_message]; an unknown id is looked up before the error is read, so only a reply to a
    pending call can throw, which ends the read loop. *)
Definition handle_message (text : string) (s : Rpc) : Rpc :=
  match reply_of text with
  | Ignored => s
  | Threw _ =>
      match json_parse text with
      | inr doc => match string_member doc "id" with
                   | Some id => if bool_decide (id ∈ pending s) then disconnect s else s
                   | None => s
                   end
      | inl _ => s
      end
  | ReplyTo id r =>
      if bool_decide (id ∈ pending s) then
        match calls s !! id with Some c => set_call id (fill r c) s | None => s end
      else s
  end.

(** ** Steps *)

(** A coroutine goes on after a [post] to the strand. *)
Definition resume (id : string) (c : PendingCall) (s : Rpc) : option Rpc :=
  match phase c with
  | Posted =>
      let s := MkRpc (connected s) (stream s) ({[ id ]} ∪ pending s) (calls s) in
      Some (if connected s then set_call id (at_phase SendPosted c) s
            else finish id (error Network "aria2 WebSocket not connected") c s)
  | SendPosted =>
      Some (if stream s then set_call id (at_phase Writing c) s
            else finish id (error Network "aria2 WebSocket stream not initialized") c s)
  | Fetching => Some (finish id (outcome c) c s)
  | _ => None
  end.

(** [with_timeout]. *)
Definition timeout_error : AppError :=
  MkError Timeout ("operation exceeded " +:+ fmt_int timeout_ms +:+ "ms deadline").

(** The deadline passes.  A write that is cancelled fails like any other; a coroutine that
    waits leaves without erasing its slot. *)
Definition timed_out (id what : string) (c : PendingCall) (s : Rpc) : option Rpc :=
  match phase c with
  | Writing =>
      let s := fail_all_pending (MkError Network what) s in
      Some (finish id (Err timeout_error) c s)
  | Waiting => Some (set_call id (at_phase (Returned (Err timeout_error)) c) s)
  | _ => None
  end.

Definition step (e : Event) (s : Rpc) : option Rpc :=
  match e with
  | Issue id => match calls s !! id with
                | None => Some (set_call id (MkCall Posted None None) s)
                | Some _ => None
                end
  | Resume id => c ← calls s !! id; resume id c s
  | Written id => c ← calls s !! id;
                  match phase c with Writing => Some (set_call id (at_phase Waiting c) s) | _ => None end
  | WriteFailed id what => c ← calls s !! id;
                  match phase c with
                  | Writing => Some (finish id (error Network what) c (fail_all_pending (MkError Network what) s))
                  | _ => None
                  end
  | WriteThrew id what => c ← calls s !! id;
                  match phase c with Writing => Some (finish id (error Network what) c s) | _ => None end
  | Received text => if stream s then Some (handle_message text s) else None
  | StreamCreated => Some (MkRpc (connected s) true (pending s) (calls s))
  | Connected => if stream s then Some (MkRpc true true (pending s) (calls s)) else None
  | ConnectFailed => Some (MkRpc false false (pending s) (calls s))
  | Disconnected => if stream s then Some (disconnect s) else None
  | TimedOut id what => c ← calls s !! id; timed_out id what c s
  end.

Fixpoint run (es : list Event) (s : Rpc) : option Rpc :=
  match es with
  | [] => Some s
  | e :: es => s' ← step e s; run es s'
  end.

(** ** Lemmas *)

Lemma fail_all_lookup e s id :
  calls (fail_all_pending e s) !! id =
    (fun c => if bool_decide (id ∈ pending s) then fail_call e c else c) <$> calls s !! id.
Proof. unfold fail_all_pending. simpl. rewrite map_lookup_imap. by destruct (calls s !! id). Qed.

Lemma fail_call_facts e c :
  response (fail_call e c) = response c /\ failure (fail_call e c) = Some e /\
  (phase (fail_call e c) = phase c \/ phase c = Waiting /\ phase (fail_call e c) = Fetching).
Proof. unfold fail_call, wake. simpl. destruct (phase c); simpl; auto. Qed.

Lemma fill_facts r c :
  (phase (fill r c) = phase c \/ phase c = Waiting /\ phase (fill r c) = Fetching) /\
  response (fill r c) = match r with Ok v => Some v | Err _ => response c end.
Proof. unfold fill, wake. destruct r, (phase c) eqn:E; simpl; rewrite ?E; auto. Qed.

(** What holds of a call given the messages so far: values come from a reply to its own id. *)
Definition sound (es : list Event) (id : string) (c : PendingCall) : Prop :=
  forall v, (response c = Some v \/ phase c = Returned (Ok v)) ->
    exists text, Received text ∈ es /\ reply_of text = ReplyTo id (Ok v).

(** How one call may change in a step. *)
Definition moves (e : Event) (id : string) (c c' : PendingCall) : Prop :=
  (forall r, phase c = Returned r -> phase c' = Returned r) /\
  (forall v, response c' = Some v -> response c = Some v \/ exists text, e = Received text /\ reply_of text = ReplyTo id (Ok v)) /\
  (forall v, phase c' = Returned (Ok v) -> phase c = Returned (Ok v) \/ response c = Some v).

Lemma moves_refl e id c : moves e id c c.
Proof. split_and!; auto. Qed.

Lemma moves_fail e id err c : moves e id c (fail_call err c).
Proof.
  destruct (fail_call_facts err c) as (Hr & _ & Hp). split_and!.
  - intros r E. destruct Hp as [->|[? _]]; congruence.
  - intros v. rewrite Hr. auto.
  - intros v E. destruct Hp as [Hp|[_ Hp]]; rewrite Hp in E; [by left|done].
Qed.

Lemma moves_at e id p c : (forall r, phase c <> Returned r) -> (forall v, p = Returned (Ok v) -> response c = Some v) ->
  moves e id c (at_phase p c).
Proof. intros Hc Hp. split_and!; simpl; [intros r E; by destruct (Hc r)|auto|eauto]. Qed.

Lemma outcome_ok c v : outcome c = Ok v -> response c = Some v.
Proof. unfold outcome. destruct (response c), (failure c); by intros [= ->]. Qed.

(** The calls of [s'] are those of [s], moved, and new ones. *)
Definition evolves (e : Event) (s s' : Rpc) : Prop :=
  forall id, match calls s !! id, calls s' !! id with
             | Some c, Some c' => moves e id c c'
             | Some _, None => False
             | None, Some c' => c' = MkCall Posted None None
             | None, None => True
             end.

Lemma evolves_same e s s' : calls s' = calls s -> evolves e s s'.
Proof. intros H id. rewrite H. destruct (calls s !! id); [apply moves_refl|done]. Qed.

Lemma evolves_fail e err s : evolves e s (fail_all_pending err s).
Proof.
  intros id. rewrite fail_all_lookup. destruct (calls s !! id) as [c|]; simpl; [|done].
  destruct (bool_decide _); [apply moves_fail|apply moves_refl].
Qed.

Lemma evolves_set e s s1 s' id c c' :
  evolves e s s1 -> calls s !! id = Some c -> moves e id c c' -> calls s' = <[id := c']> (calls s1) -> evolves e s s'.
Proof.
  intros H1 Hc Hm Hs id'. rewrite Hs. destruct (decide (id = id')) as [<-|Hne].
  - by rewrite lookup_insert_eq, Hc.
  - rewrite lookup_insert_ne by done. apply H1.
Qed.

Lemma evolves_disconnect e s : evolves e s (disconnect s).
Proof.
  intros id.
  apply (evolves_fail e (MkError Network "aria2 connection lost") (MkRpc false (stream s) (pending s) (calls s))).
Qed.

Lemma evolves_phase e s s1 s' id c p :
  evolves e s s1 -> calls s !! id = Some c -> (forall r, phase c <> Returned r) ->
  (forall v, p = Returned (Ok v) -> response c = Some v) -> calls s' = <[id := at_phase p c]> (calls s1) -> evolves e s s'.
Proof. intros. eapply evolves_set; [done|done|by apply moves_at|done]. Qed.

Lemma evolves_message text s : evolves (Received text) s (handle_message text s).
Proof.
  unfold handle_message. destruct (reply_of text) as [| |id r] eqn:R.
  - by apply evolves_same.
  - repeat crush_match; first [by apply evolves_same|apply evolves_disconnect].
  - destruct (bool_decide (id ∈ pending s)); [|by apply evolves_same].
    destruct (calls s !! id) as [c|] eqn:E; [|by apply evolves_same].
    eapply evolves_set; [by apply (evolves_same _ s s)|exact E| |reflexivity]. destruct (fill_facts r c) as [Hp Hr].
    split_and!.
    + intros r' E'. destruct Hp as [->|[? _]]; congruence.
    + intros v. rewrite Hr. destruct r as [v'|e]; [|by left]. intros [= ->]. right. by exists text.
    + intros v E'. destruct Hp as [Hp|[_ Hp]]; rewrite Hp in E'; [by left|done].
Qed.

Lemma step_evolves e s s' : step e s = Some s' -> evolves e s s'.
Proof.
  assert (forall s1, calls s1 = calls s -> evolves e s s1) as Hsame by (intros; by apply evolves_same).
  assert (forall e1 s1, calls s1 = calls (fail_all_pending e1 s) -> evolves e s s1) as Hfail.
  { intros e1 s1 H1 id. rewrite H1. apply (evolves_fail e e1 s). }
  destruct e as [id|id|id|id what|id what|text| | | | |id what]; simpl;
    try (destruct (calls s !! id) as [c|] eqn:E; simpl; [|try done]);
    try (destruct (stream s); [|done]); try done.
  - intros [= <-] id'. simpl. destruct (decide (id = id')) as [<-|Hne]; [by rewrite E, lookup_insert_eq|].
    rewrite lookup_insert_ne by done. apply (Hsame s eq_refl).
  - unfold resume. destruct (phase c) eqn:P; try done; intros [= <-]; repeat crush_match;
      (eapply evolves_phase; [by apply (Hsame s)|exact E|by rewrite P| |reflexivity]);
      first [done|intros v [= Hv]; by apply outcome_ok].
  - destruct (phase c) eqn:P; try done. intros [= <-].
    by eapply evolves_phase; [by apply (Hsame s)|exact E|by rewrite P| |reflexivity].
  - destruct (phase c) eqn:P; try done. intros [= <-].
    by eapply evolves_phase; [by apply (Hfail (MkError Network what))|exact E|by rewrite P| |reflexivity].
  - destruct (phase c) eqn:P; try done. intros [= <-].
    by eapply evolves_phase; [by apply (Hsame s)|exact E|by rewrite P| |reflexivity].
  - intros [= <-]. apply evolves_message.
  - intros [= <-]. by apply Hsame.
  - intros [= <-]. by apply Hsame.
  - intros [= <-]. by apply Hsame.
  - intros [= <-]. apply evolves_disconnect.
  - unfold timed_out. destruct (phase c) eqn:P; try done; intros [= <-].
    + by eapply evolves_phase; [by apply (Hfail (MkError Network what))|exact E|by rewrite P| |reflexivity].
    + by eapply evolves_phase; [by apply (Hsame s)|exact E|by rewrite P| |reflexivity].
Qed.

Lemma run_app es1 es2 s : run (es1 ++ es2) s = run es1 s ≫= run es2.
Proof. revert s. induction es1 as [|e es1 IH]; intros s; simpl; [done|]. destruct (step e s); simpl; [apply IH|done]. Qed.

Lemma returned_stays es s s' id c r :
  run es s = Some s' -> calls s !! id = Some c -> phase c = Returned r ->
  exists c', calls s' !! id = Some c' /\ phase c' = Returned r.
Proof.
  revert s c. induction es as [|e es IH]; intros s c; simpl; [intros [= ->]; eauto|].
  destruct (step e s) as [s1|] eqn:E; [|done]. simpl. intros Hrun Hc Hr. pose proof (step_evolves e s s1 E id) as H.
  rewrite Hc in H. destruct (calls s1 !! id) as [c1|] eqn:E1; [|done]. destruct H as (H & _ & _). by apply (IH s1 c1); [..|apply H].
Qed.

Lemma run_sound es s id c : run es initial = Some s -> calls s !! id = Some c -> sound es id c.
Proof.
  revert s id c. induction es as [|e es IH] using rev_ind; intros s id c.
  { intros [= <-]. cbn [calls initial]. by rewrite lookup_empty. }
  rewrite run_app. simpl. destruct (run es initial) as [s0|] eqn:E0; [|done]. simpl.
  destruct (step e s0) as [s1|] eqn:E1; [|done]. simpl. intros [= <-] Hc. pose proof (step_evolves e s0 s1 E1 id) as H.
  rewrite Hc in H. destruct (calls s0 !! id) as [c0|] eqn:E; [|subst c; by intros v [|]].
  specialize (IH s0 id c0 eq_refl E). destruct H as (_ & Hresp & Hret).
  assert (forall v, (response c0 = Some v \/ phase c0 = Returned (Ok v)) ->
    exists text, Received text ∈ es ++ [e] /\ reply_of text = ReplyTo id (Ok v)) as Hold.
  { intros v Hv. destruct (IH v Hv) as (text & Ht & Hr). exists text. split; [|done]. apply elem_of_app. by left. }
  intros v [Hv|Hv].
  - destruct (Hresp v Hv) as [?|(text & -> & Hr)]; [auto|]. exists text. split; [|done]. apply elem_of_app. right. left.
  - destruct (Hret v Hv) as [?|?]; auto.
Qed.

(** C25. Replies reach the call they answer: under every interleaving of calls, writes, messages,
    disconnections and deadlines, a call that returns a value returns one that the daemon sent
    under that call's own id, and what a call has returned never changes. *)
Theorem replies_correlated es s id c : run es initial = Some s -> calls s !! id = Some c ->
  (forall v, phase c = Returned (Ok v) -> exists text, Received text ∈ es /\ reply_of text = ReplyTo id (Ok v)) /\
  (forall r es' s', phase c = Returned r -> run es' s = Some s' ->
    exists c', calls s' !! id = Some c' /\ phase c' = Returned r).
Proof.
  intros Hrun Hc. split.
  - intros v Hv. apply (run_sound es s id c Hrun Hc). by right.
  - intros r es' s' Hr Hrun'. by eapply returned_stays.
Qed.

(** Events that do not concern a waiting call: no deadline, reply or exception of its own, and
    nothing that fails every pending call. *)
Definition unrelated (id : string) (e : Event) : Prop :=
  match e with
  | TimedOut _ _ | WriteFailed _ _ | Disconnected => False
  | Received text => match reply_of text with Ignored => True | Threw _ => False | ReplyTo id' _ => id' <> id end
  | _ => True
  end.

Lemma unrelated_step id e s s' c :
  unrelated id e -> calls s !! id = Some c -> phase c = Waiting -> step e s = Some s' -> calls s' !! id = Some c.
Proof.
  intros He Hc Hp Hs. destruct e as [i|i|i|i what|i what|text| | | | |i what]; simpl in *; try done.
  1-4: destruct (decide (i = id)) as [->|Hne];
    [rewrite Hc in Hs; simpl in Hs; unfold resume in *; rewrite ?Hp in Hs; done|].
  1-4: destruct (calls s !! i) as [c1|] eqn:E; simpl in Hs; try done; unfold resume in *; repeat case_match; simplify_eq;
    simpl; by rewrite lookup_insert_ne.
  - destruct (stream s); [|done]. injection Hs as <-. unfold handle_message. destruct (reply_of text) as [| |i r]; [done|done|].
    destruct (bool_decide _); [|done]. destruct (calls s !! i) eqn:E; [|done]. simpl. by rewrite lookup_insert_ne.
  - by injection Hs as <-.
  - destruct (stream s); [|done]. by injection Hs as <-.
  - by injection Hs as <-.
Qed.

(** C26. A reply that overtakes its write is lost: if the reply to a call is handled before the
    coroutine that sent the request runs again, its wake-up is dropped; the value lies in the
    slot, but until the call's deadline, a lost connection or a failed write of any call, nothing
    that happens makes the call return, and its deadline then reports a timeout. *)
Theorem early_reply_is_lost text id v s s1 es s2 c what :
  calls s !! id = Some c -> phase c = Writing -> id ∈ pending s -> reply_of text = ReplyTo id (Ok v) ->
  run [Received text; Written id] s = Some s1 -> Forall (unrelated id) es -> run es s1 = Some s2 ->
  exists c2, calls s2 !! id = Some c2 /\ phase c2 = Waiting /\ response c2 = Some v /\
    exists s3 c3, step (TimedOut id what) s2 = Some s3 /\ calls s3 !! id = Some c3 /\
      phase c3 = Returned (Err timeout_error) /\ pending s3 = pending s2.
Proof.
  intros Hc Hp Hin Hreply Hrun Hes Hrun2.
  assert (exists c1, calls s1 !! id = Some c1 /\ phase c1 = Waiting /\ response c1 = Some v) as (c1 & Hc1 & Hp1 & Hv1).
  { assert (fill (Ok v) c = MkCall Writing (Some v) (failure c)) as Hfill by (unfold fill, wake; simpl; by rewrite Hp).
    simpl in Hrun. destruct (stream s); [|done]. simpl in Hrun. unfold handle_message in Hrun.
    rewrite Hreply, bool_decide_true, Hc, Hfill in Hrun by done. simpl in Hrun. rewrite lookup_insert_eq in Hrun. simpl in Hrun.
    injection Hrun as <-. simpl. rewrite lookup_insert_eq. eauto. }
  assert (calls s2 !! id = Some c1) as Hc2.
  { clear Hrun Hc. revert s1 Hrun2 Hc1. induction Hes as [|e es He _ IH]; intros s1 Hrun2 Hc1; simpl in *; [congruence|].
    destruct (step e s1) as [s1'|] eqn:E; [|done]. apply (IH s1' Hrun2). by apply (unrelated_step id e s1). }
  exists c1. split_and!; [done..|]. simpl. rewrite Hc2. simpl. unfold timed_out. rewrite Hp1.
  eexists _, _. split; [done|]. simpl. by rewrite lookup_insert_eq.
Qed.

(** A reply in time is delivered: when the reply arrives while the call waits, the call is
    awake at once, and the next time its coroutine runs it returns exactly that reply and its
    slot is gone. *)
Theorem timely_reply_returns text id r s c :
  calls s !! id = Some c -> phase c = Waiting -> response c = None -> failure c = None -> id ∈ pending s -> stream s = true ->
  reply_of text = ReplyTo id r ->
  exists s', run [Received text; Resume id] s = Some s' /\
    (exists c', calls s' !! id = Some c' /\ phase c' = Returned r) /\ id ∉ pending s'.
Proof.
  intros Hc Hp Hresp Hfail Hin Hs Hr. simpl. rewrite Hs. simpl. unfold handle_message.
  rewrite Hr, bool_decide_true, Hc by done. simpl. rewrite lookup_insert_eq. simpl.
  assert (phase (fill r c) = Fetching /\ outcome (fill r c) = r) as [H1 H2].
  { unfold fill, wake, outcome. destruct r; simpl; rewrite Hp; simpl; rewrite ?Hresp; done. }
  unfold resume. rewrite H1. simpl. eexists. split; [done|]. simpl. rewrite lookup_insert_eq, H2. split; [eauto|set_solver].
Qed.

End Rpc.

(** ** A concrete connection *)

Module MemAria2.
Import MemJson.

#[export] Instance json_lib : Json := json_of_table [
  ("r1", JObject [("jsonrpc", JString "2.0"); ("id", JString "a1"); ("result", JString "gid")])].

(** The request [a1] has been handed to the socket. *)
Definition sending : Rpc := default initial (run 30000 [StreamCreated; Connected; Issue "a1"; Resume "a1"; Resume "a1"] initial).

(** It waits for the reply. *)
Definition waiting : Rpc := default initial (run 30000 [Written "a1"] sending).

Definition answered : list Event :=
  [StreamCreated; Connected; Issue "a1"; Resume "a1"; Resume "a1"; Written "a1"; Received "r1"; Resume "a1"].

Definition answered_end : Rpc := default initial (run 30000 answered initial).
Definition gid : json := JString "gid".
Definition answered_call : PendingCall := MkCall (Returned (Ok gid)) (Some gid) None.

End MemAria2.
Import MemAria2.

Lemma replies_correlated_witness :
  calls answered_end !! "a1" = Some answered_call /\
  exists text, Received text ∈ answered /\ reply_of text = ReplyTo "a1" (Ok gid).
Proof.
  assert (run 30000 answered initial = Some answered_end) as Hrun by (vm_compute; reflexivity).
  assert (calls answered_end !! "a1" = Some answered_call) as Hc by (vm_compute; reflexivity).
  split; [exact Hc|]. exact (proj1 (replies_correlated 30000 answered answered_end "a1" answered_call Hrun Hc) gid eq_refl).
Defined.

Lemma timely_reply_returns_witness :
  exists s', run 30000 [Received "r1"; Resume "a1"] waiting = Some s' /\
    (exists c', calls s' !! "a1" = Some c' /\ phase c' = Returned (Ok gid)) /\ "a1" ∉ pending s'.
Proof.
  assert ("a1" ∈ pending waiting) as Hin by (apply (bool_decide_unpack _); by vm_compute).
  exact (timely_reply_returns 30000 "r1" "a1" (Ok gid) waiting (MkCall Waiting None None)
    ltac:(vm_compute; reflexivity) eq_refl eq_refl eq_refl Hin ltac:(vm_compute; reflexivity) ltac:(vm_compute; reflexivity)).
Defined.

Lemma early_reply_is_lost_witness :
  exists s1 c2, run 30000 [Received "r1"; Written "a1"] sending = Some s1 /\
    calls s1 !! "a1" = Some c2 /\ phase c2 = Waiting /\ response c2 = Some gid.
Proof.
  assert (exists s1, run 30000 [Received "r1"; Written "a1"] sending = Some s1) as [s1 Hs1] by (eexists; vm_compute; reflexivity).
  assert ("a1" ∈ pending sending) as Hin by (apply (bool_decide_unpack _); by vm_compute).
  destruct (early_reply_is_lost 30000 "r1" "a1" gid sending s1 [] s1 (MkCall Writing None None) "x"
    ltac:(vm_compute; reflexivity) ltac:(reflexivity) Hin ltac:(vm_compute; reflexivity) Hs1 ltac:(constructor) ltac:(reflexivity))
    as (c2 & Hc & Hp & Hv & _).
  by exists s1, c2.
Defined.
