(* ===== verification/Aria2Downloader.v ===== *)
(** * The aria2 backend: [download/aria2_downloader.cpp]

    The adapter over the calls of [Aria2Rpc]: options, encodings, and the translation of
    aria2's records into [DownloadStatus].  A call is [Aria2Channel]; removing files is
    [FileSystem]. *)

From S2P Require Import Prelude CoreError Identifiers Ports ConfigData Json Encodings.

Local Open Scope coro_scope.

(** ** Encodings *)

(** [struct ParsedWsUrl]. *)
Record ParsedWsUrl := MkWsUrl { tls : bool; ws_host : string; ws_port : string; ws_target : string }.

(** [parse_ws_url]. *)
Definition parse_ws_url (url : string) : option ParsedWsUrl :=
  let scheme :=
    if starts_with url "wss://" then Some (true, drop 6 (chars url))
    else if starts_with url "ws://" then Some (false, drop 5 (chars url))
    else None in
  match scheme with
  | None => None
  | Some (tls, rest) =>
      let not_slash := fun c => negb (bool_decide (c = "/"%char)) in
      let authority := take_while not_slash rest in
      let target := match drop_while not_slash rest with [] => "/" | t => of_chars t end in
      let '(host, port) := match split_last ":"%char authority with
                           | None => (of_chars authority, if tls then "443" else "80")
                           | Some (h, p) => (of_chars h, of_chars p)
                           end in
      if str_empty host || str_empty port then None else Some (MkWsUrl tls host port target)
  end.

(** ** Records of aria2 *)

(** [parse_state]. *)
Definition parse_state (text : string) : DownloadState :=
  if bool_decide (text = "active") then DDownloading
  else if bool_decide (text = "waiting") then DQueued
  else if bool_decide (text = "paused") then DPaused
  else if bool_decide (text = "complete") then DComplete
  else if bool_decide (text = "error") then DError
  else if bool_decide (text = "removed") then DRemoved
  else DQueued.

Section Records.
  Context `{json_lib : !Json}.

(** [json_str_int64] with its default fallback. *)
Definition json_str_int64 (v : json) : Z :=
  if is_string v then match get_string v with inr s => default 0 (stoll s) | inl _ => 0 end
  else if is_number_integer v then match get_int64 v with inr n => n | inl _ => 0 end
  else 0.

(** [json_str_int64(j.value(key, json{}))] on an object. *)
Definition number_member (j : json) (key : string) : Z := json_str_int64 (default json_null (json_find j key)).

Definition object_member (j : json) (key : string) : option json :=
  match json_find j key with Some v => if is_object v then Some v else None | None => None end.

(** [to_status]; [j.value] throws unless [j] is an object. *)
Definition to_status (j : json) : string + DownloadStatus :=
  if negb (is_object j) then inl (not_an_object j)
  else
    let total := number_member j "totalLength" in
    let completed := number_member j "completedLength" in
    let speed := number_member j "downloadSpeed" in
    let eta := if (0 <? speed) && (0 <? total)
               then (let remaining := total - completed in if 0 <? remaining then remaining / speed else 0) else 0 in
    let files := omap (fun f => string_member f "path") (array_member j "files") in
    let name := match files with f :: _ => filename f | [] => "" end in
    let bt := object_member j "bittorrent" in
    let bt_name := bt ≫= fun bt => object_member bt "info" ≫= fun info => string_member info "name" in
    let count key := match bt with
                     | Some _ => (fun v => to_int32 (json_str_int64 v)) <$> json_find j key
                     | None => None
                     end in
    inr (MkStatus (MkId (default "" (string_member j "gid"))) (default name bt_name)
           (match string_member j "status" with Some text => parse_state text | None => DQueued end)
           total completed (number_member j "uploadLength") speed (number_member j "uploadSpeed") eta
           (string_member j "errorMessage") (string_member j "dir") files (count "numSeeders") (count "connections")).

(** [out[k] = v]. *)
Fixpoint set_member (k : string) (v : json) (l : list (string * json)) : list (string * json) :=
  match l with
  | [] => [(k, v)]
  | (k', v') :: rest => if bool_decide (k' = k) then (k, v) :: rest else (k', v') :: set_member k v rest
  end.

Definition text_options (l : list (string * string)) : list (string * json) := (fun o => (o.1, json_of_string o.2)) <$> l.

(** [build_global_throughput_options]. *)
Definition build_global_throughput_options : json :=
  json_object (text_options
    [("max-connection-per-server", "16"); ("split", "16"); ("min-split-size", "1M"); ("disk-cache", "128M");
     ("max-tries", "5"); ("retry-wait", "5"); ("max-overall-download-limit", "0"); ("max-overall-upload-limit", "0");
     ("max-file-not-found", "10"); ("max-concurrent-downloads", "16")]).

Definition throughput_defaults : list (string * string) :=
  [("max-connection-per-server", "16"); ("split", "16"); ("min-split-size", "1M"); ("max-tries", "5");
   ("retry-wait", "5"); ("continue", "true"); ("file-allocation", "falloc"); ("piece-length", "1M");
   ("check-integrity", "false"); ("allow-overwrite", "false"); ("auto-file-renaming", "true"); ("always-resume", "true")].

(** The members of [build_options]: the defaults, the directory, then the caller's options. *)
Definition option_members (opts : DownloadOptions) : list (string * json) :=
  let out := text_options throughput_defaults in
  let out := match save_directory opts with Some dir => set_member "dir" (json_of_string dir) out | None => out end in
  foldl (fun out o => set_member o.1 (json_of_string o.2) out) out (extras opts).

Definition build_options (opts : DownloadOptions) : json := json_object (option_members opts).

End Records.

(** ** The adapter *)

(** [call_with_correlation] under [with_timeout]: the request id and the request. *)
Class Aria2Channel (W : Type) `{!Json} := aria2_exchange : string -> json -> M W (Result json).

(** [std::filesystem::remove_all], with the message of a failure. *)
Class FileSystem (W : Type) := remove_all : string -> M W (option string).

Section Adapter.
  Context `{json_lib : !Json} {W : Type} `{channel : !Aria2Channel W, rng : !Random W, fs : !FileSystem W}.
  Context (secret : string).

(** [make_request_id]. *)
Definition make_request_id : M W string := random_chars 12 "abcdefghijklmnopqrstuvwxyz0123456789".

(** The parameters with the secret in front. *)
Definition with_token (params : list json) : list json :=
  if str_empty secret then params else json_of_string ("token:" +:+ secret) :: params.

(** [Impl::call]. *)
Definition call (method : string) (params : list json) : M W (Result json) :=
  co_await id <- make_request_id;
  aria2_exchange id (json_object [("jsonrpc", json_of_string "2.0"); ("id", json_of_string id);
    ("method", json_of_string method); ("params", json_array (with_token params))]).

(** A reply that must be a gid. *)
Definition gid_reply (method : string) (reply : json) : Result Gid :=
  match get_string reply with
  | inr gid => if is_string reply then Ok (MkId gid) else error Aria2Rpc (method +:+ " returned non-string gid")
  | inl _ => error Aria2Rpc (method +:+ " returned non-string gid")
  end.

Definition aria2_add_uri (uri : string) (options : DownloadOptions) : M W (Result Gid) :=
  co_try res <- call "aria2.addUri" [json_array [json_of_string uri]; build_options options];
  co_return gid_reply "aria2.addUri" res.

Definition aria2_add_torrent (torrent_data : string) (options : DownloadOptions) : M W (Result Gid) :=
  co_try res <- call "aria2.addTorrent" [json_of_string (base64_encode torrent_data); json_array []; build_options options];
  co_return gid_reply "aria2.addTorrent" res.

(** The calls whose reply is not looked at. *)
Definition command (method : string) (id : Gid) : M W (Result unit) :=
  co_try res <- call method [json_of_string (value id)];
  co_return Ok ().

Definition aria2_pause (id : Gid) : M W (Result unit) := command "aria2.pause" id.
Definition aria2_resume (id : Gid) : M W (Result unit) := command "aria2.unpause" id.

(** The files of a download, asked for before it is forgotten; a failure means none. *)
Definition produced_files (id : Gid) : M W (list string) :=
  co_await res <- call "aria2.tellStatus" [json_of_string (value id); json_array [json_of_string "files"]];
  co_return match res with
            | Ok j => if is_object j then omap (fun f => string_member f "path") (array_member j "files") else []
            | Err _ => []
            end.

(** A failure to unlink is only logged. *)
Fixpoint unlink_all (files : list string) : M W unit :=
  match files with
  | [] => co_return ()
  | f :: rest => co_await ec <- remove_all f; unlink_all rest
  end.

Definition aria2_remove (id : Gid) (delete_files : bool) : M W (Result unit) :=
  co_await files <- (if delete_files then produced_files id else co_return []);
  co_try res <- call "aria2.remove" [json_of_string (value id)];
  co_do (if delete_files then unlink_all files else co_return ());
  co_return Ok ().

Definition aria2_status (id : Gid) : M W (Result DownloadStatus) :=
  co_try res <- call "aria2.tellStatus" [json_of_string (value id)];
  co_return match to_status res with
            | inr s => Ok s
            | inl _ => error Aria2Rpc "aria2.tellStatus returned non-object"
            end.

(** The loop of [active]; an item that is no object throws out of the coroutine. *)
Fixpoint all_status (l : list json) : string + list DownloadStatus :=
  match l with
  | [] => inr []
  | j :: rest => match to_status j with
                 | inl what => inl what
                 | inr s => match all_status rest with inl what => inl what | inr out => inr (s :: out) end
                 end
  end.

Definition aria2_active : M W (string + Result (list DownloadStatus)) :=
  co_await res <- call "aria2.tellActive" [];
  co_return match res with
            | Err e => inr (Err e)
            | Ok reply =>
                if negb (is_array reply) then inr (error Aria2Rpc "aria2.tellActive returned non-array")
                else match all_status (elements reply) with inl what => inl what | inr out => inr (Ok out) end
            end.

Definition aria2_global_stats : M W (Result GlobalStats) :=
  co_try res <- call "aria2.getGlobalStat" [];
  co_return (if negb (is_object res) then error Aria2Rpc "aria2.getGlobalStat returned non-object"
             else Ok (MkGlobalStats (number_member res "downloadSpeed") (number_member res "uploadSpeed")
                        (to_int32 (number_member res "numActive")) (to_int32 (number_member res "numWaiting"))
                        (to_int32 (number_member res "numStopped")))).

End Adapter.

(** ** Options *)

(** The last and the first entry for a key. *)
Fixpoint last_for (k : string) (l : list (string * string)) : option string :=
  match l with
  | [] => None
  | (k', v) :: rest => match last_for k rest with
                       | Some v => Some v
                       | None => if bool_decide (k' = k) then Some v else None
                       end
  end.

Fixpoint first_for {A} (k : string) (l : list (string * A)) : option A :=
  match l with
  | [] => None
  | (k', v) :: rest => if bool_decide (k' = k) then Some v else first_for k rest
  end.

Section Options.
  Context `{json_lib : !Json}.

Lemma first_for_set k k' v (l : list (string * json)) :
  first_for k (set_member k' v l) = if bool_decide (k' = k) then Some v else first_for k l.
Proof.
  induction l as [|[k1 v1] l IH]; simpl; [done|].
  destruct (bool_decide (k1 = k')) eqn:E1; simpl.
  - apply bool_decide_eq_true in E1 as ->. by case_bool_decide.
  - apply bool_decide_eq_false in E1. rewrite IH. repeat case_bool_decide; simplify_eq; done.
Qed.

Lemma keys_set k v (l : list (string * json)) x : x ∈ (set_member k v l).*1 <-> x = k \/ x ∈ l.*1.
Proof. induction l as [|[k1 v1] l IH]; simpl; [set_solver|]. case_bool_decide; set_solver. Qed.

Lemma nodup_set k v (l : list (string * json)) : NoDup l.*1 -> NoDup (set_member k v l).*1.
Proof.
  induction l as [|[k1 v1] l IH]; simpl; [intros _; apply NoDup_singleton|].
  intros [Hin Hnd]%NoDup_cons. case_bool_decide as E; simpl; [subst; by constructor|].
  constructor; [rewrite keys_set; naive_solver|auto].
Qed.

Lemma set_all_members k (l : list (string * string)) (out : list (string * json)) : NoDup out.*1 ->
  let out' := foldl (fun out o => set_member o.1 (json_of_string o.2) out) out l in
  NoDup out'.*1 /\
  first_for k out' = match last_for k l with Some v => Some (json_of_string v) | None => first_for k out end.
Proof.
  revert out. induction l as [|[k1 v1] l IH]; intros out Hnd; simpl; [done|].
  destruct (IH _ (nodup_set k1 (json_of_string v1) out Hnd)) as [IH1 IH2]. split; [done|].
  rewrite IH2, first_for_set. destruct (last_for k l); [done|]. by case_bool_decide.
Qed.

Lemma first_for_text k (l : list (string * string)) : first_for k (text_options l) = json_of_string <$> first_for k l.
Proof. induction l as [|[k1 v1] l IH]; simpl; [done|]. by case_bool_decide. Qed.

(** Options reach aria2 as the code promises: whatever the directory and the caller's
    options, each key is sent once, and its value is the caller's last one for it, else the
    chosen directory for [dir], else the throughput default, else it is not sent. *)
Theorem options_override_defaults opts k :
  NoDup (option_members opts).*1 /\
  first_for k (option_members opts) =
    json_of_string <$> match last_for k (extras opts) with
                       | Some v => Some v
                       | None => match save_directory opts with
                                 | Some dir => if bool_decide (k = "dir") then Some dir else first_for k throughput_defaults
                                 | None => first_for k throughput_defaults
                                 end
                       end.
Proof.
  assert (NoDup (text_options throughput_defaults).*1) as H0.
  { change (NoDup (throughput_defaults.*1)). apply (bool_decide_unpack _). vm_compute. done. }
  unfold option_members. destruct (save_directory opts) as [dir|].
  - destruct (set_all_members k (extras opts) _ (nodup_set "dir" (json_of_string dir) _ H0)) as [H1 H2]. split; [done|].
    rewrite H2, first_for_set, first_for_text. destruct (last_for k (extras opts)); [done|].
    repeat case_bool_decide; subst; done.
  - destruct (set_all_members k (extras opts) _ H0) as [H1 H2]. split; [done|].
    rewrite H2, first_for_text. by destruct (last_for k (extras opts)).
Qed.

End Options.

(** ** Removal *)

Section Removal.
  Context `{json_lib : !Json} {W : Type} `{channel : !Aria2Channel W, rng : !Random W, fs : !FileSystem W}.
  Context (secret : string) (unlinked : W -> list string).

(** Only [remove_all] removes files. *)
Class UnlinkLog : Prop := {
  exchange_frame id req w : unlinked (aria2_exchange id req w).2 = unlinked w;
  draw_frame n w : unlinked (draw_index n w).2 = unlinked w;
  remove_all_logs f w : unlinked (remove_all f w).2 = unlinked w ++ [f]
}.
Context `{!UnlinkLog}.

Lemma random_chars_frame n alphabet w : unlinked (random_chars n alphabet w).2 = unlinked w.
Proof. revert w. induction n as [|n IH]; intros w; simpl; [done|]. rewrite !mbind_proj. simpl. by rewrite IH, draw_frame. Qed.

Lemma call_frame method params w : unlinked (call secret method params w).2 = unlinked w.
Proof. unfold call. rewrite mbind_proj, exchange_frame. apply random_chars_frame. Qed.

Lemma produced_files_frame id w : unlinked (produced_files secret id w).2 = unlinked w.
Proof. unfold produced_files. rewrite mbind_proj. apply call_frame. Qed.

Lemma unlink_all_logs files w : unlinked (unlink_all files w).2 = unlinked w ++ files.
Proof.
  revert w. induction files as [|f files IH]; intros w; simpl; [by rewrite app_nil_r|].
  rewrite mbind_proj, IH, remove_all_logs, <- app_assoc. done.
Qed.

(** Removing a download never costs other files: a removal that fails, or that does not
    ask for the files, unlinks nothing; otherwise exactly the files aria2 itself reported
    for that download, asked for before it was forgotten, are unlinked once, in order, and
    only after aria2 has agreed. *)
Theorem removal_unlinks_reported_files id delete_files w :
  let '(r, w') := aria2_remove secret id delete_files w in
  unlinked w' = unlinked w ++ match r with
                              | Ok _ => if delete_files then (produced_files secret id w).1 else []
                              | Err _ => []
                              end.
Proof.
  unfold aria2_remove. rewrite mbind_proj.
  set (first := (if delete_files : bool then produced_files secret id else co_return []) w).
  assert (unlinked first.2 = unlinked w /\ first.1 = if delete_files then (produced_files secret id w).1 else []) as [Hw Hf].
  { unfold first. destruct delete_files; [split; [apply produced_files_frame|done]|done]. }
  clearbody first. destruct first as [files w1]. simpl in Hw, Hf. cbn [fst snd].
  unfold try_bind. rewrite mbind_proj. pose proof (call_frame "aria2.remove" [json_of_string (value id)] w1) as Hc.
  destruct (call secret "aria2.remove" _ w1) as [[reply|e] w2]; cbn [fst snd mreturn] in *; [|by rewrite Hc, Hw, app_nil_r].
  rewrite mbind_proj. cbn [mreturn]. destruct delete_files; cbn [fst snd mreturn].
  - by rewrite unlink_all_logs, Hc, Hw, Hf.
  - by rewrite Hc, Hw, app_nil_r.
Qed.

End Removal.

(** ** A concrete daemon *)

Module MemAria2Files.

#[export] Instance json_lib : Json := MemJson.sample_json.

(** The daemon reports one file and accepts every call. *)
Definition reply : json :=
  MemJson.JObject [("files", MemJson.JArray [MemJson.JObject [("path", MemJson.JString "/d/a.iso")]])].

#[export] Instance channel : Aria2Channel (list string) := fun _ _ => mreturn (Ok reply).
#[export] Instance rng : Random (list string) := fun _ => mreturn 0%nat.
#[export] Instance fs : FileSystem (list string) := fun f w => (None, w ++ [f]).
#[export] Instance log : UnlinkLog id.
Proof. by split. Qed.

End MemAria2Files.
Import MemAria2Files.

Lemma removal_unlinks_reported_files_witness :
  UnlinkLog id /\ aria2_remove "s3cret" (MkId "g1") true [] = (Ok (), ["/d/a.iso"]) /\
  ["/d/a.iso"] = [] ++ (produced_files "s3cret" (MkId "g1") []).1.
Proof.
  split; [exact log|]. split; [vm_compute; reflexivity|].
  exact (removal_unlinks_reported_files "s3cret" id (MkId "g1") true []).
Defined.
