(* ===== verification/Aria2Connection.v ===== *)
(** * The connection to aria2: [download/aria2_downloader.cpp], [run_loop] to [close_stream_async]

    [connect_once] is a coroutine over the socket operations of Boost.Beast, which are the
    parameter [WsLib].  The loop around it is a step relation over the state that it shares
    with the calls of [Aria2Rpc]: a step is what runs between two suspension points (the loop
    itself is spawned on the strand and stays there), so the flag that another thread sets is read once per step. *)

From S2P Require Import Prelude CoreError ConfigData Identifiers Ports Json Encodings Aria2Rpc Aria2Downloader.

Local Open Scope coro_scope.

Definition kReconnectInitial : Z := 1.
Definition kReconnectMax : Z := 30.

(** ** One attempt *)

(** What [connect_once] asks of the sockets; the stream that is meant is the one of [NewStream]. *)
Inductive WsOp :=
| Resolve (host port : string)
| NewStream (over_tls : bool)
| ExpiresAfter (seconds : Z)
| TcpConnect
| SetSni (host : string)
| TlsHandshake
| ExpiresNever
| SuggestedTimeouts
| WsHandshake (host target : string).

(** An operation, and the text of its exception; [SetSni] answers [Some] when it fails. *)
Class WsLib (W : Type) := ws_op : WsOp -> M W (option string).

(** How an attempt ends, and whether it leaves a stream behind. *)
Inductive ConnectEnd :=
| Refused
| Failed (what : string)
| SniFailed
| Established.

Section Connect.
  Context {W : Type} `{lib : !WsLib W} (rpc_url : string).

(** The operations in order; the first exception goes to the catch clause. *)
Fixpoint attempt (ops : list WsOp) : M W ConnectEnd :=
  match ops with
  | [] => co_return Established
  | op :: rest =>
      co_await thrown <- ws_op op;
      match thrown, op with
      | None, _ => attempt rest
      | Some _, SetSni _ => co_return SniFailed
      | Some what, _ => co_return Failed what
      end
  end.

(** The two branches of the try block. *)
Definition connect_ops (p : ParsedWsUrl) : list WsOp :=
  Resolve (ws_host p) (ws_port p) ::
  (if tls p then
     [NewStream true; ExpiresAfter 15; TcpConnect; SetSni (ws_host p); TlsHandshake; ExpiresNever; SuggestedTimeouts]
   else [NewStream false; ExpiresAfter 15; TcpConnect; ExpiresNever; SuggestedTimeouts]) ++
  [WsHandshake (ws_host p +:+ ":" +:+ ws_port p) (ws_target p)].

Definition connect_once : M W ConnectEnd :=
  match parse_ws_url rpc_url with None => co_return Refused | Some p => attempt (connect_ops p) end.

(** What [run_loop] is told. *)
Definition connect_result (r : ConnectEnd) : Result unit :=
  match r with
  | Refused => error InvalidConfiguration ("malformed aria2 rpc_url: " +:+ rpc_url)
  | Failed what => error Network what
  | SniFailed => error Network "failed to set TLS SNI hostname"
  | Established => Ok ()
  end.

End Connect.

(** The coroutine that [run_loop] spawns for a new connection; its answer is only logged. *)
Definition tuning `{json_lib : !Json} {W} `{channel : !Aria2Channel W, rng : !Random W} (secret : string) : M W unit :=
  co_await r <- call secret "aria2.changeGlobalOption" [build_global_throughput_options]; co_return ().

(** ** The loop *)

(** Where [run_loop] is suspended: in the resolver, the TCP connect, the TLS handshake, the
    WebSocket handshake, a read, or the timer.  A timer that is asleep may have been
    cancelled. *)
Inductive Place :=
| Starting
| Resolving
| Connecting
| Securing
| Handshaking
| Reading
| Sleeping (cancelled : bool)
| Ended.

(** The scheme of the address, which decides whether there is a TLS handshake. *)
Definition over_tls (rpc_url : string) : bool :=
  match parse_ws_url rpc_url with Some p => tls p | None => false end.

Section Loop.
  Context `{json_lib : !Json} (timeout_ms : Z) (rpc_url : string).

(** The members of [Impl]: [connected_], the streams and [pending_] are those of [Aria2Rpc].
    [posted]: the handler of [request_shutdown] waits for the strand; [closed]: the socket of
    the current stream has been closed. *)
Record Impl := MkImpl {
  rpc : Rpc;
  place : Place;
  backoff : Z;
  shutdown_requested : bool;
  posted : bool;
  closed : bool
}.

Definition start : Impl := MkImpl initial Starting kReconnectInitial false false false.

Inductive LoopEvent :=
| Spawned
| Resolved
| ResolveFailed
| TcpConnected
| SniRefused
| TlsShaken
| Opened (tuning_id : string)
| OpenFailed
| Message (text : string)
| ReadFailed
| TimerExpired
| TimerAborted.

Inductive Event :=
| Loop (e : LoopEvent)
| Calls (e : Aria2Rpc.Event)
| RequestShutdown
| ShutdownHandler.

Definition at_place (p : Place) (s : Impl) : Impl :=
  MkImpl (rpc s) p (backoff s) (shutdown_requested s) (posted s) (closed s).
Definition with_rpc (r : Rpc) (s : Impl) : Impl :=
  MkImpl r (place s) (backoff s) (shutdown_requested s) (posted s) (closed s).
Definition with_backoff (b : Z) (s : Impl) : Impl :=
  MkImpl (rpc s) (place s) b (shutdown_requested s) (posted s) (closed s).
Definition with_closed (b : bool) (s : Impl) : Impl :=
  MkImpl (rpc s) (place s) (backoff s) (shutdown_requested s) (posted s) b.

(** An event of the connection for the calls. *)
Definition tell (e : Aria2Rpc.Event) (s : Impl) : option Impl := r ← Aria2Rpc.step timeout_ms e (rpc s); Some (with_rpc r s).

(** From the end of an attempt to the wait. *)
Definition back_off (s : Impl) : Impl :=
  at_place (if shutdown_requested s then Ended else Sleeping false) s.

(** The head of the loop and [connect_once] up to the resolver. *)
Definition enter_loop (s : Impl) : Impl :=
  if shutdown_requested s then at_place Ended s
  else match parse_ws_url rpc_url with
       | None => back_off s
       | Some _ => at_place Resolving s
       end.

(** The end of [read_until_disconnect]. *)
Definition read_end (s : Impl) : option Impl := s ← tell Disconnected s; Some (back_off s).

(** Whether [handle_message] throws, which ends the read loop. *)
Definition message_throws (text : string) (r : Rpc) : bool :=
  match reply_of text with
  | Threw _ => match json_parse text with
               | inr doc => match string_member doc "id" with Some id => bool_decide (id ∈ pending r) | None => false end
               | inl _ => false
               end
  | _ => false
  end.

Definition loop_step (e : LoopEvent) (s : Impl) : option Impl :=
  match e, place s with
  | Spawned, Starting => Some (enter_loop s)
  | ResolveFailed, Resolving => s ← tell ConnectFailed s; Some (back_off s)
  | Resolved, Resolving => s ← tell StreamCreated s; Some (at_place Connecting (with_closed false s))
  | TcpConnected, Connecting => Some (at_place (if over_tls rpc_url then Securing else Handshaking) s)
  | SniRefused, Connecting => if over_tls rpc_url then Some (back_off s) else None
  | TlsShaken, Securing => Some (at_place Handshaking s)
  | OpenFailed, (Connecting | Securing | Handshaking) => s ← tell ConnectFailed s; Some (back_off s)
  | Opened id, Handshaking =>
      s ← tell Connected s;
      s ← tell (Issue id) (with_backoff kReconnectInitial s);
      if shutdown_requested s then read_end s else Some (at_place Reading s)
  | Message text, Reading =>
      let throws := message_throws text (rpc s) in
      s ← tell (Received text) s;
      if throws then Some (back_off s)
      else if shutdown_requested s then read_end s else Some s
  | ReadFailed, Reading => read_end s
  | TimerExpired, Sleeping _ => Some (enter_loop (with_backoff (Z.min (backoff s * 2) kReconnectMax) s))
  | TimerAborted, Sleeping true => Some (at_place Ended s)
  | _, _ => None
  end.

(** The events of [Aria2Rpc] that belong to the calls. *)
Definition call_event (e : Aria2Rpc.Event) : bool :=
  match e with
  | Issue _ | Resume _ | Written _ | WriteFailed _ _ | WriteThrew _ _ | TimedOut _ _ => true
  | _ => false
  end.

(** A write that fails, or that is cancelled by its deadline, closes the stream. *)
Definition write_failed (e : Aria2Rpc.Event) (r : Rpc) : bool :=
  match e with
  | WriteFailed _ _ => true
  | TimedOut id _ => match phase <$> calls r !! id with Some Writing => true | _ => false end
  | _ => false
  end.

(** [close_stream_async]. *)
Definition close_stream_async (s : Impl) : Impl := if stream (rpc s) then with_closed true s else s.

(** The handler that [request_shutdown] posts; a call of it sets the flag at once. *)
Definition shutdown_handler (s : Impl) : Impl :=
  close_stream_async
    (MkImpl (rpc s) (match place s with Sleeping _ => Sleeping true | p => p end) (backoff s) (shutdown_requested s) false (closed s)).
Definition request_shutdown (s : Impl) : Impl := MkImpl (rpc s) (place s) (backoff s) true true (closed s).

Definition step (e : Event) (s : Impl) : option Impl :=
  match e with
  | Loop e => loop_step e s
  | Calls e =>
      if call_event e then
        let fails := write_failed e (rpc s) in
        s ← tell e s; Some (if fails then close_stream_async s else s)
      else None
  | RequestShutdown => Some (request_shutdown s)
  | ShutdownHandler => if posted s then Some (shutdown_handler s) else None
  end.

Fixpoint run (es : list Event) (s : Impl) : option Impl :=
  match es with [] => Some s | e :: es => s' ← step e s; run es s' end.

(** [is_connected]. *)
Definition is_connected (s : Impl) : bool := connected (rpc s).

(** ** Invariant *)

Definition backoffs : list Z := [1; 2; 4; 8; 16; 30].

(** The loop is reading exactly while [is_connected]; after the handler of [request_shutdown] it
    does not sleep through the back-off, nor read from an open socket. *)
Record loop_ok (s : Impl) : Prop := {
  ok_backoff : backoff s ∈ backoffs;
  ok_connected : is_connected s = true <-> place s = Reading;
  ok_stream : place s = Connecting \/ place s = Securing \/ place s = Handshaking \/ place s = Reading ->
    stream (rpc s) = true;
  ok_securing : place s = Securing -> over_tls rpc_url = true;
  ok_cancelled : posted s = true \/ place s = Sleeping true -> shutdown_requested s = true;
  ok_handled : shutdown_requested s = true -> posted s = false -> place s <> Sleeping false;
  ok_closed : shutdown_requested s = true -> posted s = false -> place s = Reading -> closed s = true
}.

Lemma start_ok : loop_ok start.
Proof. split; simpl; try done; [set_solver|naive_solver..]. Qed.

Lemma doubled b : b ∈ backoffs -> Z.min (b * 2) kReconnectMax ∈ backoffs.
Proof. unfold backoffs. intros H. repeat (apply elem_of_cons in H as [->|H]; [vm_compute; set_solver|]). by apply not_elem_of_nil in H. Qed.

Lemma call_frame_rpc e r r' : call_event e = true -> Aria2Rpc.step timeout_ms e r = Some r' ->
  connected r' = connected r /\ stream r' = stream r.
Proof.
  destruct e; simpl; try done; intros _;
    try (destruct (calls r !! _) as [c|]; simpl; try done); unfold resume, timed_out;
    repeat crush_match; try done; intros [= <-]; done.
Qed.

Lemma message_frame text r :
  connected (handle_message text r) = (if message_throws text r then false else connected r) /\
  stream (handle_message text r) = (if message_throws text r then false else stream r).
Proof. unfold handle_message, message_throws. repeat crush_match; done. Qed.

(** Between two operations of the loop: what [back_off] and [enter_loop] start from. *)
Record idle (s : Impl) : Prop := {
  idle_backoff : backoff s ∈ backoffs;
  idle_connected : is_connected s = false;
  idle_posted : posted s = true -> shutdown_requested s = true
}.

Lemma back_off_ok s : idle s -> loop_ok (back_off s).
Proof. intros [Hb Hc Hp]. unfold back_off, is_connected in *. destruct (shutdown_requested s) eqn:E; split; simpl; unfold is_connected; simpl; rewrite ?Hc, ?E; intuition (congruence || done). Qed.

Lemma enter_loop_ok s : idle s -> loop_ok (enter_loop s).
Proof.
  intros [Hb Hc Hp]. unfold enter_loop, is_connected in *. destruct (shutdown_requested s) eqn:E.
  - split; simpl; unfold is_connected; simpl; rewrite ?Hc, ?E; intuition (congruence || done).
  - destruct (parse_ws_url rpc_url); [|apply back_off_ok; split; by rewrite ?E]. split; simpl; unfold is_connected; simpl; rewrite ?Hc, ?E; intuition (congruence || done).
Qed.

Lemma tell_inv e s s' : tell e s = Some s' -> exists r, Aria2Rpc.step timeout_ms e (rpc s) = Some r /\ s' = with_rpc r s.
Proof. unfold tell. destruct (Aria2Rpc.step _ e (rpc s)) as [r|]; [|done]. intros [= <-]. eauto. Qed.

Lemma read_end_inv s s' : read_end s = Some s' -> stream (rpc s) = true /\ s' = back_off (with_rpc (disconnect (rpc s)) s).
Proof. unfold read_end, tell. simpl. destruct (stream (rpc s)); simpl; [intros [= <-]; done|done]. Qed.

Lemma read_end_ok s s' : backoff s ∈ backoffs -> (posted s = true -> shutdown_requested s = true) ->
  read_end s = Some s' -> loop_ok s'.
Proof. intros Hb Hp [_ ->]%read_end_inv. apply back_off_ok. by split. Qed.

Ltac flags := split; unfold is_connected in *; simpl in *; try done; try solve [intuition (congruence || done)].

Lemma loop_step_ok e s s' : loop_ok s -> loop_step e s = Some s' -> loop_ok s'.
Proof.
  intros [Hb Hc Hs Hsec Hp Hh Hcl]. assert (posted s = true -> shutdown_requested s = true) as Hp' by auto.
  assert (place s <> Reading -> is_connected s = false) as Hn by (destruct (is_connected s); naive_solver).
  destruct e as [| | | | | |id| |text| | |], (place s) as [| | | | | |cancelled|] eqn:E; simpl; rewrite ?E; try done.
  - intros [= <-]. apply enter_loop_ok. split; auto.
  - intros [= <-]. rewrite ?E in Hc, Hs, Hsec, Hp, Hh, Hcl, Hn. specialize (Hn ltac:(done)). flags.
  - intros [= <-]. apply back_off_ok. by split.
  - intros [= <-]. rewrite ?E in Hc, Hs, Hsec, Hp, Hh, Hcl, Hn. specialize (Hn ltac:(done)).
    destruct (over_tls rpc_url) eqn:Et; flags.
  - destruct (over_tls rpc_url); [|done]. intros [= <-]. apply back_off_ok. split; auto.
  - intros [= <-]. rewrite ?E in Hc, Hs, Hsec, Hp, Hh, Hcl, Hn. specialize (Hn ltac:(done)). flags.
  - unfold tell. simpl. destruct (stream (rpc s)) eqn:Es; simpl; [|done]. destruct (calls (rpc s) !! id); simpl; [done|].
    destruct (shutdown_requested s) eqn:Ed; simpl.
    + intros H. eapply read_end_ok; [..|exact H]; simpl; [set_solver|congruence].
    + intros [= <-]. flags. unfold kReconnectInitial, backoffs. set_solver.
  - intros [= <-]. apply back_off_ok. by split.
  - intros [= <-]. apply back_off_ok. by split.
  - intros [= <-]. apply back_off_ok. by split.
  - unfold tell. simpl. rewrite Hs by tauto. simpl. destruct (message_frame text (rpc s)) as [Fc Fs].
    destruct (message_throws text (rpc s)); simpl.
    + intros [= <-]. apply back_off_ok. by split.
    + destruct (shutdown_requested s) eqn:Ed; simpl.
      * intros H. eapply read_end_ok; [..|exact H]; simpl; [done|congruence].
      * intros [= <-]. rewrite ?E in Hc, Hs, Hsec, Hp, Hh, Hcl, Hn. unfold is_connected in *. rewrite <- Fc in Hc. rewrite <- Fs in Hs. flags.
  - intros H. by apply read_end_ok in H.
  - intros [= <-]. apply enter_loop_ok. split; simpl; [by apply doubled|by apply Hn|done].
  - destruct cancelled; [|done]. intros [= <-]. rewrite ?E in Hc, Hs, Hsec, Hp, Hh, Hcl, Hn. specialize (Hn ltac:(done)). flags.
Qed.

Lemma step_ok e s s' : loop_ok s -> step e s = Some s' -> loop_ok s'.
Proof.
  intros Hok. destruct e as [e|e| |]; simpl; [by apply loop_step_ok| | |].
  - destruct (call_event e) eqn:Ec; [|done]. destruct (tell e s) as [s1|] eqn:E; simpl; [|done].
    apply tell_inv in E as (r & E & ->). apply call_frame_rpc in E as [Fc Fs]; [|done]. intros [= <-].
    destruct Hok as [Hb Hc Hs Hsec Hp Hh Hcl]. unfold is_connected in *.
    rewrite <- Fc in Hc. rewrite <- Fs in Hs. unfold close_stream_async.
    destruct (write_failed _ _); simpl; [destruct (stream r) eqn:Er|]; flags.
  - intros [= <-]. destruct Hok as [Hb Hc Hs Hsec Hp Hh Hcl]. flags.
  - destruct (posted s) eqn:Ep; [|done]. intros [= <-]. destruct Hok as [Hb Hc Hs Hsec Hp Hh Hcl].
    unfold is_connected, shutdown_handler, close_stream_async in *. simpl.
    destruct (stream (rpc s)) eqn:Es; destruct (place s) eqn:E; flags.
Qed.

Lemma connection_ok es s s' : loop_ok s -> run es s = Some s' -> loop_ok s'.
Proof.
  revert s. induction es as [|e es IH]; intros s Hok; simpl; [by intros [= <-]|].
  destruct (step e s) as [s1|] eqn:E; [|done]. by apply IH, (step_ok e s).
Qed.

(** ** Back-off *)

(** The waits that were slept through since the last connection. *)
Definition waits (e : Event) (n : nat) : nat :=
  match e with Loop (Opened _) => 0%nat | Loop TimerExpired => S n | _ => n end.
Definition scheduled (n : nat) : Z := Z.min kReconnectMax (2 ^ Z.of_nat n).

Lemma backoff_back_off s : backoff (back_off s) = backoff s.
Proof. done. Qed.

Lemma backoff_enter_loop s : backoff (enter_loop s) = backoff s.
Proof. unfold enter_loop. by repeat crush_match. Qed.

Lemma backoff_read_end s s' : read_end s = Some s' -> backoff s' = backoff s.
Proof. by intros [_ ->]%read_end_inv. Qed.

Lemma backoff_step e s s' : step e s = Some s' ->
  backoff s' = match e with
               | Loop (Opened _) => kReconnectInitial
               | Loop TimerExpired => Z.min (backoff s * 2) kReconnectMax
               | _ => backoff s
               end.
Proof.
  destruct e as [e|e| |]; simpl.
  - destruct e as [| | | | | |id| |text| | |], (place s) as [| | | | | |[]|] eqn:E; simpl; rewrite ?E; try done;
      try (intros [= <-]; try rewrite backoff_enter_loop; done);
      unfold tell; simpl; repeat crush_match; try done;
      try (by intros H%backoff_read_end; rewrite H); by intros [= <-].
  - unfold tell, close_stream_async. repeat crush_match; try done;
      destruct (Aria2Rpc.step _ _ _); simpl in *; try done; repeat crush_match; by intros [= <-].
  - by intros [= <-].
  - destruct (posted s); [|done]. intros [= <-]. unfold shutdown_handler, close_stream_async. by repeat crush_match.
Qed.

Lemma scheduled_S n : Z.min (scheduled n * 2) kReconnectMax = scheduled (S n).
Proof. unfold scheduled, kReconnectMax. rewrite Nat2Z.inj_succ, Z.pow_succ_r by lia. lia. Qed.

(** The delay before an attempt is determined by the attempts since the last connection: it
    doubles from one second after each wait and stops at thirty; a connection resets it. *)
Theorem backoff_schedule es s :
  run es start = Some s -> backoff s = scheduled (foldl (fun n e => waits e n) 0%nat es).
Proof.
  assert (forall n s0, backoff s0 = scheduled n -> run es s0 = Some s ->
    backoff s = scheduled (foldl (fun n e => waits e n) n es)) as H; [|by apply (H 0%nat start)].
  induction es as [|e es IH]; intros n s0 Hn; simpl; [by intros [= <-]|].
  destruct (step e s0) as [s1|] eqn:E; [|done]. simpl. apply IH. rewrite (backoff_step _ _ _ E).
  destruct e as [[]| | |]; simpl; try done. by rewrite Hn, scheduled_S.
Qed.

(** ** Shutdown *)

(** The completions that the loop can still see once the flag is set, since nothing between the
    resolver and the read loop looks at it. *)
Definition remaining (p : Place) : nat :=
  match p with
  | Resolving => if over_tls rpc_url then 4 else 3
  | Connecting => if over_tls rpc_url then 3 else 2
  | Securing => 2
  | Ended => 0
  | _ => 1
  end.
Definition is_loop (e : Event) : bool := match e with Loop _ => true | _ => false end.

Lemma place_back_off s : shutdown_requested s = true -> place (back_off s) = Ended.
Proof. intros H. unfold back_off. by rewrite H. Qed.

Lemma place_enter_loop s : shutdown_requested s = true -> place (enter_loop s) = Ended.
Proof. intros H. unfold enter_loop. by rewrite H. Qed.

Lemma requested_enter_loop s : shutdown_requested (enter_loop s) = shutdown_requested s.
Proof. unfold enter_loop, back_off. by repeat crush_match. Qed.

Lemma read_end_requested s s' : read_end s = Some s' -> shutdown_requested s = true ->
  shutdown_requested s' = true /\ (S (remaining (place s')) <= 1)%nat.
Proof. intros [_ ->]%read_end_inv H. by rewrite place_back_off. Qed.

Lemma loop_step_requested e s s' : loop_step e s = Some s' -> shutdown_requested s = true ->
  shutdown_requested s' = true /\ (S (remaining (place s')) <= remaining (place s))%nat.
Proof.
  intros H Hs. destruct e as [| | | | | |id| |text| | |], (place s) as [| | | | | |[]|] eqn:E; simpl in H; rewrite ?E in H; try done;
    unfold tell in H; simpl in H; rewrite ?Hs in H;
    repeat match type of H with context [match ?x with _ => _ end] => destruct x eqn:?; simpl in H; try done end;
    try (by apply read_end_requested in H);
    injection H as <-; rewrite ?requested_enter_loop, ?place_enter_loop, ?place_back_off by done; simpl;
    repeat match goal with He : over_tls _ = _ |- _ => rewrite He end; try destruct (over_tls rpc_url); by auto with lia.
Qed.

Lemma step_requested e s s' : step e s = Some s' -> shutdown_requested s = true ->
  shutdown_requested s' = true /\ ((if is_loop e then 1 else 0) + remaining (place s') <= remaining (place s))%nat.
Proof.
  destruct e as [e|e| |]; simpl; [by apply loop_step_requested| | |].
  - unfold tell, close_stream_async. destruct (call_event e); [|done]. destruct (Aria2Rpc.step _ _ _); simpl; [|done].
    intros [= <-] H. by repeat crush_match.
  - by intros [= <-].
  - destruct (posted s); [|done]. intros [= <-] H. unfold shutdown_handler, close_stream_async. simpl.
    destruct (stream (rpc s)), (place s) as [| | | | | |[]|]; simpl; auto.
Qed.

Lemma run_requested es s s' : run es s = Some s' -> shutdown_requested s = true ->
  shutdown_requested s' = true /\ (length (filter is_loop es) + remaining (place s') <= remaining (place s))%nat.
Proof.
  revert s. induction es as [|e es IH]; intros s; simpl; [intros [= ->]; auto|].
  destruct (step e s) as [s1|] eqn:E; [|done]. simpl. intros H Hs. destruct (step_requested _ _ _ E Hs) as [Hs1 Hr].
  destruct (IH _ H Hs1) as [Hs' Hle]. split; [done|]. rewrite filter_cons. destruct e; simpl in *; repeat case_decide; simpl; try done; lia.
Qed.

(** Whatever the loop waits for, it can go on: the calls never hold it back. *)
Lemma loop_progress s : loop_ok s -> place s <> Ended -> exists e s', loop_step e s = Some s'.
Proof.
  intros Hok Hne. destruct (place s) as [| | | | | |c|] eqn:E.
  - exists Spawned. simpl. rewrite E. eauto.
  - exists ResolveFailed. simpl. rewrite E. simpl. eauto.
  - exists OpenFailed. simpl. rewrite E. simpl. eauto.
  - exists OpenFailed. simpl. rewrite E. simpl. eauto.
  - exists OpenFailed. simpl. rewrite E. simpl. eauto.
  - exists ReadFailed. simpl. rewrite E. unfold read_end, tell. simpl. rewrite (ok_stream s Hok) by auto. simpl. eauto.
  - exists TimerExpired. simpl. rewrite E. eauto.
  - done.
Qed.

(** C39. Shutdown ends the loop, whatever it was doing and however calls and network events
    interleave: after the request at most [remaining] operations complete, counted from where
    the loop was (the resolver, the TCP connect, the TLS handshake of a [wss] address and the
    WebSocket handshake are gone through without a look at the flag, so four of a [wss] address
    and three of a [ws] one; from a read or the timer, one), and until the loop has ended one is
    outstanding that it can go on from.  Once the posted handler has run, that is never the
    back-off timer unless cancelled, nor a read from a socket that is still open.  The loop that
    has ended is not connected. *)
Theorem shutdown_ends_loop es es' s s' :
  run es start = Some s -> shutdown_requested s = true -> run es' s = Some s' ->
  (length (filter is_loop es') + remaining (place s') <= remaining (place s))%nat /\
  (remaining (place s) <= if over_tls rpc_url then 4 else 3)%nat /\
  (place s' <> Ended -> exists e s'', step (Loop e) s' = Some s'') /\
  (posted s' = false -> place s' <> Sleeping false /\ (place s' = Reading -> closed s' = true)) /\
  (place s' = Ended -> is_connected s' = false).
Proof.
  intros Hrun Hs Hrun'. pose proof (connection_ok _ _ _ start_ok Hrun) as Hok. pose proof (connection_ok _ _ _ Hok Hrun') as Hok'.
  destruct (run_requested _ _ _ Hrun' Hs) as [Hs' Hle]. split_and!.
  - exact Hle.
  - destruct (place s) eqn:E; simpl; try destruct (over_tls rpc_url) eqn:Et; lia.
  - intros Hne. by apply loop_progress.
  - intros Hp. split; [by apply (ok_handled s' Hok')|by apply (ok_closed s' Hok')].
  - intros He. destruct (is_connected s') eqn:Ec; [|done]. apply (ok_connected s' Hok') in Ec. congruence.
Qed.

(** Nothing keeps two calls from writing to the stream at the same time. *)
Theorem writes_overlap id1 id2 : id1 <> id2 ->
  exists s, Aria2Rpc.run timeout_ms [StreamCreated; Connected; Issue id1; Issue id2; Resume id1; Resume id2; Resume id1; Resume id2] initial = Some s /\
    phase <$> calls s !! id1 = Some Writing /\ phase <$> calls s !! id2 = Some Writing.
Proof.
  intros Hne. simpl. repeat (first [rewrite lookup_empty|rewrite lookup_insert_eq|rewrite lookup_insert_ne by done]; simpl).
  eexists. split; [reflexivity|]. simpl. by rewrite lookup_insert_ne, !lookup_insert_eq.
Qed.

End Loop.

(** ** What an attempt does *)

Section Attempt.
  Context {W : Type} `{lib : !WsLib W} (log : W -> list WsOp).

(** The operations are the only effect on [log]. *)
Class WsLog : Prop := ws_logs op w : log (ws_op op w).2 = log w ++ [op].
Context `{logs : !WsLog}.

Lemma attempt_logs ops w : exists n,
  log (attempt ops w).2 = log w ++ take n ops /\
  ((attempt ops w).1 = Established -> n = length ops) /\
  ((attempt ops w).1 = SniFailed -> exists h, last (take n ops) = Some (SetSni h)) /\
  (attempt ops w).1 <> Refused.
Proof.
  revert w. induction ops as [|op ops IH]; intros w; simpl.
  { exists 0%nat. by rewrite app_nil_r. }
  unfold mbind. pose proof (ws_logs op w) as Hlog. destruct (ws_op op w) as [[what|] w1]; simpl in Hlog.
  - exists 1%nat. destruct op; simpl; rewrite ?take_0; repeat split; try done; eauto.
  - destruct (IH w1) as (n & Hn & He & Hs & Hr). exists (S n). destruct op; simpl; rewrite Hn, Hlog, <- app_assoc; split_and!; simpl; auto;
      try (intros E; by rewrite He);
      intros E; destruct (Hs E) as [h Hh]; exists h; destruct (take n ops) eqn:Et; by rewrite ?last_cons_cons.
Qed.

(** An attempt that succeeds has done every operation of its scheme, in order; one that fails
    a part of them from the start; and a malformed address touches nothing.  In particular the
    WebSocket handshake of a [wss] address only follows the TLS handshake. *)
Theorem connect_once_operations url w :
  let '(r, w') := connect_once url w in
  match parse_ws_url url with
  | None => r = Refused /\ w' = w
  | Some p => exists n, log w' = log w ++ take n (connect_ops p) /\
                        (r = Established -> n = length (connect_ops p)) /\
                        (tls p = true -> WsHandshake (ws_host p +:+ ":" +:+ ws_port p) (ws_target p) ∈ take n (connect_ops p) ->
                           TlsHandshake ∈ take (pred n) (connect_ops p)) /\
                        (r = SniFailed -> tls p = true)
  end.
Proof.
  unfold connect_once. destruct (parse_ws_url url) as [p|]; [|done].
  destruct (attempt_logs (connect_ops p) w) as (n & Hn & He & Hs & _). destruct (attempt (connect_ops p) w) as [r w'].
  simpl in *. exists n. split_and!; [done..| |].
  - unfold connect_ops. intros ->. simpl. do 9 (destruct n as [|n]; [set_solver|]). simpl. set_solver.
  - intros Hr. destruct (Hs Hr) as [h Hh]. unfold connect_ops in Hh. destruct (tls p); [done|]. simpl in Hh.
    do 7 (destruct n as [|n]; [done|]). simpl in Hh. by rewrite take_nil in Hh.
Qed.

End Attempt.

(** ** Concrete runs *)

Module MemConnection.

#[export] Instance json_lib : Json := MemJson.sample_json.

Definition url : string := "ws://localhost:6800/jsonrpc".

(** Six failed attempts. *)
Definition failures : list Event :=
  Loop Spawned :: mjoin (replicate 6 [Loop ResolveFailed; Loop TimerExpired]).

(** A connection with a call on its way, when shutdown is requested. *)
Definition stopping : list Event :=
  [Loop Spawned; Loop Resolved; Loop TcpConnected; Loop (Opened "t1"); Calls (Resume "t1"); RequestShutdown].
Definition ending : list Event := [ShutdownHandler; Calls (Resume "t1"); Loop ReadFailed].

(** A shutdown that comes too early to stop an attempt. *)
Definition secure_url : string := "wss://aria2.example/jsonrpc".
Definition all_of_it : list Event := [Loop Resolved; Loop TcpConnected; Loop TlsShaken; Loop (Opened "t1")].

(** Sockets that record what they are asked and refuse the TLS handshake. *)
#[export] Instance sockets : WsLib (list WsOp) :=
  fun op w => (match op with TlsHandshake => Some "handshake failure" | _ => None end, w ++ [op]).
#[export] Instance sockets_log : WsLog id.
Proof. by intros op w. Qed.

End MemConnection.
Import MemConnection.

Lemma backoff_schedule_witness :
  exists s, run 30000 url failures start = Some s /\ backoff s = scheduled 6 /\ backoff s = 30.
Proof.
  assert (exists s, run 30000 url failures start = Some s) as [s Hs] by (eexists; vm_compute; reflexivity).
  pose proof (backoff_schedule 30000 url failures s Hs) as H. exists s. split; [exact Hs|].
  split; [exact H|]. rewrite H. reflexivity.
Defined.

(** A shutdown while connected, and one while the name of a [wss] address is being resolved:
    four operations complete before the loop ends, although the handler has run. *)
Lemma shutdown_ends_loop_witness :
  (exists s s', run 30000 url stopping start = Some s /\ is_connected s = true /\
     run 30000 url ending s = Some s' /\ place s' = Ended /\ is_connected s' = false) /\
  (exists s s', run 30000 secure_url [Loop Spawned; RequestShutdown; ShutdownHandler] start = Some s /\
     run 30000 secure_url all_of_it s = Some s' /\ length (filter is_loop all_of_it) = 4%nat /\
     (length (filter is_loop all_of_it) + remaining secure_url (place s') <= 4)%nat /\
     place s' = Ended /\ is_connected s' = false).
Proof.
  split.
  - assert (exists s, run 30000 url stopping start = Some s /\ is_connected s = true /\ shutdown_requested s = true /\
      exists s', run 30000 url ending s = Some s' /\ place s' = Ended) as (s & Hs & Hc & Hr & s' & Hs' & He).
    { eexists. split; [vm_compute; reflexivity|]. do 2 (split; [reflexivity|]). eexists. split; vm_compute; reflexivity. }
    destruct (shutdown_ends_loop 30000 url stopping ending s s' Hs Hr Hs') as (_ & _ & _ & _ & Hd).
    exists s, s'. split; [exact Hs|]. split; [exact Hc|]. split; [exact Hs'|]. split; [exact He|]. exact (Hd He).
  - assert (exists s, run 30000 secure_url [Loop Spawned; RequestShutdown; ShutdownHandler] start = Some s /\
      shutdown_requested s = true /\ exists s', run 30000 secure_url all_of_it s = Some s' /\ place s' = Ended)
      as (s & Hs & Hr & s' & Hs' & He).
    { eexists. split; [vm_compute; reflexivity|]. split; [reflexivity|]. eexists. split; vm_compute; reflexivity. }
    destruct (shutdown_ends_loop 30000 secure_url _ all_of_it s s' Hs Hr Hs') as (Hn & Hb & _ & _ & Hd).
    exists s, s'. split; [exact Hs|]. split; [exact Hs'|]. split; [reflexivity|]. split; [|split; [exact He|exact (Hd He)]].
    etransitivity; [exact Hn|]. exact Hb.
Defined.

Lemma writes_overlap_witness :
  exists s, Aria2Rpc.run 30000 [StreamCreated; Connected; Issue "a"; Issue "b"; Resume "a"; Resume "b"; Resume "a"; Resume "b"] initial = Some s /\
    phase <$> calls s !! "a" = Some Writing /\ phase <$> calls s !! "b" = Some Writing.
Proof. apply (writes_overlap 30000 "a" "b"). discriminate. Defined.

Lemma connect_once_operations_witness :
  (connect_once "wss://aria2.example/jsonrpc" []).1 = Failed "handshake failure" /\
  match connect_once "wss://aria2.example/jsonrpc" [] with
  | (r, w') => exists n, w' = take n (connect_ops (MkWsUrl true "aria2.example" "443" "/jsonrpc")) /\ (r = Established -> n = 9%nat)
  end.
Proof.
  split; [vm_compute; reflexivity|].
  pose proof (connect_once_operations id "wss://aria2.example/jsonrpc" []) as H.
  destruct (connect_once "wss://aria2.example/jsonrpc" []) as [r w'].
  destruct H as (n & Hw & He & _). exists n. split; [exact Hw|exact He].
Defined.
