(* ===== verification/TaskControl.v ===== *)
(** * Cancel, pause and resume: [application/cancel_task.cpp], [pause_task.cpp], [resume_task.cpp]

    The three use cases that act on a stored task.  They are written against the ports
    ([TaskRepository], [Downloaders], [MessengerInterface]) and the registry; log lines are
    left out. *)

From Stdlib Require Import Sorted.
From S2P Require Import Prelude CoreError Identifiers Task TimeCodec Ports Registry Environment.

Local Open Scope coro_scope.

(** [struct CancelTaskRequest], [PauseTaskRequest], [ResumeTaskRequest]. *)
Record TaskRequest := MkTaskRequest { rq_task_id : TaskId; rq_chat : ChatId }.

(** [struct CancelAllResult]. *)
Record CancelAllResult := MkCancelAll { cancelled : Z; failed : Z }.

(** The message all three use cases send: title, task id and a note. *)
Definition task_note (title : string) (id : TaskId) (note : string) : string :=
  "<b><u>" +:+ title +:+ "</u></b>" +:+ newline +:+
  "<b>Task:</b> <code>" +:+ value id +:+ "</code>" +:+ newline +:+
  "<blockquote>" +:+ note +:+ "</blockquote>".

Section UseCases.
  Context {W : Type} `{!Clock W, !TaskRepository W, !Downloaders W, !MessengerInterface W, !HasRegistry W}.

(** The teardown of the download in [CancelTask::execute]. *)
Definition remove_binding (task : Task) : M W unit :=
  match downloader_id task with
  | Some did =>
      match backend_of (downloader_kind task) with
      | Some d => co_await _r <- remove d did true; co_return ()
      | None => co_return ()
      end
  | None => co_return ()
  end.

(** The path of [CancelTask::execute] when no coroutine runs the task. *)
Definition cancel_parked (request : TaskRequest) (task : Task) : M W (Result unit) :=
  co_do remove_binding task;
  co_await mark <- timed mark_cancelled task;
  match mark with
  | (Err e, _) => co_return Err e
  | (Ok _, task') =>
      co_try saved <- repo_save task';
      co_await _sent <- send_html (rq_chat request)
        (task_note "Cancelled" (rq_task_id request) "Task stopped and marked cancelled.");
      co_return Ok ()
  end.

(** [CancelTask::execute]. *)
Definition cancel_execute (request : TaskRequest) : M W (Result unit) :=
  co_try loaded <- repo_find (rq_task_id request);
  match loaded with
  | None => co_return error NotFound "cancel: task not found"
  | Some task =>
      if negb (bool_decide (md_chat (metadata task) = rq_chat request))
      then co_return error PermissionDenied "cancel: task belongs to a different chat"
      else if is_terminal task
      then co_return error InvalidState "cancel: task already in a terminal state"
      else
        co_await live <- active_tasks_cancel (rq_task_id request);
        if (live : bool)
        then co_await _sent <- send_html (rq_chat request)
               (task_note "Cancelling" (rq_task_id request) "Graceful shutdown signal sent.");
             co_return Ok ()
        else cancel_parked request task
  end.

(** The loop body of [CancelTask::cancel_all]. *)
Definition cancel_one (chat : ChatId) (result : CancelAllResult) (task : Task) : M W CancelAllResult :=
  if negb (bool_decide (md_chat (metadata task) = chat)) then co_return result
  else
    co_await outcome <- cancel_execute (MkTaskRequest (md_id (metadata task)) chat);
    co_return (if has_value outcome
               then MkCancelAll (cancelled result + 1) (failed result)
               else MkCancelAll (cancelled result) (failed result + 1)).

(** [CancelTask::cancel_all]. *)
Definition cancel_all (chat : ChatId) : M W (Result CancelAllResult) :=
  co_try tasks <- repo_incomplete;
  co_await result <- mfold (cancel_one chat) tasks (MkCancelAll 0 0);
  co_await _sent <- send_html chat
    ("<b><u>Bulk Cancel</u></b>" +:+ newline +:+
     "<b>Cancelled:</b> <code>" +:+ fmt_int (cancelled result) +:+ "</code>" +:+ newline +:+
     "<b>Failed:</b> <code>" +:+ fmt_int (failed result) +:+ "</code>");
  co_return Ok result.

(** [PauseTask::execute]. *)
Definition pause_execute (request : TaskRequest) : M W (Result unit) :=
  co_try loaded <- repo_find (rq_task_id request);
  match loaded with
  | None => co_return error NotFound "pause: task not found"
  | Some task =>
      if negb (bool_decide (md_chat (metadata task) = rq_chat request))
      then co_return error PermissionDenied "pause: task belongs to a different chat"
      else if is_terminal task
      then co_return error InvalidState "pause: task already in a terminal state"
      else
        match downloader_id task, backend_of (downloader_kind task) with
        | Some did, Some d =>
            co_try backend <- pause d did;
            co_await _sent <- send_html (rq_chat request)
              (task_note "Paused" (rq_task_id request) "Paused at the download backend.");
            co_return Ok ()
        | _, _ => co_return error InvalidState "pause: task has no downloader binding (still queued?)"
        end
  end.

(** [ResumeTask::execute]. *)
Definition resume_execute (request : TaskRequest) : M W (Result unit) :=
  co_try loaded <- repo_find (rq_task_id request);
  match loaded with
  | None => co_return error NotFound "resume: task not found"
  | Some task =>
      if negb (bool_decide (md_chat (metadata task) = rq_chat request))
      then co_return error PermissionDenied "resume: task belongs to a different chat"
      else if is_terminal task
      then co_return error InvalidState "resume: task already in a terminal state"
      else
        match downloader_id task, backend_of (downloader_kind task) with
        | Some did, Some d =>
            co_try backend <- resume d did;
            co_await _sent <- send_html (rq_chat request)
              (task_note "Resumed" (rq_task_id request) "Resumed at the download backend.");
            co_return Ok ()
        | _, _ => co_return error InvalidState "resume: task has no downloader binding"
        end
  end.

End UseCases.

(** ** Lemmas *)

(** The calls that tear a task's download down. *)
Definition teardown_calls (t : Task) : list BackendCall :=
  match downloader_id t with
  | Some g => if bool_decide (downloader_kind t = NoDownloader) then [] else [CallRemove (downloader_kind t) g true]
  | None => []
  end.

#[export] Instance teardown_calls_proper : Proper ((≡) ==> (=)) teardown_calls.
Proof. intros t1 t2 (_ & _ & _ & H1 & H2). unfold teardown_calls. by rewrite H1, H2. Qed.

Section Lemmas.
  Context {W : Type} `{!Clock W, !TaskRepository W, !Downloaders W, !MessengerInterface W, !HasRegistry W}.
  Context (inv : W -> Prop) (tasks : W -> gmap string Task) (calls : W -> list BackendCall).
  Context `{!TaskRepositoryLaws W inv tasks} `{!PortFrames inv tasks calls}.

Lemma stored_cancelled t t0 tp :
  t ≡ t0 -> stored t0 = t0 ->
  stored (enter CancelledState tp t) = enter CancelledState (floor_time tp) t0.
Proof.
  intros Heq Hs. rewrite <-(enter_proper CancelledState (floor_time tp) t t0 Heq).
  destruct Heq as (Hm & _). apply (f_equal (md_created_at ∘ metadata)) in Hs. injection Hm as _ _ _ _ _ _ Hc.
  unfold stored, enter, stored_metadata, touch_metadata. simpl in *. f_equal. f_equal. congruence.
Qed.

Lemma storable_cancelled t t0 tp :
  t ≡ t0 -> storable t0 -> is_terminal t0 = false -> valid_time tp -> storable (enter CancelledState tp t).
Proof.
  intros (Hm & Hst & He & Hi & Hk) (H1 & H2 & H3 & H4) Hterm Htp. injection Hm. intros. split_and!; simpl.
  - rewrite He. unfold is_terminal in Hterm. split; [|done].
    intros Hne%H1. by rewrite Hne in Hterm.
  - by rewrite Hi, Hk.
  - congruence.
  - done.
Qed.

Lemma remove_binding_step t w :
  let w' := (remove_binding t w).2 in
  (inv w -> inv w') /\ tasks w' = tasks w /\ get_registry w' = get_registry w /\
  calls w' = calls w ++ teardown_calls t.
Proof.
  unfold remove_binding, teardown_calls. destruct (downloader_id t) as [g|]; [|by rewrite app_nil_r].
  destruct (backend_of (downloader_kind t)) as [d|] eqn:E.
  - pose proof (remove_step inv tasks calls _ d g true w E) as [H1 H2 H3 H4].
    rewrite bool_decide_false by (intros H; by rewrite H in E).
    unfold mbind, mreturn. by destruct (remove d g true w).
  - rewrite bool_decide_true by (by destruct (downloader_kind t)). by rewrite app_nil_r.
Qed.

Lemma cancel_parked_spec rq t t0 w r w' :
  inv w -> tasks w !! task_key t0 = Some t0 -> t ≡ t0 -> storable t0 -> stored t0 = t0 ->
  is_terminal t0 = false -> cancel_parked rq t w = (r, w') ->
  inv w' /\ get_registry w' = get_registry w /\ calls w' = calls w ++ teardown_calls t0 /\
  match r with
  | Ok _ => exists tp, tasks w' = <[task_key t0 := enter CancelledState tp t0]> (tasks w)
  | Err _ => tasks w' = tasks w
  end.
Proof.
  intros Hinv Ht Heq Hs Hst Hterm. unfold cancel_parked, mbind at 1.
  pose proof (remove_binding_step t w) as H. cbv zeta in H.
  destruct (remove_binding t w) as [[] w1]. simpl in H. destruct H as (Hi & Htk & Hr & Hc). apply Hi in Hinv.
  unfold timed, mbind at 1 2, mreturn at 1.
  pose proof (clock_neutral inv tasks calls w1) as [Hi2 Htk2 Hr2 Hc2]. pose proof (clock_valid inv tasks calls w1) as Htp.
  destruct (now w1) as [tp w2]. simpl in *. apply Hi2 in Hinv.
  unfold mark_cancelled. rewrite (is_terminal_proper _ _ Heq), Hterm.
  pose proof (storable_cancelled t t0 tp Heq Hs Hterm Htp) as Hsc.
  pose proof (save_spec (inv := inv) (tasks := tasks) (enter CancelledState tp t) w2 Hinv Hsc) as Hsave.
  pose proof (save_inv (inv := inv) (tasks := tasks) (enter CancelledState tp t) w2 Hinv Hsc) as Hinv3.
  destruct (repo_registry_save inv tasks calls (enter CancelledState tp t) w2) as [Hr3 Hc3].
  unfold try_bind, mbind, mreturn.
  destruct (repo_save (enter CancelledState tp t) w2) as [[u|e] w3]; simpl in *.
  - pose proof (send_neutral inv tasks calls (rq_chat rq)
      (task_note "Cancelled" (rq_task_id rq) "Task stopped and marked cancelled.") w3) as [Hi4 Htk4 Hr4 Hc4].
    destruct (send_html _ _ w3) as [s w4]. simpl in *. intros [= <- <-].
    split_and!; [auto|congruence|rewrite <-(teardown_calls_proper _ _ Heq); congruence|]. exists (floor_time tp).
    rewrite Htk4, Hsave, (stored_cancelled t t0), Htk2, Htk by done. f_equal.
    unfold task_key. simpl. by rewrite (task_equiv_id _ _ Heq).
  - intros [= <- <-]. split_and!; [auto|congruence|rewrite <-(teardown_calls_proper _ _ Heq); congruence|congruence].
Qed.
(** What a run of [cancel_execute] does to the world. *)
Definition cancel_effect (rq : TaskRequest) (w : W) (r : Result unit) (w' : W) : Prop :=
  let id := rq_task_id rq in
  match r with
  | Err _ => tasks w' = tasks w /\ get_registry w' = get_registry w
  | Ok _ => exists t,
      tasks w !! value id = Some t /\ md_chat (metadata t) = rq_chat rq /\ is_terminal t = false /\
      if (cancel id (get_registry w)).1
      then tasks w' = tasks w /\ get_registry w' = (cancel id (get_registry w)).2 /\ calls w' = calls w
      else get_registry w' = get_registry w /\ calls w' = calls w ++ teardown_calls t /\
           exists tp, tasks w' = <[value id := enter CancelledState tp t]> (tasks w)
  end.

(** Why a request on a stored task is refused, if it is. *)
Definition refusal (verb : string) (rq : TaskRequest) (o : option Task) : option AppError :=
  match o with
  | None => Some (MkError NotFound (verb +:+ ": task not found"))
  | Some t =>
      if negb (bool_decide (md_chat (metadata t) = rq_chat rq))
      then Some (MkError PermissionDenied (verb +:+ ": task belongs to a different chat"))
      else if is_terminal t then Some (MkError InvalidState (verb +:+ ": task already in a terminal state"))
      else None
  end.

Lemma refusal_proper verb rq o1 o2 : option_Forall2 (≡) o1 o2 -> refusal verb rq o1 = refusal verb rq o2.
Proof.
  intros [t1 t2 H|]; [|done]. simpl. by rewrite (task_equiv_chat _ _ H), (is_terminal_proper _ _ H).
Qed.

Lemma cancel_refused rq w o w1 e :
  inv w -> repo_find (rq_task_id rq) w = (Ok o, w1) ->
  refusal "cancel" rq (tasks w !! value (rq_task_id rq)) = Some e -> cancel_execute rq w = (Err e, w1).
Proof.
  intros Hinv Hf Href. unfold cancel_execute. rewrite (try_bind_Ok _ _ _ _ _ Hf).
  apply (find_spec (inv := inv) (tasks := tasks)) in Hf; [|done].
  rewrite <-(refusal_proper _ _ _ _ Hf) in Href. unfold refusal in Href.
  destruct o as [t|]; [|by simplify_eq/=].
  destruct (negb _); [by simplify_eq/=|]. destruct (is_terminal t); by simplify_eq/=.
Qed.

Lemma refusal_None verb rq o :
  refusal verb rq o = None ->
  exists t, o = Some t /\ md_chat (metadata t) = rq_chat rq /\ is_terminal t = false.
Proof.
  unfold refusal. destruct o as [t|]; [|done]. case_bool_decide; simpl; [|done].
  destruct (is_terminal t) eqn:?; [done|]. eauto.
Qed.

Lemma cancel_execute_effect rq w r w' :
  inv w -> cancel_execute rq w = (r, w') -> inv w' /\ cancel_effect rq w r w'.
Proof.
  intros Hinv Hrun. pose proof (find_neutral inv tasks calls (rq_task_id rq) w Hinv) as Hn.
  destruct (repo_find (rq_task_id rq) w) as [[o|e] w1] eqn:Hf; simpl in Hn; destruct Hn as [Hi1 Ht1 Hr1 Hc1].
  2: { unfold cancel_execute in Hrun. rewrite (try_bind_Err _ _ _ _ _ Hf) in Hrun. simplify_eq. split; [auto|done]. }
  destruct (refusal "cancel" rq (tasks w !! value (rq_task_id rq))) as [e|] eqn:Href.
  { rewrite (cancel_refused _ _ _ _ _ Hinv Hf Href) in Hrun. simplify_eq. split; [auto|done]. }
  apply refusal_None in Href as (t0 & Hlk & Hchat & Hterm).
  pose proof (find_spec (inv := inv) (tasks := tasks) _ _ _ _ Hinv Hf) as Ho. rewrite Hlk in Ho.
  inversion Ho as [t ? Heq|]; subst o. subst.
  destruct (tasks_storable (inv := inv) _ _ _ Hinv Hlk) as (Hs & Hst & Hkey).
  unfold cancel_execute in Hrun. rewrite (try_bind_Ok _ _ _ _ _ Hf) in Hrun.
  rewrite (task_equiv_chat _ _ Heq), bool_decide_true, (is_terminal_proper _ _ Heq), Hterm in Hrun by done.
  simpl in Hrun. unfold mbind at 1, active_tasks_cancel in Hrun. unfold cancel_effect. rewrite Hr1 in Hrun.
  destruct (cancel (rq_task_id rq) (get_registry w)) as [live reg] eqn:Hlive.
  pose proof (set_registry_frame inv tasks calls reg w1) as (Hi2 & Ht2 & Hc2).
  assert (inv (set_registry reg w1)) as Hinv2 by auto. destruct live; simpl in *.
  - unfold mbind, mreturn in Hrun.
    pose proof (send_neutral inv tasks calls (rq_chat rq)
      (task_note "Cancelling" (rq_task_id rq) "Graceful shutdown signal sent.") (set_registry reg w1)) as [Hi3 Ht3 Hr3 Hc3].
    destruct (send_html _ _ (set_registry reg w1)) as [s w3]. simpl in *. simplify_eq. split; [auto|].
    exists t0. split_and!; [done..|congruence| |congruence]. by rewrite Hr3, get_set_registry.
  - assert (reg = get_registry w) as -> by (unfold cancel in Hlive; destruct (map_ _ !! _); by simplify_eq).
    assert (tasks (set_registry (get_registry w) w1) !! task_key t0 = Some t0) as Hlk2 by congruence.
    destruct (cancel_parked_spec _ _ _ _ _ _ Hinv2 Hlk2 Heq Hs Hst Hterm Hrun) as (Hi3 & Hr3 & Hc3 & Hres).
    split; [done|]. rewrite get_set_registry in Hr3. destruct r as [u|e]; [|split; congruence].
    exists t0. split_and!; [done..|congruence|]. destruct Hres as [tp Htp]. exists tp. congruence.
Qed.
(** The common shape of [pause_execute] and [resume_execute]. *)
Definition backend_request (act : DownloaderInterface W -> Gid -> M W (Result unit))
  (verb no_binding title note : string) (rq : TaskRequest) : M W (Result unit) :=
  co_try loaded <- repo_find (rq_task_id rq);
  match loaded with
  | None => co_return error NotFound (verb +:+ ": task not found")
  | Some task =>
      if negb (bool_decide (md_chat (metadata task) = rq_chat rq))
      then co_return error PermissionDenied (verb +:+ ": task belongs to a different chat")
      else if is_terminal task
      then co_return error InvalidState (verb +:+ ": task already in a terminal state")
      else
        match downloader_id task, backend_of (downloader_kind task) with
        | Some did, Some d =>
            co_try backend <- act d did;
            co_await _sent <- send_html (rq_chat rq) (task_note title (rq_task_id rq) note);
            co_return Ok ()
        | _, _ => co_return error InvalidState no_binding
        end
  end.

Ltac refused Hrun :=
  unfold error in Hrun; injection Hrun as <- <-;
  split_and!; [solve [auto]|done|done|intros _; split; [done|intros; congruence]|intros; congruence].

Ltac unbound Hrun :=
  unfold error in Hrun; injection Hrun as <- <-;
  split_and!; [solve [auto]|done|done|intros []; reflexivity|intros; congruence].

Lemma backend_request_spec act call verb no_binding title note rq w r w' :
  (forall k d g w, backend_of k = Some d -> backend_step inv tasks calls (call k g) w (act d g w).2) ->
  inv w -> backend_request act verb no_binding title note rq w = (r, w') ->
  inv w' /\ tasks w' = tasks w /\ get_registry w' = get_registry w /\
  (refusal verb rq (tasks w !! value (rq_task_id rq)) <> None ->
     calls w' = calls w /\ forall e, refusal verb rq (tasks w !! value (rq_task_id rq)) = Some e ->
       has_value (repo_find (rq_task_id rq) w).1 = true -> r = Err e) /\
  (r = Ok () -> exists t g, tasks w !! value (rq_task_id rq) = Some t /\
     md_chat (metadata t) = rq_chat rq /\ is_terminal t = false /\ downloader_id t = Some g /\
     downloader_kind t <> NoDownloader /\ calls w' = calls w ++ [call (downloader_kind t) g]).
Proof.
  intros Hact Hinv Hrun. pose proof (find_neutral inv tasks calls (rq_task_id rq) w Hinv) as Hn.
  unfold backend_request in Hrun.
  destruct (repo_find (rq_task_id rq) w) as [[o|e] w1] eqn:Hf; simpl in Hn; destruct Hn as [Hi1 Ht1 Hr1 Hc1].
  2: { rewrite (try_bind_Err _ _ _ _ _ Hf) in Hrun. simplify_eq. by split_and!; auto. }
  rewrite (try_bind_Ok _ _ _ _ _ Hf) in Hrun.
  pose proof (find_spec (inv := inv) (tasks := tasks) _ _ _ _ Hinv Hf) as Ho. simpl.
  rewrite <-(refusal_proper _ _ _ _ Ho).
  destruct o as [t|]; simpl in *; [|refused Hrun].
  destruct (tasks w !! value (rq_task_id rq)) as [t0|] eqn:Hlk; [|by inversion Ho].
  assert (t ≡ t0) as Heq by (by inversion Ho).
  destruct (bool_decide (md_chat (metadata t) = rq_chat rq)) eqn:Hc; simpl in *;
    [|refused Hrun].
  apply bool_decide_eq_true in Hc. rewrite (task_equiv_chat _ _ Heq) in Hc.
  destruct (is_terminal t) eqn:Hterm; simpl in *; [refused Hrun|].
  rewrite (is_terminal_proper _ _ Heq) in Hterm. destruct Heq as (_ & _ & _ & Hid & Hk). rewrite Hid, Hk in Hrun.
  destruct (downloader_id t0) as [g|] eqn:Hg; [|unbound Hrun].
  destruct (backend_of (downloader_kind t0)) as [d|] eqn:Hd; [|unbound Hrun].
  destruct (Hact _ d g w1 Hd) as [Hi2 Ht2 Hr2 Hc2]. unfold try_bind, mbind, mreturn in Hrun.
  destruct (act d g w1) as [[[]|e] w2]; simpl in *.
  - pose proof (send_neutral inv tasks calls (rq_chat rq) (task_note title (rq_task_id rq) note) w2) as [Hi3 Ht3 Hr3 Hc3].
    destruct (send_html _ _ w2) as [s w3]. simpl in *. simplify_eq.
    split_and!; [auto|congruence|congruence|done|]. intros _. exists t0, g.
    split_and!; try done; [intros H; by rewrite H in Hd|congruence].
  - simplify_eq. split_and!; auto; congruence.
Qed.

(** From one task map to another, some unfinished tasks of a chat were cancelled. *)
Definition only_cancels (chat : ChatId) (m m' : gmap string Task) : Prop :=
  forall k, m' !! k = m !! k \/
    exists t tp, m !! k = Some t /\ md_chat (metadata t) = chat /\ is_terminal t = false /\
      m' !! k = Some (enter CancelledState tp t).

Lemma only_cancels_refl chat m : only_cancels chat m m.
Proof. intros k. by left. Qed.

Lemma only_cancels_trans chat m1 m2 m3 :
  only_cancels chat m1 m2 -> only_cancels chat m2 m3 -> only_cancels chat m1 m3.
Proof.
  intros H1 H2 k. destruct (H2 k) as [->|(t & tp & Hk & Hc & Ht & H3)]; [apply H1|].
  destruct (H1 k) as [E|(t' & tp' & Hk' & Hc' & Ht' & H3')].
  - right. rewrite E in Hk. eauto 10.
  - rewrite H3' in Hk. injection Hk as <-. done.
Qed.

Lemma cancel_effect_only rq w r w' :
  cancel_effect rq w r w' -> only_cancels (rq_chat rq) (tasks w) (tasks w').
Proof.
  unfold cancel_effect. destruct r as [u|e]; [|intros [-> _]; apply only_cancels_refl].
  intros (t & Hk & Hc & Ht & H). destruct (cancel _ _).1; [destruct H as (-> & _); apply only_cancels_refl|].
  destruct H as (_ & _ & tp & ->). intros k. destruct (decide (value (rq_task_id rq) = k)) as [<-|Hne].
  - right. exists t, tp. split_and!; try done. by rewrite lookup_insert_eq.
  - left. by rewrite lookup_insert_ne.
Qed.

Lemma cancel_loop_effect chat l acc w res w' :
  inv w -> mfold (cancel_one chat) l acc w = (res, w') ->
  inv w' /\ only_cancels chat (tasks w) (tasks w') /\
  cancelled res + failed res =
    cancelled acc + failed acc + Z.of_nat (length (filter (fun t => md_chat (metadata t) = chat) l)).
Proof.
  revert acc w. induction l as [|t l IH]; intros acc w Hinv; cbn [mfold].
  { intros [= <- <-]. split_and!; [done|apply only_cancels_refl|simpl; lia]. }
  unfold mbind at 1, cancel_one at 1. case_bool_decide as Hc; simpl.
  - unfold mbind, mreturn. destruct (cancel_execute _ w) as [r w1] eqn:E.
    destruct (cancel_execute_effect _ _ _ _ Hinv E) as [Hinv1 Heff]. apply cancel_effect_only in Heff.
    intros Hrun. destruct (IH _ _ Hinv1 Hrun) as (Hi & Ho & Hn). split_and!; [done|by eapply only_cancels_trans|].
    rewrite filter_cons_True by done. simpl length. rewrite Hn. destruct r; simpl; lia.
  - intros Hrun. destruct (IH _ _ Hinv Hrun) as (Hi & Ho & Hn). by rewrite filter_cons_False.
Qed.

(** The unfinished tasks of a chat. *)
Definition chat_work (chat : ChatId) (m : gmap string Task) : gmap string Task :=
  filter (fun kt => md_chat (metadata kt.2) = chat /\ is_terminal kt.2 = false) m.

Lemma chat_work_size chat w l w1 :
  inv w -> repo_incomplete w = (Ok l, w1) ->
  length (filter (fun t => md_chat (metadata t) = chat) l) = size (chat_work chat (tasks w)).
Proof.
  intros Hinv Hl. destruct (incomplete_spec (inv := inv) (tasks := tasks) w l w1 Hinv Hl) as (l0 & Heq & Hnd & Hel & _).
  assert (length (filter (fun t => md_chat (metadata t) = chat) l) =
          length (filter (fun t => md_chat (metadata t) = chat) l0)) as ->.
  { clear -Heq. induction Heq as [|t t0 l l0 H _ IH]; [done|].
    rewrite !filter_cons, (task_equiv_chat _ _ H). case_decide; simpl; congruence. }
  rewrite <-length_map_to_list, <-(length_fmap (fun t => (task_key t, t))).
  apply Permutation_length, NoDup_Permutation.
  - apply NoDup_fmap_2; [by intros ?? [=]|]. by apply NoDup_filter.
  - apply NoDup_map_to_list.
  - intros [k t]. rewrite list_elem_of_fmap, elem_of_map_to_list. unfold chat_work.
    rewrite map_lookup_filter_Some. simpl. split.
    + intros (t' & [= -> ->] & [Hc Hin]%list_elem_of_filter). apply Hel in Hin as [H1 H2]. done.
    + intros (Hk & Hc & Ht). exists t. destruct (tasks_storable (inv := inv) _ _ _ Hinv Hk) as (_ & _ & <-).
      split; [done|]. apply list_elem_of_filter. split; [done|]. by apply Hel.
Qed.
End Lemmas.

(** ** Theorems *)

Section Theorems.
  Context {W : Type} `{!Clock W, !TaskRepository W, !Downloaders W, !MessengerInterface W, !HasRegistry W}.
  Context (inv : W -> Prop) (tasks : W -> gmap string Task) (calls : W -> list BackendCall).
  Context (Hlaws : TaskRepositoryLaws W inv tasks) (Hframes : PortFrames inv tasks calls).

(** C7. What [/cancel] does.  On success the named task was stored, unfinished and of the
    requesting chat, and then either a coroutine runs it, in which case its flag is set
    and nothing is stored or torn down here, or no coroutine runs it, in which case the
    job is removed with its files from exactly the backend it is bound to and the task is
    stored as Cancelled, every other task being left alone.  On failure neither the tasks
    nor the flags change.  A request that names no task, a task of another chat or a
    finished task is refused with the corresponding code without any further effect. *)
Theorem cancel_execute_spec rq w (Hinv : inv w) :
  inv (cancel_execute rq w).2 /\
  cancel_effect tasks calls rq w (cancel_execute rq w).1 (cancel_execute rq w).2 /\
  forall o w1 e, repo_find (rq_task_id rq) w = (Ok o, w1) ->
    refusal "cancel" rq (tasks w !! value (rq_task_id rq)) = Some e -> cancel_execute rq w = (Err e, w1).
Proof.
  destruct (cancel_execute rq w) as [r w'] eqn:E.
  destruct (cancel_execute_effect inv tasks calls rq w r w' Hinv E) as [H1 H2]. split; [done|]. split; [done|].
  intros o w1 e Hf Hr. rewrite <-E. by apply (cancel_refused inv tasks rq w o).
Qed.

(** [/cancelall] touches one chat only: every stored task is left as it is or, if it
    is an unfinished task of that chat, becomes Cancelled; and the two counters of the
    report add up to the number of unfinished tasks of the chat. *)
Theorem cancel_all_chat_scope chat w res w' (Hinv : inv w) (Hrun : cancel_all chat w = (Ok res, w')) :
  inv w' /\ only_cancels chat (tasks w) (tasks w') /\
  (forall k t, tasks w !! k = Some t -> md_chat (metadata t) <> chat -> tasks w' !! k = Some t) /\
  cancelled res + failed res = Z.of_nat (size (chat_work chat (tasks w))).
Proof.
  apply try_bind_Ok_inv in Hrun as (l & w1 & Hl & Hrun).
  pose proof (incomplete_neutral inv tasks calls w Hinv) as [Hi1 Ht1 _ _]. rewrite Hl in Hi1, Ht1. simpl in *.
  unfold mbind, mreturn in Hrun. destruct (mfold _ _ _ w1) as [r w2] eqn:E.
  destruct (cancel_loop_effect inv tasks calls _ _ _ _ _ _ (Hi1 Hinv) E) as (Hi2 & Ho & Hn).
  match type of Hrun with context [send_html ?c ?h w2] =>
    pose proof (send_neutral inv tasks calls c h w2) as [Hi3 Ht3 _ _]; destruct (send_html c h w2) as [s w3] end.
  simpl in *. simplify_eq. rewrite Ht1 in Ho.
  assert (only_cancels chat (tasks w) (tasks w')) as Hoc by (by rewrite Ht3).
  split_and!; [auto|done| |].
  - intros k t Hk Hc. destruct (Hoc k) as [->|(t' & tp & Hk' & Hc' & _)]; [done|congruence].
  - rewrite Hn. by rewrite (chat_work_size inv tasks chat w l w1 Hinv Hl).
Qed.

(** [/pause] and [/resume] hand the request to exactly the backend the task is bound
    to and never change the stored tasks or the flags; on success the task was stored,
    unfinished, of the requesting chat and bound, and that one call was made; a request
    that is refused for its task reaches no backend. *)
Theorem pause_resume_spec rq w (Hinv : inv w) :
  (let '(r, w') := pause_execute rq w in
     tasks w' = tasks w /\ get_registry w' = get_registry w /\
     (refusal "pause" rq (tasks w !! value (rq_task_id rq)) <> None -> calls w' = calls w) /\
     (r = Ok () -> exists t g, tasks w !! value (rq_task_id rq) = Some t /\
        md_chat (metadata t) = rq_chat rq /\ is_terminal t = false /\ downloader_id t = Some g /\
        downloader_kind t <> NoDownloader /\ calls w' = calls w ++ [CallPause (downloader_kind t) g])) /\
  (let '(r, w') := resume_execute rq w in
     tasks w' = tasks w /\ get_registry w' = get_registry w /\
     (refusal "resume" rq (tasks w !! value (rq_task_id rq)) <> None -> calls w' = calls w) /\
     (r = Ok () -> exists t g, tasks w !! value (rq_task_id rq) = Some t /\
        md_chat (metadata t) = rq_chat rq /\ is_terminal t = false /\ downloader_id t = Some g /\
        downloader_kind t <> NoDownloader /\ calls w' = calls w ++ [CallResume (downloader_kind t) g])).
Proof.
  split.
  - destruct (pause_execute rq w) as [r w'] eqn:E.
    destruct (backend_request_spec inv tasks calls pause CallPause "pause"
                "pause: task has no downloader binding (still queued?)" "Paused" "Paused at the download backend." rq w r w'
                (pause_step inv tasks calls) Hinv E) as (_ & H1 & H2 & H3 & H4).
    split_and!; [done|done|by intros [? _]%H3|done].
  - destruct (resume_execute rq w) as [r w'] eqn:E.
    destruct (backend_request_spec inv tasks calls resume CallResume "resume"
                "resume: task has no downloader binding" "Resumed" "Resumed at the download backend." rq w r w'
                (resume_step inv tasks calls) Hinv E) as (_ & H1 & H2 & H3 & H4).
    split_and!; [done|done|by intros [? _]%H3|done].
Qed.
End Theorems.

(** ** Witnesses *)

Import MemWorld.

Definition sample_world : World :=
  holding [sample "a" 1 Downloading Aria2; sample "b" 1 Completed Aria2; sample "c" 2 Downloading Qbittorrent].

Lemma sample_world_inv : MemWorld.inv sample_world.
Proof. apply holding_inv. repeat (apply Forall_cons_2; [by apply sample_storable|]). apply Forall_nil_2. Qed.

Lemma cancel_execute_spec_witness :
  let rq := MkTaskRequest (MkId "a") (MkId 1) in
  let w' := (cancel_execute rq sample_world).2 in
  (cancel_execute rq sample_world).1 = Ok () /\
  state <$> w_tasks w' !! "a" = Some CancelledState /\ state <$> w_tasks w' !! "c" = Some Downloading /\
  w_calls w' = [CallRemove Aria2 (MkId "gid-a") true] /\
  cancel_effect w_tasks w_calls rq sample_world (cancel_execute rq sample_world).1 w'.
Proof.
  split_and!; [vm_compute; reflexivity..|].
  apply (cancel_execute_spec MemWorld.inv w_tasks w_calls repository_laws frames
    (MkTaskRequest (MkId "a") (MkId 1)) sample_world sample_world_inv).
Defined.

Lemma cancel_all_chat_scope_witness :
  (cancel_all (MkId 1) sample_world).1 = Ok (MkCancelAll 1 0) /\
  only_cancels (MkId 1) (w_tasks sample_world) (w_tasks (cancel_all (MkId 1) sample_world).2).
Proof.
  assert ((cancel_all (MkId 1) sample_world).1 = Ok (MkCancelAll 1 0)) as E by (vm_compute; reflexivity).
  split; [done|]. pose proof sample_world_inv as Hinv. generalize dependent sample_world. intros w E Hinv.
  destruct (cancel_all (MkId 1) w) as [r w'] eqn:Hrun. simpl in *. subst r.
  apply (cancel_all_chat_scope MemWorld.inv w_tasks w_calls repository_laws frames (MkId 1) w _ w' Hinv Hrun).
Defined.

Lemma pause_resume_spec_witness :
  let rq := MkTaskRequest (MkId "c") (MkId 2) in
  (resume_execute rq sample_world).1 = Ok () /\
  w_calls (pause_execute rq sample_world).2 = [CallPause Qbittorrent (MkId "gid-c")] /\
  w_tasks (pause_execute rq sample_world).2 = w_tasks sample_world.
Proof.
  intros rq. split_and!; [vm_compute; reflexivity..|].
  generalize sample_world sample_world_inv. intros w Hinv.
  pose proof (proj1 (pause_resume_spec MemWorld.inv w_tasks w_calls repository_laws frames rq w Hinv)) as H.
  destruct (pause_execute rq w) as [r w']. apply H.
Defined.
