(* ===== verification/Pipeline.v ===== *)
(** * The download-to-upload pipeline: [application/mirror_url.cpp], [application/leech_url.cpp]

    [MirrorUrl::execute] and [LeechUrl::execute] run the same machine: a poll loop over the
    download that spawns one upload coroutine per file, at most [upload_pool_size] at a
    time, on a thread pool.  The loop and the uploads share [PipelineState] under a mutex.

    [step] is one atomic section of the loop, or one upload coroutine finishing, which may
    happen between any two of them; an [Event] carries what the outside world answers
    (a status, an upload result, a stop request).  [trace] is the sequence of calls made on
    the ports.  Reply values the code ignores ([(void)co_await ...]) do not appear. *)

From S2P Require Import Prelude CoreError Identifiers Task Formatting Ports.

(** ** State *)

(** [struct PipelineState]. *)
Record PipelineState := MkPipeline {
  queued : gset string;
  in_flight : Z;
  completed : Z;
  failed : Z;
  first_error : option AppError;
  results : list UploadResult
}.

Definition initial_state : PipelineState := MkPipeline ∅ 0 0 0 None [].

(** Which of the two use cases runs; [MirrorUrl] shows its uploader's name. *)
Inductive Flavor := MirrorFlavor (uploader_name : string) | LeechFlavor.

Definition verb (fl : Flavor) : string := match fl with MirrorFlavor _ => "mirror" | LeechFlavor => "leech" end.

(** What the loop captured from the start of [execute]. *)
Record Env := MkEnv {
  env_flavor : Flavor;
  env_id : TaskId;
  env_gid : Gid;
  upload_pool_size : Z;
  upload_while_downloading : bool
}.

(** Why the loop is left early. *)
Inductive ExitReason :=
| ExitCancelled
| ExitFailed (stage : string) (err : AppError)
| ExitUploadFailed.

(** The suspension points of the loop. *)
Inductive PC :=
| PTop
| PStatus
| PSpawn (files : list string)
| PContains (file : string) (files : list string)
| PBegin (file : string) (files : list string)
| PLaunch (file : string) (files : list string)
| PRender
| PCheck
| PDrain (r : ExitReason)
| PAfter
| PFallback
| PComplete (outcome : UploadResult)
| PDone (r : Result TaskId).

(** Calls on the ports. *)
Inductive Effect :=
| SaveTask (t : Task)
| EditStatus (html : string)
| RemoveJob (delete_files : bool)
| CancelUploads
| SpawnUpload (file : string)
| UploadDirectory (path : string)
| UploadFile (file : string)
| RenderProgress (st : DownloadStatus).

(** [running] lists the upload coroutines that have been spawned and have not ended. *)
Record Config := MkConfig {
  pc : PC;
  task : Task;
  ps : PipelineState;
  running : list string;
  download_complete : bool;
  transitioned : bool;
  final_status : DownloadStatus;
  trace : list Effect
}.

Inductive Event :=
| Tau
| PollCancel (coroutine_cancelled registry_cancelled : bool)
| StatusReply (r : Result DownloadStatus)
| UploadFinished (file : string) (r : Result UploadResult)
| UploadThrew (file : string)
| DirectoryReply (r : Result (list UploadResult))
| FileReply (r : Result UploadResult).

(** [DownloadStatus{}]. *)
Definition empty_status : DownloadStatus :=
  MkStatus (MkId "") "" DQueued 0 0 0 0 0 0 None None [] None None.

(** ** Updates *)

Definition goto (p : PC) (c : Config) : Config :=
  MkConfig p (task c) (ps c) (running c) (download_complete c) (transitioned c) (final_status c) (trace c).
Definition emit (e : Effect) (c : Config) : Config :=
  MkConfig (pc c) (task c) (ps c) (running c) (download_complete c) (transitioned c) (final_status c) (trace c ++ [e]).
Definition set_task (t : Task) (c : Config) : Config :=
  MkConfig (pc c) t (ps c) (running c) (download_complete c) (transitioned c) (final_status c) (trace c).
Definition set_ps (s : PipelineState) (r : list string) (c : Config) : Config :=
  MkConfig (pc c) (task c) s r (download_complete c) (transitioned c) (final_status c) (trace c).
Definition set_transitioned (c : Config) : Config :=
  MkConfig (pc c) (task c) (ps c) (running c) (download_complete c) true (final_status c) (trace c).
Definition set_status (st : DownloadStatus) (done : bool) (c : Config) : Config :=
  MkConfig (pc c) (task c) (ps c) (running c) (download_complete c || done) (transitioned c) st (trace c).

(** [persist_best_effort]. *)
Definition persist (c : Config) : Config := emit (SaveTask (task c)) c.

(** ** The upload coroutines *)

(** The critical section of [spawn_upload]: [None] when the file is already queued. *)
Definition queue_upload (file : string) (s : PipelineState) : option PipelineState :=
  if bool_decide (file ∈ queued s) then None
  else Some (MkPipeline ({[ file ]} ∪ queued s) (in_flight s + 1) (completed s) (failed s)
               (first_error s) (results s)).

(** The critical section at the end of an upload coroutine; [LeechUrl] keeps no results. *)
Definition upload_done (fl : Flavor) (res : Result UploadResult) (s : PipelineState) : PipelineState :=
  match res with
  | Err e => MkPipeline (queued s) (in_flight s - 1) (completed s) (failed s + 1)
               (match first_error s with Some e0 => Some e0 | None => Some e end) (results s)
  | Ok r => MkPipeline (queued s) (in_flight s - 1) (completed s + 1) (failed s) (first_error s)
               (match fl with MirrorFlavor _ => results s ++ [r] | LeechFlavor => results s end)
  end.

(** [can_spawn_more]. *)
Definition can_spawn_more (env : Env) (s : PipelineState) : bool := in_flight s <? upload_pool_size env.

(** ** Leaving the loop *)

(** [fail_task]. *)
Definition fail_task (env : Env) (stage : string) (err : AppError) (tp : Z) (c : Config) : Config :=
  let c := persist (set_task (mark_failed (err_message err) tp (task c)).2 c) in
  let html :=
    "<b><u>Failed</u></b>" +:+ newline +:+
    "<b>Stage:</b> <code>" +:+ escape_html stage +:+ "</code>" +:+ newline +:+
    "<b>Reason:</b> " +:+ escape_html (friendly_error_label (err_code err)) +:+ newline +:+
    "<blockquote>" +:+ escape_html (truncate_for_display (err_message err) 512) +:+ "</blockquote>" in
  goto (PDone (Err err)) (emit (EditStatus html) c).

(** [cancel_all_uploads(); co_await drain_uploads(); ...]: the part before the wait. *)
Definition start_drain (r : ExitReason) (c : Config) : Config := goto (PDrain r) (emit CancelUploads c).

(** What follows the drain. *)
Definition leave (env : Env) (r : ExitReason) (tp : Z) (c : Config) : Config :=
  match r with
  | ExitCancelled =>
      let c := emit (RemoveJob true) c in
      let c := persist (set_task (mark_cancelled tp (task c)).2 c) in
      let c := emit (EditStatus ("<b><u>Cancelled</u></b>" +:+ newline +:+
                                 "<blockquote>Task cancelled by request.</blockquote>")) c in
      goto (PDone (error Cancelled (verb (env_flavor env) +:+ ": cancelled by user"))) c
  | ExitFailed stage err => fail_task env stage err tp c
  | ExitUploadFailed =>
      let upload_err := default (MkError Unknown "upload failed") (first_error (ps c)) in
      fail_task env "upload" upload_err tp (emit (RemoveJob false) c)
  end.

(** ** The loop *)

(** The answer of [downloader.status]. *)
Definition on_status (env : Env) (r : Result DownloadStatus) (c : Config) : Config :=
  match r with
  | Err e => start_drain (ExitFailed "download" e) c
  | Ok st =>
      match ds_state st with
      | DError =>
          let msg := default "downloader reported error" (ds_error_message st) in
          start_drain (ExitFailed "download" (MkError Aria2Rpc msg)) (set_status st false c)
      | DRemoved =>
          start_drain (ExitFailed "download" (MkError Cancelled "download removed externally")) (set_status st false c)
      | s =>
          let done := bool_decide (s = DComplete) || bool_decide (s = DSeeding) in
          goto (if upload_while_downloading env then PSpawn (ds_files st) else PRender) (set_status st done c)
      end
  end.

(** The termination check. *)
Definition check_termination (c : Config) : Config :=
  let all_uploads_done := in_flight (ps c) =? 0 in
  let any_upload_failed := failed (ps c) >? 0 in
  if any_upload_failed then start_drain ExitUploadFailed c
  else if download_complete c && all_uploads_done then goto PAfter c
  else goto PTop c.

(** The message while the one-shot upload runs. *)
Definition uploading_html (fl : Flavor) : string :=
  "<b><u>Uploading</u></b>" +:+ newline +:+ "<blockquote>Destination: " +:+
  match fl with MirrorFlavor name => escape_html name | LeechFlavor => "Telegram" end +:+ "</blockquote>".

(** After the loop: results of the pipeline, or the one-shot upload. *)
Definition after_loop (env : Env) (tp : Z) (c : Config) : Config :=
  if completed (ps c) >? 0
  then goto (PComplete (default (MkUploadResult "" "" 0 0) (head (results (ps c))))) c
  else
    match begin_upload tp (task c) with
    | (Err e, _) => fail_task env "state" e tp c
    | (Ok _, t) =>
        let c := emit (EditStatus (uploading_html (env_flavor env))) (persist (set_task t c)) in
        match ds_files (final_status c) with
        | [] => fail_task env "download" (MkError Internal "downloader reported no produced files") tp c
        | file :: _ =>
            match ds_save_path (final_status c) with
            | Some dir => goto PFallback (emit (UploadDirectory dir) c)
            | None => goto PFallback (emit (UploadFile file) c)
            end
        end
    end.

(** The answer of [upload_directory]; [LeechUrl] insists on a result. *)
Definition on_directory (env : Env) (r : Result (list UploadResult)) (tp : Z) (c : Config) : Config :=
  match r with
  | Err e => fail_task env "upload" e tp c
  | Ok [] =>
      match env_flavor env with
      | MirrorFlavor _ => goto (PComplete (MkUploadResult "" "" 0 0)) c
      | LeechFlavor => fail_task env "upload" (MkError Internal "upload produced no results") tp c
      end
  | Ok (u :: _) => goto (PComplete u) c
  end.

(** The answer of [upload_file] in the one-shot path. *)
Definition on_file (env : Env) (r : Result UploadResult) (tp : Z) (c : Config) : Config :=
  match r with
  | Err e => fail_task env "upload" e tp c
  | Ok u => goto (PComplete u) c
  end.

(** The message of a finished task. *)
Definition completed_html (fl : Flavor) (u : UploadResult) : string :=
  "<b><u>Completed</u></b>" +:+ newline +:+ "<blockquote>" +:+
  match fl with
  | MirrorFlavor _ =>
      let outcome := if str_empty (ur_link u) then ur_file_id u else ur_link u in
      escape_html (truncate_for_display outcome 400)
  | LeechFlavor => "Files uploaded to Telegram."
  end +:+ "</blockquote>".

(** The [Completed] section. *)
Definition finish (env : Env) (outcome : UploadResult) (tp : Z) (c : Config) : Config :=
  let c := if transitioned c then c else set_task (begin_upload tp (task c)).2 c in
  match mark_completed tp (task c) with
  | (Err e, _) => fail_task env "state" e tp c
  | (Ok _, t) =>
      let c := emit (RemoveJob false) (persist (set_task t c)) in
      goto (PDone (Ok (env_id env))) (emit (EditStatus (completed_html (env_flavor env) outcome)) c)
  end.

(** [if (!transitioned_to_uploading) ...] in the spawn loop. *)
Definition begin_if_needed (tp : Z) (c : Config) : Config :=
  if transitioned c then c
  else match begin_upload tp (task c) with
       | (Ok _, t) => persist (set_transitioned (set_task t c))
       | (Err _, _) => c
       end.

(** Remove one occurrence. *)
Fixpoint remove_one (f : string) (l : list string) : list string :=
  match l with
  | [] => []
  | g :: l' => if bool_decide (f = g) then l' else g :: remove_one f l'
  end.

(** One step, at clock reading [tp]; [None] when the event cannot happen here. *)
Definition step (env : Env) (tp : Z) (e : Event) (c : Config) : option Config :=
  match e, pc c with
  | UploadFinished f res, _ =>
      if bool_decide (f ∈ running c)
      then Some (set_ps (upload_done (env_flavor env) res (ps c)) (remove_one f (running c)) c) else None
  | UploadThrew f, _ =>
      if bool_decide (f ∈ running c) then Some (set_ps (ps c) (remove_one f (running c)) c) else None
  | PollCancel coroutine registry, PTop =>
      Some (if coroutine || registry then start_drain ExitCancelled c
            else goto (if download_complete c then PCheck else PStatus) c)
  | StatusReply r, PStatus => Some (on_status env r c)
  | Tau, PSpawn [] => Some (goto PRender c)
  | Tau, PSpawn (f :: fs) => Some (goto (if can_spawn_more env (ps c) then PContains f fs else PRender) c)
  | Tau, PContains f fs => Some (goto (if bool_decide (f ∈ queued (ps c)) then PSpawn fs else PBegin f fs) c)
  | Tau, PBegin f fs => Some (goto (PLaunch f fs) (begin_if_needed tp c))
  | Tau, PLaunch f fs =>
      Some (match queue_upload f (ps c) with
            | None => goto (PSpawn fs) c
            | Some s => goto (PSpawn fs) (emit (SpawnUpload f) (set_ps s (f :: running c) c))
            end)
  | Tau, PRender => Some (goto PCheck (emit (RenderProgress (final_status c)) c))
  | Tau, PCheck => Some (check_termination c)
  | Tau, PDrain r => Some (if in_flight (ps c) =? 0 then leave env r tp c else c)
  | Tau, PAfter => Some (after_loop env tp c)
  | DirectoryReply r, PFallback =>
      match ds_save_path (final_status c) with Some _ => Some (on_directory env r tp c) | None => None end
  | FileReply r, PFallback =>
      match ds_save_path (final_status c) with None => Some (on_file env r tp c) | Some _ => None end
  | Tau, PComplete u => Some (finish env u tp c)
  | _, _ => None
  end.

(** The configuration in which the loop starts: the task is downloading. *)
Definition start (t : Task) : Config := MkConfig PTop t initial_state [] false false empty_status [].

Inductive run_step (env : Env) : Config -> Config -> Prop :=
| run_intro tp e c c' : step env tp e c = Some c' -> run_step env c c'.

Definition reachable (env : Env) (t : Task) (c : Config) : Prop := rtc (run_step env) (start t) c.

(** Runs of events, for examples. *)
Fixpoint run_events (env : Env) (tp : Z) (es : list Event) (c : Config) : option Config :=
  match es with
  | [] => Some c
  | e :: es' => match step env tp e c with Some c' => run_events env tp es' c' | None => None end
  end.

(** ** Observations *)

(** The files handed to an upload coroutine, in order. *)
Definition spawned (l : list Effect) : list string :=
  omap (fun e => match e with SpawnUpload f => Some f | _ => None end) l.

(** The last task written to the repository. *)
Definition last_saved (l : list Effect) : option Task :=
  last (omap (fun e => match e with SaveTask t => Some t | _ => None end) l).

Lemma spawned_app l1 l2 : spawned (l1 ++ l2) = spawned l1 ++ spawned l2.
Proof. apply omap_app. Qed.

Lemma last_saved_app l1 l2 :
  last_saved (l1 ++ l2) = match last_saved l2 with Some t => Some t | None => last_saved l1 end.
Proof. unfold last_saved. rewrite omap_app, last_app. by destruct (last _). Qed.

(** ** Invariant *)

(** Accounting of the shared state. *)
Record accounting (env : Env) (c : Config) : Prop := {
  acc_running : Z.of_nat (length (running c)) <= in_flight (ps c);
  acc_pool : in_flight (ps c) <= upload_pool_size env;
  acc_queued : Z.of_nat (size (queued (ps c))) = in_flight (ps c) + completed (ps c) + failed (ps c);
  acc_completed : 0 <= completed (ps c);
  acc_failed : 0 <= failed (ps c);
  acc_error : first_error (ps c) = None <-> failed (ps c) = 0;
  acc_results : Z.of_nat (length (results (ps c))) =
    match env_flavor env with MirrorFlavor _ => completed (ps c) | LeechFlavor => 0 end;
  acc_spawned : NoDup (spawned (trace c)) /\ forall f, f ∈ spawned (trace c) <-> f ∈ queued (ps c)
}.

(** Nothing is in flight and nothing has failed. *)
Definition settled (c : Config) : Prop :=
  running c = [] /\ in_flight (ps c) = 0 /\ failed (ps c) = 0 /\ download_complete c = true.

(** The state of the task inside the loop. *)
Definition loop_state (c : Config) : Prop :=
  state (task c) = (if transitioned c then Uploading else Downloading) /\
  (transitioned c = true <-> queued (ps c) <> ∅).

Definition pc_inv (env : Env) (c : Config) : Prop :=
  match pc c with
  | PContains _ _ => loop_state c /\ in_flight (ps c) < upload_pool_size env
  | PBegin f _ => loop_state c /\ in_flight (ps c) < upload_pool_size env /\ f ∉ queued (ps c)
  | PLaunch f _ => state (task c) = Uploading /\ transitioned c = true /\
                   in_flight (ps c) < upload_pool_size env /\ f ∉ queued (ps c)
  | PAfter => loop_state c /\ settled c
  | PFallback => settled c /\ completed (ps c) = 0 /\ state (task c) = Uploading /\ transitioned c = false
  | PComplete _ => settled c /\ state (task c) = Uploading
  | PDone (Ok id) => id = env_id env /\ settled c /\ state (task c) = Completed /\
                     last_saved (trace c) = Some (task c)
  | PDone (Err e) => running c = [] /\ in_flight (ps c) = 0 /\ last_saved (trace c) = Some (task c) /\
                     (state (task c) = Failed /\ error_message (task c) = Some (err_message e) \/
                      state (task c) = CancelledState /\ err_code e = Cancelled)
  | _ => loop_state c
  end.

Record pipeline_inv (env : Env) (t0 : Task) (c : Config) : Prop := {
  pi_accounting : accounting env c;
  pi_pc : pc_inv env c;
  pi_identity : md_id (metadata (task c)) = md_id (metadata t0)
}.

(** ** Lemmas *)

Lemma accounting_frame env c c' :
  ps c' = ps c -> running c' = running c -> spawned (trace c') = spawned (trace c) ->
  accounting env c -> accounting env c'.
Proof. intros H1 H2 H3 []. split; rewrite ?H1, ?H2, ?H3; auto. Qed.

Lemma running_nil env c : accounting env c -> in_flight (ps c) = 0 -> running c = [].
Proof. intros [] H. apply length_zero_iff_nil. lia. Qed.

Lemma length_remove_one f l : f ∈ l -> S (length (remove_one f l)) = length l.
Proof.
  induction l as [|g l IH]; [by intros ?%elem_of_nil|]. simpl. case_bool_decide as E; simpl; [done|].
  intros [?|H]%elem_of_cons; [congruence|]. by rewrite IH.
Qed.

(** Failing a task that is not finished. *)
Lemma fail_task_inv env t0 stage err tp c :
  accounting env c -> in_flight (ps c) = 0 -> is_terminal (task c) = false ->
  md_id (metadata (task c)) = md_id (metadata t0) -> pipeline_inv env t0 (fail_task env stage err tp c).
Proof.
  intros Hacc H0 Hterm Hid. pose proof (running_nil env c Hacc H0) as Hr.
  unfold fail_task, mark_failed. rewrite Hterm. split; [| |done].
  - apply (accounting_frame env c); [done..| |done]. simpl. by rewrite !spawned_app, !app_nil_r.
  - simpl. unfold pc_inv. simpl. rewrite !last_saved_app. simpl. split_and!; [done..|by left].
Qed.

Lemma start_drain_inv env t0 r c :
  accounting env c -> loop_state c -> md_id (metadata (task c)) = md_id (metadata t0) ->
  pipeline_inv env t0 (start_drain r c).
Proof.
  intros Hacc Hs Hid. split; [|done|done].
  apply (accounting_frame env c); [done..| |done]. simpl. by rewrite spawned_app, app_nil_r.
Qed.

Lemma loop_state_not_terminal c : loop_state c -> is_terminal (task c) = false.
Proof. intros [H _]. unfold is_terminal. rewrite H. by destruct (transitioned c). Qed.

Lemma leave_inv env t0 r tp c :
  accounting env c -> loop_state c -> in_flight (ps c) = 0 ->
  md_id (metadata (task c)) = md_id (metadata t0) -> pipeline_inv env t0 (leave env r tp c).
Proof.
  intros Hacc Hs H0 Hid. pose proof (loop_state_not_terminal c Hs) as Hterm. destruct r as [|stage err|]; simpl.
  - pose proof (running_nil env c Hacc H0) as Hr. unfold mark_cancelled. rewrite Hterm. split; [| |done].
    + apply (accounting_frame env c); [done..| |done]. simpl. by rewrite !spawned_app, !app_nil_r.
    + unfold pc_inv. simpl. rewrite !last_saved_app. simpl. split_and!; [done..|by right].
  - by apply fail_task_inv.
  - apply fail_task_inv; [|done..].
    apply (accounting_frame env c); [done..| |done]. simpl. by rewrite spawned_app, app_nil_r.
Qed.

Lemma on_status_inv env t0 r c :
  accounting env c -> loop_state c -> md_id (metadata (task c)) = md_id (metadata t0) ->
  pipeline_inv env t0 (on_status env r c).
Proof.
  intros Hacc Hs Hid. unfold on_status. destruct r as [st|e]; [|by apply start_drain_inv].
  assert (forall d, accounting env (set_status st d c)) as Hacc'
    by (intros; by apply (accounting_frame env c)).
  destruct (ds_state st); try (by apply start_drain_inv);
    (split; [by apply (accounting_frame env c)|by destruct (upload_while_downloading env)|done]).
Qed.

Lemma check_termination_inv env t0 c :
  accounting env c -> loop_state c -> md_id (metadata (task c)) = md_id (metadata t0) ->
  pipeline_inv env t0 (check_termination c).
Proof.
  intros Hacc Hs Hid. unfold check_termination.
  destruct (Z.gtb_spec (failed (ps c)) 0); [by apply start_drain_inv|].
  destruct (download_complete c) eqn:Hd; simpl; [|split; [by apply (accounting_frame env c)|done|done]].
  destruct (Z.eqb_spec (in_flight (ps c)) 0) as [H0|];
    [|split; [by apply (accounting_frame env c)|done|done]].
  split; [by apply (accounting_frame env c)| |done]. split; [done|]. pose proof (acc_failed env c Hacc).
  split_and!; simpl; [by eapply running_nil|done|lia|done].
Qed.

Lemma after_loop_inv env t0 tp c :
  accounting env c -> loop_state c -> settled c -> md_id (metadata (task c)) = md_id (metadata t0) ->
  pipeline_inv env t0 (after_loop env tp c).
Proof.
  intros Hacc [Hs Ht] Hset Hid. unfold after_loop. pose proof (acc_completed env c Hacc).
  pose proof (acc_queued env c Hacc) as Hq. destruct Hset as (Hr & H0 & Hf & Hd). rewrite H0, Hf in Hq.
  destruct (Z.gtb_spec (completed (ps c)) 0) as [Hc|Hc].
  - split; [by apply (accounting_frame env c)| |done]. simpl. split; [done|]. simpl. destruct (transitioned c); [done|].
    exfalso. assert (queued (ps c) = ∅) as E by (apply dec_stable; naive_solver).
    rewrite E, size_empty in Hq. lia.
  - assert (completed (ps c) = 0) as Hc0 by lia.
    assert (queued (ps c) = ∅) as Hemp by (apply leibniz_equiv, size_empty_inv; lia).
    assert (transitioned c = false) as Htr by (destruct (transitioned c); naive_solver).
    rewrite Htr in Hs. unfold begin_upload. rewrite Hs. simpl.
    set (c1 := emit _ (persist (set_task _ c))).
    assert (accounting env c1) as Hacc1.
    { apply (accounting_frame env c); [done..| |done]. simpl. by rewrite !spawned_app, !app_nil_r. }
    destruct (ds_files (final_status c)) as [|file fs]; [by apply fail_task_inv|].
    destruct (ds_save_path (final_status c)); split;
      try (apply (accounting_frame env c1); [done..| |done]; simpl; by rewrite !spawned_app, !app_nil_r); done.
Qed.

Lemma finish_inv env t0 outcome tp c :
  accounting env c -> settled c -> state (task c) = Uploading ->
  md_id (metadata (task c)) = md_id (metadata t0) -> pipeline_inv env t0 (finish env outcome tp c).
Proof.
  intros Hacc Hset Hs Hid. unfold finish.
  assert (task (if transitioned c then c else set_task (begin_upload tp (task c)).2 c) = task c /\
          accounting env (if transitioned c then c else set_task (begin_upload tp (task c)).2 c) /\
          settled (if transitioned c then c else set_task (begin_upload tp (task c)).2 c)) as (Ht & Hacc' & Hset').
  { destruct (transitioned c); [done|]. split_and!; [|by apply (accounting_frame env c)|done].
    simpl. unfold begin_upload. by rewrite Hs. }
  generalize dependent (if transitioned c then c else set_task (begin_upload tp (task c)).2 c).
  intros c1 Ht Hacc' Hset'. rewrite Ht. unfold mark_completed. rewrite Hs. simpl. split; [| |done].
  - apply (accounting_frame env c1); [done..| |done]. simpl. by rewrite !spawned_app, !app_nil_r.
  - unfold pc_inv. simpl. rewrite !last_saved_app. simpl. done.
Qed.

Lemma begin_if_needed_inv tp c :
  loop_state c ->
  let c' := begin_if_needed tp c in
  state (task c') = Uploading /\ transitioned c' = true /\ ps c' = ps c /\ running c' = running c /\
  spawned (trace c') = spawned (trace c) /\ md_id (metadata (task c')) = md_id (metadata (task c)).
Proof.
  intros [Hs _]. unfold begin_if_needed. destruct (transitioned c) eqn:Htr; [done|].
  unfold begin_upload. rewrite Hs. simpl. by rewrite spawned_app, app_nil_r.
Qed.

Lemma launch_inv env t0 f fs c :
  pipeline_inv env t0 c -> pc c = PLaunch f fs ->
  pipeline_inv env t0
    (match queue_upload f (ps c) with
     | None => goto (PSpawn fs) c
     | Some s => goto (PSpawn fs) (emit (SpawnUpload f) (set_ps s (f :: running c) c))
     end).
Proof.
  intros [Hacc Hpc Hid] E. unfold pc_inv in Hpc. rewrite E in Hpc. destruct Hpc as (Hs & Htr & Hpool & Hf).
  unfold queue_upload. rewrite bool_decide_false by done. destruct Hacc as [H1 H2 H3 H4 H5 H6 H7 [H8 H9]].
  split; [| |done].
  - split; simpl; try done; [lia|lia| |].
    + rewrite size_union by set_solver. rewrite size_singleton. lia.
    + rewrite spawned_app. simpl. split.
      * apply NoDup_app. split_and!; [done| |apply NoDup_singleton].
        intros g Hg%H9 ->%list_elem_of_singleton. done.
      * intros g. rewrite elem_of_app, list_elem_of_singleton, H9. set_solver.
  - split; simpl; [by rewrite Htr|]. split; [set_solver|done].
Qed.

(** An upload coroutine ends while the loop is anywhere. *)
Lemma upload_end_inv env t0 c s f :
  pipeline_inv env t0 c -> f ∈ running c ->
  accounting env (set_ps s (remove_one f (running c)) c) ->
  queued s = queued (ps c) -> in_flight s <= in_flight (ps c) ->
  pipeline_inv env t0 (set_ps s (remove_one f (running c)) c).
Proof.
  intros [Hacc Hpc Hid] Hf Hacc' Hq Hle. split; [done| |done].
  assert (running c <> []) as Hne by (intros E; rewrite E in Hf; by apply elem_of_nil in Hf).
  unfold pc_inv, settled, loop_state in *. simpl. rewrite Hq.
  destruct (pc c) as [| | | | | | | | | | | |[|]]; try done; naive_solver lia.
Qed.

(** The steps of the loop. *)
Lemma loop_step_inv env t0 tp e c c' :
  pipeline_inv env t0 c -> step env tp e c = Some c' ->
  match e with UploadFinished _ _ | UploadThrew _ => False | _ => True end -> pipeline_inv env t0 c'.
Proof.
  intros Hinv Hstep He. pose proof Hinv as [Hacc Hpc Hid].
  assert (forall p, pc_inv env (goto p c) -> pipeline_inv env t0 (goto p c)) as Hgoto.
  { intros p Hp. split; [by apply (accounting_frame env c)|done|done]. }
  unfold pc_inv in Hpc. destruct e, (pc c) as [| |[|g fs]|g fs|g fs|g fs| | |reason| | |outcome|] eqn:E; try done;
    cbn [step] in Hstep; rewrite E in Hstep; try done; simplify_eq.
  - by apply Hgoto.
  - apply Hgoto. unfold can_spawn_more. unfold pc_inv. simpl. destruct (Z.ltb_spec (in_flight (ps c)) (upload_pool_size env)); done.
  - apply Hgoto. unfold pc_inv. simpl. case_bool_decide; simpl; [apply Hpc|split; [apply Hpc|split; [apply Hpc|done]]].
  - destruct Hpc as (Hs & Hpool & Hf).
    destruct (begin_if_needed_inv tp c Hs) as (H1 & H2 & H3 & H4 & H5 & H6).
    split; simpl; [|unfold pc_inv; simpl; by rewrite H3|by rewrite H6].
    by apply (accounting_frame env c).
  - by apply launch_inv.
  - split; [|done|done]. apply (accounting_frame env c); [done..| |done]. simpl. by rewrite spawned_app, app_nil_r.
  - by apply check_termination_inv.
  - destruct (Z.eqb_spec (in_flight (ps c)) 0); [by apply leave_inv|done].
  - apply after_loop_inv; [done|apply Hpc|apply Hpc|done].
  - apply finish_inv; [done|apply Hpc|apply Hpc|done].
  - destruct (coroutine_cancelled || registry_cancelled); [by apply start_drain_inv|].
    apply Hgoto. unfold pc_inv. simpl. by destruct (download_complete c).
  - by apply on_status_inv.
  - destruct Hpc as (Hset & Hc & Hs & Htr). destruct (ds_save_path (final_status c)); simplify_eq.
    unfold on_directory. destruct Hset as (Hr & H0 & Hf & Hd).
    assert (is_terminal (task c) = false) as Hterm by (unfold is_terminal; by rewrite Hs).
    destruct r as [[|u l]|e]; [destruct (env_flavor env)| |]; try (by apply fail_task_inv); by apply Hgoto.
  - destruct Hpc as (Hset & Hc & Hs & Htr). destruct (ds_save_path (final_status c)); simplify_eq.
    unfold on_file. destruct Hset as (Hr & H0 & Hf & Hd).
    assert (is_terminal (task c) = false) as Hterm by (unfold is_terminal; by rewrite Hs).
    destruct r as [u|e]; [by apply Hgoto|by apply fail_task_inv].
Qed.

Lemma upload_step_inv env t0 tp e c c' f :
  pipeline_inv env t0 c -> step env tp e c = Some c' ->
  e = UploadThrew f \/ (exists r, e = UploadFinished f r) -> pipeline_inv env t0 c'.
Proof.
  intros Hinv Hstep He. pose proof (pi_accounting _ _ _ Hinv) as Hacc.
  assert (f ∈ running c /\ (c' = set_ps (ps c) (remove_one f (running c)) c \/
            exists r, c' = set_ps (upload_done (env_flavor env) r (ps c)) (remove_one f (running c)) c)) as [Hf Hc].
  { destruct He as [->|[r ->]]; cbn [step] in Hstep; case_bool_decide; simplify_eq; eauto. }
  pose proof (length_remove_one f (running c) Hf) as Hlen.
  destruct Hacc as [H1 H2 H3 H4 H5 H6 H7 H8]. destruct Hc as [->|[r ->]]; apply upload_end_inv; try done.
  - split; simpl; try done; lia.
  - destruct r as [u|err]; split; simpl; try done; try lia.
    + destruct (env_flavor env); [|done]. rewrite length_app. simpl. lia.
    + split; [|lia]. by destruct (first_error (ps c)).
  - destruct r; done.
  - destruct r; simpl; lia.
Qed.

Lemma step_inv env t0 tp e c c' :
  pipeline_inv env t0 c -> step env tp e c = Some c' -> pipeline_inv env t0 c'.
Proof.
  intros Hinv Hstep. destruct e as [| | |f r|f| |]; try (by eapply loop_step_inv).
  - eapply (upload_step_inv _ _ _ _ _ _ f); eauto.
  - eapply (upload_step_inv _ _ _ _ _ _ f); eauto.
Qed.

Lemma start_inv env t0 :
  1 <= upload_pool_size env -> state t0 = Downloading -> pipeline_inv env t0 (start t0).
Proof.
  intros Hp Hs. split; [split; simpl; try done; try lia| |done].
  - by destruct (env_flavor env).
  - split; [apply NoDup_nil_2|set_solver].
  - split; [done|]. simpl. split; [done|]. by intros [].
Qed.

Lemma reachable_inv env t0 c :
  1 <= upload_pool_size env -> state t0 = Downloading -> reachable env t0 c -> pipeline_inv env t0 c.
Proof.
  intros Hp Hs Hr. unfold reachable in Hr.
  refine (rtc_ind_r (pipeline_inv env t0) (start t0) (start_inv env t0 Hp Hs) _ c Hr).
  intros c1 c2 _ [tp e c1' c2' Hstep] Hinv. by eapply step_inv.
Qed.

(** The loop cannot leave a drain while the counter is above the live coroutines. *)
Lemma drain_stuck_step env r c c' :
  pc c = PDrain r -> Z.of_nat (length (running c)) < in_flight (ps c) -> run_step env c c' ->
  pc c' = PDrain r /\ Z.of_nat (length (running c')) < in_flight (ps c').
Proof.
  intros Hpc Hlt Hrun. destruct Hrun as [tp e c c' Hstep].
  destruct e as [| | |f res|f| |]; cbn [step] in Hstep; rewrite ?Hpc in Hstep; try done.
  - destruct (Z.eqb_spec (in_flight (ps c)) 0); [lia|]. by simplify_eq.
  - case_bool_decide as Hf; [|done]. simplify_eq. split; [done|].
    pose proof (length_remove_one _ _ Hf). destruct res; cbn [running ps set_ps upload_done in_flight]; lia.
  - case_bool_decide as Hf; [|done]. simplify_eq. split; [done|].
    pose proof (length_remove_one _ _ Hf). cbn [running ps set_ps]. lia.
Qed.

Lemma remove_one_head f l : remove_one f (f :: l) = l.
Proof. simpl. by rewrite bool_decide_true. Qed.

(** Letting the live uploads of a drain finish, with any results. *)
Lemma drain_finishes env tp r c rs :
  pc c = PDrain r -> in_flight (ps c) = Z.of_nat (length (running c)) -> length rs = length (running c) ->
  exists c', run_events env tp (zip_with UploadFinished (running c) rs ++ [Tau]) c = Some c' /\ exists res, pc c' = PDone res.
Proof.
  revert c. induction rs as [|res rs IH]; intros c Hpc Hn Hlen.
  - destruct (running c) eqn:Er; [|done]. simpl. rewrite Hpc, Hn. simpl.
    eexists. split; [reflexivity|]. destruct r; simpl; eauto.
  - destruct (running c) as [|f l] eqn:Er; [done|]. cbn [zip_with app run_events step].
    rewrite Er, bool_decide_true by set_solver. rewrite remove_one_head.
    set (c1 := set_ps (upload_done (env_flavor env) res (ps c)) l c).
    apply (IH c1); [done| |simpl in *; lia]. simpl in *. destruct res; simpl; lia.
Qed.

(** ** Theorems *)

(** C2. The shared state of the pipeline is always consistent, however the loop and the
    upload coroutines interleave: never more than [upload_pool_size] uploads are in
    flight, the files queued are accounted for as in flight, completed or failed, an error
    is kept exactly when an upload failed, and no file is handed to two coroutines. *)
Theorem pipeline_accounting env t0 c
  (Hpool : 1 <= upload_pool_size env) (Hstart : state t0 = Downloading) (Hr : reachable env t0 c) :
  Z.of_nat (length (running c)) <= in_flight (ps c) <= upload_pool_size env /\
  Z.of_nat (size (queued (ps c))) = in_flight (ps c) + completed (ps c) + failed (ps c) /\
  (first_error (ps c) = None <-> failed (ps c) = 0) /\
  NoDup (spawned (trace c)) /\ (forall f, f ∈ spawned (trace c) <-> f ∈ queued (ps c)).
Proof.
  destruct (reachable_inv env t0 c Hpool Hstart Hr) as [[H1 H2 H3 H4 H5 H6 H7 [H8 H9]] _ _]. done.
Qed.

(** C1. How the use case ends.  When it returns, no upload coroutine is left behind, the
    last state written to the repository is the final state of the task, and the task is
    terminal: Completed exactly when the result is the task id, in which case the
    download was complete, no upload failed and every spawned upload succeeded; otherwise
    Failed with the message of the returned error, or Cancelled. *)
Theorem pipeline_outcome env t0 c r
  (Hpool : 1 <= upload_pool_size env) (Hstart : state t0 = Downloading) (Hr : reachable env t0 c)
  (Hdone : pc c = PDone r) :
  running c = [] /\ in_flight (ps c) = 0 /\ last_saved (trace c) = Some (task c) /\
  md_id (metadata (task c)) = md_id (metadata t0) /\
  match r with
  | Ok id => id = env_id env /\ state (task c) = Completed /\ download_complete c = true /\
             failed (ps c) = 0 /\ completed (ps c) = Z.of_nat (size (queued (ps c)))
  | Err e => state (task c) = Failed /\ error_message (task c) = Some (err_message e) \/
             state (task c) = CancelledState /\ err_code e = Cancelled
  end.
Proof.
  destruct (reachable_inv env t0 c Hpool Hstart Hr) as [Hacc Hpc Hid]. unfold pc_inv in Hpc.
  rewrite Hdone in Hpc. destruct r as [id|e].
  - destruct Hpc as (-> & (H1 & H2 & H3 & H4) & H5 & H6). pose proof (acc_queued _ _ Hacc).
    split_and!; try done. lia.
  - destruct Hpc as (H1 & H2 & H3 & H4). done.
Qed.

(** C4. Leaving the loop terminates when uploads do: once the loop waits for the running
    uploads, and none of them ended by an exception, the use case returns as soon as each
    of them has finished, whatever their results. *)
Theorem pipeline_drain_terminates env t0 c reason tp rs
  (Hpool : 1 <= upload_pool_size env) (Hstart : state t0 = Downloading) (Hr : reachable env t0 c)
  (Hdrain : pc c = PDrain reason) (Hlive : in_flight (ps c) = Z.of_nat (length (running c)))
  (Hrs : length rs = length (running c)) :
  exists c' res, run_events env tp (zip_with UploadFinished (running c) rs ++ [Tau]) c = Some c' /\
    pc c' = PDone res /\ last_saved (trace c') = Some (task c') /\ is_terminal (task c') = true.
Proof.
  destruct (drain_finishes env tp reason c rs Hdrain Hlive Hrs) as (c' & Hrun & res & Hpc).
  exists c', res. split; [done|]. split; [done|].
  assert (forall es c c', pipeline_inv env t0 c -> run_events env tp es c = Some c' -> pipeline_inv env t0 c') as Hinv.
  { clear. induction es as [|e es IH]; intros c c' Hi; simpl; [by intros [= <-]|].
    destruct (step env tp e c) as [c1|] eqn:E; [|done]. apply IH. by eapply step_inv. }
  specialize (Hinv _ _ _ (reachable_inv env t0 c Hpool Hstart Hr) Hrun).
  destruct Hinv as [_ Hp _]. unfold pc_inv in Hp. rewrite Hpc in Hp. unfold is_terminal.
  destruct res; [destruct Hp as (_ & _ & -> & ->)|destruct Hp as (_ & _ & -> & [[-> _]|[-> _]])]; done.
Qed.

(** An upload coroutine that ends by an exception (as a cancelled [co_await] does) skips
    the critical section that decrements [in_flight]: if this happens to an upload the
    loop waits for, the use case never returns, so that the task is never stored as
    Cancelled or Failed and stays registered. *)
Theorem upload_exception_blocks_drain env c reason f tp c1 c'
  (Hdrain : pc c = PDrain reason) (Hf : f ∈ running c)
  (Hacc : in_flight (ps c) = Z.of_nat (length (running c)))
  (Hthrow : step env tp (UploadThrew f) c = Some c1) (Hafter : rtc (run_step env) c1 c') :
  pc c' = PDrain reason.
Proof.
  assert (pc c1 = PDrain reason /\ Z.of_nat (length (running c1)) < in_flight (ps c1)) as H1.
  { cbn [step] in Hthrow. rewrite bool_decide_true in Hthrow by done. simplify_eq. split; [done|].
    pose proof (length_remove_one _ _ Hf). simpl. lia. }
  clear Hthrow. induction Hafter as [c1|c1 c2 c3 Hstep _ IH]; [apply H1|].
  apply IH. destruct H1 as [Hp Hl]. by eapply drain_stuck_step.
Qed.

(** ** Witnesses *)

Lemma run_events_reachable env tp t es c c' :
  reachable env t c -> run_events env tp es c = Some c' -> reachable env t c'.
Proof.
  revert c. induction es as [|e es IH]; intros c Hc; simpl; [by intros [= <-]|].
  destruct (step env tp e c) as [c1|] eqn:E; [|done]. apply IH.
  eapply rtc_r; [done|]. by econstructor.
Qed.

Definition sample_env (pool : Z) : Env := MkEnv (MirrorFlavor "gdrive") (MkId "t") (MkId "g") pool true.

Definition sample_task : Task :=
  MkTask (MkMetadata (MkId "t") (MkId 7) (MkId 1) (MkId 3) Mirror "http://h/f" 0 0) Downloading None (Some (MkId "g")) Aria2.

Definition sample_status (s : DownloadState) (files : list string) : DownloadStatus :=
  MkStatus (MkId "g") "f" s 10 10 0 0 0 0 None None files None None.

Definition sample_result (f : string) : UploadResult := MkUploadResult f ("http://d/" +:+ f) 5 0.

(** One round of the loop that spawns an upload for the only new file. *)
Definition poll_and_spawn (s : DownloadState) (files : list string) : list Event :=
  [PollCancel false false; StatusReply (Ok (sample_status s files)); Tau; Tau; Tau; Tau].

Definition sample_run : list Event :=
  poll_and_spawn DDownloading ["a"; "b"] ++ [Tau; Tau; Tau; Tau; Tau; Tau; Tau] ++
  [PollCancel false false; StatusReply (Ok (sample_status DComplete ["a"; "b"])); Tau; Tau; Tau;
   UploadFinished "b" (Ok (sample_result "b"));
   PollCancel false false; Tau; PollCancel false false; UploadFinished "a" (Ok (sample_result "a")); Tau; Tau; Tau].

Example sample_run_ends :
  (fun c => (pc c, spawned (trace c), state (task c))) <$> run_events (sample_env 2) 5 sample_run (start sample_task)
    = Some (PDone (Ok (MkId "t")), ["a"; "b"], Completed).
Proof. vm_compute. reflexivity. Qed.

(** The configuration after a run. *)
Definition after_run (pool : Z) (es : list Event) : Config :=
  default (start sample_task) (run_events (sample_env pool) 5 es (start sample_task)).

Lemma after_run_reachable pool es :
  run_events (sample_env pool) 5 es (start sample_task) = Some (after_run pool es) ->
  reachable (sample_env pool) sample_task (after_run pool es).
Proof. apply run_events_reachable. apply rtc_refl. Qed.

Lemma pipeline_accounting_witness :
  let c := after_run 2 (poll_and_spawn DDownloading ["a"; "b"]) in
  running c = ["a"] /\ in_flight (ps c) <= 2.
Proof.
  intros c. assert (running c = ["a"]) as E by (vm_compute; reflexivity). split; [done|].
  assert (reachable (sample_env 2) sample_task c) as Hr by (apply after_run_reachable; vm_compute; reflexivity).
  clearbody c. apply (pipeline_accounting (sample_env 2) sample_task c ltac:(simpl; lia) eq_refl Hr).
Defined.

Lemma pipeline_outcome_witness :
  let c := after_run 2 sample_run in
  pc c = PDone (Ok (MkId "t")) /\ last_saved (trace c) = Some (task c).
Proof.
  intros c. assert (pc c = PDone (Ok (MkId "t"))) as E by (vm_compute; reflexivity). split; [done|].
  assert (reachable (sample_env 2) sample_task c) as Hr by (apply after_run_reachable; vm_compute; reflexivity).
  clearbody c. apply (pipeline_outcome (sample_env 2) sample_task c _ ltac:(simpl; lia) eq_refl Hr E).
Defined.

(** A stop request while one upload runs. *)
Definition stopped_run : list Event :=
  poll_and_spawn DDownloading ["a"] ++ [Tau; Tau; Tau; PollCancel false true].

Lemma pipeline_drain_terminates_witness :
  let c := after_run 2 stopped_run in
  pc c = PDrain ExitCancelled /\
  exists c' res, run_events (sample_env 2) 9 [UploadFinished "a" (error Cancelled "stopped"); Tau] c = Some c' /\
    pc c' = PDone res /\ last_saved (trace c') = Some (task c') /\ is_terminal (task c') = true.
Proof.
  intros c. assert (pc c = PDrain ExitCancelled) as E by (vm_compute; reflexivity). split; [done|].
  assert (in_flight (ps c) = 1) as E1 by (vm_compute; reflexivity).
  assert (running c = ["a"]) as E2 by (vm_compute; reflexivity).
  assert (reachable (sample_env 2) sample_task c) as Hr by (apply after_run_reachable; vm_compute; reflexivity).
  clearbody c.
  pose proof (pipeline_drain_terminates (sample_env 2) sample_task c ExitCancelled 9 [error Cancelled "stopped"]
    ltac:(simpl; lia) eq_refl Hr E) as H.
  rewrite E1, E2 in H. exact (H eq_refl eq_refl).
Defined.

Lemma upload_exception_blocks_drain_witness :
  let c := after_run 2 stopped_run in
  exists c1, step (sample_env 2) 9 (UploadThrew "a") c = Some c1 /\
    forall c', rtc (run_step (sample_env 2)) c1 c' -> pc c' = PDrain ExitCancelled.
Proof.
  intros c. assert (pc c = PDrain ExitCancelled) as E by (vm_compute; reflexivity).
  assert (in_flight (ps c) = 1) as E1 by (vm_compute; reflexivity).
  assert (running c = ["a"]) as E2 by (vm_compute; reflexivity). clearbody c.
  eexists. split; [cbn [step]; rewrite E2; reflexivity|]. intros c' Hc'.
  refine (upload_exception_blocks_drain (sample_env 2) c ExitCancelled "a" 9 _ c' E _ _ _ Hc').
  - rewrite E2. by apply list_elem_of_singleton.
  - by rewrite E1, E2.
  - cbn [step]. rewrite E2. reflexivity.
Defined.
