(* ===== verification/PipelineFiles.v ===== *)
(** * Which files the pipeline uploads

    The spawn loop of [mirror_url.cpp] and [leech_url.cpp] stops at the first file for
    which no upload slot is free, and runs only while the download is not complete.  With
    a slot for every file this delivers everything; without, files are left out. *)

From S2P Require Import Prelude CoreError Identifiers Task Ports Pipeline.

(** A step in which the backend, if it answers, lists the files [fs]. *)
Inductive files_step (env : Env) (fs : list string) : Config -> Config -> Prop :=
| files_intro tp e c c' :
    step env tp e c = Some c' -> (forall st, e = StatusReply (Ok st) -> ds_files st = fs) ->
    files_step env fs c c'.

(** All files have been queued, once the download is complete. *)
Definition all_queued (fs : list string) (c : Config) : Prop :=
  download_complete c = true -> forall f, f ∈ fs -> f ∈ queued (ps c).

Definition pc_files (fs : list string) (c : Config) : Prop :=
  match pc c with
  | PStatus => download_complete c = false
  | PSpawn rest => exists seen, fs = seen ++ rest /\ forall f, f ∈ seen -> f ∈ queued (ps c)
  | PContains g rest | PBegin g rest | PLaunch g rest =>
      exists seen, fs = seen ++ g :: rest /\ forall f, f ∈ seen -> f ∈ queued (ps c)
  | PDone (Err _) | PDrain _ => True
  | _ => all_queued fs c
  end.

Record files_inv (fs : list string) (c : Config) : Prop := {
  fi_queued f : f ∈ queued (ps c) -> f ∈ fs;
  fi_pc : pc_files fs c
}.

(** When every slot is taken and there are as many slots as files, all files are queued. *)
Lemma full_pool_covers env t0 fs c :
  pipeline_inv env t0 c -> Z.of_nat (length fs) <= upload_pool_size env ->
  (forall f, f ∈ queued (ps c) -> f ∈ fs) -> upload_pool_size env <= in_flight (ps c) ->
  forall f, f ∈ fs -> f ∈ queued (ps c).
Proof.
  intros Hinv Hlen Hsub Hfull f Hf. pose proof (pi_accounting _ _ _ Hinv) as [_ _ Hq Hc Hfl _ _ _].
  assert (queued (ps c) ⊆ list_to_set fs) as Hss by (intros g Hg; apply elem_of_list_to_set; auto).
  assert (size (list_to_set (C := gset string) fs) <= length fs)%nat as Hsz.
  { clear. induction fs as [|g fs IH]; [by rewrite list_to_set_nil, size_empty|].
    rewrite list_to_set_cons, length_cons, size_union_alt, size_singleton. pose proof (subseteq_size (list_to_set fs ∖ {[g]}) (list_to_set (C := gset string) fs)) as H.
    specialize (H ltac:(set_solver)). lia. }
  destruct (decide (f ∈ queued (ps c))) as [|Hn]; [done|]. exfalso.
  assert (size (queued (ps c)) < size (list_to_set (C := gset string) fs))%nat; [|lia].
  apply subset_size. split; [done|]. intros H. apply Hn, H, elem_of_list_to_set, Hf.
Qed.

Lemma files_inv_goto fs p c :
  files_inv fs c -> pc_files fs (goto p c) -> files_inv fs (goto p c).
Proof. intros [H _] Hp. by split. Qed.

Lemma fail_files fs env stage e tp c :
  (forall f, f ∈ queued (ps c) -> f ∈ fs) -> files_inv fs (fail_task env stage e tp c).
Proof. by split. Qed.

Lemma files_step_inv env t0 fs c c' :
  pipeline_inv env t0 c -> files_inv fs c -> upload_while_downloading env = true ->
  Z.of_nat (length fs) <= upload_pool_size env -> files_step env fs c c' -> files_inv fs c'.
Proof.
  intros Hinv [Hq Hpc] Hpipe Hlen Hrun. destruct Hrun as [tp e c c' Hstep Hfs].
  unfold pc_files in Hpc.
  destruct e as [|b1 b2|r|f res|f|r|r]; cbn [step] in Hstep.
  4,5: case_bool_decide; simplify_eq; split; unfold pc_files in *; simpl;
    try (destruct res; exact Hq); try exact Hq; destruct (pc c) as [| | | | | | | | | | | |[|]]; try done;
    unfold all_queued in *; simpl; try destruct res; exact Hpc.
  all: destruct (pc c) as [| |[|g fs']|g fs'|g fs'|g fs'| | |reason| | |outcome|] eqn:E; try done; simplify_eq.
  - split; [done|]. unfold pc_files. simpl. intros _ f. destruct Hpc as (seen & -> & Hs).
    rewrite app_nil_r. apply Hs.
  - unfold can_spawn_more. destruct (Z.ltb_spec (in_flight (ps c)) (upload_pool_size env)); split; try done.
    intros _. simpl. by apply (full_pool_covers env t0).
  - split; [done|]. case_bool_decide as Hg; unfold pc_files; simpl; [|done].
    destruct Hpc as (seen & -> & Hs). exists (seen ++ [g]). rewrite <-app_assoc. split; [done|].
    intros f [Hf|Hf%list_elem_of_singleton]%elem_of_app; [auto|by subst].
  - assert (ps (begin_if_needed tp c) = ps c) as Hps
      by (unfold begin_if_needed; destruct (transitioned c); [done|]; by destruct (begin_upload tp (task c)) as [[] ?]).
    split; unfold pc_files; simpl; by rewrite Hps.
  - unfold queue_upload. destruct Hpc as (seen & -> & Hs). case_bool_decide as Hg; split; unfold pc_files; simpl.
    + done.
    + exists (seen ++ [g]). rewrite <-app_assoc. split; [done|].
      intros f [Hf|Hf%list_elem_of_singleton]%elem_of_app; [auto|by subst].
    + intros f. rewrite elem_of_union, elem_of_singleton. intros [->|Hf]; [set_solver|auto].
    + exists (seen ++ [g]). rewrite <-app_assoc. split; [done|].
      intros f [Hf|Hf%list_elem_of_singleton]%elem_of_app; set_solver.
  - by split.
  - unfold check_termination. destruct (failed (ps c) >? 0); [by split|]. by destruct (_ && _).
  - destruct (in_flight (ps c) =? 0); [|by split; [|unfold pc_files; rewrite E]].
    destruct reason; simpl; first [by split | by apply fail_files].
  - unfold after_loop. destruct (completed (ps c) >? 0); [by split|].
    destruct (begin_upload tp (task c)) as [[u|err] t]; [|by apply fail_files].
    simpl. destruct (ds_files (final_status c)); [by apply fail_files|].
    destruct (ds_save_path (final_status c)); by split.
  - unfold finish. destruct (mark_completed tp _) as [[u|err] t].
    + by destruct (transitioned c); split.
    + apply fail_files. by destruct (transitioned c).
  - destruct (b1 || b2); [by split|]. split; [done|]. unfold pc_files. simpl.
    by destruct (download_complete c) eqn:Hd.
  - unfold on_status. destruct r as [st|err]; [|by split].
    specialize (Hfs st eq_refl). rewrite Hpipe.
    destruct (ds_state st); try (by split); (split; [done|]); unfold pc_files; simpl;
      exists []; (split; [done|]); by intros f Hf%elem_of_nil.
  - destruct (ds_save_path (final_status c)); simplify_eq. unfold on_directory.
    destruct r as [[|u l]|err]; [destruct (env_flavor env)| |]; first [by apply fail_files | by split].
  - destruct (ds_save_path (final_status c)); simplify_eq. unfold on_file.
    destruct r as [u|err]; first [by apply fail_files | by split].
Qed.

Lemma files_start_inv fs t0 : files_inv fs (start t0).
Proof. split; [|done]. intros f Hf. exfalso. revert Hf. apply not_elem_of_empty. Qed.

Lemma files_reachable_inv env t0 fs c :
  1 <= upload_pool_size env -> state t0 = Downloading -> upload_while_downloading env = true ->
  Z.of_nat (length fs) <= upload_pool_size env -> rtc (files_step env fs) (start t0) c ->
  pipeline_inv env t0 c /\ files_inv fs c.
Proof.
  intros Hp Hs Hpipe Hlen Hr.
  refine (rtc_ind_r (fun c => pipeline_inv env t0 c /\ files_inv fs c) (start t0) _ _ c Hr).
  - split; [by apply start_inv|apply files_start_inv].
  - intros c1 c2 _ Hstep [Hi Hf]. split.
    + destruct Hstep as [tp e c1 c2 Hstep _]. by eapply step_inv.
    + by apply (files_step_inv env t0 fs c1).
Qed.

Lemma run_events_files env fs tp es c c' :
  Forall (fun e => forall st, e = StatusReply (Ok st) -> ds_files st = fs) es ->
  run_events env tp es c = Some c' -> rtc (files_step env fs) c c'.
Proof.
  revert c. induction es as [|e es IH]; intros c Hall; simpl; [intros [= <-]; apply rtc_refl|].
  apply Forall_cons in Hall as [He Hes]. destruct (step env tp e c) as [c1|] eqn:E; [|done].
  intros H. eapply rtc_l; [by econstructor|by apply IH].
Qed.

(** ** A run that leaves files out

    The first answer says that the download is complete: the files are gone through once,
    until the pool is full. *)

(** Nothing was handed to the one-shot upload. *)
Definition one_by_one (l : list Effect) : Prop :=
  Forall (fun e => match e with UploadDirectory _ | UploadFile _ => False | _ => True end) l.

(** The pass over the files of [st], with [before] handed out. *)
Record passing (st : DownloadStatus) (before : list string) (c : Config) : Prop := {
  pg_running : forall f, f ∈ running c <-> f ∈ before;
  pg_length : length (running c) = length before;
  pg_state : ps c = MkPipeline (list_to_set before) (Z.of_nat (length before)) 0 0 None [];
  pg_task : state (task c) = (if transitioned c then Uploading else Downloading);
  pg_transitioned : before <> [] -> transitioned c = true;
  pg_complete : download_complete c = true;
  pg_status : final_status c = st;
  pg_spawned : spawned (trace c) = before;
  pg_one_by_one : one_by_one (trace c)
}.

Lemma files_tau env fs c c' : step env 0 Tau c = Some c' -> files_step env fs c c'.
Proof. intros H. by eapply files_intro. Qed.

(** A free slot and a new file: four sections of the loop hand it out. *)
Lemma pass_one env fs st before f rest c :
  passing st before c -> pc c = PSpawn (f :: rest) -> Z.of_nat (length before) < upload_pool_size env -> f ∉ before ->
  exists c', rtc (files_step env fs) c c' /\ passing st (before ++ [f]) c' /\ pc c' = PSpawn rest.
Proof.
  intros [Hr Hl Hps Ht Htr Hd Hst Hsp Ho] Hpc Hlt Hf.
  assert (f ∉ queued (ps c)) as Hq by (rewrite Hps; simpl; by rewrite elem_of_list_to_set).
  set (c2 := goto (PBegin f rest) c). set (c3 := goto (PLaunch f rest) (begin_if_needed 0 c2)).
  assert (ps c3 = ps c /\ running c3 = running c /\ transitioned c3 = true /\ state (task c3) = Uploading /\
    download_complete c3 = true /\ final_status c3 = st /\ spawned (trace c3) = before /\ one_by_one (trace c3))
    as (Hps3 & Hr3 & Htr3 & Ht3 & Hd3 & Hst3 & Hsp3 & Ho3).
  { subst c3 c2. unfold begin_if_needed, begin_upload. simpl. destruct (transitioned c) eqn:E; [by cbn; rewrite Ht|].
    rewrite Ht. simpl. split_and!; try done.
    - rewrite spawned_app, Hsp. apply app_nil_r.
    - apply Forall_app. split; [done|]. by constructor. }
  eexists. split; [|split].
  - apply (rtc_l _ _ (goto (PContains f rest) c)).
    { apply files_tau. cbn [step]. rewrite Hpc. unfold can_spawn_more. rewrite Hps. cbn [in_flight].
      by rewrite (proj2 (Z.ltb_lt _ _)). }
    apply (rtc_l _ _ c2).
    { apply files_tau. cbn [step goto pc ps]. by rewrite bool_decide_false. }
    apply (rtc_l _ _ c3); [by apply files_tau|]. apply rtc_once, files_tau. cbn [step c3 goto pc].
    fold c3. unfold queue_upload. rewrite bool_decide_false; [reflexivity|]. by rewrite Hps3.
  - split; cbn [goto emit set_ps running ps task transitioned download_complete final_status trace];
      rewrite ?Hr3, ?Htr3, ?Ht3, ?Hd3, ?Hst3; try done.
    + intros g. rewrite elem_of_cons, elem_of_app, list_elem_of_singleton, Hr. tauto.
    + rewrite length_app. cbn [length]. lia.
    + rewrite Hps3, Hps. cbn. f_equal; [|rewrite length_app; simpl; lia]. rewrite list_to_set_app_L. set_solver.
    + by rewrite spawned_app, Hsp3.
    + apply Forall_app. split; [done|]. by constructor.
  - done.
Qed.

(** The pass stops where the pool is full. *)
Lemma pass_until_full env fs st before files rest c :
  passing st before c -> pc c = PSpawn (files ++ rest) -> NoDup (before ++ files) ->
  Z.of_nat (length (before ++ files)) <= upload_pool_size env ->
  exists c', rtc (files_step env fs) c c' /\ passing st (before ++ files) c' /\ pc c' = PSpawn rest.
Proof.
  revert before c. induction files as [|f files IH]; intros before c Hp Hpc Hnd Hlen.
  - exists c. rewrite app_nil_r. split; [apply rtc_refl|done].
  - rewrite length_app in Hlen. cbn [length] in Hlen.
    destruct (pass_one env fs st before f (files ++ rest) c) as (c1 & H1 & Hp1 & Hpc1); [done|done|lia| |].
    { apply NoDup_app in Hnd as (_ & Hd & _). intros Hf. apply (Hd f Hf). by left. }
    destruct (IH (before ++ [f]) c1) as (c2 & H2 & Hp2 & Hpc2); [done|done| | |].
    + by rewrite <- app_assoc.
    + rewrite !length_app. cbn [length]. lia.
    + rewrite <- app_assoc in Hp2. exists c2. split; [by etrans|done].
Qed.

(** The running uploads succeed, in some order. *)
Lemma uploads_succeed env fs (result : string -> UploadResult) rs c :
  running c = rs -> in_flight (ps c) = Z.of_nat (length rs) -> failed (ps c) = 0 ->
  exists c', rtc (files_step env fs) c c' /\ in_flight (ps c') = 0 /\ failed (ps c') = 0 /\
    completed (ps c') = completed (ps c) + Z.of_nat (length rs) /\ pc c' = pc c /\ task c' = task c /\
    trace c' = trace c /\ final_status c' = final_status c /\ transitioned c' = transitioned c /\
    download_complete c' = download_complete c.
Proof.
  revert c. induction rs as [|r rs IH]; intros c Hr Hi Hf.
  - exists c. split; [apply rtc_refl|]. simpl. split_and!; try done. lia.
  - destruct (IH (set_ps (upload_done (env_flavor env) (Ok (result r)) (ps c)) rs c)) as (c' & Hrun & Hc');
      [done|simpl in *; lia|done|].
    exists c'. cbn in Hc'. destruct Hc' as (? & ? & Hcomp & ?). split_and!; try tauto; [|simpl in *; lia].
    eapply rtc_l; [|exact Hrun]. apply (files_intro env fs 0 (UploadFinished r (Ok (result r)))); [|done].
    cbn [step]. rewrite Hr. rewrite bool_decide_true by by left. cbn [remove_one].
    by rewrite bool_decide_true.
Qed.

Lemma finish_completes env u tp c :
  transitioned c = true -> state (task c) = Uploading ->
  pc (finish env u tp c) = PDone (Ok (env_id env)) /\ state (task (finish env u tp c)) = Completed /\
  trace (finish env u tp c) = trace c ++ [SaveTask (task (finish env u tp c)); RemoveJob false;
    EditStatus (completed_html (env_flavor env) u)] /\
  final_status (finish env u tp c) = final_status c.
Proof.
  intros Ht Hs. unfold finish, mark_completed. rewrite Ht, Hs. split; [done|]. split; [done|]. split; [|done]. rewrite bool_decide_true by done. cbn. by rewrite <- !app_assoc.
Qed.

(** The first poll: the download is complete and lists [fs]. *)
Lemma pass_begins env fs t0 st :
  state t0 = Downloading -> upload_while_downloading env = true -> ds_state st = DComplete -> ds_files st = fs ->
  exists c, rtc (files_step env fs) (start t0) c /\ passing st [] c /\ pc c = PSpawn fs.
Proof.
  intros Hstart Hpipe Hdone Hfiles. exists (goto (PSpawn fs) (set_status st true (goto PStatus (start t0)))).
  split; [|split; [split; try done; constructor|done]]. apply (rtc_l _ _ (goto PStatus (start t0))).
  { apply (files_intro env fs 0 (PollCancel false false)); [reflexivity|done]. }
  apply rtc_once, (files_intro env fs 0 (StatusReply (Ok st))); [|by intros st' [= <-]].
  cbn [step pc goto]. unfold on_status. by rewrite Hdone, Hpipe, Hfiles.
Qed.

(** With the pool full the pass ends; the uploads succeed, and so does the task. *)
Lemma pass_completes env fs st before g rest c :
  passing st before c -> pc c = PSpawn (g :: rest) -> Z.of_nat (length before) = upload_pool_size env ->
  1 <= upload_pool_size env ->
  exists c', rtc (files_step env fs) c c' /\
    pc c' = PDone (Ok (env_id env)) /\ state (task c') = Completed /\ last_saved (trace c') = Some (task c') /\
    RemoveJob false ∈ trace c' /\ final_status c' = st /\ spawned (trace c') = before /\ one_by_one (trace c').
Proof.
  intros [Hr Hl Hps Ht Htr Hd Hst Hsp Ho] Hpc Hlen Hpool.
  assert (transitioned c = true) as Htrue by (apply Htr; intros ->; simpl in Hlen; lia). rewrite Htrue in Ht.
  set (c3 := goto PRender c).
  destruct (uploads_succeed env fs sample_result (running c) c3)
    as (c4 & H4 & Hi4 & Hf4 & Hc4 & Hpc4 & Htk4 & Htc4 & Hfs4 & Htr4 & Hd4); [done| |by cbn; rewrite Hps|].
  { cbn. by rewrite Hps, Hl. }
  set (c5 := goto PCheck (emit (RenderProgress (final_status c4)) c4)).
  set (u := default (MkUploadResult "" "" 0 0) (head (results (ps c5)))).
  destruct (finish_completes env u 0 (goto (PComplete u) c5)) as (Hpc' & Hst' & Htr' & Hfs').
  { cbn. by rewrite Htr4. }
  { cbn. by rewrite Htk4. }
  cbn in Htr', Hfs'. exists (finish env u 0 (goto (PComplete u) c5)). split.
  { apply (rtc_l _ _ c3).
    { apply files_tau. cbn [step]. rewrite Hpc. unfold can_spawn_more. rewrite Hps. cbn [in_flight].
      rewrite (proj2 (Z.ltb_ge _ _)) by lia. done. }
    etrans; [exact H4|]. apply (rtc_l _ _ c5).
    { apply files_tau. cbn [step]. by rewrite Hpc4. }
    apply (rtc_l _ _ (goto PAfter c5)).
    { apply files_tau. cbn [step c5 goto pc]. unfold check_termination, c5.
      cbn [goto emit ps download_complete]. rewrite Hf4, Hi4, Hd4. cbn. by rewrite Hd. }
    apply (rtc_l _ _ (goto (PComplete u) c5)).
    { apply files_tau. cbn [step goto pc]. unfold after_loop, c5. cbn [goto emit ps].
      rewrite Hc4. cbn [c3 goto ps]. rewrite Hps, Hl, Hlen. cbn [completed]. by rewrite (proj2 (Z.gtb_lt _ _)) by lia. }
    by apply rtc_once, files_tau. }
  split; [done|]. split; [done|]. rewrite Htr', Htc4. cbn [c3 goto trace].
  split_and!; [by rewrite last_saved_app|set_solver|by rewrite Hfs', Hfs4| |].
  - rewrite !spawned_app, Hsp. cbn. by rewrite !app_nil_r.
  - unfold one_by_one. rewrite !Forall_app. split_and!; [exact Ho|by repeat constructor|by repeat constructor].
Qed.

(** ** Theorems *)

(** C3. With an upload slot for every file, a task that completes has delivered
    everything: if the backend lists the same files in every answer and there are at most
    [upload_pool_size] of them, then when the use case returns the task id each of those
    files was handed to exactly one upload coroutine and every upload succeeded. *)
Theorem pipeline_uploads_every_file env t0 fs c id
  (Hpool : 1 <= upload_pool_size env) (Hstart : state t0 = Downloading)
  (Hpipe : upload_while_downloading env = true) (Hlen : Z.of_nat (length fs) <= upload_pool_size env)
  (Hr : rtc (files_step env fs) (start t0) c) (Hdone : pc c = PDone (Ok id)) :
  (forall f, f ∈ fs <-> f ∈ spawned (trace c)) /\ NoDup (spawned (trace c)) /\
  failed (ps c) = 0 /\ completed (ps c) = Z.of_nat (length (spawned (trace c))).
Proof.
  destruct (files_reachable_inv env t0 fs c Hpool Hstart Hpipe Hlen Hr) as [Hinv [Hq Hpc]].
  pose proof (pi_accounting _ _ _ Hinv) as [H1 H2 H3 H4 H5 H6 H7 [H8 H9]].
  pose proof (pi_pc _ _ _ Hinv) as Hp. unfold pc_inv, pc_files in *. rewrite Hdone in *.
  destruct Hp as (_ & (Hrun & H0 & Hf & Hd) & _). split_and!; [|done|done|].
  - intros f. rewrite H9. split; [by apply Hpc|apply Hq].
  - assert (size (queued (ps c)) = length (spawned (trace c))) as Hsz; [|lia].
    transitivity (size (list_to_set (C := gset string) (spawned (trace c)))); [|by apply size_list_to_set].
    f_equal. apply set_eq. intros f. by rewrite elem_of_list_to_set, H9.
Qed.

(** C19. Without a slot for every file, files are lost: whenever the backend lists more files
    than the pool has slots, there is a run, in which every answer lists all of them and every
    upload that starts succeeds, that ends with the task stored as Completed, the job removed
    and the user told so, although only the first [upload_pool_size] files were ever handed to
    an uploader, one by one or as a directory. *)
Theorem pipeline_skips_files env t0 fs
  (Hpool : 1 <= upload_pool_size env) (Hstart : state t0 = Downloading)
  (Hpipe : upload_while_downloading env = true) (Hnd : NoDup fs)
  (Hlen : upload_pool_size env < Z.of_nat (length fs)) :
  exists c, rtc (files_step env fs) (start t0) c /\
    pc c = PDone (Ok (env_id env)) /\ state (task c) = Completed /\ last_saved (trace c) = Some (task c) /\
    RemoveJob false ∈ trace c /\ ds_files (final_status c) = fs /\
    spawned (trace c) = take (Z.to_nat (upload_pool_size env)) fs /\
    (exists f, f ∈ fs /\ f ∉ spawned (trace c)) /\
    (forall dir, UploadDirectory dir ∉ trace c) /\ (forall f, UploadFile f ∉ trace c).
Proof.
  set (p := Z.to_nat (upload_pool_size env)). set (st := sample_status DComplete fs).
  assert (length (take p fs) = p) as Htake by (rewrite length_take; lia).
  pose proof Hnd as Hparts. rewrite <- (take_drop p fs) in Hparts.
  apply NoDup_app in Hparts as (Hndt & Hdisj & _).
  destruct (drop p fs) as [|g rest] eqn:Hrest.
  { apply (f_equal length) in Hrest. rewrite length_drop in Hrest. simpl in Hrest. lia. }
  destruct (pass_begins env fs t0 st) as (c1 & H1 & Hp1 & Hpc1); [done..|].
  destruct (pass_until_full env fs st [] (take p fs) (g :: rest) c1) as (c2 & H2 & Hp2 & Hpc2); [done| |done|cbn [app]; lia|].
  { rewrite <- Hrest, take_drop. exact Hpc1. }
  cbn [app] in Hp2.
  destruct (pass_completes env fs st (take p fs) g rest c2) as (c & H3 & Hpc & Hst & Hsaved & Hjob & Hfs & Hsp & Ho);
    [done|done|lia|done|].
  exists c. split; [by etrans; [exact H1|etrans]|].
  split_and!; [done|done|done|done|by rewrite Hfs|done| | |].
  - exists g. split; [rewrite <- (take_drop p fs), Hrest; set_solver|].
    rewrite Hsp. intros Hg. apply (Hdisj g Hg). by left.
  - intros dir Hin. exact (proj1 (Forall_forall _ _) Ho _ Hin).
  - intros f Hin. exact (proj1 (Forall_forall _ _) Ho _ Hin).
Qed.

(** Two files and one slot. *)
Lemma pipeline_skips_files_witness :
  exists c, rtc (files_step (sample_env 1) ["a"; "b"]) (start sample_task) c /\ pc c = PDone (Ok (MkId "t")) /\
    state (task c) = Completed /\ ds_files (final_status c) = ["a"; "b"] /\ spawned (trace c) = ["a"].
Proof.
  destruct (pipeline_skips_files (sample_env 1) sample_task ["a"; "b"] ltac:(simpl; lia) eq_refl eq_refl
    ltac:(repeat (constructor; [set_solver|]); constructor) ltac:(simpl; lia))
    as (c & Hr & Hpc & Hs & _ & _ & Hf & Hsp & _).
  exists c. split; [exact Hr|]. split; [exact Hpc|]. split; [exact Hs|]. split; [exact Hf|exact Hsp].
Defined.

Lemma pipeline_uploads_every_file_witness :
  let c := after_run 2 sample_run in
  pc c = PDone (Ok (MkId "t")) /\ forall f, f ∈ ["a"; "b"] <-> f ∈ spawned (trace c).
Proof.
  intros c. assert (pc c = PDone (Ok (MkId "t"))) as E by (vm_compute; reflexivity). split; [done|].
  assert (rtc (files_step (sample_env 2) ["a"; "b"]) (start sample_task) c) as Hr.
  { apply (run_events_files _ _ 5 sample_run); [|vm_compute; reflexivity].
    repeat (apply Forall_cons_2; [by intros st [= <-] || by intros|]). apply Forall_nil_2. }
  clearbody c.
  apply (pipeline_uploads_every_file (sample_env 2) sample_task ["a"; "b"] c (MkId "t")
    ltac:(simpl; lia) eq_refl eq_refl ltac:(simpl; lia) Hr E).
Defined.
