(* ===== verification/QbittorrentPipeline.v ===== *)
(** * Mirroring and leeching over qBittorrent

    The loop of [mirror_url.cpp] and [leech_url.cpp] together with the backend of
    [qbittorrent_downloader.cpp]: every status the loop sees is an answer of that backend,
    whose world may change between any two steps. *)

From S2P Require Import Prelude CoreError Identifiers Task Ports Http ConfigData Json QbittorrentDownloader Pipeline.

Section Composition.
  Context `{json_lib : !Json} {W : Type} `{http : !HttpClient W, rng : !Random W, hash_lib : !HashOrder, others : !OtherCalls W}.
  Context (config : QbittorrentConfig).

(** The loop's constants when the downloader is qBittorrent. *)
Definition qbit_env (fl : Flavor) (id : TaskId) (gid : Gid) (pool : Z) : Env :=
  MkEnv fl id gid pool (supports_pipelining (qbittorrent (W := W) config)).

(** A step of the loop; a status is asked of the backend. *)
Inductive qbit_step (env : Env) : Config -> Config -> Prop :=
| qbit_answers tp (c : Session * W) p p' :
    step env tp (StatusReply (status (qbittorrent config) (env_gid env) c).1) p = Some p' -> qbit_step env p p'
| qbit_silent tp e p p' :
    (forall r, e <> StatusReply r) -> step env tp e p = Some p' -> qbit_step env p p'.

Definition is_upload (e : Effect) : bool :=
  match e with SpawnUpload _ | UploadDirectory _ | UploadFile _ => true | _ => false end.

(** Where the loop can be when no file was ever named. *)
Record fruitless (c : Config) : Prop := {
  fr_files : ds_files (final_status c) = [];
  fr_running : running c = [];
  fr_completed : completed (ps c) = 0;
  fr_uploads : Forall (fun e => is_upload e = false) (trace c);
  fr_state : state (task c) <> Completed;
  fr_pc : match pc c with
          | PTop | PStatus | PRender | PCheck | PDrain _ | PAfter | PDone (Err _) => True
          | _ => False
          end
}.

#[local] Ltac log_grows := rewrite ?Forall_app; repeat (split; [|by repeat constructor]); assumption.

Lemma mark_failed_not_completed reason tp t : state t <> Completed -> state (mark_failed reason tp t).2 <> Completed.
Proof. unfold mark_failed. by destruct (is_terminal t). Qed.

Lemma mark_cancelled_not_completed tp t : state t <> Completed -> state (mark_cancelled tp t).2 <> Completed.
Proof. unfold mark_cancelled. by destruct (is_terminal t). Qed.

Lemma begin_upload_not_completed tp t : state t <> Completed -> state (begin_upload tp t).2 <> Completed.
Proof. unfold begin_upload. by destruct (_ && _). Qed.

Lemma fail_task_fruitless env stage e tp c :
  ds_files (final_status c) = [] -> running c = [] -> completed (ps c) = 0 -> Forall (fun e => is_upload e = false) (trace c) ->
  state (task c) <> Completed -> fruitless (fail_task env stage e tp c).
Proof.
  intros. split; simpl; try done; [by log_grows|by apply mark_failed_not_completed].
Qed.

Lemma fruitless_step env c c' :
  upload_while_downloading env = false -> fruitless c -> qbit_step env c c' -> fruitless c'.
Proof.
  intros Henv [Hf Hr Hc Hsp Hst Hpc] Hstep.
  assert (exists tp e, step env tp e c = Some c' /\ forall st, e = StatusReply (Ok st) -> ds_files st = []) as (tp & e & Hs & He).
  { destruct Hstep as [tp w p p' Hs|tp e p p' He Hs]; exists tp; eexists; (split; [exact Hs|]); intros st Heq.
    - injection Heq as Heq. by apply qbit_status_files in Heq as [? _].
    - by apply He in Heq. }
  clear Hstep. destruct e as [|b1 b2|r|f res|f|r|r]; cbn [step] in Hs.
  4,5: rewrite Hr in Hs; simpl in Hs; done.
  all: destruct (pc c) as [| |[|]| | | | | |reason| | | |[|]] eqn:E; try done; simplify_eq.
  - split; simpl; try done. by log_grows.
  - unfold check_termination. destruct (failed (ps c) >? 0); [|destruct (_ && _)]; split; simpl; try done.
    by log_grows.
  - destruct (in_flight (ps c) =? 0); [|split; try done; by rewrite E]. destruct reason; simpl.
    + split; simpl; try done; [by log_grows|by apply mark_cancelled_not_completed].
    + by apply fail_task_fruitless.
    + apply fail_task_fruitless; simpl; try done. by log_grows.
  - unfold after_loop. rewrite Hc. simpl. pose proof (begin_upload_not_completed tp (task c) Hst) as Hb.
    destruct (begin_upload tp (task c)) as [[u|err] t]; [|by apply fail_task_fruitless]. simpl in *. rewrite Hf.
    apply fail_task_fruitless; simpl; try done. by log_grows.
  - destruct (b1 || b2); split; simpl; try done; [by log_grows|by destruct (download_complete c)].
  - unfold on_status. destruct r as [st|err].
    + specialize (He st eq_refl). rewrite Henv. destruct (ds_state st); split; simpl; try done; by log_grows.
    + split; simpl; try done. by log_grows.
Qed.

(** Runs of events in which the statuses are the backend's. *)
Lemma run_events_qbit env tp es c c' :
  Forall (fun e => (forall r, e <> StatusReply r) \/
                   exists w : Session * W, e = StatusReply (status (qbittorrent config) (env_gid env) w).1) es ->
  run_events env tp es c = Some c' -> rtc (qbit_step env) c c'.
Proof.
  revert c. induction es as [|e es IH]; intros c Hall; simpl; [by intros [= <-]|].
  apply Forall_cons in Hall as [He Hes]. destruct (step env tp e c) as [c1|] eqn:E; [|done].
  intros H. eapply rtc_l; [|by apply IH]. destruct He as [He|[w ->]]; [by eapply qbit_silent|by eapply qbit_answers].
Qed.

(** C24. Nothing downloaded by qBittorrent is ever delivered: whatever the server answers and
    however the loop interleaves with it, a mirror or leech over this backend never completes
    and never hands a file to an uploader, because the backend names no files; in particular
    a download that finishes ends as Failed. *)
Theorem qbittorrent_never_delivers fl id gid pool t0 c :
  state t0 <> Completed -> rtc (qbit_step (qbit_env fl id gid pool)) (start t0) c ->
  state (task c) <> Completed /\ Forall (fun e => is_upload e = false) (trace c) /\
  forall id', pc c <> PDone (Ok id').
Proof.
  intros Ht0 Hr. assert (fruitless c) as [_ _ _ Hup Hst Hpc].
  { revert Hr. apply rtc_ind_r.
    - by split.
    - intros c1 c2 _ Hstep Hc1. by apply (fruitless_step (qbit_env fl id gid pool) c1). }
  split_and!; [done..|]. intros id' E. by rewrite E in Hpc.
Qed.

End Composition.

(** A torrent that has finished downloading, on the server of [MemQbit]. *)
Import MemQbit.

Definition seeding_env : Env := qbit_env (W := World) config (MirrorFlavor "gdrive") (MkId "t") (MkId "h") 4.

Definition seeding_run : list Event :=
  [PollCancel false false; StatusReply (status (qbittorrent config) (MkId "h") (no_session, [] : World)).1; Tau; Tau; Tau].

Definition seeding_end : Config := default (start sample_task) (run_events seeding_env 5 seeding_run (start sample_task)).

Lemma qbittorrent_never_delivers_witness :
  pc seeding_end = PDone (error Internal "downloader reported no produced files") /\
  state (task seeding_end) = Failed /\ ds_state (final_status seeding_end) = DSeeding /\
  Forall (fun e => is_upload e = false) (trace seeding_end).
Proof.
  assert (rtc (qbit_step (W := World) config seeding_env) (start sample_task) seeding_end) as Hr.
  { apply (run_events_qbit config seeding_env 5 seeding_run); [|by vm_compute].
    repeat apply Forall_cons_2; try apply Forall_nil_2; first [by left|right; by exists (no_session, [])]. }
  split_and!; [by vm_compute..|].
  assert (state sample_task <> Completed) as Hs by done.
  apply (qbittorrent_never_delivers (W := World) config (MirrorFlavor "gdrive") (MkId "t") (MkId "h") 4 sample_task seeding_end Hs Hr).
Defined.
