(* ===== verification/MirrorLeech.v ===== *)
(** * The two pipelines from request to result: [MirrorUrl::execute], [LeechUrl::execute]

    What [execute] does before its poll loop (request check, settings, status message,
    task, registration, job), and the loop of [Pipeline] as each use case runs it. *)

From S2P Require Import Prelude CoreError Identifiers ByteSize UploadDestination Task Formatting TimeCodec.
From S2P Require Import Ports Registry Environment Pipeline.

Local Open Scope coro_scope.

(** ** Task identifiers: [application/detail/task_id_generator.hpp] *)

(** [kHex]. *)
Definition hex_digit (n : Z) : ascii := ascii_of_N (Z.to_N (if n <? 10 then n + 48 else n + 87)).

(** The lambda [pour]: [n] hexadecimal digits of [value], most significant first. *)
Fixpoint pour (n : nat) (v : Z) (acc : list ascii) : list ascii :=
  match n with
  | O => acc
  | S n' => pour n' (Z.shiftr v 4) (hex_digit (Z.land v 15) :: acc)
  end.

(** [make_task_id], from the four 32-bit draws of [std::random_device]. *)
Definition make_task_id (r1 r2 r3 r4 : Z) : TaskId :=
  let hi := Z.lor (Z.shiftl r1 32) r2 in
  let lo := Z.lor (Z.shiftl r3 32) r4 in
  MkId (of_chars (pour 16 hi [] ++ pour 16 lo [])).

(** [std::random_device::operator()]. *)
Class RandomDevice (W : Type) := random_draw : M W Z.

(** ** Requests *)

(** [struct MirrorRequest]. *)
Record MirrorRequest := MkMirrorRequest {
  mr_url : string;
  mr_user : UserId;
  mr_chat : ChatId;
  mr_source_message : MessageId;
  mr_use_qbittorrent : bool;
  mr_override_destination : option UploadDestination
}.

(** [struct LeechRequest]. *)
Record LeechRequest := MkLeechRequest {
  lr_url : string;
  lr_user : UserId;
  lr_chat : ChatId;
  lr_source_message : MessageId;
  lr_use_qbittorrent : bool
}.

(** [resolve_destination]; it never fails. *)
Definition resolve_destination (req : MirrorRequest) (settings : option UserSettingsRecord) : UploadDestination :=
  match mr_override_destination req with
  | Some d => d
  | None =>
      match settings with
      | Some s =>
          let dest := us_mirror_destination s in
          if bool_decide (dest = GoogleDrive) || bool_decide (dest = Rclone) then dest else GoogleDrive
      | None => GoogleDrive
      end
  end.

(** The upload configuration [MirrorUrl] shares between its uploads. *)
Definition mirror_upload_config (destination : UploadDestination) (settings : option UserSettingsRecord) : UploadConfig :=
  match settings with
  | Some s =>
      MkUploadConfig None
        (if bool_decide (destination = GoogleDrive) then us_gdrive_folder_id s else None)
        (if bool_decide (destination = Rclone) then us_rclone_remote s else None)
        false None None (from_unchecked 2000000000)
  | None => default_upload_config
  end.

(** The upload configuration of [LeechUrl]. *)
Definition leech_upload_config (chat : ChatId) (settings : option UserSettingsRecord) : UploadConfig :=
  match settings with
  | Some s => MkUploadConfig (Some chat) None None (us_upload_as_document s) (us_default_thumb_path s) None
                (from_unchecked 2000000000)
  | None => MkUploadConfig (Some chat) None None false None None (from_unchecked 2000000000)
  end.

(** Constructor: [upload_pool_size_{upload_pool_size > 0 ? upload_pool_size : 1}]. *)
Definition pool_size (configured : Z) : Z := if configured >? 0 then configured else 1.

(** What a started pipeline runs with. *)
Record Launch := MkLaunch {
  la_env : Env;
  la_task : Task;
  la_guard : ActiveTaskGuard;
  la_status_message : MessageId;
  la_upload_config : UploadConfig;
  la_uploader : UploadDestination
}.

Section Start.
  Context {W : Type} `{!Clock W, !RandomDevice W, !TaskRepository W, !UserSettingsRepository W,
    !Downloaders W, !MessengerInterface W, !HasRegistry W}.

(** [detail::make_task_id()]. *)
Definition draw_task_id : M W TaskId :=
  co_await r1 <- random_draw; co_await r2 <- random_draw;
  co_await r3 <- random_draw; co_await r4 <- random_draw;
  co_return make_task_id r1 r2 r3 r4.

(** [ActiveTaskGuard active_guard{active_tasks_, id}]. *)
Definition take_guard (id : TaskId) : M W ActiveTaskGuard := fun w =>
  let '(g, r) := make_guard id (get_registry w) in (g, set_registry r w).
Definition release_guard (g : ActiveTaskGuard) : M W unit := fun w =>
  ((), set_registry (drop_guard g (get_registry w)) w).

(** [fail_task] before the loop: the guard goes out of scope on the way out. *)
Definition start_failed (chat : ChatId) (status_msg : MessageId) (g : ActiveTaskGuard) (task : Task)
  (stage : string) (err : AppError) : M W (Result Launch) :=
  co_await r <- timed (mark_failed (err_message err)) task;
  co_await _saved <- repo_save r.2;
  co_await _edited <- edit_html chat status_msg
    ("<b><u>Failed</u></b>" +:+ newline +:+
     "<b>Stage:</b> <code>" +:+ escape_html stage +:+ "</code>" +:+ newline +:+
     "<b>Reason:</b> " +:+ escape_html (friendly_error_label (err_code err)) +:+ newline +:+
     "<blockquote>" +:+ escape_html (truncate_for_display (err_message err) 512) +:+ "</blockquote>");
  co_do release_guard g;
  co_return Err err.

(** From the persisted task to the running job: registration, [start_download], [add_uri],
    [attach_downloader]. *)
Definition start_job (kind : DownloaderKind) (downloader : DownloaderInterface W) (url : string)
  (chat : ChatId) (status_msg : MessageId) (task : Task)
  (launch : ActiveTaskGuard -> Gid -> Task -> Launch) : M W (Result Launch) :=
  co_await guard <- take_guard (md_id (metadata task));
  co_await r <- timed start_download task;
  match r with
  | (Err e, task) => start_failed chat status_msg guard task "state" e
  | (Ok _, task) =>
      co_await _saved <- repo_save task;
      co_await gid_res <- add_uri downloader url;
      match gid_res with
      | Err e => start_failed chat status_msg guard task "download" e
      | Ok gid =>
          co_await tp <- now;
          let task := attach_downloader gid kind tp task in
          co_await _saved <- repo_save task;
          co_return Ok (launch guard gid task)
      end
  end.

(** [MirrorUrl::execute] up to the poll loop. *)
Definition mirror_start (pool : Z) (gdrive_name rclone_name : string) (request : MirrorRequest) : M W (Result Launch) :=
  if str_empty (mr_url request)
  then co_return error InvalidArgument "mirror: empty URL"
  else
    co_try settings <- us_get (mr_user request);
    let destination := resolve_destination request settings in
    let kind := if mr_use_qbittorrent request then Qbittorrent else Aria2 in
    let downloader := if mr_use_qbittorrent request then qbit_ else aria2_ in
    co_try status_msg <- send_html (mr_chat request)
      ("<b><u>Queued</u></b>" +:+ newline +:+ "<blockquote>" +:+
       escape_html (truncate_for_display (mr_url request) 200) +:+ "</blockquote>");
    co_await tp <- now;
    co_await id <- draw_task_id;
    let task := new_task (MkMetadata id (mr_user request) (mr_chat request) status_msg Mirror (mr_url request) tp tp) in
    co_try saved <- repo_save task;
    start_job kind downloader (mr_url request) (mr_chat request) status_msg task
      (fun guard gid task =>
         MkLaunch (MkEnv (MirrorFlavor (if bool_decide (destination = Rclone) then rclone_name else gdrive_name))
                     id gid (pool_size pool) (supports_pipelining downloader))
           task guard status_msg (mirror_upload_config destination settings)
           (if bool_decide (destination = Rclone) then Rclone else GoogleDrive)).

(** [LeechUrl::execute] up to the poll loop. *)
Definition leech_start (pool : Z) (request : LeechRequest) : M W (Result Launch) :=
  if str_empty (lr_url request)
  then co_return error InvalidArgument "leech: empty URL"
  else
    co_try settings <- us_get (lr_user request);
    let kind := if lr_use_qbittorrent request then Qbittorrent else Aria2 in
    let downloader := if lr_use_qbittorrent request then qbit_ else aria2_ in
    co_try status_msg <- send_html (lr_chat request)
      ("<b><u>Queued Leech</u></b>" +:+ newline +:+ "<blockquote>" +:+
       escape_html (truncate_for_display (lr_url request) 200) +:+ "</blockquote>");
    co_await tp <- now;
    co_await id <- draw_task_id;
    let task := new_task (MkMetadata id (lr_user request) (lr_chat request) status_msg Leech (lr_url request) tp tp) in
    co_try saved <- repo_save task;
    start_job kind downloader (lr_url request) (lr_chat request) status_msg task
      (fun guard gid task =>
         MkLaunch (MkEnv LeechFlavor id gid (pool_size pool) (supports_pipelining downloader))
           task guard status_msg (leech_upload_config (lr_chat request) settings) Telegram).

End Start.

(** ** The loop of [LeechUrl] *)

(** The poll loop of [leech_url.cpp] is the loop of [mirror_url.cpp] with the leech
    messages, without results and with a stricter directory upload. *)
Definition leech_env (id : TaskId) (gid : Gid) (pool : Z) (pipelining : bool) : Env :=
  MkEnv LeechFlavor id gid (pool_size pool) pipelining.

(** Status handling and spawn loop of [LeechUrl::execute]. *)
Definition leech_loop_step (id : TaskId) (gid : Gid) (pool : Z) (pipelining : bool)
  : Z -> Event -> Config -> option Config := step (leech_env id gid pool pipelining).

(** The fallback of [LeechUrl::execute]. *)
Definition leech_after_loop (id : TaskId) (gid : Gid) (pool : Z) (pipelining : bool)
  : Z -> Config -> Config := after_loop (leech_env id gid pool pipelining).

(** ** Lemmas: hexadecimal identifiers *)

Definition hex_value (c : ascii) : Z :=
  let n := Z.of_N (code c) in if n <? 97 then n - 48 else n - 87.

Definition is_lower_hex (c : ascii) : bool :=
  isdigit c || ((97 <=? code c)%N && (code c <=? 102)%N).

Lemma hex_digit_spec n : 0 <= n < 16 -> hex_value (hex_digit n) = n /\ is_lower_hex (hex_digit n) = true.
Proof.
  intros H.
  assert (forall_range (fun n => (hex_value (hex_digit n) =? n) && is_lower_hex (hex_digit n)) 16 0 = true) as Hall
    by (vm_compute; reflexivity).
  pose proof (forall_range_spec _ _ _ Hall n ltac:(lia)) as Hn.
  apply andb_true_iff in Hn as [H1%Z.eqb_eq H2]. done.
Qed.

(** Reading the digits back. *)
Definition hex_read (l : list ascii) : Z := foldl (fun a c => a * 16 + hex_value c) 0 l.

Lemma land15 v : Z.land v 15 = v mod 16.
Proof. change 15 with (Z.ones 4). by rewrite Z.land_ones. Qed.

Lemma shiftr4 v : Z.shiftr v 4 = v / 16.
Proof. by rewrite Z.shiftr_div_pow2. Qed.

Lemma foldl_hex a l : foldl (fun a c => a * 16 + hex_value c) a l = a * 16 ^ Z.of_nat (length l) + hex_read l.
Proof.
  unfold hex_read. revert a. induction l as [|c l IH]; intros a; [simpl; lia|].
  cbn [foldl length]. rewrite IH, (IH (0 * 16 + hex_value c)). rewrite Nat2Z.inj_succ, Z.pow_succ_r by lia. lia.
Qed.

Lemma pour_read n v acc :
  0 <= v < 16 ^ Z.of_nat n -> hex_read (pour n v acc) = v * 16 ^ Z.of_nat (length acc) + hex_read acc.
Proof.
  revert v acc. induction n as [|n IH]; intros v acc Hv; cbn [pour].
  { simpl in Hv. replace v with 0 by lia. lia. }
  rewrite Nat2Z.inj_succ, Z.pow_succ_r in Hv by lia.
  rewrite shiftr4, land15, IH by (split; [apply Z.div_pos; lia|apply Z.div_lt_upper_bound; lia]).
  cbn [length]. rewrite Nat2Z.inj_succ, Z.pow_succ_r by lia.
  unfold hex_read at 1. cbn [foldl]. rewrite foldl_hex.
  rewrite (proj1 (hex_digit_spec (v mod 16) ltac:(apply Z.mod_pos_bound; lia))).
  pose proof (Z.div_mod v 16 ltac:(lia)). nia.
Qed.

Lemma pour_length n v acc : length (pour n v acc) = (n + length acc)%nat.
Proof. revert v acc. induction n as [|n IH]; intros v acc; simpl; [done|]. rewrite IH. simpl. lia. Qed.

Lemma pour_hex n v acc :
  Forall (fun c => is_lower_hex c = true) acc -> Forall (fun c => is_lower_hex c = true) (pour n v acc).
Proof.
  revert v acc. induction n as [|n IH]; intros v acc H; simpl; [done|]. apply IH. constructor; [|done].
  rewrite land15. apply hex_digit_spec, Z.mod_pos_bound. lia.
Qed.

Lemma pour_app n v acc : pour n v acc = pour n v [] ++ acc.
Proof.
  revert v acc. induction n as [|n IH]; intros v acc; simpl; [done|].
  by rewrite IH, (IH _ [_]), <-app_assoc.
Qed.

Lemma lor_shift a b : 0 <= a -> 0 <= b < 2 ^ 32 -> Z.lor (Z.shiftl a 32) b = a * 2 ^ 32 + b.
Proof.
  intros Ha Hb. rewrite Z.shiftl_mul_pow2 by lia. symmetry.
  rewrite <-Z.lxor_lor, <-Z.add_nocarry_lxor; [done| |];
    (apply Z.bits_inj'; intros i Hi; rewrite Z.land_spec, Z.bits_0;
     destruct (Z_lt_le_dec i 32);
     [rewrite Z.mul_pow2_bits_low by lia; done
     |rewrite (Z.bits_above_log2 b) by (destruct (Z.eq_dec b 0) as [->|]; [done|lia] ||
        (assert (Z.log2 b < 32) by (destruct (Z.eq_dec b 0) as [->|]; [done|apply Z.log2_lt_pow2; lia]); lia));
      by rewrite andb_false_r]).
Qed.

(** Task identifiers are 32 lowercase hexadecimal digits that carry all 128 random
    bits: different draws give different identifiers. *)
Theorem task_id_injective r1 r2 r3 r4
  (H1 : 0 <= r1 < 2 ^ 32) (H2 : 0 <= r2 < 2 ^ 32) (H3 : 0 <= r3 < 2 ^ 32) (H4 : 0 <= r4 < 2 ^ 32) :
  length (chars (value (make_task_id r1 r2 r3 r4))) = 32%nat /\
  Forall (fun c => is_lower_hex c = true) (chars (value (make_task_id r1 r2 r3 r4))) /\
  hex_read (chars (value (make_task_id r1 r2 r3 r4))) = ((r1 * 2 ^ 32 + r2) * 2 ^ 32 + r3) * 2 ^ 32 + r4 /\
  forall s1 s2 s3 s4, 0 <= s1 < 2 ^ 32 -> 0 <= s2 < 2 ^ 32 -> 0 <= s3 < 2 ^ 32 -> 0 <= s4 < 2 ^ 32 ->
    make_task_id r1 r2 r3 r4 = make_task_id s1 s2 s3 s4 -> (r1, r2, r3, r4) = (s1, s2, s3, s4).
Proof.
  assert (forall r1 r2 r3 r4, 0 <= r1 < 2 ^ 32 -> 0 <= r2 < 2 ^ 32 -> 0 <= r3 < 2 ^ 32 -> 0 <= r4 < 2 ^ 32 ->
    hex_read (chars (value (make_task_id r1 r2 r3 r4))) = ((r1 * 2 ^ 32 + r2) * 2 ^ 32 + r3) * 2 ^ 32 + r4) as Hread.
  { clear. intros r1 r2 r3 r4 H1 H2 H3 H4. unfold make_task_id. cbn [value]. rewrite chars_of_chars, <-pour_app.
    rewrite !lor_shift by lia. rewrite pour_read by lia. rewrite pour_read by lia.
    rewrite pour_length. change (hex_read []) with 0. simpl (Z.of_nat _). lia. }
  split_and!.
  - unfold make_task_id. cbn [value]. rewrite chars_of_chars, length_app, !pour_length. done.
  - unfold make_task_id. cbn [value]. rewrite chars_of_chars. apply Forall_app. split; by apply pour_hex.
  - by apply Hread.
  - intros s1 s2 s3 s4 Hs1 Hs2 Hs3 Hs4 E. apply (f_equal (fun i => hex_read (chars (value i)))) in E.
    rewrite !Hread in E by done. repeat f_equal; lia.
Qed.

Lemma task_id_injective_witness :
  value (make_task_id 0 10 4294967295 1) = "000000000000000affffffff00000001" /\
  length (chars (value (make_task_id 0 10 4294967295 1))) = 32%nat.
Proof.
  split; [vm_compute; reflexivity|]. apply (task_id_injective 0 10 4294967295 1); lia.
Defined.

(** ** Lemmas: starting a job *)

Section StartLemmas.
  Context {W : Type} `{!Clock W, !RandomDevice W, !TaskRepository W, !UserSettingsRepository W,
    !Downloaders W, !MessengerInterface W, !HasRegistry W}.

(** No port but the registry itself touches the registry. *)
Class RegistryFrames : Prop := {
  rf_now :: Preserves get_registry (now (W := W));
  rf_draw :: Preserves get_registry (random_draw (W := W));
  rf_save t :: Preserves get_registry (repo_save (W := W) t);
  rf_get u :: Preserves get_registry (us_get (W := W) u);
  rf_send c h :: Preserves get_registry (send_html (W := W) c h);
  rf_edit c m h :: Preserves get_registry (edit_html (W := W) c m h);
  rf_add k d u w : backend_of (W := W) k = Some d -> get_registry (add_uri d u w).2 = get_registry w
}.

Context `{!RegistryFrames}.

(** The task a started pipeline works on. *)
Definition launched (kind : DownloaderKind) (md : TaskMetadata) (la : Launch) : Prop :=
  let t := la_task la in
  touch_metadata 0 (metadata t) = touch_metadata 0 md /\ state t = Downloading /\
  error_message t = None /\ downloader_kind t = kind /\ downloader_id t = Some (env_gid (la_env la)) /\
  guard_id (la_guard la) = md_id md /\ env_id (la_env la) = md_id md.

Lemma start_failed_registry chat msg g t stage e w :
  exists w', start_failed chat msg g t stage e w = (Err e, w') /\
    get_registry w' = drop_guard g (get_registry w).
Proof.
  unfold start_failed, timed, mbind, mreturn, release_guard.
  pose proof (rf_now w) as H1. destruct (now w) as [tp w1]. simpl in H1.
  set (t1 := (mark_failed (err_message e) tp t).2).
  pose proof (rf_save t1 w1) as H2. destruct (repo_save t1 w1) as [r w2]. simpl in H2.
  match goal with |- context [edit_html ?c ?m ?h w2] =>
    pose proof (rf_edit c m h w2) as H3; destruct (edit_html c m h w2) as [r3 w3] end. simpl in H3.
  eexists. split; [reflexivity|]. by rewrite get_set_registry, H3, H2, H1.
Qed.

(** The flag of a guard taken in a registry. *)
Lemma make_guard_registered id r : map_ (make_guard id r).2 !! id = Some (guard_flag (make_guard id r).1) /\
  guard_id (make_guard id r).1 = id.
Proof.
  unfold make_guard, register_task. destruct (map_ r !! id) eqn:E; simpl; [done|].
  split; [apply lookup_insert_eq|done].
Qed.

Lemma start_job_spec kind d url chat msg md launch w r w' :
  (forall g gid t, la_task (launch g gid t) = t /\ la_guard (launch g gid t) = g /\
     env_gid (la_env (launch g gid t)) = gid /\ env_id (la_env (launch g gid t)) = md_id md) ->
  backend_of kind = Some d -> start_job kind d url chat msg (new_task md) launch w = (r, w') ->
  match r with
  | Ok la => launched kind md la /\ map_ (get_registry w') !! md_id md = Some (guard_flag (la_guard la)) /\
             exists g gid t, la = launch g gid t
  | Err _ => map_ (get_registry w') !! md_id md = None
  end.
Proof.
  intros Hl Hd. unfold start_job, take_guard, timed. change (md_id (metadata (new_task md))) with (md_id md).
  unfold mbind at 1. pose proof (make_guard_registered (md_id md) (get_registry w)) as [Hreg Hid].
  destruct (make_guard (md_id md) (get_registry w)) as [g reg]. simpl in Hreg, Hid.
  assert (get_registry (set_registry reg w) = reg) as Hr1 by apply get_set_registry.
  generalize dependent (set_registry reg w). intros w1 Hr1.
  unfold mbind at 1 2, mreturn at 1. pose proof (rf_now w1) as H1. destruct (now w1) as [tp w2]. simpl in H1.
  cbn [start_download new_task state].
  set (t1 := enter Downloading tp (new_task md)).
  change (start_download tp (new_task md)) with (@Ok unit (), t1). cbn iota.
  unfold mbind at 1. pose proof (rf_save t1 w2) as H2. destruct (repo_save t1 w2) as [r2 w3]. simpl in H2.
  unfold mbind at 1. pose proof (rf_add kind d url w3 Hd) as H3. destruct (add_uri d url w3) as [[gid|e] w4]; simpl in H3.
  - unfold mbind at 1. pose proof (rf_now w4) as H4. destruct (now w4) as [tp2 w5]. simpl in H4.
    set (t2 := attach_downloader gid kind tp2 t1).
    unfold mbind, mreturn. pose proof (rf_save t2 w5) as H5. destruct (repo_save t2 w5) as [r5 w6]. simpl in H5.
    intros [= <- <-]. destruct (Hl g gid t2) as (E1 & E2 & E3 & E4). split_and!.
    + unfold launched. rewrite E1, E2, E3, E4. by destruct md.
    + rewrite E2, H5, H4, H3, H2, H1, Hr1. done.
    + eauto.
  - destruct (start_failed_registry chat msg g t1 "download" e w4) as (w5 & -> & Hreg5). intros [= <- <-].
    rewrite Hreg5. unfold drop_guard, unregister. simpl. rewrite Hid. apply lookup_delete_eq.
Qed.

End StartLemmas.

(** ** Theorems *)

Section StartTheorems.
  Context {W : Type} `{!Clock W, !RandomDevice W, !TaskRepository W, !UserSettingsRepository W,
    !Downloaders W, !MessengerInterface W, !HasRegistry W}.

(** A pipeline starts only when everything it needs is in place: for both use cases, a
    launch has a task in Downloading that is bound to the backend the request selects and
    to the job that backend accepted, a pool of at least one upload, and a registered
    guard through which a stop request reaches it: the hypotheses of the theorems about
    the poll loop.  An empty URL starts nothing. *)
Theorem pipelines_start_ready (Hframes : RegistryFrames (W := W)) :
  (forall pool gn rn req w la w', mirror_start pool gn rn req w = (Ok la, w') ->
     str_empty (mr_url req) = false /\ 1 <= upload_pool_size (la_env la) /\
     (exists md, launched (if mr_use_qbittorrent req then Qbittorrent else Aria2) md la /\
        md_kind md = Mirror /\ md_user md = mr_user req /\ md_chat md = mr_chat req /\ md_source_url md = mr_url req /\
        map_ (get_registry w') !! md_id md = Some (guard_flag (la_guard la))) /\
     upload_while_downloading (la_env la) = supports_pipelining (if mr_use_qbittorrent req then qbit_ else aria2_)) /\
  (forall pool req w la w', leech_start pool req w = (Ok la, w') ->
     str_empty (lr_url req) = false /\ 1 <= upload_pool_size (la_env la) /\
     (exists md, launched (if lr_use_qbittorrent req then Qbittorrent else Aria2) md la /\
        md_kind md = Leech /\ md_user md = lr_user req /\ md_chat md = lr_chat req /\ md_source_url md = lr_url req /\
        map_ (get_registry w') !! md_id md = Some (guard_flag (la_guard la))) /\
     la_uploader la = Telegram).
Proof.
  assert (forall n, 1 <= pool_size n) as Hpool by (intros n; unfold pool_size; destruct (Z.gtb_spec n 0); lia).
  split.
  - intros pool gn rn req w la w'. unfold mirror_start. destruct (str_empty (mr_url req)); [done|].
    intros (st & w1 & _ & H)%try_bind_Ok_inv. apply try_bind_Ok_inv in H as (msg & w2 & _ & H).
    unfold mbind at 1 in H. destruct (now w2) as [tp w3]. unfold mbind at 1 in H.
    destruct (draw_task_id w3) as [id w4]. apply try_bind_Ok_inv in H as (u & w5 & _ & H).
    eapply start_job_spec in H; [|intros; by simpl|match goal with |- backend_of (if ?b then _ else _) = _ => by destruct b end].
    destruct H as (Hla & Hreg & g & gid & t & ->). split_and!; [done|apply Hpool| |done].
    eexists. split; [exact Hla|]. by split_and!.
  - intros pool req w la w'. unfold leech_start. destruct (str_empty (lr_url req)); [done|].
    intros (st & w1 & _ & H)%try_bind_Ok_inv. apply try_bind_Ok_inv in H as (msg & w2 & _ & H).
    unfold mbind at 1 in H. destruct (now w2) as [tp w3]. unfold mbind at 1 in H.
    destruct (draw_task_id w3) as [id w4]. apply try_bind_Ok_inv in H as (u & w5 & _ & H).
    eapply start_job_spec in H; [|intros; by simpl|match goal with |- backend_of (if ?b then _ else _) = _ => by destruct b end].
    destruct H as (Hla & Hreg & g & gid & t & ->). split_and!; [done|apply Hpool| |done].
    eexists. split; [exact Hla|]. by split_and!.
Qed.

End StartTheorems.

(** ** Witness *)

Module MemStart.

#[export] Instance random : RandomDevice MemWorld.World := mreturn 7.

End MemStart.

Import MemWorld MemStart.

Lemma mem_registry_frames : RegistryFrames (W := MemWorld.World).
Proof. split; try done. by intros [] d u w [= <-]. Qed.

Definition sample_request : MirrorRequest :=
  MkMirrorRequest "magnet:?xt=1" (MkId 7) (MkId 1) (MkId 2) true None.

Lemma pipelines_start_ready_witness :
  exists la w', mirror_start 0 "gdrive" "rclone" sample_request MemWorld.empty = (Ok la, w') /\
    state (la_task la) = Downloading /\ downloader_kind (la_task la) = Qbittorrent /\
    upload_pool_size (la_env la) = 1 /\
    exists md, launched Qbittorrent md la /\ map_ (get_registry w') !! md_id md = Some (guard_flag (la_guard la)).
Proof.
  assert (exists la w', mirror_start 0 "gdrive" "rclone" sample_request MemWorld.empty = (Ok la, w') /\
    state (la_task la) = Downloading /\ downloader_kind (la_task la) = Qbittorrent /\
    upload_pool_size (la_env la) = 1) as (la & w' & E & H1 & H2 & H3).
  { do 2 eexists. split; [vm_compute; reflexivity|done]. }
  exists la, w'. split; [done|]. split_and!; try done.
  destruct (proj1 (pipelines_start_ready mem_registry_frames) _ _ _ _ _ _ _ E) as (_ & _ & (md & Hla & _ & _ & _ & _ & Hreg) & _).
  exists md. by split.
Defined.
