(* ===== verification/Files.v ===== *)
(** * The file system and upload progress

    What the uploaders use of [std::filesystem] and of file streams, as operations on the
    world, and the progress snapshots of [uploader_interface.hpp]. *)

From S2P Require Import Prelude CoreError Progress.

(** The calls on files; an error carries the message of its code. *)
Class Files (W : Type) := {
  fs_exists : string -> M W bool;
  fs_file_size : string -> M W (string + Z);
  fs_is_directory : string -> M W bool;
  read_file : string -> M W (option string);
  can_open : string -> M W bool
}.

(** What [recursive_directory_iterator] visits: the path, the path relative to the root or the
    error of computing it, and the kind. *)
Inductive EntryKind := Directory | RegularFile | Other.
Record DirEntry := MkEntry { de_path : string; de_relative : string + list string; de_kind : EntryKind }.

(** A walk, and the error of the constructor or of [increment(ec)] that ended it early: both
    turn the iterator into the one past the end, so a loop up to that one just ends and the
    test of [ec] in its body is never true. *)
Record Walked := MkWalked { visited : list DirEntry; walk_error : option string }.
Class Walk (W : Type) := recursive_directory_iterator : string -> M W Walked.

(** What a directory holds, in the order of a walk: a walk visits all of it, or the entries
    before the error. *)
Class WalkLaws {W} `{walk : !Walk W} (tree : W -> string -> list DirEntry) : Prop := {
  walk_prefix path w : visited (recursive_directory_iterator path w).1 `prefix_of` tree w path;
  walk_whole path w : walk_error (recursive_directory_iterator path w).1 = None -> visited (recursive_directory_iterator path w).1 = tree w path
}.

(** [struct UploadProgress]; only rclone tells the speed and the remaining seconds. *)
Record UploadProgress := MkProgress {
  up_file_name : string;
  up_total_bytes : Z;
  up_uploaded_bytes : Z;
  up_current_part : Z;
  up_total_parts : Z;
  up_speed_bps : Z;
  up_eta : Z
}.

(** [UploadProgress::progress_percent]. *)
Definition progress_percent (p : UploadProgress) : double :=
  if up_total_bytes p <=? 0 then double_of_Z 0
  else clamp_fraction (div_double (to_double (up_uploaded_bytes p)) (to_double (up_total_bytes p))).
