(* ===== verification/PoolJoin.v ===== *)
(** * Joining a pool of detached workers

    The uploaders start detached workers and wait for them on a timer that never expires; a
    guard in each worker counts it out, and the last one cancels the timer.  This file is the
    part of that protocol which all pools share, over any worker and any shared state: a pool
    instantiates it by showing that its steps are [moves]. *)

From S2P Require Import Prelude.

(** The coroutine that starts the workers: still spawning, waiting on the timer, woken. *)
Inductive Parent := Spawning | Parked | Joined.

(** [~ExitGuard]: the last worker out cancels the timer, which wakes a coroutine that waits on
    it and nobody else. *)
Definition count_out (live : Z) (p : Parent) : Z * Parent :=
  (live - 1, if live - 1 =? 0 then match p with Parked => Joined | p => p end else p).

(** A sequence of events; [None] when one of them cannot happen. *)
Fixpoint run_events {Event State} (step : Event -> State -> option State) (es : list Event) (s : State) : option State :=
  match es with
  | [] => Some s
  | e :: es => s' ← step e s; run_events step es s'
  end.

Fixpoint sum_of {A} (f : A -> Z) (l : list A) : Z := match l with [] => 0 | x :: l => f x + sum_of f l end.

Lemma sum_of_app {A} (f : A -> Z) l1 l2 : sum_of f (l1 ++ l2) = sum_of f l1 + sum_of f l2.
Proof. induction l1 as [|x l1 IH]; simpl; lia. Qed.

Lemma sum_of_insert {A} (f : A -> Z) l i x y : l !! i = Some x -> sum_of f (<[i := y]> l) = sum_of f l - f x + f y.
Proof. revert i. induction l as [|z l IH]; intros [|i]; simpl; try done; [intros [= ->]; lia|]. intros H. rewrite (IH i H). lia. Qed.

Lemma sum_of_bounds {A} (f : A -> Z) l : (forall x, 0 <= f x <= 1) -> 0 <= sum_of f l <= Z.of_nat (length l).
Proof. intros Hf. induction l as [|x l IH]; simpl; [lia|]. specialize (Hf x). lia. Qed.

Lemma sum_of_full {A} (f : A -> Z) l : (forall x, 0 <= f x <= 1) -> sum_of f l = Z.of_nat (length l) -> Forall (fun x => f x = 1) l.
Proof.
  intros Hf. induction l as [|x l IH]; simpl; [constructor|]. intros H. pose proof (sum_of_bounds f l Hf). specialize (Hf x).
  constructor; [lia|apply IH; lia].
Qed.

Lemma sum_of_perm {A} (f : A -> Z) l1 l2 : l1 ≡ₚ l2 -> sum_of f l1 = sum_of f l2.
Proof. induction 1; simpl; lia. Qed.

Lemma sum_of_lookup {A} (f : A -> Z) (l : list A) :
  sum_of (fun i => match l !! i with Some x => f x | None => 0 end) (seq 0 (length l)) = sum_of f l.
Proof.
  assert (forall l2 pre, l = pre ++ l2 ->
    sum_of (fun i => match l !! i with Some x => f x | None => 0 end) (seq (length pre) (length l2)) = sum_of f l2) as H; [|by apply (H l [])].
  induction l2 as [|c l2 IH]; intros pre Hp; simpl; [done|]. rewrite Hp at 1. rewrite list_lookup_middle by done. f_equal.
  replace (S (length pre)) with (length (pre ++ [c])) by (rewrite length_app; simpl; lia). apply IH. by rewrite <- app_assoc.
Qed.

Lemma fmap_lookup_seq {A} (d : A) (l : list A) : (fun i => default d (l !! i)) <$> seq 0 (length l) = l.
Proof. induction l as [|x l IH]; [done|]. cbn. f_equal. rewrite <- seq_shift, <- list_fmap_compose. exact IH. Qed.

Section Join.
  Context {Event State Worker : Type} (step : Event -> State -> option State).
  Context (workers : State -> list Worker) (live : State -> Z) (parent : State -> Parent).
  Context (gone : Worker -> bool) (width : nat).

Definition exited (p : Worker) : Z := if gone p then 1 else 0.

Lemma exited_range p : 0 <= exited p <= 1.
Proof. unfold exited. destruct (gone p); lia. Qed.

(** What a step does to the workers and to the join. *)
Inductive moves (s s' : State) : Prop :=
| spawns p :
    parent s = Spawning -> (length (workers s) < width)%nat -> gone p = false ->
    workers s' = workers s ++ [p] -> live s' = live s -> parent s' = Spawning -> moves s s'
| parks :
    parent s = Spawning -> length (workers s) = width -> workers s' = workers s -> live s' = live s -> parent s' = Parked ->
    moves s s'
| works_on w p q :
    workers s !! w = Some p -> gone p = false -> workers s' = <[w := q]> (workers s) -> gone q = false ->
    live s' = live s -> parent s' = parent s -> moves s s'
| works_out w p q :
    workers s !! w = Some p -> gone p = false -> workers s' = <[w := q]> (workers s) -> gone q = true ->
    (live s', parent s') = count_out (live s) (parent s) -> moves s s'.

Hypothesis step_moves : forall e s s', step e s = Some s' -> moves s s'.

(** The counter is that of the workers that have not left, spawned or not. *)
Record consistent (s : State) : Prop := {
  live_exact : live s = Z.of_nat width - sum_of exited (workers s);
  spawned_bound : (length (workers s) <= width)%nat;
  spawned_all : parent s <> Spawning -> length (workers s) = width;
  joined_none : parent s = Joined -> live s = 0;
  joined_width : parent s = Joined -> (0 < width)%nat
}.

Lemma consistent_fresh s : workers s = [] -> live s = Z.of_nat width -> parent s = Spawning -> consistent s.
Proof. intros Hw Hl Hp. split; rewrite ?Hw, ?Hl, ?Hp; simpl; try done; lia. Qed.

Lemma live_pos s w p : consistent s -> workers s !! w = Some p -> gone p = false -> 0 < live s.
Proof.
  intros Hc Hw Hp. pose proof (live_exact _ Hc). pose proof (spawned_bound _ Hc).
  pose proof (sum_of_bounds exited (workers s) exited_range).
  assert (sum_of exited (workers s) <> Z.of_nat (length (workers s))); [|lia].
  intros Hall%(sum_of_full exited _ exited_range). rewrite Forall_lookup in Hall. specialize (Hall w p Hw).
  unfold exited in Hall. by rewrite Hp in Hall.
Qed.

Lemma consistent_step e s s' : consistent s -> step e s = Some s' -> consistent s'.
Proof.
  intros Hc Hs. pose proof Hc as [Hl Hb Ha Hj Hw0].
  destruct (step_moves e s s' Hs) as [p Hp Hn Hg Hw Hv Hp'|Hp Hn Hw Hv Hp'|w p q Hwp Hg Hw Hq Hv Hp|w p q Hwp Hg Hw Hq Hv].
  - split; rewrite ?Hw, ?Hv, ?Hp', ?sum_of_app, ?length_app; simpl; unfold exited; rewrite ?Hg; try done; fold exited; lia.
  - split; rewrite ?Hw, ?Hv, ?Hp'; try done; lia.
  - assert (exited p = 0 /\ exited q = 0) as [E1 E2] by (unfold exited; by rewrite Hg, Hq).
    split; rewrite ?Hw, ?length_insert, ?(sum_of_insert _ _ _ _ _ Hwp), ?Hv, ?Hp; try done; lia.
  - pose proof (live_pos s w p Hc Hwp Hg) as Hlive. unfold count_out in Hv. injection Hv as Hv Hp.
    assert (exited p = 0 /\ exited q = 1) as [E1 E2] by (unfold exited; by rewrite Hg, Hq).
    split; rewrite ?Hw, ?length_insert, ?(sum_of_insert _ _ _ _ _ Hwp), ?Hv, ?Hp; try lia.
    + intros Hne. apply Ha. intros P. rewrite P in Hne. by destruct (live s - 1 =? 0).
    + destruct (Z.eqb_spec (live s - 1) 0); [done|]. intros H%Hj. lia.
    + intros _. apply lookup_lt_Some in Hwp. lia.
Qed.

Lemma run_consistent es s s' : consistent s -> run_events step es s = Some s' -> consistent s'.
Proof.
  revert s. induction es as [|e es IH]; intros s Hs; simpl; [by intros [= <-]|].
  destruct (step e s) as [s1|] eqn:E; [|done]. simpl. apply IH. by eapply consistent_step.
Qed.

Lemma all_exited s : consistent s -> live s = 0 -> Forall (fun p => gone p = true) (workers s).
Proof.
  intros Hc H. pose proof (live_exact _ Hc). pose proof (spawned_bound _ Hc).
  pose proof (sum_of_bounds exited (workers s) exited_range).
  assert (Forall (fun p => exited p = 1) (workers s)) as Hall by (apply sum_of_full; [apply exited_range|lia]).
  eapply Forall_impl; [exact Hall|]. unfold exited. intros p. by destruct (gone p).
Qed.

Lemma joined_stays es s s' : parent s = Joined -> run_events step es s = Some s' -> parent s' = Joined.
Proof.
  revert s. induction es as [|e es IH]; intros s Hp; simpl; [by intros [= <-]|].
  destruct (step e s) as [s1|] eqn:E; [|done]. simpl. apply IH.
  destruct (step_moves _ _ _ E) as [p H|H|w p q _ _ _ _ _ H|w p q _ _ _ _ H]; [congruence..|].
  unfold count_out in H. rewrite Hp in H. injection H as _ H. by destruct (_ =? _).
Qed.

(** A waiting coroutine with live workers is woken by the last of them. *)
Lemma parked_run es s s' :
  consistent s -> parent s = Parked -> 0 < live s -> run_events step es s = Some s' ->
  (parent s' = Parked /\ 0 < live s') \/ parent s' = Joined.
Proof.
  revert s. induction es as [|e es IH]; intros s Hc Hp Hlive; simpl; [intros [= <-]; auto|].
  destruct (step e s) as [s1|] eqn:E; [|done]. simpl. pose proof (consistent_step e s s1 Hc E) as Hc1.
  destruct (step_moves _ _ _ E) as [p H|H|w p q _ _ _ _ Hv H|w p q _ _ _ _ H]; [congruence..| |].
  - apply IH; [done|congruence|lia].
  - unfold count_out in H. rewrite Hp in H. injection H as Hv H.
    destruct (Z.eqb_spec (live s - 1) 0); [intros Hrun; right; by eapply joined_stays|]. apply IH; [done|congruence|lia].
Qed.

Lemma join_wakes es s s' :
  consistent s -> parent s = Parked -> 0 < live s -> run_events step es s = Some s' ->
  (parent s' = Joined <-> Forall (fun p => gone p = true) (workers s')).
Proof.
  intros Hc Hp Hlive H2. pose proof (run_consistent _ _ _ Hc H2) as Hc'. split.
  - intros H. apply all_exited; [done|]. by apply Hc'.
  - intros Hall. destruct (parked_run es s s' Hc Hp Hlive H2) as [[Hp' Hl]|H]; [|done]. exfalso.
    assert (sum_of exited (workers s') = Z.of_nat (length (workers s'))) as Hsum.
    { clear -Hall. unfold exited. induction Hall as [|p l Hp _ IH]; simpl; [done|]. rewrite Hp. lia. }
    pose proof (live_exact _ Hc'). pose proof (spawned_all _ Hc' ltac:(congruence)). lia.
Qed.

(** When the workers are gone before the coroutine waits, nothing can happen any more. *)
Lemma join_lost s es s' :
  consistent s -> live s = 0 -> parent s = Parked -> run_events step es s = Some s' -> es = [] /\ parent s' = Parked.
Proof.
  intros Hc Hl Hp. destruct es as [|e es]; simpl; [by intros [= <-]|]. intros H. exfalso.
  destruct (step e s) as [s2|] eqn:E; [|done]. pose proof (all_exited _ Hc Hl) as Hall. rewrite Forall_lookup in Hall.
  destruct (step_moves _ _ _ E) as [p H1|H1|w p q H1 H2|w p q H1 H2]; [congruence..| |]; specialize (Hall w p H1); congruence.
Qed.

End Join.
