(* ===== verification/JobPool.v ===== *)
(** * Pools of jobs: the parts and the directories of the uploaders

    [TelegramUploader::upload_file] sends the parts of a split file, and both
    [upload_directory] send files, through the same pool: workers take the next index, run its
    job, and store the result; the first error stops the others.  A step is what a worker does
    between two suspension points. *)

From Stdlib Require Import Permutation.
From S2P Require Import Prelude CoreError PoolJoin.

(** Where a worker is suspended. *)
Inductive JobWorker :=
| Taking
| Running (idx : nat)
| Gone.

Inductive JobEvent {R : Type} :=
| JSpawn
| JPark
| JTake (w : nat) (cancelled : bool)
| JDone (w idx : nat) (r : Result R)
| JThrew (w idx : nat).
Arguments JobEvent : clear implicits.

(** The shared state: results in the order in which they came. *)
Record JobPool {R : Type} := MkPool {
  jp_next : nat;
  jp_live : Z;
  jp_abort : bool;
  jp_error : option AppError;
  jp_results : list (nat * R);
  jp_workers : list JobWorker;
  jp_parent : Parent
}.
Arguments JobPool : clear implicits.
Arguments MkPool {R}.

Section Pool.
  Context {R : Type} (jobs width : nat) (cancellation : option AppError).

Definition empty_pool : JobPool R := MkPool 0 (Z.of_nat width) false None [] [] Spawning.

(** [record_error]: the first error stays. *)
Definition fail_pool (e : AppError) (s : JobPool R) : JobPool R :=
  MkPool (jp_next s) (jp_live s) true (match jp_error s with None => Some e | Some e => Some e end)
    (jp_results s) (jp_workers s) (jp_parent s).

Definition leave_pool (w : nat) (s : JobPool R) : JobPool R :=
  let '(live, parent) := count_out (jp_live s) (jp_parent s) in
  MkPool (jp_next s) live (jp_abort s) (jp_error s) (jp_results s) (<[w := Gone]> (jp_workers s)) parent.

(** A seen cancellation is recorded as an error or only stops the others. *)
Definition see_cancellation (s : JobPool R) : JobPool R :=
  match cancellation with
  | Some e => fail_pool e s
  | None => MkPool (jp_next s) (jp_live s) true (jp_error s) (jp_results s) (jp_workers s) (jp_parent s)
  end.

(** The top of the loop. *)
Definition take_job (w : nat) (cancelled : bool) (s : JobPool R) : JobPool R :=
  if jp_abort s then leave_pool w s
  else if cancelled then leave_pool w (see_cancellation s)
  else
    let idx := jp_next s in
    let s := MkPool (S idx) (jp_live s) (jp_abort s) (jp_error s) (jp_results s) (jp_workers s) (jp_parent s) in
    if (jobs <=? idx)%nat then leave_pool w s
    else MkPool (jp_next s) (jp_live s) (jp_abort s) (jp_error s) (jp_results s) (<[w := Running idx]> (jp_workers s)) (jp_parent s).

Definition end_job (w idx : nat) (r : Result R) (s : JobPool R) : JobPool R :=
  match r with
  | Ok x => MkPool (jp_next s) (jp_live s) (jp_abort s) (jp_error s) (jp_results s ++ [(idx, x)]) (<[w := Taking]> (jp_workers s)) (jp_parent s)
  | Err e => leave_pool w (fail_pool e s)
  end.

Definition pool_step (e : JobEvent R) (s : JobPool R) : option (JobPool R) :=
  match e with
  | JSpawn =>
      match jp_parent s with
      | Spawning => if (length (jp_workers s) <? width)%nat
                    then Some (MkPool (jp_next s) (jp_live s) (jp_abort s) (jp_error s) (jp_results s) (jp_workers s ++ [Taking]) Spawning)
                    else None
      | _ => None
      end
  | JPark =>
      match jp_parent s with
      | Spawning => if (length (jp_workers s) =? width)%nat
                    then Some (MkPool (jp_next s) (jp_live s) (jp_abort s) (jp_error s) (jp_results s) (jp_workers s) Parked)
                    else None
      | _ => None
      end
  | JTake w cancelled => match jp_workers s !! w with Some Taking => Some (take_job w cancelled s) | _ => None end
  | JDone w idx r =>
      match jp_workers s !! w with
      | Some (Running i) => if bool_decide (i = idx) then Some (end_job w idx r s) else None
      | _ => None
      end
  | JThrew w idx =>
      match jp_workers s !! w with
      | Some (Running i) => if bool_decide (i = idx) then Some (leave_pool w s) else None
      | _ => None
      end
  end.

Definition run_pool : list (JobEvent R) -> JobPool R -> option (JobPool R) := run_events pool_step.

(** ** Lemmas *)

Definition job_gone (p : JobWorker) : bool := match p with Gone => true | _ => false end.

Notation moves := (moves (@jp_workers R) (@jp_live R) (@jp_parent R) job_gone width).
Notation consistent := (consistent (@jp_workers R) (@jp_live R) (@jp_parent R) job_gone width).

Lemma moves_leave w p (s s0 : JobPool R) :
  jp_workers s !! w = Some p -> job_gone p = false -> jp_workers s0 = jp_workers s -> jp_live s0 = jp_live s ->
  jp_parent s0 = jp_parent s -> moves s (leave_pool w s0).
Proof.
  intros Hw Hp Ew El Ep. unfold leave_pool. rewrite Ew, El, Ep.
  destruct (count_out (jp_live s) (jp_parent s)) as [l q] eqn:E. by apply (works_out _ _ _ _ _ _ _ w p Gone).
Qed.

Lemma moves_stay w p q (s s' : JobPool R) :
  jp_workers s !! w = Some p -> job_gone p = false -> jp_workers s' = <[w := q]> (jp_workers s) -> job_gone q = false ->
  jp_live s' = jp_live s -> jp_parent s' = jp_parent s -> moves s s'.
Proof. intros. by apply (works_on _ _ _ _ _ _ _ w p q). Qed.

Lemma pool_moves e s s' : pool_step e s = Some s' -> moves s s'.
Proof.
  destruct e as [| |w cancelled|w idx r|w idx]; simpl.
  - destruct (jp_parent s) eqn:P; try done. destruct (Nat.ltb_spec (length (jp_workers s)) width); [|done].
    intros [= <-]. by apply (spawns _ _ _ _ _ _ _ Taking).
  - destruct (jp_parent s) eqn:P; try done. destruct (Nat.eqb_spec (length (jp_workers s)) width); [|done].
    intros [= <-]. by apply parks.
  - destruct (jp_workers s !! w) as [[]|] eqn:E; try done. intros [= <-]. unfold take_job, see_cancellation.
    repeat crush_match; first [by eapply moves_leave|by eapply moves_stay].
  - destruct (jp_workers s !! w) as [[|i|]|] eqn:E; try done. destruct (bool_decide (i = idx)); [|done]. intros [= <-].
    destruct r; [by eapply moves_stay|by eapply moves_leave].
  - destruct (jp_workers s !! w) as [[|i|]|] eqn:E; try done. destruct (bool_decide (i = idx)); [|done]. intros [= <-]. by eapply moves_leave.
Qed.

Lemma pool_consistent es s : run_pool es empty_pool = Some s -> consistent s.
Proof. apply (run_consistent _ _ _ _ _ _ pool_moves). by apply consistent_fresh. Qed.

(** The jobs that are running. *)
Definition running (p : JobWorker) : list nat := match p with Running idx => [idx] | _ => [] end.
Definition running_all (ws : list JobWorker) : list nat := concat (map running ws).

Lemma running_insert ws w p q :
  ws !! w = Some p -> running p ++ running_all (<[w := q]> ws) ≡ₚ running q ++ running_all ws.
Proof.
  unfold running_all. revert w. induction ws as [|r ws IH]; intros [|w]; try done; cbn [lookup list_lookup].
  - intros [= ->]. cbn. by rewrite (Permutation_app_swap_app (running p)).
  - intros H. change (<[S w := q]> (r :: ws)) with (r :: <[w := q]> ws). cbn [map concat].
    rewrite (Permutation_app_swap_app (running p)), (IH w H). apply Permutation_app_swap_app.
Qed.

(** No worker ended with an exception, or saw a cancellation that is no error. *)
Definition orderly (e : JobEvent R) : Prop :=
  match e with JThrew _ _ => False | JTake _ true => cancellation <> None | _ => True end.

(** Without an error, every job taken is running or has its result. *)
Record taken_care (s : JobPool R) : Prop := {
  pool_running : jp_abort s = false;
  jobs_exact : (jp_results s).*1 ++ running_all (jp_workers s) ≡ₚ seq 0 (Nat.min (jp_next s) jobs);
  left_when_empty w : jp_workers s !! w = Some Gone -> (jobs <= jp_next s)%nat
}.

Lemma fail_pool_error e s : jp_error (fail_pool e s) <> None.
Proof. simpl. by destruct (jp_error s). Qed.

Lemma gone_elsewhere (ws : list JobWorker) w p q w' :
  ws !! w = Some p -> q <> Gone -> <[w := q]> ws !! w' = Some Gone -> ws !! w' = Some Gone.
Proof.
  intros Hw Hq H. destruct (decide (w = w')) as [<-|Hne]; [|by rewrite list_lookup_insert_ne in H].
  rewrite list_lookup_insert_eq in H by (by eapply lookup_lt_Some). congruence.
Qed.

Lemma taken_care_step e s s' : orderly e -> taken_care s -> pool_step e s = Some s' -> jp_error s' = None -> taken_care s'.
Proof.
  intros He [Ha Hj Hl] Hs Hn. destruct e as [| |w cancelled|w idx r|w idx]; simpl in Hs.
  - destruct (jp_parent s); try done. destruct (_ <? _)%nat; [|done]. injection Hs as <-. split; simpl; [done| |].
    + unfold running_all. rewrite map_app, concat_app. simpl. by rewrite !app_nil_r.
    + intros w [H|[_ H]]%lookup_app_Some; [by eapply Hl|]. by apply list_lookup_singleton_Some in H as [_ H].
  - destruct (jp_parent s); try done. destruct (_ =? _)%nat; [|done]. by injection Hs as <-.
  - destruct (jp_workers s !! w) as [[]|] eqn:E; try done. injection Hs as <-. unfold take_job in *. rewrite Ha in *.
    pose proof (running_insert _ _ _ Gone E) as Hg. simpl in Hg. destruct cancelled.
    { unfold see_cancellation in Hn. simpl in He. destruct cancellation as [e|]; [|done]. destruct (fail_pool_error e s). exact Hn. }
    destruct (Nat.leb_spec jobs (jp_next s)) as [Hle|Hlt].
    + split; cbn -[Nat.min]; [done| |lia]. rewrite Hg, Hj. by rewrite !Nat.min_r by lia.
    + pose proof (running_insert _ _ _ (Running (jp_next s)) E) as Hr. simpl in Hr. split; cbn -[Nat.min]; [done| |].
      * rewrite Hr, <- Permutation_middle, Hj, !Nat.min_l by lia. rewrite seq_S. simpl. apply Permutation_cons_append.
      * intros w' H. specialize (Hl w'). apply (gone_elsewhere _ _ _ _ _ E) in H; [|done]. specialize (Hl H). lia.
  - destruct (jp_workers s !! w) as [[|i|]|] eqn:E; try done. destruct (bool_decide (i = idx)) eqn:Ei; [|done].
    apply bool_decide_eq_true in Ei as ->. injection Hs as <-. destruct r as [x|e]; simpl in *; [|destruct (fail_pool_error e s); exact Hn].
    pose proof (running_insert _ _ _ Taking E) as Hr. simpl in Hr. split; simpl; [done| |].
    + rewrite <- Hj, fmap_app, <- app_assoc. apply Permutation_app_head. by rewrite <- Hr.
    + intros w' H. eapply Hl. by eapply (gone_elsewhere _ _ _ Taking _ E).
  - done.
Qed.

Lemma pool_error_stays e s s' : pool_step e s = Some s' -> jp_error s' = None -> jp_error s = None.
Proof.
  assert (forall e s, jp_error (fail_pool e s) = None -> jp_error s = None) as Hf.
  { intros e0 s0 H. by destruct (fail_pool_error e0 s0). }
  destruct e as [| |w cancelled|w idx r|w idx]; simpl; unfold take_job, see_cancellation, end_job;
    repeat crush_match; try done; intros [= <-]; simpl; try done; by eauto.
Qed.

Lemma run_taken_care es s s' :
  taken_care s -> Forall orderly es -> run_pool es s = Some s' -> jp_error s' = None -> taken_care s'.
Proof.
  assert (forall es s s', run_pool es s = Some s' -> jp_error s' = None -> jp_error s = None) as Hback.
  { clear. unfold run_pool. induction es as [|e es IH]; intros s s'; simpl; [by intros [= <-]|].
    destruct (pool_step e s) eqn:E; [|done]. simpl. intros H1 H2. eapply pool_error_stays; [done|]. by eapply IH. }
  unfold run_pool in *. revert s. induction es as [|e es IH]; intros s Ha; simpl; [by intros _ [= <-]|].
  intros [He Hes]%Forall_cons. destruct (pool_step e s) as [s1|] eqn:E; [|done]. simpl. intros Hrun Hn.
  apply (IH s1); [|done..]. eapply taken_care_step; [done..|]. by eapply Hback.
Qed.

(** A joined pool without an error has done every job exactly once. *)
Lemma pool_complete es s :
  (0 < width)%nat -> run_pool es empty_pool = Some s -> jp_parent s = Joined -> Forall orderly es -> jp_error s = None ->
  (jp_results s).*1 ≡ₚ seq 0 jobs.
Proof.
  intros Hw Hrun Hp Hes Hn. pose proof (pool_consistent es s Hrun) as Hc.
  pose proof (all_exited _ _ _ _ _ s Hc (joined_none _ _ _ _ _ _ Hc Hp)) as Hall.
  assert (taken_care empty_pool) as H0 by by split.
  destruct (run_taken_care es _ s H0 Hes Hrun Hn) as [_ Hj Hl].
  assert (running_all (jp_workers s) = []) as Hnone.
  { clear -Hall. unfold running_all. induction Hall as [|p l Hg _ IH]; simpl; [done|]. rewrite IH. by destruct p. }
  assert (jobs <= jp_next s)%nat as Hlast.
  { pose proof (spawned_all _ _ _ _ _ _ Hc ltac:(congruence)) as Hlen. destruct (jp_workers s) as [|p ws] eqn:E; [simpl in Hlen; lia|].
    apply (Hl 0%nat). simpl. apply Forall_cons in Hall as [Hg _]. by destruct p. }
  by rewrite Hnone, app_nil_r, Nat.min_r in Hj.
Qed.

(** Results come from the answers of the jobs. *)
Lemma pool_results es s :
  run_pool es empty_pool = Some s -> forall idx x, (idx, x) ∈ jp_results s -> exists w, JDone w idx (Ok x) ∈ es.
Proof.
  assert (forall es s0 s, run_pool es s0 = Some s -> forall idx x, (idx, x) ∈ jp_results s ->
    (idx, x) ∈ jp_results s0 \/ exists w, JDone w idx (Ok x) ∈ es) as H.
  { clear. unfold run_pool. induction es as [|e es IH]; intros s0 s; simpl; [intros [= <-]; auto|].
    destruct (pool_step e s0) as [s1|] eqn:E; [|done]. simpl. intros Hrun idx x Hin.
    destruct (IH s1 s Hrun idx x Hin) as [H|[w H]]; [|right; exists w; by right].
    destruct e as [| |w cancelled|w i r|w i]; simpl in E;
      [..|destruct (jp_workers s0 !! w) as [[|i'|]|]; try done; destruct (bool_decide (i' = i)); [|done]; injection E as <-;
          destruct r as [y|e]; simpl in H; [|by left]; apply elem_of_app in H as [H|H%list_elem_of_singleton]; [by left|];
          injection H as <- <-; right; exists w; by left|];
      left; revert E H; unfold take_job, see_cancellation; repeat crush_match; try done; by intros [= <-]. }
  intros Hrun idx x Hin. destruct (H es _ s Hrun idx x Hin) as [H1|H1]; [by apply not_elem_of_nil in H1|done].
Qed.

(** The slot of a job: the last result stored under its index. *)
Definition slot (results : list (nat * R)) (idx : nat) : option R := snd <$> List.find (fun r => (r.1 =? idx)%nat) results.

Lemma slot_Some results idx x : slot results idx = Some x -> (idx, x) ∈ results.
Proof.
  unfold slot. destruct (List.find _ results) as [[i y]|] eqn:E; [|done]. intros [= ->].
  apply find_some in E as [Hin E%Nat.eqb_eq]. simpl in E. subst i. by apply list_elem_of_In.
Qed.

End Pool.

(** ** Running a pool

    The executor interleaves the workers; the coroutine that waits sees the state they leave,
    or is never woken. *)
Class Executor (W : Type) :=
  run_jobs : forall R : Type, nat -> nat -> option AppError -> (nat -> Throwing W R) -> M W (option (JobPool R)).

(** The end of a job is what the job did in some world. *)
Definition done_by {W R} (job : nat -> Throwing W R) (e : JobEvent R) : Prop :=
  match e with
  | JDone _ idx r => exists w, (job idx w).1 = Finished r
  | JThrew _ idx => exists w what, (job idx w).1 = Thrown what
  | _ => True
  end.

(** The workers are detached, which leaves nobody to request their cancellation. *)
Definition detached {R} (e : JobEvent R) : Prop := match e with JTake _ cancelled => cancelled = false | _ => True end.

(** The state comes from steps of the workers, the last of which woke the waiting coroutine. *)
Record ran {W R} (jobs width : nat) (cancellation : option AppError) (job : nat -> Throwing W R) (s : JobPool R)
    (es : list (JobEvent R)) : Prop := {
  ran_steps : run_pool jobs width cancellation es (empty_pool width) = Some s;
  ran_joined : jp_parent s = Joined;
  ran_jobs : Forall (done_by job) es;
  ran_detached : Forall detached es
}.

(** The end of a job, begun in a world that satisfies [I], as an entry of [log]: what the job
    itself has added. *)
Definition logged_by {W R X} (I : W -> Prop) (log : W -> list X) (job : nat -> Throwing W R) (e : JobEvent R) (l : list X) : Prop :=
  match e with
  | JDone _ idx r => exists w, I w /\ (job idx w).1 = Finished r /\ log (job idx w).2 = log w ++ l
  | JThrew _ idx => exists w what, I w /\ (job idx w).1 = Thrown what /\ log (job idx w).2 = log w ++ l
  | _ => l = []
  end.

(** The workers only touch the world through their jobs.  So what every job keeps holds in the
    end; and a log that jobs only append to has grown by what the jobs that ended have appended,
    interleaved in any way. *)
Class ExecutorLaws (W : Type) `{exec : !Executor W} : Prop :=
  pool_logged : forall (R X : Type) jobs width cancellation (job : nat -> Throwing W R) (I : W -> Prop) (log : W -> list X) w s w',
    I w -> (forall idx w, I w -> I (job idx w).2 /\ exists l, log (job idx w).2 = log w ++ l) ->
    run_jobs R jobs width cancellation job w = (Some s, w') ->
    I w' /\ exists es ls, ran jobs width cancellation job s es /\ Forall2 (logged_by I log job) es ls /\ log w' ≡ₚ log w ++ concat ls.

Lemma pool_ran `{!Executor W, !ExecutorLaws W} {R} jobs width cancellation (job : nat -> Throwing W R) w s :
  (run_jobs R jobs width cancellation job w).1 = Some s -> exists es, ran jobs width cancellation job s es.
Proof.
  intros H. destruct (run_jobs R jobs width cancellation job w) as [o w'] eqn:E. cbn [fst] in H. subst o.
  destruct (pool_logged R unit jobs width cancellation job (fun _ => True) (fun _ => []) w s w' ltac:(done)) as (_ & es & _ & Hran & _);
    [|exact E|by exists es]. intros idx w0 _. split; [done|by exists []].
Qed.

Lemma ran_answers {W R} jobs width cancellation (job : nat -> Throwing W R) s es idx x :
  ran jobs width cancellation job s es -> (idx, x) ∈ jp_results s -> exists w, (job idx w).1 = Finished (Ok x).
Proof.
  intros [Hrun _ Hes _] Hin. destruct (pool_results _ _ _ es s Hrun idx x Hin) as [w Hw].
  rewrite Forall_forall in Hes. exact (Hes _ Hw).
Qed.

Lemma ran_width {W R} jobs width cancellation (job : nat -> Throwing W R) s es :
  ran jobs width cancellation job s es -> (0 < width)%nat.
Proof. intros [Hrun Hj _ _]. eapply joined_width; [by eapply pool_consistent|done]. Qed.

Definition threw {R} (e : JobEvent R) : bool := match e with JThrew _ _ => true | _ => false end.

(** A pool that reports no error has done every job exactly once, unless a job has thrown. *)
Lemma ran_complete_or_threw {W R} jobs width cancellation (job : nat -> Throwing W R) s es :
  ran jobs width cancellation job s es -> jp_error s = None ->
  (jp_results s).*1 ≡ₚ seq 0 jobs \/ exists idx w what, (job idx w).1 = Thrown what.
Proof.
  intros Hran He. pose proof (ran_width _ _ _ _ _ _ Hran) as Hw. destruct Hran as [Hrun Hj Hes Hd].
  destruct (existsb threw es) eqn:E.
  - right. apply existsb_exists in E as (e & Hin%list_elem_of_In & Ht). rewrite Forall_forall in Hes. specialize (Hes e Hin).
    destruct e as [| |w cancelled|w idx r|w idx]; try done. destruct Hes as (w0 & what & H). by exists idx, w0, what.
  - left. eapply pool_complete; [done..| |done]. rewrite Forall_forall in Hes, Hd |- *. intros e Hin. specialize (Hd e Hin).
    assert (threw e = false) as Hq by (apply not_true_is_false; intros H; assert (existsb threw es = true); [apply existsb_exists; exists e; by rewrite <- list_elem_of_In|congruence]).
    destruct e as [| |w [|]|w idx r|w idx]; done.
Qed.

Lemma ran_complete {W R} jobs width cancellation (job : nat -> Throwing W R) s es :
  ran jobs width cancellation job s es -> (forall idx, never_throws (job idx)) ->
  jp_error s = None -> (jp_results s).*1 ≡ₚ seq 0 jobs.
Proof.
  intros Hran Hn He. destruct (ran_complete_or_threw _ _ _ _ _ _ Hran He) as [|(idx & w & what & H)]; [done|]. by destruct (Hn idx w what).
Qed.

(** Without an error the events are the starts and the successes, in the order of the results. *)
Definition success {R} (e : JobEvent R) : option (nat * R) := match e with JDone _ idx (Ok x) => Some (idx, x) | _ => None end.

Lemma pool_successes {R} jobs width cancellation es (s0 s : JobPool R) :
  run_pool jobs width cancellation es s0 = Some s -> jp_results s = jp_results s0 ++ omap success es.
Proof.
  unfold run_pool. revert s0. induction es as [|e es IH]; intros s0; simpl; [intros [= <-]; by rewrite app_nil_r|].
  destruct (pool_step _ _ _ e s0) as [s1|] eqn:E; [|done]. simpl. intros H%IH. rewrite H. clear H.
  destruct e as [| |w cancelled|w idx [x|e]|w idx]; simpl in *; revert E; unfold take_job, see_cancellation;
    repeat crush_match; try done; intros [= <-]; simpl; try done. by rewrite <- app_assoc.
Qed.

Lemma pool_no_failure {R} jobs width cancellation es (s0 s : JobPool R) w idx e :
  run_pool jobs width cancellation es s0 = Some s -> jp_error s = None -> JDone w idx (Err e) ∉ es.
Proof.
  unfold run_pool. revert s0. induction es as [|e0 es IH]; intros s0; simpl; [by intros _ _ ?%not_elem_of_nil|].
  destruct (pool_step _ _ _ e0 s0) as [s1|] eqn:E; [|done]. simpl. intros Hrun Hn [<-|Hin]%elem_of_cons; [|by eapply IH].
  assert (jp_error s1 = None) as H1.
  { clear -Hrun Hn. revert s1 Hrun. induction es as [|e es IH]; intros s1; simpl; [by intros [= <-]|].
    destruct (pool_step _ _ _ e s1) eqn:E; [|done]. simpl. intros H. by eapply pool_error_stays, IH. }
  simpl in E. destruct (jp_workers s0 !! w) as [[|i|]|]; try done. destruct (bool_decide (i = idx)); [|done]. injection E as <-.
  revert H1. unfold end_job, leave_pool. destruct (count_out _ _). intros H1. by apply (fail_pool_error e s0).
Qed.

(** A pool that reports no error: the log has grown by the entries of every job, once each. *)
Lemma pool_logs_all `{!Executor W, !ExecutorLaws W} {R X} jobs width cancellation (job : nat -> Throwing W R)
    (I : W -> Prop) (log : W -> list X) (entries : nat -> list X) w s w' :
  I w -> (forall idx, never_throws (job idx)) ->
  (forall idx w, I w -> I (job idx w).2 /\ exists l, log (job idx w).2 = log w ++ l /\
     forall x, (job idx w).1 = Finished (Ok x) -> l = entries idx) ->
  run_jobs R jobs width cancellation job w = (Some s, w') -> jp_error s = None ->
  I w' /\ log w' ≡ₚ log w ++ flat_map entries (seq 0 jobs).
Proof.
  intros HI Hquiet Hjob Hrun Hn.
  destruct (pool_logged R X jobs width cancellation job I log w s w' HI) as (HI' & es & ls & Hran & Hls & Hlog); [|exact Hrun|].
  { intros idx w0 H0. destruct (Hjob idx w0 H0) as (H1 & l & H2 & _). split; [done|by exists l]. }
  split; [done|]. rewrite Hlog. apply Permutation_app_head.
  pose proof (ran_complete _ _ _ _ _ _ Hran Hquiet Hn) as Hperm. destruct Hran as [Hsteps _ _ _].
  rewrite <- Hperm, (pool_successes _ _ _ _ _ _ Hsteps). cbn [empty_pool jp_results app].
  assert (forall w idx e, JDone w idx (Err e) ∉ es) as Hno by (intros; by eapply pool_no_failure). clear Hsteps Hperm Hlog.
  assert (concat ls = flat_map entries (omap success es).*1) as ->; [|done]. induction Hls as [|e l es ls He _ IH]; [done|].
  cbn [concat omap list_omap]. rewrite IH by (intros w0 idx e0 H; apply (Hno w0 idx e0); by right). clear IH.
  destruct e as [| |v cancelled|v idx [x|e]|v idx]; cbn [logged_by success] in *; try (by subst l).
  - destruct He as (w0 & H0 & Hx & Hl). destruct (Hjob idx w0 H0) as (_ & l' & Hl' & Hent). rewrite Hl in Hl'. apply app_inv_head in Hl' as ->.
    cbn [fmap list_fmap flat_map fst]. by rewrite (Hent x Hx).
  - destruct (Hno v idx e). by left.
  - destruct He as (w0 & what & H0 & Hx & _). by destruct (Hquiet idx w0 what).
Qed.

(** What [upload_directory] returns: the results in the order in which the jobs ended. *)
Definition directory_outcome {R} (s : JobPool R) : Result (list R) :=
  match jp_error s with Some e => Err e | None => Ok ((jp_results s).*2) end.

Lemma directory_outcome_results {W R} jobs width cancellation (job : nat -> Throwing W R) s es outs :
  ran jobs width cancellation job s es -> directory_outcome s = Ok outs ->
  exists order, Forall2 (fun idx out => exists w, (job idx w).1 = Finished (Ok out)) order outs /\
    (order ≡ₚ seq 0 jobs \/ exists idx w what, (job idx w).1 = Thrown what).
Proof.
  unfold directory_outcome. intros Hran. destruct (jp_error s) eqn:He; [done|]. intros [= <-]. exists (jp_results s).*1. split.
  - apply Forall2_fmap, Forall_Forall2_diag, Forall_forall. intros [idx out] Hin. by eapply ran_answers.
  - apply (ran_complete_or_threw _ _ _ _ _ _ Hran He).
Qed.

Lemma directory_outcome_Ok {W R} jobs width cancellation (job : nat -> Throwing W R) s es outs :
  ran jobs width cancellation job s es -> (forall idx, never_throws (job idx)) -> directory_outcome s = Ok outs ->
  exists order, order ≡ₚ seq 0 jobs /\ Forall2 (fun idx out => exists w, (job idx w).1 = Finished (Ok out)) order outs.
Proof.
  intros Hran Hn Ho. destruct (directory_outcome_results _ _ _ _ _ _ _ Hran Ho) as (order & Hall & [Hp|(idx & w & what & H)]); [by exists order|].
  by destruct (Hn idx w what).
Qed.

(** A pool of one worker whose first job ends with an exception: the worker is gone, no other
    job runs, and nothing is recorded. *)
Record first_job_lost {R} (s : JobPool R) : Prop := {
  no_result : jp_results s = [];
  no_error : jp_error s = None;
  no_abort : jp_abort s = false;
  lost_worker : (jp_workers s = [] \/ jp_workers s = [Taking]) /\ jp_next s = 0%nat \/
    (jp_workers s = [Running 0] \/ jp_workers s = [Gone]) /\ jp_next s = 1%nat
}.

Lemma first_job_lost_step {W R} jobs cancellation (job : nat -> Throwing W R) e s s' :
  (0 < jobs)%nat -> (forall w r, (job 0%nat w).1 <> Finished r) -> done_by job e -> detached e ->
  first_job_lost s -> pool_step jobs 1 cancellation e s = Some s' -> first_job_lost s'.
Proof.
  intros Hjobs Hjob Hdone Hdet [Hr He Ha Hw] Hs.
  assert (forall w p, jp_workers s !! w = Some p -> w = 0%nat /\ jp_workers s = [p]) as Hone.
  { intros w p Hp. destruct Hw as [[[E|E] _]|[[E|E] _]]; rewrite E in *; destruct w as [|w]; try done; by injection Hp as ->. }
  destruct e as [| |w cancelled|w idx r|w idx]; simpl in Hs.
  - destruct (jp_parent s); try done. destruct (Nat.ltb_spec (length (jp_workers s)) 1) as [Hlt|]; [|done]. injection Hs as <-.
    destruct Hw as [[[E|E] Hn]|[[E|E] _]]; rewrite E in Hlt |- *; simpl in Hlt; try lia. split; simpl; auto.
  - destruct (jp_parent s); try done. destruct (_ =? _)%nat; [|done]. injection Hs as <-. by split.
  - destruct (jp_workers s !! w) as [[]|] eqn:E; try done. injection Hs as <-. destruct (Hone w _ E) as [-> Hws]. simpl in Hdet. subst cancelled.
    assert (jp_next s = 0%nat) as Hn by (destruct Hw as [[_ ?]|[[E1|E1] _]]; [done|by rewrite E1 in Hws..]).
    unfold take_job. rewrite Ha, Hn. destruct (Nat.leb_spec jobs 0); [lia|]. split; simpl; rewrite ?Hws; auto.
  - exfalso. destruct (jp_workers s !! w) as [[|i|]|] eqn:E; try done. destruct (bool_decide (i = idx)) eqn:Ei; [|done].
    apply bool_decide_eq_true in Ei as ->. destruct (Hone w _ E) as [-> Hws]. destruct Hdone as [w0 Hd].
    destruct Hw as [[[E1|E1] _]|[[E1|E1] _]]; rewrite E1 in Hws; try done. injection Hws as <-. by apply (Hjob w0 r).
  - destruct (jp_workers s !! w) as [[|i|]|] eqn:E; try done. destruct (bool_decide (i = idx)); [|done]. injection Hs as <-.
    destruct (Hone w _ E) as [-> Hws].
    assert (jp_next s = 1%nat) as Hn by (destruct Hw as [[[E1|E1] _]|[_ ?]]; [by rewrite E1 in Hws..|done]).
    unfold leave_pool. destruct (count_out _ _). split; simpl; rewrite ?Hws; auto.
Qed.

Lemma lone_worker_lost {W R} jobs cancellation (job : nat -> Throwing W R) s es :
  (0 < jobs)%nat -> (forall w r, (job 0%nat w).1 <> Finished r) -> ran jobs 1 cancellation job s es -> directory_outcome s = Ok [].
Proof.
  intros Hjobs Hjob [Hrun _ Hdone Hdet].
  assert (first_job_lost s) as [Hr He _ _]; [|unfold directory_outcome; by rewrite He, Hr].
  assert (first_job_lost (R := R) (empty_pool 1)) as H0 by (split; simpl; auto). revert H0 Hrun. generalize (empty_pool (R := R) 1) as s0.
  unfold run_pool. induction es as [|e es IH]; intros s0 H0; simpl; [by intros [= <-]|].
  apply Forall_cons in Hdone as [He Hdone], Hdet as [Hd Hdet]. destruct (pool_step _ _ _ e s0) as [s1|] eqn:E; [|done]. simpl.
  apply IH; [done..|]. by eapply first_job_lost_step.
Qed.

(** ** An executor that runs one job at a time *)

Module Sequential.

Section Run.
  Context {W R : Type} (jobs width : nat) (cancellation : option AppError) (job : nat -> Throwing W R).

Definition leave_all (v : nat) : list (JobEvent R) := map (fun v => JTake v false) (seq v (width - v)).

(** Worker [v] takes the jobs from [i] on; when one ends it, the next worker goes on. *)
Fixpoint events (n v i : nat) : M W (list (JobEvent R)) :=
  match n with
  | O => mreturn (leave_all v)
  | S n => fun w =>
      match job i w with
      | (Finished (Ok x), w) => let '(es, w) := events n v (S i) w in (JTake v false :: JDone v i (Ok x) :: es, w)
      | (Finished (Err e), w) => (JTake v false :: JDone v i (Err e) :: leave_all (S v), w)
      | (Thrown _, w) =>
          let '(es, w) := if (S v <? width)%nat then events n (S v) (S i) w else ([], w) in
          (JTake v false :: JThrew v i :: es, w)
      | (Unfinished, _) => ([JTake v false], w)
      end
  end.

(** The state after all events, when the waiting coroutine was woken. *)
Definition outcome (es : list (JobEvent R)) : option (JobPool R) :=
  match run_pool jobs width cancellation es (empty_pool width) with
  | Some s => match jp_parent s with Joined => Some s | _ => None end
  | None => None
  end.

Definition all_events : M W (list (JobEvent R)) := fun w =>
  let '(es, w) := events jobs 0 0 w in (repeat JSpawn width ++ JPark :: es, w).

Lemma leave_all_lawful {X} (I : W -> Prop) (log : W -> list X) v :
  Forall (fun e => done_by job e /\ detached e) (leave_all v) /\
  exists ls, Forall2 (logged_by I log job) (leave_all v) ls /\ concat ls = [].
Proof.
  unfold leave_all. induction (seq v (width - v)) as [|u us [IH (ls & Hls & Hc)]]; [split; [constructor|by exists []]|].
  split; [by constructor|]. exists ([] :: ls). split; [by constructor|done].
Qed.

Lemma events_lawful {X} (I : W -> Prop) (log : W -> list X) n v i w :
  (forall idx w, I w -> I (job idx w).2 /\ exists l, log (job idx w).2 = log w ++ l) -> I w ->
  I (events n v i w).2 /\ Forall (fun e => done_by job e /\ detached e) (events n v i w).1 /\
  exists ls, Forall2 (logged_by I log job) (events n v i w).1 ls /\ log (events n v i w).2 = log w ++ concat ls.
Proof.
  intros Hjob. revert v i w. induction n as [|n IH]; intros v i w HI; cbn [events].
  { destruct (leave_all_lawful I log v) as (H1 & ls & H2 & Hc). split; [done|]. split; [done|]. exists ls. by rewrite Hc, app_nil_r. }
  destruct (Hjob i w HI) as [HI1 [l Hl]]. destruct (job i w) as [[[x|e]|what|] w1] eqn:E; cbn [snd] in HI1, Hl.
  - destruct (IH v (S i) w1 HI1) as (H1 & H2 & ls & H3 & H4). destruct (events n v (S i) w1) as [es w2]. cbn [fst snd] in *.
    split; [done|]. split; [constructor; [done|constructor; [split; [exists w; by rewrite E|done]|done]]|].
    exists ([] :: l :: ls). split; [constructor; [done|constructor; [exists w; by rewrite E|done]]|]. by rewrite H4, Hl, <- app_assoc.
  - destruct (leave_all_lawful I log (S v)) as (H1 & ls & H2 & Hc). cbn [fst snd]. split; [done|].
    split; [constructor; [done|constructor; [split; [exists w; by rewrite E|done]|done]]|].
    exists ([] :: l :: ls). split; [constructor; [done|constructor; [exists w; by rewrite E|done]]|]. cbn [concat app]. by rewrite Hc, app_nil_r.
  - assert (done_by job (JThrew v i)) as Hthrew by (exists w, what; by rewrite E).
    assert (logged_by I log job (JThrew v i) l) as Hlog by (exists w, what; by rewrite E).
    destruct (Nat.ltb (S v) width).
    + destruct (IH (S v) (S i) w1 HI1) as (H1 & H2 & ls & H3 & H4). destruct (events n (S v) (S i) w1) as [es w2]. cbn [fst snd] in *.
      split; [done|]. split; [by repeat constructor|]. exists ([] :: l :: ls). split; [by repeat constructor|]. by rewrite H4, Hl, <- app_assoc.
    + cbn [fst snd]. split; [done|]. split; [by repeat constructor|]. exists [[]; l]. split; [by repeat constructor|]. cbn. by rewrite app_nil_r.
  - cbn [fst snd]. split; [done|]. split; [by repeat constructor|]. exists [[]]. split; [by repeat constructor|]. cbn. by rewrite app_nil_r.
Qed.

Lemma all_events_lawful {X} (I : W -> Prop) (log : W -> list X) w :
  (forall idx w, I w -> I (job idx w).2 /\ exists l, log (job idx w).2 = log w ++ l) -> I w ->
  I (all_events w).2 /\ Forall (fun e => done_by job e /\ detached e) (all_events w).1 /\
  exists ls, Forall2 (logged_by I log job) (all_events w).1 ls /\ log (all_events w).2 = log w ++ concat ls.
Proof.
  intros Hjob HI. unfold all_events. destruct (events_lawful I log jobs 0 0 w Hjob HI) as (H1 & H2 & ls & H3 & H4).
  destruct (events jobs 0 0 w) as [es w1]. cbn [fst snd] in *. split; [done|].
  induction width as [|k (IH1 & ls' & IH2 & IH3)]; cbn [repeat app].
  - split; [by constructor|]. exists ([] :: ls). split; [by constructor|done].
  - split; [by constructor|]. exists ([] :: ls'). split; [by constructor|done].
Qed.

End Run.

#[export] Instance exec {W} : Executor W := fun R jobs width cancellation job w =>
  let '(es, w) := all_events jobs width job w in (outcome jobs width cancellation es, w).

#[export] Instance laws {W} : ExecutorLaws W.
Proof.
  intros R X jobs width cancellation job I log w s w' HI Hjob. unfold run_jobs, exec.
  destruct (all_events_lawful jobs width job I log w Hjob HI) as (H1 & H2 & ls & H3 & H4).
  destruct (all_events jobs width job w) as [es w1]. unfold outcome. cbn [fst snd] in *. intros [= E ->]. split; [done|].
  destruct (run_pool _ _ _ _ _) as [s'|] eqn:Erun; [|done]. destruct (jp_parent s') eqn:P; [done..|]. injection E as ->.
  exists es, ls. apply Forall_and in H2 as [Hd Hc]. split; [by split|]. split; [done|]. by rewrite H4.
Qed.

End Sequential.
