(* ===== verification/TelegramGateway.v ===== *)
(** * The TDLib gateway and the messenger: [telegram_gateway.cpp], [messenger.cpp]

    TDLib is a parameter: [td_send] issues a request and gives the object that answers it,
    [td_parse_html] parses markup.  The correlation of requests and answers on the strand of
    the gateway is a step relation over its events.  [messenger] implements the interface
    that the use cases see. *)

From S2P Require Import Prelude CoreError Identifiers ConfigData Ports.

Local Open Scope coro_scope.

(** ** The part of [td_api] that the gateway uses *)

(** [formattedText] with its entities, which the gateway only passes on. *)
Record FormattedText := MkText { ft_text : string; ft_entities : list string }.

(** [InputMessageContent]. *)
Inductive TdContent :=
| InputMessageText (text : FormattedText)
| InputMessageRichMessage (html : string)
| InputMessageDocument (path : string) (thumbnail : option string) (caption : FormattedText).

Definition TdKeyboard := list (list (string * string)).

Inductive TdFunction :=
| SendMessage (chat : Z) (markup : option TdKeyboard) (content : TdContent)
| EditMessageText (chat msg : Z) (markup : option TdKeyboard) (content : TdContent)
| EditMessageReplyMarkup (chat msg : Z) (markup : TdKeyboard)
| AnswerCallbackQuery (id : Z) (text : string) (alert : bool)
| DeleteMessages (chat : Z) (ids : list Z) (revoke : bool)
| SetTdlibParameters (database_directory : string) (api_id : Z) (api_hash : string)
| CheckAuthenticationBotToken (token : string)
| SetOptionBool (name : string) (v : bool)
| SetOptionInt (name : string) (v : Z)
| SetNetworkTypeWiFi.

Inductive TdObject :=
| TdMessage (id : Z)
| TdOk
| TdError (code : Z) (message : string)
| TdOther.

#[global] Instance TdObject_eq_dec : EqDecision TdObject.
Proof. solve_decision. Defined.

(** ** Correlation *)

(** [kDefaultRequestTtl], in nanoseconds. *)
Definition kDefaultRequestTtl : Z := 30 * 1000000000.

(** A call of [await_send]: parked on its timer, woken with its object, or returned. *)
Inductive Call :=
| Parked
| Woken (obj : TdObject)
| Returned (obj : TdObject).

(** The state that the strand is to protect: [next_request_id], the creation times in [pending],
    the stop flag, and the calls by the id of their request. *)
Record Gateway := MkGateway {
  next_request_id : Z;
  pending : gmap Z Z;
  stop_requested : bool;
  calls : gmap Z Call
}.

Definition fresh_gateway : Gateway := MkGateway 1000 ∅ false ∅.

Inductive GatewayEvent :=
| Issue (t : Z)
| Response (id : Z) (obj : TdObject)
| Sweep (t : Z)
| RequestStop
| Drain
| Resume (id : Z).

(** [state->result = obj; state->done = true; state->timer.cancel()]; the call parks in the
    same step that registers it, so that it is there to be woken. *)
Definition wake (id : Z) (obj : TdObject) (s : Gateway) : Gateway :=
  MkGateway (next_request_id s) (pending s) (stop_requested s)
    match calls s !! id with Some Parked => <[id := Woken obj]> (calls s) | _ => calls s end.

Definition forget (id : Z) (s : Gateway) : Gateway :=
  MkGateway (next_request_id s) (delete id (pending s)) (stop_requested s) (calls s).

(** [send_request]; [emplace] does not replace an entry. *)
Definition send_request (t : Z) (s : Gateway) : Gateway :=
  let id := next_request_id s in
  MkGateway ((id + 1) mod 2 ^ 64) (match pending s !! id with Some _ => pending s | None => <[id := t]> (pending s) end)
    (stop_requested s) (<[id := Parked]> (calls s)).

(** [handle_event] on an answer. *)
Definition handle_response (id : Z) (obj : TdObject) (s : Gateway) : Gateway :=
  match pending s !! id with
  | None => s
  | Some _ => wake id obj (forget id s)
  end.

Definition timed_out_object : TdObject := TdError 408 "cmlb: request timed out client-side".
Definition stopped_object : TdObject := TdError 499 "cmlb: client stopped".

(** [evict_stale]. *)
Definition stale (t : Z) (s : Gateway) : list Z := (filter (fun p => kDefaultRequestTtl <= t - p.2) (map_to_list (pending s))).*1.
Definition evict_stale (t : Z) (s : Gateway) : Gateway :=
  foldl (fun s id => wake id timed_out_object (forget id s)) s (stale t s).

(** The end of [run]: every pending handler gets the error, then the map is cleared. *)
Definition drain (s : Gateway) : Gateway :=
  let s := foldl (fun s id => wake id stopped_object s) s (map_to_list (pending s)).*1 in
  MkGateway (next_request_id s) ∅ (stop_requested s) (calls s).

Definition gateway_step (e : GatewayEvent) (s : Gateway) : option Gateway :=
  match e with
  | Issue t => Some (send_request t s)
  | Response id obj => Some (handle_response id obj s)
  | Sweep t => Some (evict_stale t s)
  | RequestStop => Some (MkGateway (next_request_id s) (pending s) true (calls s))
  | Drain => if stop_requested s then Some (drain s) else None
  | Resume id => match calls s !! id with
                 | Some (Woken obj) => Some (MkGateway (next_request_id s) (pending s) (stop_requested s) (<[id := Returned obj]> (calls s)))
                 | _ => None
                 end
  end.

Fixpoint gateway_run (es : list GatewayEvent) (s : Gateway) : option Gateway :=
  match es with [] => Some s | e :: es => s' ← gateway_step e s; gateway_run es s' end.

(** ** Invariant *)

(** A call is parked exactly while its request is pending, and ids in use are below the next. *)
Record gateway_ok (s : Gateway) : Prop := {
  parked_pending id : calls s !! id = Some Parked <-> is_Some (pending s !! id);
  ids_used id : is_Some (calls s !! id) -> 1000 <= id < next_request_id s
}.

(** What a call may be given. *)
Definition answered_by (es : list GatewayEvent) (id : Z) (obj : TdObject) : Prop :=
  Response id obj ∈ es \/ (obj = timed_out_object /\ exists t, Sweep t ∈ es) \/ (obj = stopped_object /\ Drain ∈ es).

Lemma calls_wake id obj s k :
  calls (wake id obj s) !! k = if decide (k = id) then (match calls s !! id with Some Parked => Some (Woken obj) | c => c end) else calls s !! k.
Proof.
  unfold wake. cbn [calls]. destruct (decide (k = id)) as [->|Hne].
  - destruct (calls s !! id) as [[]|] eqn:E; rewrite ?E; [by rewrite lookup_insert_eq|done..].
  - destruct (calls s !! id) as [[]|]; [by rewrite lookup_insert_ne|done..].
Qed.

Lemma ok_answer id obj s : gateway_ok s -> gateway_ok (wake id obj (forget id s)).
Proof.
  intros [Hp Hi]. split.
  - intros k. rewrite calls_wake. cbn [wake forget pending calls]. destruct (decide (k = id)) as [->|Hne].
    + rewrite lookup_delete_eq. split; [|by intros [? ?]]. specialize (Hp id). destruct (calls s !! id) as [[]|]; naive_solver.
    + rewrite lookup_delete_ne by done. apply Hp.
  - intros k. rewrite calls_wake. cbn [wake forget next_request_id calls]. destruct (decide (k = id)) as [->|Hne]; [|apply Hi].
    intros H. apply Hi. destruct (calls s !! id); [by eexists|by destruct H].
Qed.

Definition answer_all (obj : TdObject) (ids : list Z) (s : Gateway) : Gateway :=
  foldl (fun s id => wake id obj (forget id s)) s ids.

Lemma ok_answer_all obj ids s : gateway_ok s -> gateway_ok (answer_all obj ids s).
Proof. unfold answer_all. revert s. induction ids as [|id ids IH]; intros s Hs; [done|]. apply IH. by apply ok_answer. Qed.

Lemma pending_answer_all obj ids s k :
  pending (answer_all obj ids s) !! k = if decide (k ∈ ids) then None else pending s !! k.
Proof.
  unfold answer_all. revert s. induction ids as [|id ids IH]; intros s; [by rewrite decide_False by apply not_elem_of_nil|]. cbn [foldl]. rewrite IH.
  cbn [wake forget pending]. destruct (decide (k ∈ ids)), (decide (k ∈ id :: ids)); try set_solver.
  - assert (k = id) as -> by set_solver. apply lookup_delete_eq.
  - apply lookup_delete_ne. set_solver.
Qed.

(** Forgetting the requests one by one or all at the end makes no difference to the calls. *)
Lemma wake_all_calls obj ids s0 s :
  calls s0 = calls s -> calls (foldl (fun s id => wake id obj s) s0 ids) = calls (answer_all obj ids s).
Proof.
  unfold answer_all. revert s0 s. induction ids as [|id ids IH]; intros s0 s Hs; [done|]. cbn [foldl]. apply IH.
  unfold wake. cbn [calls forget]. by rewrite Hs.
Qed.

Lemma next_wake_all obj ids s : next_request_id (foldl (fun s id => wake id obj s) s ids) = next_request_id s.
Proof. revert s. induction ids as [|id ids IH]; intros s; [done|]. cbn [foldl]. by rewrite IH. Qed.

Lemma next_answer_all obj ids s : next_request_id (answer_all obj ids s) = next_request_id s.
Proof. unfold answer_all. revert s. induction ids as [|id ids IH]; intros s; [done|]. cbn [foldl]. by rewrite IH. Qed.

Lemma keys_pending s id : id ∈ (map_to_list (pending s)).*1 <-> is_Some (pending s !! id).
Proof.
  rewrite list_elem_of_fmap. split.
  - intros ([k t] & -> & H%elem_of_map_to_list). by exists t.
  - intros [t H]. exists (id, t). split; [done|]. by apply elem_of_map_to_list.
Qed.

Lemma drain_spec s :
  gateway_ok s -> gateway_ok (drain s) /\ pending (drain s) = ∅ /\
  calls (drain s) = calls (answer_all stopped_object (map_to_list (pending s)).*1 s).
Proof.
  intros Hs. assert (calls (drain s) = calls (answer_all stopped_object (map_to_list (pending s)).*1 s)) as Hc by (by apply wake_all_calls).
  split_and!; [|done|done]. pose proof (ok_answer_all stopped_object (map_to_list (pending s)).*1 s Hs) as [Hp Hi]. split.
  - intros id. rewrite Hc, Hp, pending_answer_all. cbn [drain pending]. rewrite lookup_empty. destruct (decide _) as [|Hn]; [done|].
    rewrite keys_pending in Hn. split; [done|by intros [? ?]].
  - intros id. rewrite Hc. intros H. specialize (Hi id H). rewrite next_answer_all in Hi. cbn [drain next_request_id]. by rewrite next_wake_all.
Qed.

Lemma ok_step e s s' : gateway_ok s -> 1000 <= next_request_id s < 2 ^ 64 - 1 -> gateway_step e s = Some s' ->
  gateway_ok s' /\ next_request_id s <= next_request_id s' <= next_request_id s + 1.
Proof.
  intros Hs Hn. pose proof Hs as [Hp Hi]. destruct e as [t|id obj|t| | |id]; cbn [gateway_step].
  - intros [= <-]. unfold send_request. rewrite Z.mod_small by lia. split; [|cbn; lia].
    assert (pending s !! next_request_id s = None) as Hnone.
    { apply eq_None_not_Some. rewrite <- Hp. intros E. assert (is_Some (calls s !! next_request_id s)) as H%Hi by (by eexists). lia. }
    rewrite Hnone. split; intros id; cbn [calls pending next_request_id]; destruct (decide (id = next_request_id s)) as [->|Hne].
    + rewrite !lookup_insert_eq. by split.
    + rewrite !lookup_insert_ne by done. apply Hp.
    + intros _. lia.
    + rewrite lookup_insert_ne by done. intros H%Hi. lia.
  - intros [= <-]. unfold handle_response. destruct (pending s !! id); [split; [by apply ok_answer|cbn; lia]|split; [done|lia]].
  - intros [= <-]. split; [by apply ok_answer_all|]. unfold evict_stale. fold (answer_all timed_out_object (stale t s) s). rewrite next_answer_all. lia.
  - intros [= <-]. split; [by split|cbn; lia].
  - destruct (stop_requested s); [|done]. intros [= <-]. split; [by apply drain_spec|]. cbn [drain next_request_id]. rewrite next_wake_all. lia.
  - destruct (calls s !! id) as [[|obj|obj]|] eqn:E; try done. intros [= <-]. split; [|cbn; lia].
    split; intros k; cbn [calls pending next_request_id]; destruct (decide (k = id)) as [->|Hne].
    + rewrite lookup_insert_eq. rewrite <- Hp, E. by split.
    + rewrite lookup_insert_ne by done. apply Hp.
    + intros _. apply Hi. by eexists.
    + rewrite lookup_insert_ne by done. apply Hi.
Qed.

(** ** How a call moves *)

Definition woken_if (b : bool) (obj : TdObject) (c : option Call) : option Call :=
  match c with Some Parked => if b then Some (Woken obj) else c | c => c end.

Lemma calls_answer_all obj ids s k : calls (answer_all obj ids s) !! k = woken_if (bool_decide (k ∈ ids)) obj (calls s !! k).
Proof.
  unfold answer_all. revert s. induction ids as [|id ids IH]; intros s.
  - cbn [foldl]. rewrite bool_decide_false by apply not_elem_of_nil. by destruct (calls s !! k) as [[]|].
  - cbn [foldl]. rewrite IH, calls_wake. cbn [forget calls].
    destruct (decide (k = id)) as [->|Hne].
    + rewrite (bool_decide_true (id ∈ id :: ids)) by set_solver. by destruct (calls s !! id) as [[]|].
    + rewrite (bool_decide_ext (k ∈ id :: ids) (k ∈ ids)) by set_solver. done.
Qed.

(** The step of one call: nothing, registered, woken by an answer, or returning its object. *)
Inductive moved (e : GatewayEvent) (id : Z) : option Call -> option Call -> Prop :=
| unmoved c : moved e id c c
| registered : moved e id None (Some Parked)
| woken obj : answered_by [e] id obj -> moved e id (Some Parked) (Some (Woken obj))
| resumed obj : moved e id (Some (Woken obj)) (Some (Returned obj)).

Lemma moved_woken_if e id b obj c : (b = true -> answered_by [e] id obj) -> moved e id c (woken_if b obj c).
Proof. intros H. destruct c as [[| |]|]; cbn; try constructor. destruct b; constructor. auto. Qed.

Lemma call_moves e s s' id :
  gateway_ok s -> gateway_step e s = Some s' -> moved e id (calls s !! id) (calls s' !! id).
Proof.
  intros [Hp Hi]. destruct e as [t|k obj|t| | |k]; cbn [gateway_step].
  - intros [= <-]. unfold send_request. cbn [calls]. destruct (decide (id = next_request_id s)) as [->|Hne].
    + rewrite lookup_insert_eq. destruct (calls s !! next_request_id s) eqn:E; [|constructor].
      assert (is_Some (calls s !! next_request_id s)) as H%Hi by (by eexists). lia.
    + rewrite lookup_insert_ne by done. constructor.
  - intros [= <-]. unfold handle_response. destruct (pending s !! k); [|constructor]. rewrite calls_wake. cbn [forget calls].
    destruct (decide (id = k)) as [->|Hne]; [|constructor].
    destruct (calls s !! k) as [[| |]|]; constructor. left. by left.
  - intros [= <-]. fold (answer_all timed_out_object (stale t s) s). unfold evict_stale. fold (answer_all timed_out_object (stale t s) s).
    rewrite calls_answer_all. apply moved_woken_if. intros _. right. left. split; [done|]. exists t. by left.
  - intros [= <-]. constructor.
  - destruct (stop_requested s); [|done]. intros [= <-]. assert (calls (drain s) = calls (answer_all stopped_object (map_to_list (pending s)).*1 s)) as -> by (by apply wake_all_calls).
    rewrite calls_answer_all. apply moved_woken_if. intros _. right. right. split; [done|]. by left.
  - destruct (calls s !! k) as [[|obj|obj]|] eqn:E; try done. intros [= <-]. cbn [calls]. destruct (decide (id = k)) as [->|Hne].
    + rewrite lookup_insert_eq, E. constructor.
    + rewrite lookup_insert_ne by done. constructor.
Qed.

(** What a call has, if it has it already. *)
Definition given (c : option Call) : option TdObject := match c with Some (Woken obj) | Some (Returned obj) => Some obj | _ => None end.

Lemma answered_by_app es1 es2 id obj : answered_by es1 id obj \/ answered_by es2 id obj -> answered_by (es1 ++ es2) id obj.
Proof. unfold answered_by. set_solver. Qed.

Lemma run_ok es s s' :
  gateway_ok s -> 1000 <= next_request_id s -> next_request_id s + Z.of_nat (length es) < 2 ^ 64 -> gateway_run es s = Some s' ->
  gateway_ok s' /\ (forall id obj, given (calls s !! id) = Some obj -> given (calls s' !! id) = Some obj) /\
  (forall id obj, given (calls s' !! id) = Some obj -> given (calls s !! id) = Some obj \/ answered_by es id obj).
Proof.
  revert s. induction es as [|e es IH]; intros s Hs H0 Hn; cbn [gateway_run]; [intros [= <-]; auto|].
  destruct (gateway_step e s) as [s1|] eqn:E; [|done]. cbn. intros Hrun. cbn [length] in Hn.
  destruct (ok_step e s s1 Hs ltac:(lia) E) as [Hs1 Hn1]. destruct (IH s1 Hs1 ltac:(lia) ltac:(lia) Hrun) as (Hs' & Hkeep & Hgive).
  assert (forall id, moved e id (calls s !! id) (calls s1 !! id)) as Hm by (intros id; by apply call_moves).
  split_and!; [done| |].
  - intros id obj Hg. apply Hkeep. specialize (Hm id). by destruct Hm.
  - intros id obj Hg. destruct (Hgive id obj Hg) as [Hg1|Ha]; [|right; apply (answered_by_app [e]); auto].
    specialize (Hm id). destruct Hm as [c| |o Ho|o]; [by left|done| |by left]. right. apply (answered_by_app [e]). left. by injection Hg1 as <-.
Qed.

Lemma next_run es s s' :
  gateway_ok s -> 1000 <= next_request_id s -> next_request_id s + Z.of_nat (length es) < 2 ^ 64 -> gateway_run es s = Some s' ->
  next_request_id s <= next_request_id s' <= next_request_id s + Z.of_nat (length es).
Proof.
  revert s. induction es as [|e es IH]; intros s Hs H0 Hn; cbn [gateway_run]; [intros [= <-]; cbn; lia|].
  destruct (gateway_step e s) as [s1|] eqn:E; [|done]. cbn [length] in *. intros Hrun.
  destruct (ok_step e s s1 Hs ltac:(lia) E) as [Hs1 Hn1]. specialize (IH s1 Hs1 ltac:(lia) ltac:(lia) Hrun). lia.
Qed.

(** C34. Under every interleaving of requests, answers, sweeps and the end of the gateway: a call
    waits exactly while its request is pending; what it is given is an answer of TDLib to its
    own request, the timeout of a sweep or the error of the shutdown; it is given once and for
    all, whatever follows; a sweep leaves no call that is 30 seconds old, and the shutdown
    leaves none at all. *)
Theorem gateway_answers_once es s :
  Z.of_nat (length es) < 2 ^ 64 - 1000 -> gateway_run es fresh_gateway = Some s ->
  (forall id, calls s !! id = Some Parked <-> is_Some (pending s !! id)) /\
  (forall id obj, given (calls s !! id) = Some obj -> answered_by es id obj) /\
  (forall es2 s2 id obj, Z.of_nat (length (es ++ es2)) < 2 ^ 64 - 1000 -> gateway_run es2 s = Some s2 ->
     given (calls s !! id) = Some obj -> given (calls s2 !! id) = Some obj) /\
  (forall t id created, calls (evict_stale t s) !! id = Some Parked -> pending s !! id = Some created -> t - created < kDefaultRequestTtl) /\
  (forall id, calls (drain s) !! id <> Some Parked).
Proof.
  intros Hn Hrun. assert (gateway_ok fresh_gateway) as H0 by (split; intros id; cbn; rewrite !lookup_empty; by split || intros [? ?]).
  assert (1000 <= next_request_id s <= 1000 + Z.of_nat (length es)) as Hnext by (by apply (next_run es fresh_gateway); [done|done|cbn; lia|]).
  destruct (run_ok es _ s H0 ltac:(done) ltac:(cbn; lia) Hrun) as (Hs & _ & Hgive). split_and!.
  - apply Hs.
  - intros id obj Hg. destruct (Hgive id obj Hg) as [Hg0|]; [|done]. cbn in Hg0. by rewrite lookup_empty in Hg0.
  - intros es2 s2 id obj Hn2 Hrun2 Hg. rewrite length_app in Hn2. by apply (run_ok es2 s s2 Hs ltac:(lia) ltac:(lia) Hrun2).
  - intros t id created Hc Hp. unfold evict_stale in Hc. fold (answer_all timed_out_object (stale t s) s) in Hc. rewrite calls_answer_all in Hc.
    destruct (Z.lt_ge_cases (t - created) kDefaultRequestTtl) as [|Hge]; [done|]. exfalso. rewrite bool_decide_true in Hc.
    + by destruct (calls s !! id) as [[]|].
    + unfold stale. apply list_elem_of_fmap. exists (id, created). split; [done|]. apply list_elem_of_filter. split; [cbn; lia|]. by apply elem_of_map_to_list.
  - intros id H. destruct (drain_spec s Hs) as ([Hp _] & Hnil & _). apply Hp in H as [? H]. by rewrite Hnil, lookup_empty in H.
Qed.

(** ** Requests

    [await_send], as its callers see it, and the synchronous [ClientManager::execute] of
    [parseTextEntities]; the null object is [None]. *)
Class Tdlib (W : Type) := {
  td_send : TdFunction -> M W (option TdObject);
  td_parse_html : string -> M W (option FormattedText)
}.

Definition td_error_to_app_error (code : Z) (message operation : string) : AppError :=
  MkError TelegramApi ("telegram " +:+ operation +:+ ": code=" +:+ fmt_int code +:+ " message=" +:+ message).

Definition response_to_message_id (obj : option TdObject) (operation : string) : Result MessageId :=
  match obj with
  | None => error TelegramApi ("telegram " +:+ operation +:+ ": null response")
  | Some (TdError code message) => Err (td_error_to_app_error code message operation)
  | Some (TdMessage id) => Ok (MkId id)
  | Some _ => error TelegramApi ("telegram " +:+ operation +:+ ": unexpected response type")
  end.

Definition response_to_void (obj : option TdObject) (operation : string) : Result unit :=
  match obj with
  | None => error TelegramApi ("telegram " +:+ operation +:+ ": null response")
  | Some (TdError code message) => Err (td_error_to_app_error code message operation)
  | Some _ => Ok ()
  end.

Section Requests.
  Context {W : Type} `{tdlib : !Tdlib W} (has_rich_message : bool) (config : TelegramConfig).

(** [parse_html]: markup that TDLib refuses goes out as plain text. *)
Definition parse_html (html : string) : M W FormattedText :=
  co_await parsed <- td_parse_html html;
  co_return (default (MkText html []) parsed).

Definition make_html_message_content (html : string) : M W TdContent :=
  if has_rich_message then co_return (InputMessageRichMessage html)
  else co_await formatted <- parse_html html; co_return (InputMessageText formatted).

Definition send_for_id (fn : TdFunction) (operation : string) : M W (Result MessageId) :=
  co_await obj <- td_send fn; co_return (response_to_message_id obj operation).
Definition send_for_void (fn : TdFunction) (operation : string) : M W (Result unit) :=
  co_await obj <- td_send fn; co_return (response_to_void obj operation).

Definition send_text_message (chat : ChatId) (text : string) : M W (Result MessageId) :=
  send_for_id (SendMessage (value chat) None (InputMessageText (MkText text []))) "send_text_message".

Definition send_formatted_message (chat : ChatId) (html : string) : M W (Result MessageId) :=
  co_await content <- make_html_message_content html;
  send_for_id (SendMessage (value chat) None content) "send_formatted_message".

Definition edit_formatted_message (chat : ChatId) (msg : MessageId) (html : string) : M W (Result unit) :=
  co_await content <- make_html_message_content html;
  send_for_void (EditMessageText (value chat) (value msg) None content) "edit_formatted_message".

Definition edit_formatted_message_with_inline_keyboard (chat : ChatId) (msg : MessageId) (html : string) (rows : TdKeyboard) : M W (Result unit) :=
  co_await content <- make_html_message_content html;
  send_for_void (EditMessageText (value chat) (value msg) (Some rows) content) "edit_formatted_message_with_inline_keyboard".

Definition send_message_with_inline_keyboard (chat : ChatId) (html : string) (rows : TdKeyboard) : M W (Result MessageId) :=
  co_await content <- make_html_message_content html;
  send_for_id (SendMessage (value chat) (Some rows) content) "send_message_with_inline_keyboard".

Definition edit_message_inline_keyboard (chat : ChatId) (msg : MessageId) (rows : TdKeyboard) : M W (Result unit) :=
  send_for_void (EditMessageReplyMarkup (value chat) (value msg) rows) "edit_message_inline_keyboard".

Definition answer_callback_query (id : CallbackQueryId) (text : string) (show_alert : bool) : M W (Result unit) :=
  send_for_void (AnswerCallbackQuery (value id) text show_alert) "answer_callback_query".

Definition gateway_delete_message (chat : ChatId) (msg : MessageId) : M W (Result unit) :=
  send_for_void (DeleteMessages (value chat) [value msg] true) "delete_message".

Definition set_tdlib_parameters : M W (Result unit) :=
  send_for_void (SetTdlibParameters (tg_database_directory config) (tg_api_id config) (tg_api_hash config)) "set_tdlib_parameters".

Definition check_bot_token : M W (Result unit) :=
  send_for_void (CheckAuthenticationBotToken (tg_bot_token config)) "check_bot_token".

Definition gateway_send_file (chat : ChatId) (file caption : string) (thumbnail : option string) : M W (Result MessageId) :=
  co_await caption_ft <- parse_html caption;
  send_for_id (SendMessage (value chat) None (InputMessageDocument file thumbnail caption_ft)) "send_file".

(** [apply_runtime_options]: every option is tried, failures are only logged. *)
Definition runtime_options : list (TdFunction * string) :=
  [(SetOptionBool "prefer_ipv6" (tg_prefer_ipv6 config), "setOption(bool)");
   (SetOptionBool "ignore_inline_thumbnails" true, "setOption(bool)");
   (SetOptionBool "ignore_background_updates" true, "setOption(bool)");
   (SetOptionBool "use_storage_optimizer" false, "setOption(bool)");
   (SetOptionBool "online" true, "setOption(bool)");
   (SetOptionBool "disable_persistent_network_statistics" false, "setOption(bool)");
   (SetOptionBool "disable_time_adjustment_protection" true, "setOption(bool)");
   (SetOptionInt "upload_chunk_size_kb" (tg_upload_chunk_size_kb config), "setOption(int)");
   (SetOptionInt "download_chunk_size_kb" (tg_download_chunk_size_kb config), "setOption(int)");
   (SetOptionInt "connection_retry_count_max" (tg_connection_retry_count_max config), "setOption(int)");
   (SetNetworkTypeWiFi, "setNetworkType")].

Definition apply_runtime_options : M W (Result unit) :=
  mfold (fun _ o => co_await r <- send_for_void o.1 o.2; co_return (Ok ())) runtime_options (Ok ()).

(** ** [Messenger] *)

(** [to_raw]. *)
Definition to_raw (kb : InlineKeyboard) : TdKeyboard := map (map (fun b => (label b, callback_data b))) kb.

Definition messenger : MessengerInterface W := {|
  send_html := send_formatted_message;
  edit_html := edit_formatted_message;
  edit_html_with_keyboard chat msg html kb := edit_formatted_message_with_inline_keyboard chat msg html (to_raw kb);
  send_html_with_keyboard chat html kb := send_message_with_inline_keyboard chat html (to_raw kb);
  edit_keyboard chat msg kb := edit_message_inline_keyboard chat msg (to_raw kb);
  answer_callback := answer_callback_query;
  send_file := gateway_send_file;
  delete_message := gateway_delete_message
|}.

(** [refresh_close_row]. *)
Definition refresh_close_row (refresh_data : string) : InlineKeyboard :=
  [[MkButton "Refresh" refresh_data; MkButton "Close" "close"]].

End Requests.

(** ** Updates *)

Inductive AuthState := WaitTdlibParameters | WaitPhoneOrBotToken | Ready | LoggingOut | Closing | Closed | OtherAuthState.

(** [authorizationState...]. *)
Inductive TdAuthState :=
| TdWaitTdlibParameters | TdWaitPhoneNumber | TdReady | TdLoggingOut | TdClosing | TdClosed | TdOtherState.

Definition auth_state_of (s : TdAuthState) : AuthState :=
  match s with
  | TdWaitTdlibParameters => WaitTdlibParameters
  | TdWaitPhoneNumber => WaitPhoneOrBotToken
  | TdReady => Ready
  | TdLoggingOut => LoggingOut
  | TdClosing => Closing
  | TdClosed => Closed
  | TdOtherState => OtherAuthState
  end.

Inductive TdSender := SenderUser (id : Z) | SenderChat (id : Z).

(** The updates that are looked at; absent members are [None]. *)
Inductive TdUpdate :=
| UpdateNewMessage (chat msg : Z) (sender : option TdSender) (text : option (option string))
| UpdateNewCallbackQuery (chat sender msg id : Z) (payload : option string)
| UpdateFile (id size : Z) (downloaded : option (Z * bool * bool)) (uploaded : option (Z * bool * bool))
| UpdateAuthorizationState (s : option TdAuthState)
| OtherUpdate.

(** [struct UpdateHandlers]; the sizes of a file update with its four flags. *)
Record UpdateHandlers (W : Type) := MkHandlers {
  on_new_message : option (ChatId -> UserId -> MessageId -> string -> M W unit);
  on_callback_query : option (ChatId -> UserId -> MessageId -> CallbackQueryId -> string -> M W unit);
  on_file_update : option (FileId -> Z -> Z -> Z -> bool -> bool -> bool -> bool -> M W unit)
}.
Arguments on_new_message {W}.
Arguments on_callback_query {W}.
Arguments on_file_update {W}.
Arguments MkHandlers {W}.

(** What the strand keeps for updates. *)
Record Updates (W : Type) := MkUpdates {
  handlers : UpdateHandlers W;
  auth_handler : option (AuthState -> M W unit);
  last_auth_state : option AuthState
}.
Arguments handlers {W}.
Arguments auth_handler {W}.
Arguments last_auth_state {W}.
Arguments MkUpdates {W}.

Section Updates.
  Context {W : Type}.
  Notation U := (Updates W * W)%type.

Definition call_auth (h : option (AuthState -> M W unit)) (s : AuthState) : M U unit :=
  match h with Some h => lift (h s) | None => co_return () end.

(** [dispatch_auth_state]. *)
Definition dispatch_auth_state (s : option TdAuthState) : M U unit :=
  match s with
  | None => co_return ()
  | Some s =>
      co_await u <- get_state;
      co_do put_state (MkUpdates (handlers u) (auth_handler u) (Some (auth_state_of s)));
      call_auth (auth_handler u) (auth_state_of s)
  end.

(** [dispatch_update]: a message that is not text is dropped; a sender that is no user is 0. *)
Definition dispatch_update (upd : TdUpdate) : M U unit :=
  co_await u <- get_state;
  match upd with
  | UpdateNewMessage chat msg sender text =>
      match on_new_message (handlers u), text with
      | Some h, Some text =>
          lift (h (MkId chat) (MkId (match sender with Some (SenderUser id) => id | _ => 0 end)) (MkId msg) (default "" text))
      | _, _ => co_return ()
      end
  | UpdateNewCallbackQuery chat sender msg id payload =>
      match on_callback_query (handlers u) with
      | Some h => lift (h (MkId chat) (MkId sender) (MkId msg) (MkId id) (default "" payload))
      | None => co_return ()
      end
  | UpdateFile id size downloaded uploaded =>
      match on_file_update (handlers u) with
      | Some h =>
          let '(dl, dl_active, dl_done) := default (0, false, false) downloaded in
          let '(ul, ul_active, ul_done) := default (0, false, false) uploaded in
          lift (h (MkId id) size dl ul ul_active dl_active ul_done dl_done)
      | None => co_return ()
      end
  | UpdateAuthorizationState s => dispatch_auth_state s
  | OtherUpdate => co_return ()
  end.

Definition set_update_handlers (h : UpdateHandlers W) : M U unit :=
  co_await u <- get_state; put_state (MkUpdates h (auth_handler u) (last_auth_state u)).

(** A new listener is told the last state. *)
Definition set_auth_state_handler (h : option (AuthState -> M W unit)) : M U unit :=
  co_await u <- get_state;
  co_do put_state (MkUpdates (handlers u) h (last_auth_state u));
  match h, last_auth_state u with
  | Some h, Some s => lift (h s)
  | _, _ => co_return ()
  end.

(** ** [UpdateRouter] *)

(** The registered handlers, which may end with an exception. *)
Record Router := MkRouter {
  new_message_handler : option (ChatId -> UserId -> MessageId -> string -> M W (option string));
  callback_query_handler : option (ChatId -> UserId -> MessageId -> CallbackQueryId -> string -> M W (option string));
  file_update_handler : option (FileId -> Z -> Z -> Z -> bool -> bool -> bool -> bool -> M W unit)
}.

(** [co_spawn] with a completion handler that only logs the exception. *)
Definition spawned (m : M W (option string)) : M W unit := co_await eptr <- m; co_return ().

(** [rewire_gateway]. *)
Definition rewire_gateway (r : Router) : M U unit :=
  set_update_handlers (MkHandlers
    ((fun h chat sender msg text => spawned (h chat sender msg text)) <$> new_message_handler r)
    ((fun h chat sender msg query data => spawned (h chat sender msg query data)) <$> callback_query_handler r)
    (file_update_handler r)).

(** The registrations rewire the gateway each time. *)
Definition on_new_message_registered h (r : Router) : M U Router :=
  let r := MkRouter (Some h) (callback_query_handler r) (file_update_handler r) in co_do rewire_gateway r; co_return r.
Definition on_callback_query_registered h (r : Router) : M U Router :=
  let r := MkRouter (new_message_handler r) (Some h) (file_update_handler r) in co_do rewire_gateway r; co_return r.
Definition on_file_update_registered h (r : Router) : M U Router :=
  let r := MkRouter (new_message_handler r) (callback_query_handler r) (Some h) in co_do rewire_gateway r; co_return r.

End Updates.

(** ** What the messenger sends *)

Section Sends.
  Context {W : Type} `{tdlib : !Tdlib W} (has_rich_message : bool) (sent : W -> list TdFunction).

(** [sent] is the log of the requests; parsing is local. *)
Class TdLog : Prop := {
  send_logged fn w : sent (td_send fn w).2 = sent w ++ [fn];
  parse_local html w : sent (td_parse_html html w).2 = sent w
}.
Context `{logged : !TdLog}.

(** The content made of markup: the markup itself, its parse, or its text when it has none. *)
Definition shows (html : string) (content : TdContent) : Prop :=
  content = InputMessageRichMessage html \/
  exists w, content = InputMessageText (default (MkText html []) (td_parse_html html w).1).

Lemma content_shows html w :
  shows html (make_html_message_content has_rich_message html w).1 /\ sent (make_html_message_content has_rich_message html w).2 = sent w.
Proof.
  unfold make_html_message_content, shows. destruct has_rich_message; [by split; [left|]|]. unfold parse_html. rewrite !mbind_proj. cbn [mreturn fst snd].
  split; [right; by exists w|apply parse_local].
Qed.

(** A call that sends one request and interprets the answer. *)
Definition one_request {A} (m : M W (Result A)) (fn_ok : TdFunction -> Prop) (result : option TdObject -> Result A) (w : W) : Prop :=
  exists fn w1, fn_ok fn /\ sent (m w).2 = sent w ++ [fn] /\ sent w1 = sent w /\ (m w).1 = result (td_send fn w1).1.

Lemma one_request_id fn operation w : one_request (send_for_id fn operation) (eq fn) (fun o => response_to_message_id o operation) w.
Proof. exists fn, w. unfold send_for_id. rewrite !mbind_proj. cbn [mreturn fst snd]. by rewrite send_logged. Qed.

Lemma one_request_void fn operation w : one_request (send_for_void fn operation) (eq fn) (fun o => response_to_void o operation) w.
Proof. exists fn, w. unfold send_for_void. rewrite !mbind_proj. cbn [mreturn fst snd]. by rewrite send_logged. Qed.

Lemma one_request_content {A} html (k : TdContent -> M W (Result A)) (fn : TdContent -> TdFunction) result w :
  (forall content w, one_request (k content) (eq (fn content)) result w) ->
  one_request (mbind (make_html_message_content has_rich_message html) k) (fun f => exists content, f = fn content /\ shows html content) result w.
Proof.
  intros Hk. destruct (content_shows html w) as [Hs Hw]. unfold one_request. rewrite mbind_proj.
  destruct (Hk (make_html_message_content has_rich_message html w).1 (make_html_message_content has_rich_message html w).2) as (f & w1 & <- & H1 & H2 & H3).
  exists (fn (make_html_message_content has_rich_message html w).1), w1. rewrite H1, H2, Hw. split_and!; [by eexists|done..].
Qed.

(** Every call of the messenger sends exactly one request: of its own kind, to the chat and
    message of the call, with the keyboard row by row and the markup of the call; its result is
    the reading of the answer to that request. *)
Lemma messenger_requests (chat : ChatId) (msg : MessageId) (query : CallbackQueryId) html text alert kb file thumbnail w :
  let m := messenger has_rich_message in
  one_request (send_html chat html) (fun f => exists c, f = SendMessage (value chat) None c /\ shows html c)
    (fun o => response_to_message_id o "send_formatted_message") w /\
  one_request (edit_html chat msg html) (fun f => exists c, f = EditMessageText (value chat) (value msg) None c /\ shows html c)
    (fun o => response_to_void o "edit_formatted_message") w /\
  one_request (edit_html_with_keyboard chat msg html kb)
    (fun f => exists c, f = EditMessageText (value chat) (value msg) (Some (to_raw kb)) c /\ shows html c)
    (fun o => response_to_void o "edit_formatted_message_with_inline_keyboard") w /\
  one_request (send_html_with_keyboard chat html kb) (fun f => exists c, f = SendMessage (value chat) (Some (to_raw kb)) c /\ shows html c)
    (fun o => response_to_message_id o "send_message_with_inline_keyboard") w /\
  one_request (edit_keyboard chat msg kb) (eq (EditMessageReplyMarkup (value chat) (value msg) (to_raw kb)))
    (fun o => response_to_void o "edit_message_inline_keyboard") w /\
  one_request (answer_callback query text alert) (eq (AnswerCallbackQuery (value query) text alert))
    (fun o => response_to_void o "answer_callback_query") w /\
  one_request (send_file chat file html thumbnail)
    (eq (SendMessage (value chat) None (InputMessageDocument file thumbnail (default (MkText html []) (td_parse_html html w).1))))
    (fun o => response_to_message_id o "send_file") w /\
  one_request (delete_message chat msg) (eq (DeleteMessages (value chat) [value msg] true)) (fun o => response_to_void o "delete_message") w.
Proof.
  cbv zeta. unfold send_html, edit_html, edit_html_with_keyboard, send_html_with_keyboard, edit_keyboard, answer_callback, send_file, delete_message; cbn [messenger].
  split_and!.
  - apply one_request_content. intros. apply one_request_id.
  - apply one_request_content. intros. apply one_request_void.
  - apply one_request_content. intros. apply one_request_void.
  - apply one_request_content. intros. apply one_request_id.
  - apply one_request_void.
  - apply one_request_void.
  - unfold gateway_send_file, one_request. rewrite mbind_proj.
    destruct (one_request_id (SendMessage (value chat) None (InputMessageDocument file thumbnail (parse_html html w).1)) "send_file" (parse_html html w).2)
      as (f & w1 & <- & H1 & H2 & H3).
    exists (SendMessage (value chat) None (InputMessageDocument file thumbnail (parse_html html w).1)), w1.
    assert (sent (parse_html html w).2 = sent w) as Hp by (unfold parse_html; rewrite mbind_proj; apply parse_local).
    split_and!; [by unfold parse_html; rewrite mbind_proj|by rewrite H1, Hp|by rewrite H2|exact H3].
  - apply one_request_void.
Qed.
End Sends.

(** ** Concrete runs *)

Lemma gateway_answers_once_witness :
  exists s, gateway_run [Issue 0; Issue 1; Response 1000 (TdMessage 7); Sweep (40 * 1000000000); Resume 1000] fresh_gateway = Some s /\
    calls s !! 1000 = Some (Returned (TdMessage 7)) /\ calls s !! 1001 = Some (Woken timed_out_object) /\
    answered_by [Issue 0; Issue 1; Response 1000 (TdMessage 7); Sweep (40 * 1000000000); Resume 1000] 1000 (TdMessage 7).
Proof.
  eexists. split; [vm_compute; reflexivity|]. split; [reflexivity|]. split; [reflexivity|].
  eapply (gateway_answers_once [Issue 0; Issue 1; Response 1000 (TdMessage 7); Sweep (40 * 1000000000); Resume 1000]);
    [reflexivity|vm_compute; reflexivity|reflexivity].
Defined.

Module MemTdlib.
#[export] Instance tdlib : Tdlib (list TdFunction) := {|
  td_send fn w := (Some match fn with SendMessage _ _ _ => TdMessage 5 | _ => TdOk end, w ++ [fn]);
  td_parse_html html w := (None, w)
|}.
#[export] Instance log : TdLog (W := list TdFunction) id.
Proof. by split. Qed.
End MemTdlib.
Import MemTdlib.

Lemma messenger_requests_witness :
  TdLog (W := list TdFunction) id /\
  one_request (W := list TdFunction) id (send_html (MessengerInterface := messenger false) (MkId 42) "<b>hi</b>")
    (fun f => exists c, f = SendMessage 42 None c /\ shows "<b>hi</b>" c) (fun o => response_to_message_id o "send_formatted_message") [].
Proof.
  split; [exact log|].
  exact (proj1 (messenger_requests false id (MkId 42) (MkId 1) (MkId 2) "<b>hi</b>" "" false [] "" None [])).
Defined.
