(* ===== verification/TelegramAuth.v ===== *)
(** * Authentication of the bot: [telegram/authentication_flow.cpp]

    [authenticate] installs a listener for TDLib's authorization states and waits on a timer
    that the listener cancels.  The listener runs on the strand of the gateway and the
    coroutine on the executor, so their steps interleave in any order. *)

From S2P Require Import Prelude CoreError ConfigData TelegramGateway.

#[global] Instance AuthState_eq_dec : EqDecision AuthState.
Proof. solve_decision. Defined.

(** What the listener starts as coroutines of their own, whose errors are only logged. *)
Inductive AuthAction := SetParameters | CheckToken | ApplyOptions.

(** The coroutine: before its wait, waiting, woken, returned. *)
Inductive AuthPhase := BeforeWait | Waiting | Awake | Done (r : Result unit).

(** [struct State] with the coroutine's place and the coroutines started so far. *)
Record AuthFlow := MkAuthFlow {
  completed : bool;
  ready : bool;
  last_state : AuthState;
  phase : AuthPhase;
  started : list AuthAction
}.

Inductive AuthEvent := Observe (s : AuthState) | Wait | Return.

(** [state->done.cancel()]: it wakes the coroutine only when that is waiting. *)
Definition cancel_timer (p : AuthPhase) : AuthPhase := match p with Waiting => Awake | p => p end.

(** The listener. *)
Definition observe_state (s : AuthState) (f : AuthFlow) : AuthFlow :=
  match s with
  | WaitTdlibParameters => MkAuthFlow (completed f) (ready f) s (phase f) (started f ++ [SetParameters])
  | WaitPhoneOrBotToken => MkAuthFlow (completed f) (ready f) s (phase f) (started f ++ [CheckToken])
  | Ready => MkAuthFlow true true s (cancel_timer (phase f)) (started f ++ [ApplyOptions])
  | Closed | LoggingOut | Closing => MkAuthFlow true false s (cancel_timer (phase f)) (started f)
  | OtherAuthState => MkAuthFlow (completed f) (ready f) s (phase f) (started f)
  end.

(** After the wait. *)
Definition auth_outcome (f : AuthFlow) : Result unit :=
  if negb (completed f) then error Internal "authentication_flow: timer fired before completion"
  else if negb (ready f) then error Unauthenticated "authentication_flow: terminated before reaching Ready state"
  else Ok ().

Definition auth_step (e : AuthEvent) (f : AuthFlow) : option AuthFlow :=
  match e, phase f with
  | Observe s, Done _ => Some f
  | Observe s, _ => Some (observe_state s f)
  | Wait, BeforeWait => Some (MkAuthFlow (completed f) (ready f) (last_state f) Waiting (started f))
  | Return, Awake => Some (MkAuthFlow (completed f) (ready f) (last_state f) (Done (auth_outcome f)) (started f))
  | _, _ => None
  end.

Definition fresh_flow : AuthFlow := MkAuthFlow false false OtherAuthState BeforeWait [].

(** [authenticate]: without a token nothing is started. *)
Definition authenticate (config : TelegramConfig) : AuthFlow :=
  if str_empty (tg_bot_token config)
  then MkAuthFlow false false OtherAuthState
         (Done (error InvalidConfiguration "authentication_flow: bot_token is empty; v1 supports bot-token auth only")) []
  else fresh_flow.

Fixpoint auth_run (es : list AuthEvent) (f : AuthFlow) : option AuthFlow :=
  match es with [] => Some f | e :: es => f' ← auth_step e f; auth_run es f' end.

(** ** Outcomes *)

Definition terminal (s : AuthState) : bool :=
  match s with Ready | Closed | LoggingOut | Closing => true | _ => false end.

(** The last terminal state that was observed. *)
Definition verdict (es : list AuthEvent) : option bool :=
  foldl (fun v e => match e with
                    | Observe s => if terminal s then Some (bool_decide (s = Ready)) else v
                    | _ => v
                    end) None es.

Lemma verdict_snoc es e :
  verdict (es ++ [e]) = match e with Observe s => if terminal s then Some (bool_decide (s = Ready)) else verdict es | _ => verdict es end.
Proof. unfold verdict. by rewrite foldl_app. Qed.

Lemma auth_run_snoc es e f : auth_run (es ++ [e]) f = (f' ← auth_run es f; auth_step e f').
Proof.
  revert f. induction es as [|e' es IH]; intros f; cbn.
  - by destruct (auth_step e f).
  - destruct (auth_step e' f); [apply IH|done].
Qed.

(** A wait that a terminal state ended. *)
Definition ended_wait (before during : list AuthEvent) : Prop := exists s, Observe s ∈ during /\ terminal s = true.

Definition judged (v : option bool) : Result unit :=
  match v with
  | Some true => Ok ()
  | _ => error Unauthenticated "authentication_flow: terminated before reaching Ready state"
  end.

Record flow_ok (es : list AuthEvent) (f : AuthFlow) : Prop := {
  seen : (forall r, phase f <> Done r) -> completed f = bool_decide (is_Some (verdict es)) /\ ready f = default false (verdict es);
  waits : phase f = Waiting -> exists before during, es = before ++ Wait :: during;
  woken_by_terminal : phase f = Awake -> exists before during, es = before ++ Wait :: during /\ ended_wait before during;
  returned_by_verdict r : phase f = Done r ->
    exists before during after, es = before ++ Wait :: during ++ Return :: after /\ ended_wait before during /\
      r = judged (verdict (before ++ Wait :: during))
}.

Lemma ended_verdict before during : ended_wait before during -> is_Some (verdict (before ++ Wait :: during)).
Proof.
  intros (s & Hs & Ht). induction during as [|e during IH] using rev_ind; [by apply not_elem_of_nil in Hs|].
  rewrite app_comm_cons, app_assoc, verdict_snoc. apply elem_of_app in Hs as [Hs|Hs%list_elem_of_singleton].
  - destruct e as [s'| |]; try by apply IH. destruct (terminal s'); [done|by apply IH].
  - subst e. by rewrite Ht.
Qed.

Lemma flow_ok_fresh : flow_ok [] fresh_flow.
Proof. by split. Qed.

Lemma flow_ok_observe es f s : flow_ok es f -> (forall r, phase f <> Done r) -> flow_ok (es ++ [Observe s]) (observe_state s f).
Proof.
  intros [Hs Hw Ha Hr] Hd. destruct (Hs Hd) as [Hc Hre].
  assert (phase (observe_state s f) = if terminal s then cancel_timer (phase f) else phase f) as Hp by by destruct s.
  split.
  - intros _. rewrite verdict_snoc. destruct s; cbn; by rewrite ?Hc, ?Hre.
  - rewrite Hp. intros E. destruct (Hw ltac:(by destruct (terminal s), (phase f))) as (b & d & ->). exists b, (d ++ [Observe s]). by rewrite <- app_assoc.
  - rewrite Hp. intros E. destruct (phase f) eqn:P; try (by destruct (terminal s)).
    + destruct (terminal s) eqn:T; [|done]. destruct (Hw eq_refl) as (b & d & ->). exists b, (d ++ [Observe s]). split; [by rewrite <- app_assoc|].
      exists s. split; [|done]. apply elem_of_app. right. by left.
    + destruct (Ha eq_refl) as (b & d & -> & s' & Hin & T). exists b, (d ++ [Observe s]). split; [by rewrite <- app_assoc|].
      exists s'. split; [|done]. apply elem_of_app. by left.
  - intros r E. rewrite Hp in E. exfalso. destruct (terminal s); [|by apply (Hd r)]. destruct (phase f) eqn:P; try done. by apply (Hd r0).
Qed.

Lemma flow_ok_step es e f f' : flow_ok es f -> auth_step e f = Some f' -> flow_ok (es ++ [e]) f'.
Proof.
  intros Hok. pose proof Hok as [Hs Hw Ha Hr]. unfold auth_step. destruct e as [s| |]; destruct (phase f) as [| | |r] eqn:P; try done.
  - intros [= <-]. apply flow_ok_observe; [done|]. by rewrite P.
  - intros [= <-]. apply flow_ok_observe; [done|]. by rewrite P.
  - intros [= <-]. apply flow_ok_observe; [done|]. by rewrite P.
  - intros [= <-]. split; rewrite P; try done; [by intros H; destruct (H r)|]. intros r' [= <-]. destruct (Hr r eq_refl) as (b & d & a & -> & He & Hv).
    exists b, d, (a ++ [Observe s]). by rewrite <- !app_assoc, <- !app_comm_cons, <- app_assoc.
  - intros [= <-]. split; cbn; try done.
    + rewrite verdict_snoc. intros _. by apply Hs.
    + intros _. by exists es, [].
  - intros [= <-]. split; cbn; try done; [by intros H; destruct (H (auth_outcome f))|]. intros _ [= <-]. destruct (Ha eq_refl) as (b & d & -> & He).
    destruct (Hs ltac:(done)) as [Hc Hre]. exists b, d, []. split; [by rewrite <- app_assoc|]. split; [done|].
    pose proof (ended_verdict b d He) as [v Hv]. unfold auth_outcome. rewrite Hc, Hre, Hv. by destruct v.
Qed.

Lemma flow_ok_run es f : auth_run es fresh_flow = Some f -> flow_ok es f.
Proof.
  revert f. induction es as [|e es IH] using rev_ind; intros f; [intros [= <-]; apply flow_ok_fresh|].
  rewrite auth_run_snoc. destruct (auth_run es fresh_flow) as [f1|] eqn:E; [|done]. cbn. apply flow_ok_step. by apply IH.
Qed.

(** [authenticate] returns only because a final state was observed while it was waiting, and
    with the verdict of the last final state before it ran again: success exactly for [Ready];
    the error for a timer that fires by itself never happens. *)
Theorem auth_outcome_exact config es f r :
  tg_bot_token config <> "" -> auth_run es (authenticate config) = Some f -> phase f = Done r ->
  exists before during after, es = before ++ Wait :: during ++ Return :: after /\ ended_wait before during /\
    r = judged (verdict (before ++ Wait :: during)).
Proof.
  intros Ht. unfold authenticate. destruct (str_empty _) eqn:E; [by apply str_empty_spec in E|]. intros Hrun. by apply flow_ok_run.
Qed.

(** C35. It hangs otherwise: no failed request ends it, and a final state that is observed before
    the coroutine waits, as the replay of the last state can be, is lost. *)
Theorem auth_hangs config es f r :
  tg_bot_token config <> "" -> auth_run es (authenticate config) = Some f ->
  (forall before during, es = before ++ Wait :: during -> ~ ended_wait before during) -> phase f <> Done r.
Proof.
  intros Ht. unfold authenticate. destruct (str_empty _) eqn:E; [by apply str_empty_spec in E|]. intros Hrun Hno Hd.
  destruct (returned_by_verdict _ _ (flow_ok_run _ _ Hrun) r Hd) as (b & d & a & Hes & (s & Hs & T) & _).
  apply (Hno b (d ++ Return :: a) Hes). exists s. split; [|done]. apply elem_of_app. by left.
Qed.

(** ** Concrete runs *)

Definition sample_config : TelegramConfig := MkTelegramConfig 1 "hash" "1:token" "tdlib" 0 [] [] 2048 1024 5 false 4 2.

Lemma auth_outcome_exact_witness :
  exists f, auth_run [Wait; Observe WaitPhoneOrBotToken; Observe Ready; Return] (authenticate sample_config) = Some f /\ phase f = Done (Ok ()) /\
    exists before during after, [Wait; Observe WaitPhoneOrBotToken; Observe Ready; Return] = before ++ Wait :: during ++ Return :: after /\
      ended_wait before during /\ Ok () = judged (verdict (before ++ Wait :: during)).
Proof.
  eexists. split; [reflexivity|]. split; [reflexivity|].
  eapply (auth_outcome_exact sample_config); [discriminate|reflexivity|reflexivity].
Defined.

(** TDLib is ready before the coroutine waits. *)
Lemma auth_hangs_witness :
  exists f, auth_run [Observe Ready; Wait] (authenticate sample_config) = Some f /\ ready f = true /\ phase f <> Done (Ok ()).
Proof.
  eexists. split; [reflexivity|]. split; [reflexivity|].
  eapply (auth_hangs sample_config [Observe Ready; Wait]); [discriminate|reflexivity|].
  intros [|e1 [|e2 b]] d E (s & Hs & _); [discriminate| |]; injection E as E1 E2.
  - subst d. by apply not_elem_of_nil in Hs.
  - by destruct b.
Defined.
