(* ===== verification/GatewayLifecycle.v ===== *)
(** * The life of the gateway: [telegram_gateway.cpp] ([run], [request_stop]), [telegram_gateway_stub.cpp]

    [run] parks while a thread receives for it and a timer sweeps stale requests;
    [request_stop] is called on any thread.  The step relation refines that of
    [TelegramGateway], which has the requests.  A step is what a coroutine or a handler runs
    between two suspension points, or one round of the receive thread.

    [run] and the requests begin on the strand, where the handlers run; once a coroutine has
    waited on a timer it goes on where its caller runs.  So [run] joins the thread and drains
    the requests beside the strand, which the join does not hold up.  The steps are taken one
    at a time; the drain and a handler at the same time are a data race on the map, which the
    model leaves out. *)

From S2P Require Import Prelude CoreError Identifiers ConfigData Ports TelegramGateway.

Local Open Scope coro_scope.

(** ** The real gateway *)

(** Where [run] is.  While it joins the thread, it blocks the worker that it runs on. *)
Inductive RunPlace := NotStarted | ParkedSecond | Joining | Finished.

Inductive ReceiveThread := NoThread | Receiving | Exited.

(** [eviction_timer]; [Rearming]: the sweep has read the stop flag and will set the timer. *)
Inductive EvictionTimer := Idle | Armed | Rearming.

Record Life := MkLife {
  gateway : Gateway;
  place : RunPlace;
  has_client : bool;
  receive_thread : ReceiveThread;
  posted : list (Z * TdObject);
  eviction_timer : EvictionTimer
}.

Definition fresh_life : Life := MkLife fresh_gateway NotStarted false NoThread [] Idle.

Inductive LifeEvent :=
| Run
| SecondPassed
| RunCancelled
| Received (answer : option (Z * TdObject))
| Handle
| SweepDue (t : Z)
| Rearm
| Stop
| Join
| Send (t : Z)
| Continue (id : Z).

Definition with_gateway (g : Gateway) (s : Life) : Life :=
  MkLife g (place s) (has_client s) (receive_thread s) (posted s) (eviction_timer s).
Definition at_place (p : RunPlace) (s : Life) : Life :=
  MkLife (gateway s) p (has_client s) (receive_thread s) (posted s) (eviction_timer s).
Definition with_timer (t : EvictionTimer) (s : Life) : Life :=
  MkLife (gateway s) (place s) (has_client s) (receive_thread s) (posted s) t.

(** The head of the parking loop. *)
Definition park (s : Life) : Life := at_place (if stop_requested (gateway s) then Joining else ParkedSecond) s.

(** [run] up to its first suspension; its thread reads the flag before it receives. *)
Definition begin_run (s : Life) : Life :=
  park (MkLife (gateway s) (place s) true
          match receive_thread s with
          | NoThread => if stop_requested (gateway s) then Exited else Receiving
          | t => t
          end (posted s) Armed).

(** One round of the thread: an object is posted to the strand; then the flag is read. *)
Definition receive_round (answer : option (Z * TdObject)) (s : Life) : Life :=
  MkLife (gateway s) (place s) (has_client s) (if stop_requested (gateway s) then Exited else Receiving)
    (posted s ++ match answer with Some a => [a] | None => [] end) (eviction_timer s).

(** [request_stop]. *)
Definition request_stop (s : Life) : Life :=
  let g := gateway s in
  MkLife (MkGateway (next_request_id g) (pending g) true (calls g)) (place s) (has_client s) (receive_thread s) (posted s)
    match eviction_timer s with Armed => Idle | t => t end.

(** Whether the strand can run something: it is not in the middle of a sweep. *)
Definition strand_free (s : Life) : bool := match eviction_timer s with Rearming => false | _ => true end.

Definition life_step (e : LifeEvent) (s : Life) : option Life :=
  match e with
  | Stop => Some (request_stop s)
  | Received answer => match receive_thread s with Receiving => Some (receive_round answer s) | _ => None end
  | Rearm => match eviction_timer s with Rearming => Some (with_timer Armed s) | _ => None end
  | Join =>
      match place s, receive_thread s with
      | Joining, Exited => Some (at_place Finished (with_gateway (drain (gateway s)) s))
      | _, _ => None
      end
  | SecondPassed => match place s with ParkedSecond => Some (park s) | _ => None end
  | RunCancelled => match place s with ParkedSecond => Some (at_place Joining s) | _ => None end
  | Continue id => g ← gateway_step (Resume id) (gateway s); Some (with_gateway g s)
  | _ =>
      if strand_free s then
        match e with
        | Run => match place s with NotStarted => Some (begin_run s) | _ => None end
        | Handle =>
            match posted s with
            | [] => None
            | (id, obj) :: rest =>
                Some (MkLife (handle_response id obj (gateway s)) (place s) (has_client s) (receive_thread s) rest (eviction_timer s))
            end
        | SweepDue t =>
            match eviction_timer s with
            | Armed => Some (with_timer (if stop_requested (gateway s) then Idle else Rearming) (with_gateway (evict_stale t (gateway s)) s))
            | _ => None
            end
        | Send t => if has_client s then Some (with_gateway (send_request t (gateway s)) s) else None
        | _ => None
        end
      else None
  end.

Fixpoint life_run (es : list LifeEvent) (s : Life) : option Life :=
  match es with [] => Some s | e :: es => s' ← life_step e s; life_run es s' end.

(** ** Refinement *)

(** The steps of [TelegramGateway] that an event amounts to. *)
Definition gateway_events (e : LifeEvent) (s : Life) : list GatewayEvent :=
  match e with
  | Stop => [RequestStop]
  | Join => [Drain]
  | Handle => match posted s with (id, obj) :: _ => [Response id obj] | [] => [] end
  | SweepDue t => [Sweep t]
  | Send t => [Issue t]
  | Continue id => [Resume id]
  | _ => []
  end.

(** The thread only exits once the gateway is stopped. *)
Definition stopped_before_exit (s : Life) : Prop := receive_thread s = Exited -> stop_requested (gateway s) = true.

Lemma stop_drain g : stop_requested (drain g) = stop_requested g.
Proof.
  unfold drain. cbn [stop_requested]. generalize (map_to_list (pending g)).*1. intros ids.
  revert g. induction ids as [|id ids IH]; intros g; [done|]. cbn [foldl]. by rewrite IH.
Qed.

Lemma stop_evict t g : stop_requested (evict_stale t g) = stop_requested g.
Proof.
  unfold evict_stale. generalize (stale t g). intros ids. revert g. induction ids as [|id ids IH]; intros g; [done|]. cbn [foldl]. by rewrite IH.
Qed.

Lemma stop_response id obj g : stop_requested (handle_response id obj g) = stop_requested g.
Proof. unfold handle_response. by destruct (pending g !! id). Qed.

Lemma life_step_refines e s s' : stopped_before_exit s -> life_step e s = Some s' ->
  stopped_before_exit s' /\ gateway_run (gateway_events e s) (gateway s) = Some (gateway s') /\
  (stop_requested (gateway s) = true -> stop_requested (gateway s') = true).
Proof.
  unfold stopped_before_exit. intros Hx. destruct e as [| | |answer| |t| | | |t|id]; cbn [life_step gateway_events];
    try (destruct (strand_free s); [|done]).
  - destruct (place s); try done. intros [= <-]. unfold begin_run, park. destruct (receive_thread s); simpl; repeat crush_match; intuition (congruence || done).
  - destruct (place s); try done. intros [= <-]. unfold park. simpl. auto.
  - destruct (place s); try done. by intros [= <-].
  - destruct (receive_thread s) eqn:E; try done. intros [= <-]. simpl. by repeat crush_match.
  - destruct (posted s) as [|[id obj] rest]; [done|]. intros [= <-]. simpl. by rewrite stop_response.
  - destruct (eviction_timer s); try done. intros [= <-]. simpl. by rewrite stop_evict.
  - destruct (eviction_timer s); try done. by intros [= <-].
  - intros [= <-]. done.
  - destruct (place s), (receive_thread s) eqn:E; try done. intros [= <-]. pose proof (stop_drain (gateway s)) as Hd. simpl in *. rewrite Hd, (Hx eq_refl). auto.
  - destruct (has_client s); [|done]. by intros [= <-].
  - destruct (gateway_step (Resume id) (gateway s)) as [g|] eqn:E; [|done]. intros [= <-]. simpl in *. rewrite E. simpl.
    destruct (calls (gateway s) !! id) as [[]|]; try done. by injection E as <-.
Qed.

Lemma gateway_run_app es1 es2 g : gateway_run (es1 ++ es2) g = gateway_run es1 g ≫= gateway_run es2.
Proof. revert g. induction es1 as [|e es1 IH]; intros g; [done|]. simpl. destruct (gateway_step e g); simpl; [apply IH|done]. Qed.

Lemma life_run_refines es s s' : stopped_before_exit s -> life_run es s = Some s' ->
  stopped_before_exit s' /\ (stop_requested (gateway s) = true -> stop_requested (gateway s') = true) /\
  exists ges, (length ges <= length es)%nat /\ gateway_run ges (gateway s) = Some (gateway s').
Proof.
  revert s. induction es as [|e es IH]; intros s Hx; simpl.
  { intros [= <-]. split_and!; [done|done|]. by exists []. }
  destruct (life_step e s) as [s1|] eqn:E; [|done]. simpl. intros Hrun.
  destruct (life_step_refines e s s1 Hx E) as (Hx1 & Hg & Hs). destruct (IH s1 Hx1 Hrun) as (Hx' & Hs' & ges & Hl & Hges).
  split_and!; [done|auto|]. exists (gateway_events e s ++ ges). split.
  - rewrite length_app. assert (length (gateway_events e s) <= 1)%nat; [|lia].
    destruct e; simpl; try lia. destruct (posted s) as [|[]]; simpl; lia.
  - by rewrite gateway_run_app, Hg.
Qed.

Lemma life_run_app es1 es2 s : life_run (es1 ++ es2) s = life_run es1 s ≫= life_run es2.
Proof. revert s. induction es1 as [|e es1 IH]; intros s; [done|]. simpl. destruct (life_step e s); simpl; [apply IH|done]. Qed.

(** ** Shutdown *)

(** The steps of [run] and of its thread. *)
Definition own_step (e : LifeEvent) : bool :=
  match e with Run | SecondPassed | RunCancelled | Received _ | Join => true | _ => false end.

Definition steps_left (s : Life) : nat :=
  (match place s with NotStarted | ParkedSecond => 2 | Joining => 1 | Finished => 0 end +
   match receive_thread s with Receiving => 1 | _ => 0 end)%nat.

Definition thread_started (s : Life) : Prop := place s <> NotStarted -> receive_thread s <> NoThread.

Lemma life_step_started e s s' : thread_started s -> life_step e s = Some s' -> thread_started s'.
Proof.
  unfold thread_started. intros H.
  destruct e as [| | |answer| |t| | | |t|id]; cbn [life_step]; try (destruct (strand_free s); [|done]).
  - destruct (place s) eqn:E; try done. intros [= <-] _. unfold begin_run, park. simpl. destruct (receive_thread s); simpl; repeat crush_match; done.
  - destruct (place s) eqn:E; try done. intros [= <-] _. by apply H.
  - destruct (place s) eqn:E; try done. intros [= <-] _. by apply H.
  - destruct (receive_thread s); try done. intros [= <-] _. simpl. by destruct (stop_requested _).
  - destruct (posted s) as [|[id obj] rest]; [done|]. by intros [= <-].
  - destruct (eviction_timer s); try done. by intros [= <-].
  - destruct (eviction_timer s); try done. by intros [= <-].
  - by intros [= <-].
  - destruct (place s), (receive_thread s) eqn:E; try done. intros [= <-] _. simpl. by rewrite E.
  - destruct (has_client s); [|done]. by intros [= <-].
  - destruct (gateway_step _ _); [|done]. by intros [= <-].
Qed.

Lemma life_run_started es s s' : thread_started s -> life_run es s = Some s' -> thread_started s'.
Proof.
  revert s. induction es as [|e es IH]; intros s H; simpl; [by intros [= <-]|].
  destruct (life_step e s) as [s1|] eqn:E; [|done]. by apply IH, (life_step_started e s).
Qed.

Lemma life_step_left e s s' : life_step e s = Some s' -> stop_requested (gateway s) = true ->
  ((if own_step e then 1 else 0) + steps_left s' <= steps_left s)%nat.
Proof.
  unfold steps_left. intros H Hs.
  destruct e as [| | |answer| |t| | | |t|id]; cbn [life_step] in H; try (destruct (strand_free s); [|done]);
    try (destruct (place s) eqn:?; try done; []); try (destruct (receive_thread s) eqn:?; try done; []);
    try (destruct (eviction_timer s) eqn:?; try done; []);
    try (destruct (posted s) as [|[? ?] ?] eqn:?; try done; []); try (destruct (has_client s); try done; []);
    try (destruct (gateway_step _ _); try done; []); injection H as <-; unfold begin_run, park, receive_round; simpl; rewrite ?Hs; simpl;
    repeat match goal with H : place _ = _ |- _ => rewrite H | H : receive_thread _ = _ |- _ => rewrite H end; simpl; try lia.
  destruct (receive_thread s); simpl; lia.
Qed.

Lemma life_run_left es s s' : stopped_before_exit s -> life_run es s = Some s' -> stop_requested (gateway s) = true ->
  (length (filter own_step es) + steps_left s' <= steps_left s)%nat.
Proof.
  revert s. induction es as [|e es IH]; intros s Hx; simpl; [intros [= ->] _; simpl; lia|].
  destruct (life_step e s) as [s1|] eqn:E; [|done]. simpl. intros H Hs. pose proof (life_step_left _ _ _ E Hs) as Hl.
  destruct (life_step_refines e s s1 Hx E) as (Hx1 & _ & Hs1). specialize (IH s1 Hx1 H (Hs1 Hs)).
  rewrite filter_cons. destruct e; simpl in *; repeat case_decide; simpl; try done; lia.
Qed.

Lemma life_progress s : thread_started s -> stopped_before_exit s -> place s <> Finished ->
  exists e s', (own_step e = true \/ e = Rearm) /\ life_step e s = Some s'.
Proof.
  intros Ht Hx Hne. destruct (eviction_timer s) eqn:Et; [| |exists Rearm; simpl; rewrite Et; eauto].
  all: destruct (place s) eqn:E; [exists Run|exists SecondPassed| |done].
  all: try (simpl; unfold strand_free; rewrite E, ?Et; eauto; done).
  all: destruct (receive_thread s) eqn:Er;
    [destruct Ht; congruence|exists (Received None); simpl; rewrite Er; eauto|exists Join; simpl; rewrite E, Er; eauto].
Qed.

Lemma fresh_gateway_ok : gateway_ok fresh_gateway.
Proof. split; intros id; cbn; rewrite !lookup_empty; by split || intros [? ?]. Qed.

Lemma life_gateway_ok es s : Z.of_nat (length es) < 2 ^ 64 - 1000 -> life_run es fresh_life = Some s ->
  gateway_ok (gateway s).
Proof.
  intros Hn Hrun. assert (stopped_before_exit fresh_life) as H0 by done.
  destruct (life_run_refines _ _ _ H0 Hrun) as (_ & _ & ges & Hl & Hges). simpl in Hges.
  by apply (run_ok ges fresh_gateway (gateway s) fresh_gateway_ok); [|cbn; lia|].
Qed.

(** C30. [request_stop] ends [run], whenever it is called and whatever the requests, the answers and
    the sweeps do meanwhile: at most three more steps are taken by [run] and its thread, and
    until the last of them one can be taken at once.  When [run] returns no call that was made
    before is still waiting. *)
Theorem stop_ends_run es es' s s' :
  Z.of_nat (length (es ++ es')) < 2 ^ 64 - 1000 -> life_run es fresh_life = Some s -> stop_requested (gateway s) = true ->
  life_run es' s = Some s' ->
  (length (filter own_step es') <= 3)%nat /\
  (place s' <> Finished -> exists e s'', (own_step e = true \/ e = Rearm) /\ life_step e s' = Some s'') /\
  (forall s'' id, life_step Join s' = Some s'' -> place s'' = Finished /\ calls (gateway s'') !! id <> Some Parked).
Proof.
  intros Hn Hrun Hs Hrun'. rewrite length_app in Hn.
  assert (thread_started fresh_life) as Ht0 by (by intros []). assert (stopped_before_exit fresh_life) as Hx0 by done.
  pose proof (life_run_started _ _ _ Ht0 Hrun) as Ht. destruct (life_run_refines _ _ _ Hx0 Hrun) as (Hx & _ & _).
  pose proof (life_run_started _ _ _ Ht Hrun') as Ht'. destruct (life_run_refines _ _ _ Hx Hrun') as (Hx' & _ & _).
  split_and!.
  - pose proof (life_run_left _ _ _ Hx Hrun' Hs) as Hl. unfold steps_left in Hl at 2. destruct (place s), (receive_thread s); lia.
  - by apply life_progress.
  - intros s'' id. cbn [life_step]. assert (gateway_ok (gateway s')) as Hok.
    { apply (life_gateway_ok (es ++ es')); [by rewrite length_app|]. rewrite life_run_app, Hrun. exact Hrun'. }
    destruct (place s'), (receive_thread s'); try done. intros [= <-]. split; [done|]. cbn [at_place with_gateway gateway].
    destruct (drain_spec _ Hok) as ([Hp _] & Hnil & _). rewrite Hp, Hnil, lookup_empty. by intros [? ?].
Qed.

(** ** What nothing ends *)

(** A gateway whose [run] has returned, with a call that is waiting. *)
Record stranded (id : Z) (s : Life) : Prop := {
  str_place : place s = Finished;
  str_timer : eviction_timer s = Idle;
  str_thread : receive_thread s = Exited;
  str_posted : id ∉ (posted s).*1;
  str_parked : calls (gateway s) !! id = Some Parked
}.

Lemma stranded_step id e s s' : stranded id s -> life_step e s = Some s' -> stranded id s'.
Proof.
  intros [Hp Ht Hth Hpo Hc].
  destruct e as [| | |answer| |t| | | |t|k]; cbn [life_step]; unfold strand_free; rewrite ?Hp, ?Ht, ?Hth; try done.
  - destruct (posted s) as [|[k obj] rest] eqn:E; [done|]. rewrite fmap_cons, not_elem_of_cons in Hpo. destruct Hpo as [Hne Hpo]. simpl in Hne.
    intros [= <-]. split; simpl; try done. unfold handle_response. destruct (pending (gateway s) !! k); [|done].
    rewrite calls_wake. rewrite decide_False by done. exact Hc.
  - intros [= <-]. split; simpl; rewrite ?Ht; done.
  - destruct (has_client s); [|done]. intros [= <-]. split; simpl; try done.
    destruct (decide (id = next_request_id (gateway s))) as [->|Hne]; [by rewrite lookup_insert_eq|by rewrite lookup_insert_ne].
  - cbn [gateway_step]. destruct (calls (gateway s) !! k) as [[|obj|obj]|] eqn:E; try done. simpl. intros [= <-]. split; simpl; try done.
    destruct (decide (id = k)) as [->|Hne]; [congruence|by rewrite lookup_insert_ne].
Qed.

(** A request that is sent after [run] has returned is never answered: whatever happens, also
    another [request_stop], its coroutine stays parked. *)
Theorem late_request_hangs t s s1 es s2 :
  place s = Finished -> eviction_timer s = Idle -> receive_thread s = Exited ->
  next_request_id (gateway s) ∉ (posted s).*1 ->
  life_step (Send t) s = Some s1 -> life_run es s1 = Some s2 ->
  calls (gateway s2) !! next_request_id (gateway s) = Some Parked.
Proof.
  intros Hp Ht Hth Hpo Hs. assert (stranded (next_request_id (gateway s)) s1) as H.
  { cbn [life_step] in Hs. unfold strand_free in Hs. rewrite Ht in Hs. destruct (has_client s); [|done]. injection Hs as <-.
    split; simpl; try done. by rewrite lookup_insert_eq. }
  clear Hs. revert s1 H. induction es as [|e es IH]; intros s1 H; simpl.
  - intros [= <-]. apply H.
  - destruct (life_step e s1) as [s1'|] eqn:E; [|done]. by apply IH, (stranded_step _ e s1).
Qed.

(** Cancellation of [run] without [request_stop]: the join never ends. *)
Record held (s : Life) : Prop := {
  held_place : place s = Joining;
  held_thread : receive_thread s = Receiving;
  held_stop : stop_requested (gateway s) = false
}.

Lemma held_step e s s' : held s -> e <> Stop -> life_step e s = Some s' -> held s'.
Proof.
  intros [Hp Hth Hst] Hne. destruct e as [| | |answer| |t| | | |t|k]; cbn [life_step];
    try (destruct (strand_free s); [|done]); rewrite ?Hp, ?Hth; try done.
  - intros [= <-]. split; simpl; by rewrite ?Hst.
  - destruct (posted s) as [|[id obj] rest]; [done|]. intros [= <-]. split; [done|done|]. simpl. by rewrite stop_response.
  - destruct (eviction_timer s); try done. intros [= <-]. split; [done|done|]. simpl. by rewrite stop_evict.
  - destruct (eviction_timer s); try done. by intros [= <-].
  - destruct (has_client s); [|done]. by intros [= <-].
  - cbn [gateway_step]. destruct (calls (gateway s) !! k) as [[]|]; try done. by intros [= <-].
Qed.

Theorem cancel_alone_blocks s s1 es s2 :
  receive_thread s = Receiving -> stop_requested (gateway s) = false -> life_step RunCancelled s = Some s1 ->
  Stop ∉ es -> life_run es s1 = Some s2 -> place s2 = Joining.
Proof.
  intros Hth Hst H1 Hno. assert (held s1) as H.
  { cbn [life_step] in H1. destruct (place s); try done. injection H1 as <-. by split. }
  clear H1 Hth Hst s. revert s1 H. induction es as [|e es IH]; intros s1 H; simpl.
  - intros [= <-]. apply H.
  - apply not_elem_of_cons in Hno as [Hne Hno]. destruct (life_step e s1) as [s1'|] eqn:E; [|done]. apply IH; [done|].
    by eapply held_step.
Qed.

(** ** The stub *)

Module Stub.

Definition kStubMessage : string := "telegram gateway stub: rebuild with -DCMLB_WITH_TELEGRAM=ON".
Definition stub_error {A} : Result A := error Internal kStubMessage.

(** [Impl], where [run] is, and the states its listener was told. *)
Record Impl := MkImpl {
  handler_installed : bool;
  stop_asked : bool;
  run_at : RunPlace;
  told : list AuthState
}.

Definition fresh : Impl := MkImpl false false NotStarted [].

Inductive StubEvent := StubRun | StubStop | StubListen (installed : bool).

(** [run] parks on a timer that nothing cancels. *)
Definition stub_step (e : StubEvent) (s : Impl) : option Impl :=
  match e with
  | StubRun =>
      match run_at s with
      | NotStarted =>
          Some (if stop_asked s then MkImpl (handler_installed s) true Finished (told s)
                else MkImpl (handler_installed s) false ParkedSecond (told s ++ if handler_installed s then [Closed] else []))
      | _ => None
      end
  | StubStop => Some (MkImpl (handler_installed s) true (run_at s) (told s))
  | StubListen b => Some (MkImpl b (stop_asked s) (run_at s) (told s))
  end.

Fixpoint stub_run (es : list StubEvent) (s : Impl) : option Impl :=
  match es with [] => Some s | e :: es => s' ← stub_step e s; stub_run es s' end.

Section Operations.
  Context {W : Type}.

Definition stub_send_text_message (chat : ChatId) (text : string) : M W (Result MessageId) := co_return stub_error.
Definition stub_send_formatted_message (chat : ChatId) (html : string) : M W (Result MessageId) := co_return stub_error.
Definition stub_edit_formatted_message (chat : ChatId) (msg : MessageId) (html : string) : M W (Result unit) := co_return stub_error.
Definition stub_edit_with_keyboard (chat : ChatId) (msg : MessageId) (html : string) (rows : TdKeyboard) : M W (Result unit) := co_return stub_error.
Definition stub_send_with_keyboard (chat : ChatId) (html : string) (rows : TdKeyboard) : M W (Result MessageId) := co_return stub_error.
Definition stub_edit_keyboard (chat : ChatId) (msg : MessageId) (rows : TdKeyboard) : M W (Result unit) := co_return stub_error.
Definition stub_answer_callback_query (id : CallbackQueryId) (text : string) (alert : bool) : M W (Result unit) := co_return stub_error.
Definition stub_delete_message (chat : ChatId) (msg : MessageId) : M W (Result unit) := co_return stub_error.
Definition stub_send_file (chat : ChatId) (file caption : string) (thumbnail : option string) : M W (Result MessageId) := co_return stub_error.
Definition stub_set_tdlib_parameters : M W (Result unit) := co_return stub_error.
Definition stub_check_bot_token : M W (Result unit) := co_return stub_error.
Definition stub_apply_runtime_options : M W (Result unit) := co_return Ok ().

(** The messenger over the stub. *)
Definition stub_messenger : MessengerInterface W := {|
  send_html := stub_send_formatted_message;
  edit_html := stub_edit_formatted_message;
  edit_html_with_keyboard chat msg html kb := stub_edit_with_keyboard chat msg html (to_raw kb);
  send_html_with_keyboard chat html kb := stub_send_with_keyboard chat html (to_raw kb);
  edit_keyboard chat msg kb := stub_edit_keyboard chat msg (to_raw kb);
  answer_callback := stub_answer_callback_query;
  send_file := stub_send_file;
  delete_message := stub_delete_message
|}.

End Operations.

(** The stub does not keep the contract of [run]: once it is parked it never returns, whatever
    is asked of it, so that [request_stop] only has an effect before [run]; and the listener of
    the authentication hears of the end only if it was installed before. *)
Theorem stub_never_returns es s s1 es' s2 :
  stub_run es fresh = Some s -> stub_step StubRun s = Some s1 -> stub_run es' s1 = Some s2 ->
  told s2 = (if negb (stop_asked s) && handler_installed s then [Closed] else []) /\
  run_at s2 = if stop_asked s then Finished else ParkedSecond.
Proof.
  assert (forall es a b, stub_run es a = Some b -> run_at a <> NotStarted -> told b = told a /\ run_at b = run_at a) as Hlater.
  { clear. induction es as [|e es IH]; intros a b; simpl; [by intros [= <-]|]. destruct (stub_step e a) as [a'|] eqn:E; [|done].
    intros Hrun Hne. destruct e; simpl in E; [by destruct (run_at a)| |]; injection E as <-; by apply (IH _ b Hrun). }
  assert (forall es a b, stub_run es a = Some b -> run_at b = NotStarted -> told b = told a) as Hbefore.
  { clear -Hlater. induction es as [|e es IH]; intros a b; simpl; [by intros [= <-]|]. destruct (stub_step e a) as [a'|] eqn:E; [|done].
    intros Hrun Hb. destruct e; simpl in E; [|injection E as <-; by apply (IH _ b Hrun)..].
    destruct (run_at a); try done. injection E as <-. destruct (Hlater _ _ _ Hrun) as [_ Hr]; [by destruct (stop_asked a)|].
    rewrite Hb in Hr. by destruct (stop_asked a). }
  intros H0 H1 H2. simpl in H1. destruct (run_at s) eqn:E; try done. pose proof (Hbefore _ _ _ H0 E) as Ht. injection H1 as <-.
  destruct (Hlater _ _ _ H2) as [-> ->]; [by destruct (stop_asked s)|]. destruct (stop_asked s); simpl; rewrite ?Ht; [done|].
  by destruct (handler_installed s).
Qed.

End Stub.

(** ** Concrete runs *)

Module SampleLife.

(** Two requests, of which one is answered; then the end. *)
Definition started : list LifeEvent := [Run; Send 1; Send 2; Received (Some (1000, TdOk)); Handle; Stop].
Definition ending : list LifeEvent := [SecondPassed; Received None].
Definition stopped : Life := default fresh_life (life_run (started ++ ending ++ [Join]) fresh_life).

End SampleLife.
Import SampleLife.

Lemma stop_ends_run_witness :
  exists s s' s'', life_run started fresh_life = Some s /\ life_run ending s = Some s' /\ life_step Join s' = Some s'' /\
    place s'' = Finished /\ calls (gateway s'') !! 1001 <> Some Parked.
Proof.
  assert (exists s, life_run started fresh_life = Some s /\ stop_requested (gateway s) = true /\
    exists s', life_run ending s = Some s' /\ exists s'', life_step Join s' = Some s'') as (s & Hs & Hst & s' & Hs' & s'' & Hs'').
  { eexists. split; [vm_compute; reflexivity|]. split; [reflexivity|]. eexists. split; [vm_compute; reflexivity|]. eexists. vm_compute. reflexivity. }
  destruct (stop_ends_run started ending s s' ltac:(vm_compute; reflexivity) Hs Hst Hs') as (_ & _ & H).
  destruct (H s'' 1001 Hs'') as [Hf Hc]. exists s, s', s''. split; [exact Hs|]. split; [exact Hs'|]. split; [exact Hs''|]. split; [exact Hf|exact Hc].
Defined.

Lemma late_request_hangs_witness :
  exists s1 s2, life_step (Send 9) stopped = Some s1 /\ life_run [Stop; Stop] s1 = Some s2 /\ calls (gateway s2) !! 1002 = Some Parked.
Proof.
  assert (exists s1, life_step (Send 9) stopped = Some s1 /\ exists s2, life_run [Stop; Stop] s1 = Some s2) as (s1 & H1 & s2 & H2).
  { eexists. split; [vm_compute; reflexivity|]. eexists. vm_compute. reflexivity. }
  exists s1, s2. split; [exact H1|]. split; [exact H2|].
  refine (late_request_hangs 9 stopped s1 [Stop; Stop] s2 _ _ _ _ H1 H2); [reflexivity..|].
  intros H. apply elem_of_nil in H. exact H.
Defined.

Lemma cancel_alone_blocks_witness :
  exists s s1 s2, life_run [Run] fresh_life = Some s /\ life_step RunCancelled s = Some s1 /\
    life_run [Received None; Received None] s1 = Some s2 /\ place s2 = Joining.
Proof.
  assert (exists s, life_run [Run] fresh_life = Some s /\ receive_thread s = Receiving /\ stop_requested (gateway s) = false /\
    exists s1, life_step RunCancelled s = Some s1 /\ exists s2, life_run [Received None; Received None] s1 = Some s2)
    as (s & Hs & Ht & Hst & s1 & H1 & s2 & H2).
  { eexists. split; [vm_compute; reflexivity|]. do 2 (split; [reflexivity|]). eexists. split; [vm_compute; reflexivity|]. eexists. vm_compute. reflexivity. }
  exists s, s1, s2. split; [exact Hs|]. split; [exact H1|]. split; [exact H2|].
  refine (cancel_alone_blocks s s1 [Received None; Received None] s2 Ht Hst H1 _ H2).
  intros H. repeat (apply elem_of_cons in H as [H|H]; [discriminate H|]). apply elem_of_nil in H. exact H.
Defined.

Lemma stub_never_returns_witness :
  exists s s1 s2, Stub.stub_run [Stub.StubListen true] Stub.fresh = Some s /\ Stub.stub_step Stub.StubRun s = Some s1 /\
    Stub.stub_run [Stub.StubStop] s1 = Some s2 /\ Stub.told s2 = [Closed] /\ Stub.run_at s2 = ParkedSecond.
Proof.
  do 3 eexists. do 3 (split; [reflexivity|]).
  exact (Stub.stub_never_returns [Stub.StubListen true] _ _ [Stub.StubStop] _ eq_refl eq_refl eq_refl).
Defined.
