(* ===== verification/Subprocess.v ===== *)
(** * Subprocesses: [system/subprocess.hpp], [system/subprocess.cpp]

    Requests and results, the splitting of a pipe's bytes into lines, the quoting of a Windows
    command line with the parser it is meant for, and the runner as an interface for its
    clients.  The supervision of a POSIX child is the step relation of [Supervisor]. *)

From S2P Require Import Prelude CoreError.

Local Open Scope coro_scope.

(** [struct SubprocessRequest], without its callbacks; times are in milliseconds. *)
Record SubprocessRequest := MkRequest {
  rq_executable : string;
  rq_arguments : list string;
  rq_environment : list (string * string);
  rq_working_directory : string;
  rq_capture_stdout : bool;
  rq_capture_stderr : bool;
  rq_stdin_data : option string;
  rq_timeout : Z
}.

(** The defaults: both streams captured, five minutes. *)
Definition request_of (executable : string) (arguments : list string) : SubprocessRequest :=
  MkRequest executable arguments [] "" true true None (5 * 60 * 1000).

(** [struct SubprocessResult]. *)
Record SubprocessResult := MkResult {
  exit_code : Z;
  stdout_data : string;
  stderr_data : string;
  duration : Z;
  timed_out : bool;
  was_cancelled : bool
}.

(** ** Lines *)

Definition is_newline (c : ascii) : bool := bool_decide (c = "010"%char).

(** A line without a carriage return at its end. *)
Definition strip_cr (l : list ascii) : list ascii :=
  if bool_decide (last l = Some "013"%char) then removelast l else l.

(** [struct LineSlicer]: the captured bytes, if they are captured, the partial line, and whether
    there is a callback. *)
Record LineSlicer := MkSlicer { full : option (list ascii); pending_line : list ascii; on_line : bool }.

(** The loop of [feed]: the lines it emits and what remains.  Each round removes a newline. *)
Fixpoint slice (fuel : nat) (l : list ascii) : list (list ascii) * list ascii :=
  match fuel with
  | O => ([], l)
  | S fuel =>
      match find_idx is_newline l with
      | None => ([], l)
      | Some nl => let '(ls, rest) := slice fuel (drop (S nl) l) in (strip_cr (take nl l) :: ls, rest)
      end
  end.

Definition feed (s : LineSlicer) (chunk : list ascii) : LineSlicer * list (list ascii) :=
  let captured := (fun f => f ++ chunk) <$> full s in
  if negb (on_line s) then (MkSlicer captured (pending_line s) false, [])
  else
    let l := pending_line s ++ chunk in
    let '(ls, rest) := slice (S (length l)) l in (MkSlicer captured rest true, ls).

Definition flush (s : LineSlicer) : LineSlicer * list (list ascii) :=
  if negb (on_line s) || bool_decide (pending_line s = []) then (s, [])
  else (MkSlicer (full s) [] true, match strip_cr (pending_line s) with [] => [] | l => [l] end).

Fixpoint feed_all (s : LineSlicer) (chunks : list (list ascii)) : LineSlicer * list (list ascii) :=
  match chunks with
  | [] => (s, [])
  | c :: chunks => let '(s, ls) := feed s c in let '(s, ls') := feed_all s chunks in (s, ls ++ ls')
  end.

(** *** The lines of a text *)

Fixpoint cut (l : list ascii) : list (list ascii) * list ascii :=
  match l with
  | [] => ([], [])
  | c :: l =>
      let '(ls, rest) := cut l in
      if is_newline c then ([] :: ls, rest)
      else match ls with [] => ([], c :: rest) | l :: ls => ((c :: l) :: ls, rest) end
  end.

(** Every terminated line, and what follows the last newline unless it is empty. *)
Definition text_lines (l : list ascii) : list (list ascii) :=
  map strip_cr (cut l).1 ++ match strip_cr (cut l).2 with [] => [] | l => [l] end.

Lemma cut_app a b : cut (a ++ b) = ((cut a).1 ++ (cut ((cut a).2 ++ b)).1, (cut ((cut a).2 ++ b)).2).
Proof.
  induction a as [|c a IH]; [apply surjective_pairing|]. cbn [app cut]. rewrite IH. destruct (cut a) as [ls rest]. cbn [fst snd].
  destruct (is_newline c) eqn:E; [done|]. destruct ls as [|l ls]; cbn [fst snd app]; [|done].
  cbn [cut]. rewrite E. by destruct (cut (rest ++ b)) as [[|l ls] r].
Qed.

Lemma cut_find l :
  cut l = match find_idx is_newline l with
          | None => ([], l)
          | Some nl => (take nl l :: (cut (drop (S nl) l)).1, (cut (drop (S nl) l)).2)
          end.
Proof.
  induction l as [|c l IH]; [done|]. cbn [cut find_idx]. destruct (is_newline c).
  { by rewrite (surjective_pairing (cut l)). }
  rewrite IH. by destruct (find_idx is_newline l) as [nl|].
Qed.

Lemma slice_cut fuel l : (length l < fuel)%nat -> slice fuel l = (map strip_cr (cut l).1, (cut l).2).
Proof.
  revert l. induction fuel as [|fuel IH]; intros l Hl; [lia|]. cbn [slice]. rewrite cut_find.
  destruct (find_idx is_newline l) as [nl|] eqn:E; [|done]. destruct l as [|c l]; [done|].
  rewrite IH by (rewrite length_drop; cbn in *; lia). done.
Qed.

Lemma feed_full s chunk : full (feed s chunk).1 = (fun f => f ++ chunk) <$> full s.
Proof. unfold feed. destruct (on_line s); cbn [negb]; [by destruct (slice _ _)|done]. Qed.

Lemma feed_cut s chunk :
  on_line s = true ->
  feed s chunk = (MkSlicer ((fun f => f ++ chunk) <$> full s) (cut (pending_line s ++ chunk)).2 true,
                  map strip_cr (cut (pending_line s ++ chunk)).1).
Proof. intros Ho. unfold feed. rewrite Ho. cbn [negb]. rewrite slice_cut by lia. done. Qed.

Lemma feed_all_cut chunks fed captured :
  feed_all (MkSlicer captured (cut fed).2 true) chunks =
  (MkSlicer ((fun f => f ++ concat chunks) <$> captured) (cut (fed ++ concat chunks)).2 true,
   map strip_cr (drop (length (cut fed).1) (cut (fed ++ concat chunks)).1)).
Proof.
  revert fed captured. induction chunks as [|c chunks IH]; intros fed captured; cbn [feed_all concat].
  { rewrite !app_nil_r. rewrite drop_all. f_equal. f_equal. destruct captured; cbn; by rewrite ?app_nil_r. }
  rewrite feed_cut by done. cbn [full pending_line].
  pose proof (cut_app fed c) as Hc. assert ((cut ((cut fed).2 ++ c)).2 = (cut (fed ++ c)).2) as -> by by rewrite Hc.
  rewrite IH, <- app_assoc. f_equal.
  - f_equal. destruct captured; cbn; by rewrite ?app_assoc.
  - rewrite <- map_app. f_equal. rewrite Hc. cbn [fst]. rewrite length_app, <- drop_drop.
    rewrite (cut_app fed (c ++ concat chunks)). cbn [fst]. rewrite drop_app_length.
    rewrite app_assoc, (cut_app ((cut fed).2 ++ c) (concat chunks)). cbn [fst]. by rewrite drop_app_length.
Qed.

(** C38. However a pipe delivers its bytes: they are captured unchanged, and the callback gets the
    lines of the whole text, in order, each once, without line ends. *)
Theorem slicer_chunking captured callback chunks :
  let '(s, ls) := feed_all (MkSlicer captured [] callback) chunks in
  full s = (fun f => f ++ concat chunks) <$> captured /\
  full (flush s).1 = full s /\
  ls ++ (flush s).2 = if callback then text_lines (concat chunks) else [].
Proof.
  destruct callback.
  - pose proof (feed_all_cut chunks [] captured) as H. cbn [cut fst snd app length drop] in H. rewrite H. cbn [full].
    split_and!; [done| |].
    + unfold flush. by destruct (_ || _).
    + unfold flush, text_lines. cbn [on_line negb orb pending_line]. case_bool_decide as E; cbn [snd]; [|done]. by rewrite E.
  - assert (forall chunks captured l, feed_all (MkSlicer captured l false) chunks = (MkSlicer ((fun f => f ++ concat chunks) <$> captured) l false, [])) as H.
    { clear. intros chunks. induction chunks as [|c chunks IH]; intros captured l; cbn [feed_all concat].
      - f_equal. f_equal. destruct captured; cbn; by rewrite ?app_nil_r.
      - unfold feed. cbn [on_line negb full pending_line]. rewrite IH. f_equal. f_equal. destruct captured; cbn; by rewrite ?app_assoc. }
    rewrite H. done.
Qed.

(** ** Windows command lines *)

Definition backslash : ascii := "092".
Definition quote : ascii := "034".
Definition wblank (c : ascii) : bool := bool_decide (c = " "%char) || bool_decide (c = "009"%char).

(** The loop of [quote_arg_w]: [backslashes] of them have been read but not written. *)
Fixpoint quote_chars (backslashes : nat) (arg : list ascii) : nat * list ascii :=
  match arg with
  | [] => (backslashes, [])
  | c :: arg =>
      if bool_decide (c = backslash) then quote_chars (S backslashes) arg
      else
        let '(n, out) := quote_chars 0 arg in
        (n, if bool_decide (c = quote) then repeat backslash (backslashes * 2 + 1) ++ quote :: out
            else repeat backslash backslashes ++ c :: out)
  end.

Definition needs_quote (arg : list ascii) : bool :=
  bool_decide (arg = []) || existsb (fun c => wblank c || bool_decide (c = quote)) arg.

(** [quote_arg_w]; every [wchar_t] it writes is a byte of the argument. *)
Definition quote_arg_w (arg : string) : list ascii :=
  let '(n, out) := quote_chars 0 (chars arg) in
  if needs_quote (chars arg) then quote :: out ++ repeat backslash (n * 2) ++ [quote] else out ++ repeat backslash n.

(** [spawn_sync]'s command line. *)
Definition command_line (executable : string) (arguments : list string) : list ascii :=
  quote_arg_w executable ++ concat (map (fun a => " "%char :: quote_arg_w a) arguments).

(** *** [CommandLineToArgvW], as documented

    Outside quotes, blanks separate arguments; [2 n] backslashes and a quote are [n] backslashes
    and open or close the quotes, [2 n + 1] backslashes and a quote are [n] backslashes and a
    quote, and other backslashes stand for themselves.  The state is the argument so far, the
    backslashes before the next character and whether quotes are open. *)
Fixpoint parse_arguments (l : list ascii) (st : option (bool * nat * list ascii)) : list (list ascii) :=
  match l with
  | [] => match st with None => [] | Some (_, n, cur) => [cur ++ repeat backslash n] end
  | c :: l =>
      let '(q, n, cur) := default (false, 0%nat, []) st in
      if bool_decide (c = backslash) then parse_arguments l (Some (q, S n, cur))
      else if bool_decide (c = quote) then
        if Nat.even n then parse_arguments l (Some (negb q, 0%nat, cur ++ repeat backslash (n / 2)))
        else parse_arguments l (Some (q, 0%nat, cur ++ repeat backslash (n / 2) ++ [quote]))
      else if wblank c && negb q then
        match st with None => parse_arguments l None | Some _ => (cur ++ repeat backslash n) :: parse_arguments l None end
      else parse_arguments l (Some (q, 0%nat, cur ++ repeat backslash n ++ [c]))
  end.

(** The program's name has no escapes: it ends at the next quote or, without quotes, at a blank. *)
Definition parse_command_line (l : list ascii) : list (list ascii) :=
  match l with
  | c :: rest =>
      if bool_decide (c = quote)
      then take_while (fun x => negb (bool_decide (x = quote))) rest ::
           parse_arguments (tail (drop_while (fun x => negb (bool_decide (x = quote))) rest)) None
      else take_while (fun x => negb (wblank x)) l :: parse_arguments (drop_while (fun x => negb (wblank x)) l) None
  | [] => []
  end.

Lemma parse_backslashes k l q n cur :
  parse_arguments (repeat backslash k ++ l) (Some (q, n, cur)) = parse_arguments l (Some (q, (n + k)%nat, cur)).
Proof.
  revert n. induction k as [|k IH]; intros n; [by rewrite Nat.add_0_r|]. cbn [repeat app parse_arguments from_option id]. rewrite bool_decide_true by done.
  rewrite IH. by replace (S n + k)%nat with (n + S k)%nat by lia.
Qed.

Lemma even_double k : Nat.even (k * 2) = true.
Proof. apply Nat.even_spec. exists k. lia. Qed.

Lemma even_double_1 k : Nat.even (k * 2 + 1) = false.
Proof. apply not_true_iff_false. rewrite Nat.even_spec. intros [m Hm]. lia. Qed.

(** The quoted characters, read with quotes open or, without blanks, closed; the last
    backslashes are still to come. *)
Lemma parse_quoted arg k q l cur :
  (q = false -> forallb (fun c => negb (wblank c)) arg = true) ->
  exists cur', parse_arguments ((quote_chars k arg).2 ++ l) (Some (q, 0%nat, cur)) = parse_arguments l (Some (q, 0%nat, cur')) /\
    cur' ++ repeat backslash (quote_chars k arg).1 = cur ++ repeat backslash k ++ arg.
Proof.
  revert k cur. induction arg as [|c arg IH]; intros k cur Hq; [exists cur; by rewrite app_nil_r|].
  assert (q = false -> forallb (fun c => negb (wblank c)) arg = true) as Hq' by (intros E; specialize (Hq E); cbn in Hq; by apply andb_true_iff in Hq as [_ ?]).
  cbn [quote_chars]. case_bool_decide as Hb.
  { subst c. destruct (IH (S k) cur Hq') as (cur' & Hp & He). exists cur'. split; [done|].
    rewrite He. f_equal. cbn [repeat]. rewrite repeat_cons, <- app_assoc. done. }
  destruct (quote_chars 0 arg) as [n out] eqn:E. cbn [fst snd]. case_bool_decide as Hc.
  - subst c. destruct (IH 0%nat (cur ++ repeat backslash k ++ [quote]) Hq') as (cur' & Hp & He). rewrite E in Hp, He. cbn [fst snd] in Hp, He.
    exists cur'. split; [|rewrite He, <- !app_assoc; done].
    rewrite <- app_assoc, parse_backslashes. cbn [app Nat.add parse_arguments from_option id]. rewrite bool_decide_false by done. rewrite bool_decide_true by done.
    rewrite even_double_1. by replace ((k * 2 + 1) / 2)%nat with k by (symmetry; rewrite Nat.add_comm, Nat.div_add; cbn; lia).
  - destruct (IH 0%nat (cur ++ repeat backslash k ++ [c]) Hq') as (cur' & Hp & He). rewrite E in Hp, He. cbn [fst snd] in Hp, He.
    exists cur'. split; [|rewrite He, <- !app_assoc; done].
    rewrite <- app_assoc, parse_backslashes. cbn [app Nat.add parse_arguments from_option id]. rewrite !bool_decide_false by done.
    replace (wblank c && negb q) with false; [done|]. symmetry. destruct q; [apply andb_false_r|]. specialize (Hq eq_refl). cbn in Hq. apply andb_true_iff in Hq as [Hq _].
    by destruct (wblank c).
Qed.

(** What ends an argument: the end of the line or a blank. *)
Definition ends_argument (l : list ascii) : bool := match l with [] => true | c :: _ => wblank c end.

Lemma wblank_cases c : wblank c = true -> bool_decide (c = backslash) = false /\ bool_decide (c = quote) = false.
Proof. unfold wblank. intros [->%bool_decide_eq_true | ->%bool_decide_eq_true]%orb_true_iff; done. Qed.

Lemma parse_end l n cur :
  ends_argument l = true -> parse_arguments l (Some (false, n, cur)) = (cur ++ repeat backslash n) :: parse_arguments l None.
Proof.
  destruct l as [|c l]; cbn [ends_argument]; [done|]. intros Hc. destruct (wblank_cases c Hc) as [H1 H2]. cbn [parse_arguments from_option id].
  by rewrite H1, H2, Hc.
Qed.

Lemma parse_start c l : wblank c = false -> parse_arguments (c :: l) None = parse_arguments (c :: l) (Some (false, 0%nat, [])).
Proof. intros Hc. cbn [parse_arguments from_option id]. rewrite Hc. done. Qed.

Lemma needs_quote_false arg : needs_quote arg = false -> arg <> [] /\ forallb (fun c => negb (wblank c)) arg = true /\ quote ∉ arg.
Proof.
  unfold needs_quote. intros [H1%bool_decide_eq_false H2]%orb_false_iff. split; [done|].
  clear H1. induction arg as [|c arg IH]; [split; [done|apply not_elem_of_nil]|]. cbn in H2 |- *. apply orb_false_iff in H2 as [[H1 H3%bool_decide_eq_false]%orb_false_iff H2].
  destruct (IH H2) as [-> Hn]. rewrite H1. split; [done|]. rewrite not_elem_of_cons. split; [by intros E|done].
Qed.

Lemma quote_chars_head arg k :
  forallb (fun c => negb (wblank c)) arg = true -> (0 < k)%nat \/ arg <> [] ->
  exists x l, (quote_chars k arg).2 ++ repeat backslash (quote_chars k arg).1 = x :: l /\ wblank x = false.
Proof.
  revert k. induction arg as [|c arg IH]; intros k Hb Hk.
  - destruct Hk as [Hk|]; [|done]. destruct k; [lia|]. by eexists _, _.
  - cbn in Hb. apply andb_true_iff in Hb as [Hc Hb]. cbn [quote_chars]. case_bool_decide as Hbs; [apply IH; [done|left; lia]|].
    destruct (quote_chars 0 arg) as [n out]. cbn [fst snd]. case_bool_decide.
    + replace (k * 2 + 1)%nat with (S (k * 2)) by lia. by eexists _, _.
    + destruct k; cbn; eexists _, _; (split; [reflexivity|]); [by destruct (wblank c)|done].
Qed.

(** One argument is read back. *)
Lemma parse_quote_arg arg l : ends_argument l = true -> parse_arguments (quote_arg_w arg ++ l) None = chars arg :: parse_arguments l None.
Proof.
  intros Hl. unfold quote_arg_w. destruct (quote_chars 0 (chars arg)) as [n out] eqn:E. destruct (needs_quote (chars arg)) eqn:Hn.
  - cbn [app parse_arguments from_option id]. change (bool_decide (quote = backslash)) with false. change (bool_decide (quote = quote)) with true. cbn [Nat.even repeat Nat.div app negb].
    destruct (parse_quoted (chars arg) 0 true (repeat backslash (n * 2) ++ [quote] ++ l) [] ltac:(done)) as (cur & Hp & He).
    rewrite E in Hp, He. cbn [fst snd app repeat] in Hp, He.
    rewrite <- app_assoc, <- app_assoc. etransitivity; [exact Hp|].
    rewrite parse_backslashes. cbn [Nat.add app parse_arguments from_option id]. change (bool_decide (quote = backslash)) with false. change (bool_decide (quote = quote)) with true.
    cbv iota. rewrite even_double. rewrite Nat.div_mul by lia. cbn [negb]. rewrite parse_end by done. cbn [repeat]. by rewrite app_nil_r, He.
  - destruct (needs_quote_false _ Hn) as (Hne & Hb & _). destruct (chars arg) as [|c cs] eqn:Ea; [done|]. cbn in Hb. apply andb_true_iff in Hb as [Hc Hb].
    destruct (quote_chars_head (c :: cs) 0) as (x & xs & Hx & Hw); [cbn; by rewrite Hc, Hb|by right|]. rewrite E in Hx. cbn [fst snd] in Hx.
    rewrite Hx. cbn [app]. rewrite parse_start by done. change (x :: xs ++ l) with ((x :: xs) ++ l). rewrite <- Hx.
    destruct (parse_quoted (c :: cs) 0 false (repeat backslash n ++ l) [] ltac:(cbn; by rewrite Hc, Hb)) as (cur & Hp & He).
    rewrite E in Hp, He. cbn [fst snd app repeat] in Hp, He. rewrite <- app_assoc, Hp, parse_backslashes. cbn [Nat.add]. by rewrite parse_end, He.
Qed.

Lemma parse_arguments_list args : parse_arguments (concat (map (fun a => " "%char :: quote_arg_w a) args)) None = map chars args.
Proof.
  induction args as [|a args IH]; [done|]. cbn [map concat]. rewrite <- app_comm_cons. cbn [parse_arguments from_option id].
  change (bool_decide (" "%char = backslash)) with false. change (bool_decide (" "%char = quote)) with false. change (wblank " " && negb false) with true. cbv iota.
  rewrite parse_quote_arg; [by rewrite IH|]. by destruct args.
Qed.

(** A program's name, as Windows allows them: no quotes, and no separator at its end. *)
Definition program_name (s : string) : Prop := chars s <> [] /\ quote ∉ chars s /\ last (chars s) <> Some backslash.

Lemma quote_chars_plain arg k :
  quote ∉ arg -> (quote_chars k arg).2 ++ repeat backslash (quote_chars k arg).1 = repeat backslash k ++ arg /\
  (arg <> [] -> last arg <> Some backslash -> (quote_chars k arg).1 = 0%nat).
Proof.
  revert k. induction arg as [|c arg IH]; intros k Hq; [by rewrite app_nil_r|]. apply not_elem_of_cons in Hq as [Hc Hq]. cbn [quote_chars].
  case_bool_decide as Hb.
  - subst c. destruct (IH (S k) Hq) as [H1 H2]. split.
    + rewrite H1. cbn [repeat]. rewrite repeat_cons, <- app_assoc. done.
    + intros _ Hl. rewrite last_cons in Hl. destruct arg; [done|]. apply H2; [done|]. by destruct (last (a :: arg)).
  - destruct (IH 0%nat Hq) as [H1 H2]. destruct (quote_chars 0 arg) as [n out] eqn:E. cbn [fst snd] in *. rewrite (bool_decide_false (c = quote)) by (intros ->; done).
    rewrite <- app_assoc. cbn [app]. rewrite H1. split; [done|]. intros _ Hl. rewrite last_cons in Hl.
    destruct arg as [|a arg]; [by injection E|]. apply H2; [done|]. by destruct (last (a :: arg)).
Qed.

Lemma quote_program s : program_name s -> quote_arg_w s = if needs_quote (chars s) then quote :: chars s ++ [quote] else chars s.
Proof.
  intros (Hne & Hq & Hl). destruct (quote_chars_plain (chars s) 0 Hq) as [H1 H2]. specialize (H2 Hne Hl). unfold quote_arg_w.
  destruct (quote_chars 0 (chars s)) as [n out]. cbn [fst snd repeat app] in H1, H2. subst n. cbn [Nat.mul repeat app] in *. rewrite app_nil_r in *. by rewrite H1.
Qed.

(** A Windows program that reads its command line as documented gets the executable's name and
    exactly the arguments, whatever blanks, quotes and backslashes they hold. *)
Theorem windows_command_line_roundtrip executable arguments :
  program_name executable -> parse_command_line (command_line executable arguments) = map chars (executable :: arguments).
Proof.
  intros Hp. unfold command_line. rewrite quote_program by done. destruct Hp as (Hne & Hq & _). cbn [map]. rewrite <- (parse_arguments_list arguments).
  set (rest := concat (map (fun a => " "%char :: quote_arg_w a) arguments)).
  assert (rest = [] \/ exists l, rest = " "%char :: l) as Hrest by (unfold rest; destruct arguments; [by left|right; by eexists]).
  destruct (needs_quote (chars executable)) eqn:Hn.
  - cbn [app parse_command_line]. rewrite bool_decide_true by done. rewrite <- app_assoc. cbn [app].
    destruct (take_while_app_stop (fun x => negb (bool_decide (x = quote))) (chars executable) quote rest) as [-> ->]; [|by rewrite bool_decide_true|done].
    apply Forall_forall. intros x Hx. rewrite bool_decide_false; [done|]. by intros ->.
  - destruct (needs_quote_false _ Hn) as (_ & Hb & _). destruct (chars executable) as [|c cs] eqn:E; [done|]. cbn [app parse_command_line].
    rewrite bool_decide_false by (apply not_elem_of_cons in Hq as [Hq _]; by intros ->).
    assert (Forall (fun x => negb (wblank x) = true) (c :: cs)) as Hall.
    { apply Forall_forall. intros x Hx. rewrite forallb_forall in Hb. apply Hb. by apply list_elem_of_In. }
    destruct Hrest as [->|[l ->]].
    + pose proof (drop_while_all _ _ [] Hall) as Hd. pose proof (take_while_all _ _ [] Hall) as Ht. rewrite app_nil_r in Hd, Ht.
      by rewrite app_nil_r, Hd, Ht, app_nil_r.
    + change (c :: cs ++ " "%char :: l) with ((c :: cs) ++ " "%char :: l).
      by destruct (take_while_app_stop (fun x => negb (wblank x)) (c :: cs) " "%char l Hall eq_refl) as [-> ->].
Qed.

(** ** The runner, for its clients *)

(** [Subprocess::run] with the callback for lines of its standard output, over the state that the
    callback captures; no callback is one that does nothing. *)
Class SubprocessRunner (W : Type) :=
  subprocess_run : forall S, SubprocessRequest -> (string -> M (S * W) unit) -> M (S * W) (Result SubprocessResult).

(** The callback gets lines one by one, and the world changes around it. *)
Inductive fed {S W} (around : W -> W -> Prop) (callback : string -> M (S * W) unit) : list string -> S * W -> S * W -> Prop :=
| fed_end s w w' : around w w' -> fed around callback [] (s, w) (s, w')
| fed_line line lines s w w' c : around w w' -> fed around callback lines (callback line (s, w')).2 c -> fed around callback (line :: lines) (s, w) c.

Class SubprocessLaws (W : Type) {runner : SubprocessRunner W} (around : W -> W -> Prop) : Prop :=
  run_feeds S request callback (s : S) w : exists lines, fed around callback lines (s, w) (subprocess_run S request callback (s, w)).2.

Section Clients.
  Context {W : Type} `{runner : !SubprocessRunner W}.

(** A run without callback. *)
Definition run_quietly (request : SubprocessRequest) : M W (Result SubprocessResult) :=
  fun w => let '(r, (_, w')) := subprocess_run unit request (fun _ => co_return ()) ((), w) in (r, w').

(** [version_of]: the first line of what [--version] prints, with ten seconds' time. *)
Definition version_of (executable version_flag : string) : M W (Result string) :=
  co_try result <- run_quietly (MkRequest executable [version_flag] [] "" true true None (10 * 1000));
  co_return (Ok (of_chars (take_while (fun c => negb (bool_decide (c ∈ ["013"%char; "010"%char]))) (chars (stdout_data result))))).

End Clients.

(** ** Concrete runs *)

Example feed_crlf :
  (feed_all (MkSlicer (Some []) [] true) (map chars ["a" +:+ newline +:+ "b"; "c"; of_chars ["013"%char; "010"%char; "d"%char]])).2 = map chars ["a"; "bc"].
Proof. by vm_compute. Qed.

Lemma windows_command_line_roundtrip_witness :
  program_name "C:\tools\7z.exe" /\
  parse_command_line (command_line "C:\tools\7z.exe" ["x"; "-o C:\out dir\"; ""; of_chars ["a"%char; backslash; quote; "b"%char]]) =
  map chars ["C:\tools\7z.exe"; "x"; "-o C:\out dir\"; ""; of_chars ["a"%char; backslash; quote; "b"%char]].
Proof.
  assert (program_name "C:\tools\7z.exe") as H by (split; [done|split; [apply (bool_decide_eq_true_1 _); by vm_compute|done]]).
  split; [exact H|]. exact (windows_command_line_roundtrip _ _ H).
Defined.
