(* ===== verification/Supervisor.v ===== *)
(** * Supervision of a POSIX child: [spawn_sync], [CancelHandle] and [run] of [subprocess.cpp]

    The worker thread starts the child, drains its pipes, waits for it and ends it after a
    deadline or a cancellation; the cancellation handler runs on another thread.  Both are steps
    of one relation, in which every answer of the system comes with the event; the threads'
    accesses to the shared atomics interleave in any order and are sequentially consistent.
    Times are in milliseconds. *)

From S2P Require Import Prelude CoreError Subprocess.

(** ** The system *)

(** What [waitpid] stores, as [WIFEXITED] and its relatives read it. *)
Inductive WaitStatus := WExited (code : Z) | WSignaled (sig : Z) | WOther.
Inductive Signal := SIGTERM | SIGKILL.

(** The child, for the kernel: a process that was reaped has given up its pid. *)
Inductive Child := NotForked | Running | Zombie (st : WaitStatus) | Reaped (st : WaitStatus).

Inductive Fd := StdinRead | StdinWrite | StdoutRead | StdoutWrite | StderrRead | StderrWrite.
Definition all_fds : list Fd := [StdinRead; StdinWrite; StdoutRead; StdoutWrite; StderrRead; StderrWrite].

#[global] Instance WaitStatus_eq_dec : EqDecision WaitStatus.
Proof. solve_decision. Defined.
#[global] Instance Fd_eq_dec : EqDecision Fd.
Proof. solve_decision. Defined.
#[global] Instance Child_eq_dec : EqDecision Child.
Proof. solve_decision. Defined.
#[global] Instance Signal_eq_dec : EqDecision Signal.
Proof. solve_decision. Defined.

(** The answers of [poll], [read] and [waitpid]; a ready stream is standard output when [true]. *)
Inductive PollAnswer := PollInterrupted | PollFailed | PollRound | PollReady (streams : list bool).
Inductive ReadAnswer := ReadBytes (chunk : list ascii) | ReadEof | ReadAgain | ReadInterrupted | ReadFailed.
Inductive WaitAnswer := WaitReaped (st : WaitStatus) | WaitNone | WaitInterrupted | WaitFailed.

(** ** The threads *)

(** Where the worker is. *)
Inductive Phase :=
| Starting
| Forking
| Publishing
| Checking
| Writing (off : nat)
| Polling
| Reading (streams : list bool)
| Waiting
| GraceStart
| Grace (hard_deadline : Z)
| Killing
| Detaching
| Finished (r : Result SubprocessResult).

(** Where [kill_now] is: it stores [cancelled], loads [pid] and signals what it loaded. *)
Inductive Canceller := CancelIdle | CancelStored | CancelLoaded (pid : Z) | CancelDone.

(** A pipe that is drained: whether it is open, its slicer, and the chunks that were read. *)
Record Stream := MkStream { is_open : bool; slicer : LineSlicer; chunks_read : list (list ascii) }.

(** The worker's variables, the [CancelHandle] with the cancelling thread, and the system: the
    open descriptors, the child, and the signals sent, each with the child at that time. *)
Record Supervision := MkSup {
  phase : Phase;
  start : Z;
  status : WaitStatus;
  deadline_hit : bool;
  cancel_seen : bool;
  out : Stream;
  err : Stream;
  pid : Z;
  handle_pid : Z;
  cancelled : bool;
  canceller : Canceller;
  fds : list Fd;
  child : Child;
  signals : list (Signal * Child)
}.

Definition goto (p : Phase) (s : Supervision) : Supervision :=
  MkSup p (start s) (status s) (deadline_hit s) (cancel_seen s) (out s) (err s) (pid s) (handle_pid s) (cancelled s) (canceller s) (fds s) (child s) (signals s).
Definition set_flags (hit seen : bool) (s : Supervision) : Supervision :=
  MkSup (phase s) (start s) (status s) hit seen (out s) (err s) (pid s) (handle_pid s) (cancelled s) (canceller s) (fds s) (child s) (signals s).
Definition set_stream (stdout : bool) (st : Stream) (s : Supervision) : Supervision :=
  MkSup (phase s) (start s) (status s) (deadline_hit s) (cancel_seen s) (if stdout then st else out s) (if stdout then err s else st)
    (pid s) (handle_pid s) (cancelled s) (canceller s) (fds s) (child s) (signals s).
Definition set_handle (p : Z) (c : bool) (k : Canceller) (s : Supervision) : Supervision :=
  MkSup (phase s) (start s) (status s) (deadline_hit s) (cancel_seen s) (out s) (err s) (pid s) p c k (fds s) (child s) (signals s).
Definition set_fds (l : list Fd) (s : Supervision) : Supervision :=
  MkSup (phase s) (start s) (status s) (deadline_hit s) (cancel_seen s) (out s) (err s) (pid s) (handle_pid s) (cancelled s) (canceller s) l (child s) (signals s).
Definition set_child (c : Child) (s : Supervision) : Supervision :=
  MkSup (phase s) (start s) (status s) (deadline_hit s) (cancel_seen s) (out s) (err s) (pid s) (handle_pid s) (cancelled s) (canceller s) (fds s) c (signals s).

(** [kill(pid, sig)]. *)
Definition kill (sig : Signal) (s : Supervision) : Supervision :=
  MkSup (phase s) (start s) (status s) (deadline_hit s) (cancel_seen s) (out s) (err s) (pid s) (handle_pid s) (cancelled s) (canceller s) (fds s) (child s)
    (signals s ++ [(sig, child s)]).

Definition close_fds (l : list Fd) (s : Supervision) : Supervision := set_fds (filter (fun fd => fd ∉ l) (fds s)) s.

(** [waitpid] took the child. *)
Definition reap (st : WaitStatus) (s : Supervision) : Supervision :=
  MkSup (phase s) (start s) st (deadline_hit s) (cancel_seen s) (out s) (err s) (pid s) (handle_pid s) (cancelled s) (canceller s) (fds s) (Reaped st) (signals s).

(** ** [spawn_sync] *)

(** The status as the result's exit code. *)
Definition exit_code_of (st : WaitStatus) : Z :=
  match st with WExited code => code | WSignaled sig => 128 + sig | WOther => -1 end.

Section Spawn.
  Context (request : SubprocessRequest).

Definition deadline (s : Supervision) : Z := start s + rq_timeout request.

Definition captured (stdout : bool) : option (list ascii) :=
  if (if stdout then rq_capture_stdout request else rq_capture_stderr request) then Some [] else None.

(** The variables before the first call. *)
Definition fresh_supervision (callback_out callback_err : bool) : Supervision :=
  MkSup (if str_empty (rq_executable request)
         then Finished (error InvalidArgument "Subprocess: empty executable path") else Starting)
    0 (WExited 0) false false (MkStream true (MkSlicer (captured true) [] callback_out) []) (MkStream true (MkSlicer (captured false) [] callback_err) [])
    0 0 false CancelIdle [] NotForked [].

(** Behind the drain loop: close the pipes; a child that was signalled gets its grace. *)
Definition leave_drain (s : Supervision) : Supervision :=
  goto (if deadline_hit s || cancel_seen s then GraceStart else Waiting) (close_fds [StdoutRead; StderrRead] s).

(** The condition of the drain loop. *)
Definition poll_or_leave (s : Supervision) : Supervision :=
  if is_open (out s) || is_open (err s) then goto Polling s else leave_drain s.

Definition next_stream (l : list bool) (s : Supervision) : Supervision :=
  match l with [] => poll_or_leave s | _ => goto (Reading l) s end.

(** Before and after a [write] to the child's input; then that pipe is closed. *)
Definition write_or_drain (off : nat) (s : Supervision) : Supervision :=
  match rq_stdin_data request with
  | Some d => if (off <? str_size d)%nat then goto (Writing off) s else poll_or_leave (close_fds [StdinWrite] s)
  | None => poll_or_leave (close_fds [StdinWrite] s)
  end.

(** A round of the drain loop: the deadline, the cancellation, then [poll]. *)
Definition poll_round (now : Z) (answer : PollAnswer) (s : Supervision) : Supervision :=
  if deadline s <=? now then leave_drain (kill SIGTERM (set_flags true (cancel_seen s) s))
  else if cancelled s then leave_drain (set_flags (deadline_hit s) true s)
  else match answer with
       | PollInterrupted | PollRound => s
       | PollFailed => leave_drain s
       | PollReady l => next_stream l s
       end.

(** [drain_one], a [read] at a time. *)
Definition read_round (answer : ReadAnswer) (stdout : bool) (l : list bool) (s : Supervision) : Supervision :=
  let st := if stdout then out s else err s in
  match answer with
  | ReadBytes chunk => set_stream stdout (MkStream (is_open st) (feed (slicer st) chunk).1 (chunks_read st ++ [chunk])) s
  | ReadEof | ReadFailed => next_stream l (set_stream stdout (MkStream false (flush (slicer st)).1 (chunks_read st)) s)
  | ReadAgain => next_stream l s
  | ReadInterrupted => s
  end.

(** A round of the loop that waits for the end of a child that closed its pipes. *)
Definition wait_round (now : Z) (answer : WaitAnswer) (s : Supervision) : Supervision :=
  match answer with
  | WaitReaped st => goto Detaching (reap st s)
  | WaitInterrupted => s
  | WaitFailed => goto (Finished (error SubprocessFailed "Subprocess: waitpid failed")) (set_handle 0 (cancelled s) (canceller s) s)
  | WaitNone =>
      if deadline s <=? now then goto GraceStart (kill SIGTERM (set_flags true (cancel_seen s) s))
      else if cancelled s then goto GraceStart (set_flags (deadline_hit s) true s)
      else s
  end.

(** A round of the five seconds' grace, and [SIGKILL] behind it. *)
Definition grace_round (hard_deadline now : Z) (answer : WaitAnswer) (s : Supervision) : Supervision :=
  if hard_deadline <=? now then goto Killing (kill SIGKILL s)
  else match answer with
       | WaitReaped st => goto Detaching (reap st s)
       | WaitFailed => goto Killing (kill SIGKILL s)
       | WaitInterrupted | WaitNone => s
       end.

(** The end: the pid is taken from the handle and the result is put together. *)
Definition finish_child (now : Z) (s : Supervision) : Supervision :=
  let code := exit_code_of (status s) in
  let text st := of_chars (default [] (full (slicer st))) in
  goto (Finished
    (if (code =? 127) && negb (deadline_hit s) then error NotFound ("Subprocess: executable not found: " +:+ rq_executable request)
     else Ok (MkResult code (text (out s)) (text (err s)) (now - start s) (deadline_hit s) (cancel_seen s))))
    (set_handle 0 (cancelled s) (canceller s) s).

(** ** Steps *)

Inductive Event :=
| EPipes (now : Z) (ok : bool)
| EFork (child_pid : option Z)
| EPublish
| ECheck
| EWrite (n : option nat)
| EPoll (now : Z) (answer : PollAnswer)
| ERead (answer : ReadAnswer)
| EWait (now : Z) (answer : WaitAnswer)
| EGraceStart (now : Z)
| EGrace (now : Z) (answer : WaitAnswer)
| EKilled (answer : WaitAnswer)
| EDetach (now : Z)
| ECancelStore
| ECancelLoad
| ECancelKill
| EChildExits (st : WaitStatus).

(** What [waitpid] can answer, given the child. *)
Definition wait_possible (answer : WaitAnswer) (s : Supervision) : bool :=
  match answer with
  | WaitReaped st => bool_decide (child s = Zombie st)
  | WaitNone => bool_decide (child s = Running)
  | WaitInterrupted | WaitFailed => true
  end.

(** [poll] reports events on descriptors it was given. *)
Definition poll_possible (answer : PollAnswer) (s : Supervision) : bool :=
  match answer with PollReady l => forallb (fun stdout : bool => is_open (if stdout then out s else err s)) l | _ => true end.

(** The worker's next step with the system's answer. *)
Definition worker_step (e : Event) (s : Supervision) : option Supervision :=
  match e, phase s with
  | EPipes now ok, Starting =>
      let s := MkSup (phase s) now (status s) (deadline_hit s) (cancel_seen s) (out s) (err s) (pid s) (handle_pid s) (cancelled s) (canceller s) (fds s) (child s) (signals s) in
      Some (if ok then goto Forking (set_fds all_fds s) else goto (Finished (error Io "Subprocess: pipe() failed")) s)
  | EFork None, Forking => Some (goto (Finished (error SubprocessFailed "Subprocess: fork() failed")) (close_fds all_fds s))
  | EFork (Some p), Forking =>
      if p <=? 0 then None
      else Some (MkSup Publishing (start s) (status s) (deadline_hit s) (cancel_seen s) (out s) (err s) p (handle_pid s) (cancelled s) (canceller s) (fds s) Running (signals s))
  | EPublish, Publishing => Some (goto Checking (set_handle (pid s) (cancelled s) (canceller s) s))
  | ECheck, Checking =>
      Some (write_or_drain 0 (close_fds [StdinRead; StdoutWrite; StderrWrite] (if cancelled s then kill SIGTERM s else s)))
  | EWrite None, Writing _ => Some (poll_or_leave (close_fds [StdinWrite] s))
  | EWrite (Some n), Writing off => Some (write_or_drain (off + n) s)
  | EPoll now answer, Polling => if poll_possible answer s then Some (poll_round now answer s) else None
  | ERead answer, Reading (stdout :: l) => Some (read_round answer stdout l s)
  | EWait now answer, Waiting => if wait_possible answer s then Some (wait_round now answer s) else None
  | EGraceStart now, GraceStart => Some (goto (Grace (now + 5000)) s)
  | EGrace now answer, Grace hard => if wait_possible answer s then Some (grace_round hard now answer s) else None
  | EKilled (WaitReaped st), Killing => if wait_possible (WaitReaped st) s then Some (goto Detaching (reap st s)) else None
  | EKilled WaitNone, Killing => None
  | EKilled _, Killing => Some (goto Detaching s)
  | EDetach now, Detaching => Some (finish_child now s)
  | _, _ => None
  end.

(** [kill_now], an access at a time, and the end of the child. *)
Definition environment_step (e : Event) (s : Supervision) : option Supervision :=
  match e, canceller s, child s with
  | ECancelStore, CancelIdle, _ => Some (set_handle (handle_pid s) true CancelStored s)
  | ECancelLoad, CancelStored, _ => Some (set_handle (handle_pid s) (cancelled s) (CancelLoaded (handle_pid s)) s)
  | ECancelKill, CancelLoaded p, _ =>
      let s := set_handle (handle_pid s) (cancelled s) CancelDone s in Some (if 0 <? p then kill SIGTERM s else s)
  | EChildExits st, _, Running => Some (set_child (Zombie st) s)
  | _, _, _ => None
  end.

Definition supervision_step (e : Event) (s : Supervision) : option Supervision :=
  match e with
  | ECancelStore | ECancelLoad | ECancelKill | EChildExits _ => environment_step e s
  | _ => worker_step e s
  end.

Fixpoint supervise (es : list Event) (s : Supervision) : option Supervision :=
  match es with [] => Some s | e :: es => s' ← supervision_step e s; supervise es s' end.

(** ** Invariant *)

Definition early (p : Phase) : bool := match p with Starting | Forking | Publishing | Checking => true | _ => false end.
Definition over (p : Phase) : bool := match p with Finished _ => true | _ => false end.
Definition alive (c : Child) : Prop := match c with Running | Zombie _ => True | _ => False end.
Definition signalled (s : Supervision) : Prop := SIGTERM ∈ (signals s).*1.

(** The descriptors that are open in a phase. *)
Definition open_in (p : Phase) : list Fd :=
  match p with
  | Forking | Publishing | Checking => all_fds
  | Writing _ => [StdinWrite; StdoutRead; StderrRead]
  | Polling | Reading _ => [StdoutRead; StderrRead]
  | _ => []
  end.

Definition result_ok (r : SubprocessResult) (s : Supervision) : Prop :=
  child s = Reaped (status s) /\ exit_code r = exit_code_of (status s) /\ timed_out r = deadline_hit s /\ was_cancelled r = cancel_seen s /\
  stdout_data r = of_chars (default [] ((fun _ => concat (chunks_read (out s))) <$> captured true)) /\
  stderr_data r = of_chars (default [] ((fun _ => concat (chunks_read (err s))) <$> captured false)).

(** Where the child is, and whether the handle knows it. *)
Definition child_ok (s : Supervision) : Prop :=
  match phase s with
  | Starting | Forking => child s = NotForked /\ handle_pid s = 0
  | Publishing => alive (child s) /\ 0 < pid s /\ handle_pid s = 0
  | Detaching => child s = Reaped (status s) /\ 0 < pid s /\ handle_pid s = pid s
  | Finished (Ok r) => handle_pid s = 0 /\ result_ok r s
  | Finished (Err _) => handle_pid s = 0
  | _ => alive (child s) /\ 0 < pid s /\ handle_pid s = pid s
  end.

(** A cancellation that has loaded the pid, or is over. *)
Definition looked (k : Canceller) : bool := match k with CancelLoaded p => p <=? 0 | CancelDone => true | _ => false end.

Record supervision_ok (s : Supervision) : Prop := {
  fds_ok : fds s = open_in (phase s);
  phase_ok : child_ok s;
  flag_ok : cancelled s = true <-> canceller s <> CancelIdle;
  looked_ok : looked (canceller s) = true -> early (phase s) = true \/ signalled s \/ over (phase s) = true;
  hit_ok : deadline_hit s = true -> signalled s;
  seen_ok : cancel_seen s = true -> cancelled s = true;
  out_ok : full (slicer (out s)) = (fun _ => concat (chunks_read (out s))) <$> captured true;
  err_ok : full (slicer (err s)) = (fun _ => concat (chunks_read (err s))) <$> captured false
}.

Lemma signalled_kill sig s : signalled s \/ sig = SIGTERM -> signalled (kill sig s).
Proof. unfold signalled. cbn [kill signals]. rewrite fmap_app. intros [H| ->]; set_solver. Qed.

Lemma ok_fresh b1 b2 : supervision_ok (fresh_supervision b1 b2).
Proof.
  unfold fresh_supervision. destruct (str_empty (rq_executable request)); split; unfold child_ok, captured; cbn; try done;
    first [by destruct (rq_capture_stdout request)|by destruct (rq_capture_stderr request)].
Qed.

(** *** A worker behind the publication of the pid, with a child that was not waited for *)

Record running_ok (s : Supervision) : Prop := {
  r_alive : alive (child s);
  r_pid : 0 < pid s;
  r_handle : handle_pid s = pid s;
  r_flag : cancelled s = true <-> canceller s <> CancelIdle;
  r_looked : looked (canceller s) = true -> signalled s;
  r_hit : deadline_hit s = true -> signalled s;
  r_seen : cancel_seen s = true -> cancelled s = true;
  r_out : full (slicer (out s)) = (fun _ => concat (chunks_read (out s))) <$> captured true;
  r_err : full (slicer (err s)) = (fun _ => concat (chunks_read (err s))) <$> captured false
}.

Definition supervising (p : Phase) : bool :=
  match p with Writing _ | Polling | Reading _ | Waiting | GraceStart | Grace _ | Killing => true | _ => false end.

Lemma running_of s : supervision_ok s -> supervising (phase s) = true -> running_ok s.
Proof.
  intros [Hf Hp Hfl Hl Hh Hs Ho He] Hr. unfold child_ok in Hp. assert (alive (child s) /\ 0 < pid s /\ handle_pid s = pid s) as (H1 & H2 & H3) by by destruct (phase s).
  split; try done. intros L. destruct (Hl L) as [E|[|E]]; [|done|]; by destruct (phase s).
Qed.

Lemma running_ok_intro p s : running_ok s -> supervising p = true -> fds s = open_in p -> supervision_ok (goto p s).
Proof.
  intros [H1 H2 H3 H4 H5 H6 H7 H8 H9] Hp Hf. split; try done; cbn [goto phase].
  - unfold child_ok. cbn. by destruct p.
  - intros L. right. left. by apply H5.
Qed.

Lemma running_kill sig s : running_ok s -> running_ok (kill sig s).
Proof. intros []. split; try done; intros; apply signalled_kill; auto. Qed.

Lemma running_hit s : running_ok s -> running_ok (kill SIGTERM (set_flags true (cancel_seen s) s)).
Proof. intros []. split; try done; intros; apply signalled_kill; auto. Qed.

Lemma running_seen s : running_ok s -> cancelled s = true -> running_ok (set_flags (deadline_hit s) true s).
Proof. by intros [] ?. Qed.

Lemma leave_drain_ok s : running_ok s -> fds s = [StdoutRead; StderrRead] -> supervision_ok (leave_drain s).
Proof.
  intros H Hf. apply running_ok_intro; [by destruct H|by destruct (_ || _)|]. unfold close_fds. cbn [set_fds fds]. rewrite Hf.
  by destruct (_ || _).
Qed.

Lemma poll_or_leave_ok s : running_ok s -> fds s = [StdoutRead; StderrRead] -> supervision_ok (poll_or_leave s).
Proof. intros H Hf. unfold poll_or_leave. destruct (_ || _); [by apply running_ok_intro|by apply leave_drain_ok]. Qed.

Lemma next_stream_ok l s : running_ok s -> fds s = [StdoutRead; StderrRead] -> supervision_ok (next_stream l s).
Proof. intros H Hf. destruct l; [by apply poll_or_leave_ok|by apply running_ok_intro]. Qed.

Lemma write_or_drain_ok off s : running_ok s -> fds s = [StdinWrite; StdoutRead; StderrRead] -> supervision_ok (write_or_drain off s).
Proof.
  intros H Hf. assert (supervision_ok (poll_or_leave (close_fds [StdinWrite] s))) as Hd.
  { apply poll_or_leave_ok; [by destruct H|]. unfold close_fds. cbn [set_fds fds]. by rewrite Hf. }
  unfold write_or_drain. destruct (rq_stdin_data request); [|done]. destruct (_ <? _)%nat; [|done]. by apply running_ok_intro.
Qed.

Lemma poll_round_ok now answer s : supervision_ok s -> phase s = Polling -> supervision_ok (poll_round now answer s).
Proof.
  intros Hs Hp. assert (running_ok s) as Hr by (apply running_of; [done|by rewrite Hp]). pose proof (fds_ok s Hs) as Hf. rewrite Hp in Hf.
  unfold poll_round. destruct (deadline s <=? now); [apply leave_drain_ok; [by apply running_hit|done]|].
  destruct (cancelled s) eqn:Hc; [apply leave_drain_ok; [by apply running_seen|done]|].
  destruct answer; [done|by apply leave_drain_ok|done|by apply next_stream_ok].
Qed.

Lemma read_round_ok answer stdout l s : supervision_ok s -> phase s = Reading (stdout :: l) -> supervision_ok (read_round answer stdout l s).
Proof.
  intros Hs Hp. assert (running_ok s) as Hr by (apply running_of; [done|by rewrite Hp]). pose proof (fds_ok s Hs) as Hf. rewrite Hp in Hf.
  assert (forall open, running_ok (set_stream stdout (MkStream open (flush (slicer (if stdout then out s else err s))).1 (chunks_read (if stdout then out s else err s))) s)) as Hflush.
  { intros open. destruct Hr as [? ? ? ? ? ? ? Ho He]. destruct stdout; split; try done; cbn; unfold flush; by destruct (_ || _). }
  destruct answer as [chunk| | | |]; cbn [read_round]; [|by apply next_stream_ok|by apply next_stream_ok|done|by apply next_stream_ok].
  destruct Hs as [Hf' Hc Hfl Hl Hh Hse Ho He].
  assert (forall sl l chunk b, full sl = (fun _ => concat l) <$> captured b -> full (feed sl chunk).1 = (fun _ => concat (l ++ [chunk])) <$> captured b) as Hfeed.
  { clear. intros sl l chunk b H. rewrite feed_full, H, concat_app. unfold captured. destruct (if b then _ else _); cbn; by rewrite ?app_nil_r. }
  split; destruct stdout; cbn [set_stream phase fds]; try done; try (by apply Hfeed); unfold child_ok in *; cbn [set_stream phase] in *; rewrite Hp in *; done.
Qed.

Lemma reaped_ok st s : running_ok s -> fds s = [] -> supervision_ok (goto Detaching (reap st s)).
Proof. intros [] Hf. split; try done. intros L. right. left. by auto. Qed.

Lemma wait_round_ok now answer s : supervision_ok s -> phase s = Waiting -> supervision_ok (wait_round now answer s).
Proof.
  intros Hs Hp. assert (running_ok s) as Hr by (apply running_of; [done|by rewrite Hp]). pose proof (fds_ok s Hs) as Hf. rewrite Hp in Hf.
  destruct answer as [st| | |]; cbn [wait_round]; [| |done|].
  - apply reaped_ok; [done|done].
  - destruct (deadline s <=? now); [apply running_ok_intro; [by apply running_hit|done|done]|].
    destruct (cancelled s) eqn:Hc; [|done]. apply running_ok_intro; [by apply running_seen|done|done].
  - destruct Hr. split; try done. intros L. by right; right.
Qed.

Lemma grace_round_ok hard now answer s : supervision_ok s -> phase s = Grace hard -> supervision_ok (grace_round hard now answer s).
Proof.
  intros Hs Hp. assert (running_ok s) as Hr by (apply running_of; [done|by rewrite Hp]). pose proof (fds_ok s Hs) as Hf. rewrite Hp in Hf.
  assert (supervision_ok (goto Killing (kill SIGKILL s))) as Hk by (apply running_ok_intro; [by apply running_kill|done|done]).
  unfold grace_round. destruct (hard <=? now); [done|]. destruct answer; [by apply reaped_ok|done|done|done].
Qed.

Lemma finish_child_ok now s : supervision_ok s -> phase s = Detaching -> supervision_ok (finish_child now s).
Proof.
  intros [Hf Hc Hfl Hl Hh Hse Ho He] Hp. rewrite Hp in Hf. unfold child_ok in Hc. rewrite Hp in Hc. destruct Hc as (Hr & _ & _).
  split; try done.
  - unfold child_ok. cbn [finish_child goto set_handle phase]. destruct (_ && _); [done|]. split; [done|]. unfold result_ok. cbn. by rewrite Ho, He.
  - intros L. by right; right.
Qed.

(** The failures of [waitpid] behind [SIGKILL], which the code does not look at. *)
Definition waits_work (e : Event) : bool := match e with EKilled (WaitReaped _) => true | EKilled _ => false | _ => true end.

Lemma worker_step_ok e s s' : supervision_ok s -> waits_work e = true -> worker_step e s = Some s' -> supervision_ok s'.
Proof.
  intros Hs Hw. pose proof Hs as [Hf Hc Hfl Hl Hh Hse Ho He]. unfold worker_step. destruct e as [now ok|[p|]| | |[n|]|now a|a|now a|now|now a|[st| | |]|now| | | |st]; destruct (phase s) eqn:Hp; try done;
    unfold child_ok in Hc; rewrite Hp in Hc; cbn [early over] in Hl.
  - intros [= <-]. destruct ok, Hc as [? ?]; split; try done; intros L; by destruct (Hl L) as [|[|]]; auto.
  - destruct (p <=? 0) eqn:E; [done|]. intros [= <-]. destruct Hc as [? ?]. split; try done. unfold child_ok. cbn. split_and!; [done|lia|done].
  - intros [= <-]. destruct Hc as [? ?]. split; try done; [unfold close_fds; cbn; by rewrite Hf|]. intros L. by right; right.
  - intros [= <-]. destruct Hc as (? & ? & ?). by split.
  - intros [= <-]. destruct Hc as (Ha & Hpos & Hpid). apply write_or_drain_ok; [|unfold close_fds; destruct (cancelled s); cbn; by rewrite Hf].
    assert (running_ok (if cancelled s then kill SIGTERM s else s)) as []; [|done].
    destruct (cancelled s) eqn:Ec; split; try done; try exact (flag_ok s Hs); try exact (seen_ok s Hs); try (intros; apply signalled_kill; auto).
    intros L. exfalso. assert (canceller s <> CancelIdle) as Hn%(flag_ok s Hs) by (by destruct (canceller s)). congruence.
  - intros [= <-]. apply write_or_drain_ok; [by apply running_of; [|rewrite Hp]|done].
  - intros [= <-]. apply poll_or_leave_ok; [|unfold close_fds; cbn; by rewrite Hf].
    assert (running_ok s) as [] by by apply running_of; [|rewrite Hp]. done.
  - destruct (poll_possible a s); [|done]. intros [= <-]. by apply poll_round_ok.
  - destruct streams as [|b l]; [done|]. intros [= <-]. by apply read_round_ok.
  - destruct (wait_possible a s); [|done]. intros [= <-]. by apply wait_round_ok.
  - intros [= <-]. apply running_ok_intro; [by apply running_of; [|rewrite Hp]|done|done].
  - destruct (wait_possible a s); [|done]. intros [= <-]. by apply grace_round_ok.
  - destruct (wait_possible _ s); [|done]. intros [= <-]. apply reaped_ok; [by apply running_of; [|rewrite Hp]|done].
  - intros [= <-]. by apply finish_child_ok.
Qed.

Lemma ok_kill s : supervision_ok s -> supervision_ok (kill SIGTERM s).
Proof. intros []. split; try done; intros; [right; left|]; apply signalled_kill; auto. Qed.

Lemma environment_step_ok e s s' : supervision_ok s -> environment_step e s = Some s' -> supervision_ok s'.
Proof.
  intros Hs. pose proof Hs as [Hf Hc Hfl Hl Hh Hse Ho He]. unfold environment_step.
  assert (forall p b k, (b = true <-> k <> CancelIdle) -> (cancel_seen s = true -> b = true) ->
    (looked k = true -> early (phase s) = true \/ signalled s \/ over (phase s) = true) -> p = handle_pid s -> supervision_ok (set_handle p b k s)) as Hk.
  { intros p b k H1 H2 H3 ->. by split. }
  destruct e; try done.
  - destruct (canceller s) eqn:Ek; [|done..]. intros [= <-]. by apply Hk.
  - destruct (canceller s) eqn:Ek; [done| |done..]. intros [= <-]. apply Hk; [split; [done|intros _; by apply Hfl]|done| |done].
    cbn. intros L%Z.leb_le. unfold child_ok in Hc. destruct (phase s) as [| | | | | | | | | | | |[]]; auto; lia.
  - destruct (canceller s) as [| |p|] eqn:Ek; [done..| |done]. intros [= <-]. destruct (Z.ltb_spec 0 p).
    + pose proof (ok_kill s Hs) as []. split; try done; [split; [done|intros _; by apply Hfl]|]. intros _. right. left. by apply signalled_kill; right.
    + apply Hk; [split; [done|intros _; by apply Hfl]|done| |done]. intros _. apply Hl. cbn. lia.
  - assert (child s = Running -> supervision_ok (set_child (Zombie st) s)) as H.
    { intros E. split; try done. unfold child_ok, result_ok in *. cbn. destruct (phase s) as [| | | | | | | | | | | |[]]; try done; rewrite E in Hc; by destruct Hc as (? & ? & ?) || destruct Hc. }
    destruct (canceller s), (child s); try done; intros [= <-]; by apply H.
Qed.
Lemma supervise_ok es s s' : supervision_ok s -> Forall (fun e => waits_work e = true) es -> supervise es s = Some s' -> supervision_ok s'.
Proof.
  intros Hs Hw. revert s Hs. induction Hw as [|e es He _ IH]; intros s Hs; cbn [supervise]; [by intros [= <-]|].
  destruct (supervision_step e s) as [s1|] eqn:E; [|done]. cbn. apply IH. unfold supervision_step in E.
  destruct e; try (by eapply environment_step_ok); by eapply worker_step_ok.
Qed.


End Spawn.

(** The handle does not keep a cancellation from a process that is gone: between the child's
    last breath and the removal of its pid, or after the cancellation has loaded the pid, the
    signal goes to a pid that was given up. *)
Definition late_cancel : list Event :=
  [EPipes 0 true; EFork (Some 7); EPublish; ECheck; EPoll 1 (PollReady [true; false]); ERead ReadEof; ERead ReadEof;
   EChildExits (WExited 0); ECancelStore; ECancelLoad; EWait 2 (WaitReaped (WExited 0)); EDetach 3; ECancelKill].

Theorem late_cancel_signals_stranger executable arguments :
  executable <> "" ->
  exists s r, supervise (request_of executable arguments) late_cancel (fresh_supervision (request_of executable arguments) false false) = Some s /\
    phase s = Finished (Ok r) /\ (SIGTERM, Reaped (WExited 0)) ∈ signals s.
Proof.
  intros Hne. unfold fresh_supervision. cbn [rq_executable request_of]. destruct (str_empty executable) eqn:E; [by apply str_empty_spec in E|].
  do 2 eexists. split; [vm_compute; reflexivity|]. split; [reflexivity|]. by left.
Qed.

(** ** Concrete runs *)

Definition sample_run : list Event :=
  [ECancelStore; ECancelLoad; EPipes 0 true; EFork (Some 7); ECancelKill; EPublish; ECheck; EPoll 1 PollRound; EGraceStart 2;
   EChildExits (WSignaled 15); EGrace 4 (WaitReaped (WSignaled 15)); EDetach 5].


Lemma late_cancel_signals_stranger_witness :
  "rclone" <> "" /\
  exists s r, supervise (request_of "rclone" []) late_cancel (fresh_supervision (request_of "rclone" []) false false) = Some s /\
    phase s = Finished (Ok r) /\ (SIGTERM, Reaped (WExited 0)) ∈ signals s.
Proof. split; [discriminate|]. apply (late_cancel_signals_stranger "rclone" []). discriminate. Defined.
