(* ===== verification/WindowsSpawn.v ===== *)
(** * Starting a child on Windows: the [_WIN32] branch of [spawn_sync], [system/subprocess.cpp]

    The calls of the Windows API are parameters, one operation each.  Each reader thread works on
    its own pipe and slicer; the model runs the two one after the other, where their threads are
    joined.  The command line is the one of [Subprocess.v]. *)

From S2P Require Import Prelude CoreError Subprocess.

Local Open Scope coro_scope.

(** A pipe has a read and a write handle; [create_process] gets the three handles of the child and
    gives its process and thread handles, or [GetLastError()]; [read_pipe] is what the calls of
    [ReadFile] give until the end; [wait_for_single_object] tells a timeout. *)
Class Win32 (W : Type) := {
  create_pipe : M W (option (Z * Z));
  no_inherit : Z -> M W unit;
  create_process : list ascii -> string -> Z * Z * Z -> M W (Z + Z * Z);
  close_handle : Z -> M W unit;
  terminate_process : Z -> M W unit;
  write_file : Z -> string -> M W unit;
  read_pipe : Z -> M W (list (list ascii));
  wait_for_single_object : Z -> Z -> M W bool;
  get_exit_code_process : Z -> M W Z;
  steady_now_ms : M W Z
}.

(** [CancelHandle] as the worker sees it: it publishes the process handle, 0 to take it back, and
    reads whether the cancelling thread has been there. *)
Class CancelChannel (W : Type) := {
  publish_handle : Z -> M W unit;
  was_cancelled_now : M W bool
}.

Definition ERROR_FILE_NOT_FOUND : Z := 2.
Definition ERROR_PATH_NOT_FOUND : Z := 3.

(** The six handles of the pipes. *)
Record Pipes := MkPipes { stdin_r : Z; stdin_w : Z; stdout_r : Z; stdout_w : Z; stderr_r : Z; stderr_w : Z }.

Section Spawn.
  Context {W : Type} `{win : !Win32 W} `{channel : !CancelChannel W}.
  Context (on_stdout_line on_stderr_line : option (list ascii -> M W unit)).

(** The three pipes; a failure leaves the ones that were made. *)
Definition create_pipes : M W (option Pipes) :=
  co_await a <- create_pipe;
  match a with
  | None => co_return None
  | Some (ar, aw) =>
      co_await b <- create_pipe;
      match b with
      | None => co_return None
      | Some (br, bw) =>
          co_await c <- create_pipe;
          co_return match c with None => None | Some (cr, cw) => Some (MkPipes ar aw br bw cr cw) end
      end
  end.

Fixpoint close_all (hs : list Z) : M W unit :=
  match hs with [] => co_return () | h :: hs => co_do close_handle h; close_all hs end.

Fixpoint emit_lines (f : option (list ascii -> M W unit)) (ls : list (list ascii)) : M W unit :=
  match f, ls with Some g, l :: ls => co_do g l; emit_lines f ls | _, _ => co_return () end.

(** A reader thread, up to its join; the captured bytes. *)
Definition reader (h : Z) (capture : bool) (f : option (list ascii -> M W unit)) : M W string :=
  co_await chunks <- read_pipe h;
  let '(s, ls) := feed_all (MkSlicer (if capture then Some [] else None) [] (bool_decide (is_Some f))) chunks in
  let '(s, ls') := flush s in
  co_do emit_lines f (ls ++ ls');
  co_return (of_chars (default [] (full s))).

(** The process handle is published before anything else; a cancellation that came first ends the
    child at once. *)
Definition publish (process : Z) : M W unit :=
  co_do publish_handle process;
  co_await cancelled <- was_cancelled_now;
  if cancelled : bool then terminate_process process else co_return ().

(** A child that runs: its input, its output, its end. *)
Definition supervise (request : SubprocessRequest) (start : Z) (p : Pipes) (process thread : Z) : M W SubprocessResult :=
  co_do publish process;
  co_do (match rq_stdin_data request with Some data => write_file (stdin_w p) data | None => co_return () end);
  co_do close_handle (stdin_w p);
  co_await timed_out <- wait_for_single_object process (rq_timeout request);
  co_do (if timed_out : bool then (co_do terminate_process process; co_await again <- wait_for_single_object process 5000; co_return ()) else co_return ());
  co_await cancelled <- was_cancelled_now;
  co_await exit_code <- get_exit_code_process process;
  co_do publish_handle 0;
  co_do close_all [thread; process];
  co_await out <- reader (stdout_r p) (rq_capture_stdout request) on_stdout_line;
  co_await err <- reader (stderr_r p) (rq_capture_stderr request) on_stderr_line;
  co_do close_all [stdout_r p; stderr_r p];
  co_await now <- steady_now_ms;
  co_return MkResult exit_code out err (now - start) timed_out cancelled.

(** What a failure of [CreateProcessW] is reported as. *)
Definition start_error (executable : string) (err : Z) : Result SubprocessResult :=
  if (err =? ERROR_FILE_NOT_FOUND) || (err =? ERROR_PATH_NOT_FOUND)
  then error NotFound ("Subprocess: executable not found: " +:+ executable)
  else error SubprocessFailed ("Subprocess: CreateProcessW failed (code " +:+ fmt_int err +:+ ")").

(** [spawn_sync]; the environment of the request is not passed on. *)
Definition spawn_windows (request : SubprocessRequest) : M W (Result SubprocessResult) :=
  co_await start <- steady_now_ms;
  if str_empty (rq_executable request) then co_return error InvalidArgument "Subprocess: empty executable path"
  else
    co_await pipes <- create_pipes;
    match pipes with
    | None => co_return error Io "Subprocess: CreatePipe failed"
    | Some p =>
        co_do no_inherit (stdin_w p);
        co_do no_inherit (stdout_r p);
        co_do no_inherit (stderr_r p);
        co_await started <- create_process (command_line (rq_executable request) (rq_arguments request)) (rq_working_directory request)
                              (stdin_r p, stdout_w p, stderr_w p);
        co_do close_all [stdin_r p; stdout_w p; stderr_w p];
        match started with
        | inl err =>
            co_do close_all [stdin_w p; stdout_r p; stderr_r p];
            co_return start_error (rq_executable request) err
        | inr (process, thread) =>
            co_await result <- supervise request start p process thread;
            co_return Ok result
        end
    end.

End Spawn.

(** ** Handles *)

Section Handles.
  Context {W : Type} `{win : !Win32 W} `{channel : !CancelChannel W}.
  Context (on_stdout_line on_stderr_line : option (list ascii -> M W unit)) (opened : W -> gset Z).

Definition keeps {A} (m : M W A) : Prop := forall w, opened (m w).2 = opened w.

(** What the system does to the handles of the process: the ones it gives are new. *)
Class HandleLaws : Prop := {
  hl_pipe w : match create_pipe w with
              | (Some (r, wr), w') => opened w' = {[r; wr]} ∪ opened w /\ r ∉ opened w /\ wr ∉ opened w
              | (None, w') => opened w' = opened w
              end;
  hl_process c d h w : match create_process c d h w with
              | (inr (p, t), w') => opened w' = {[p; t]} ∪ opened w /\ p ∉ opened w /\ t ∉ opened w
              | (inl _, w') => opened w' = opened w
              end;
  hl_close h w : opened (close_handle h w).2 = opened w ∖ {[h]};
  hl_inherit h : keeps (no_inherit h);
  hl_terminate h : keeps (terminate_process h);
  hl_write h d : keeps (write_file h d);
  hl_read h : keeps (read_pipe h);
  hl_wait h t : keeps (wait_for_single_object h t);
  hl_exit h : keeps (get_exit_code_process h);
  hl_now : keeps steady_now_ms;
  hl_publish h : keeps (publish_handle h);
  hl_cancelled : keeps was_cancelled_now;
  hl_out f l : on_stdout_line = Some f -> keeps (f l);
  hl_err f l : on_stderr_line = Some f -> keeps (f l)
}.
Context `{laws : !HandleLaws}.

Lemma keeps_bind {A B} (m : M W A) (k : A -> M W B) : keeps m -> (forall a, keeps (k a)) -> keeps (mbind m k).
Proof. intros Hm Hk w. rewrite mbind_proj, Hk. apply Hm. Qed.

Lemma keeps_return {A} (a : A) : keeps (mreturn a).
Proof. done. Qed.

Lemma close_all_opened hs w : opened (close_all hs w).2 = opened w ∖ list_to_set hs.
Proof.
  revert w. induction hs as [|h hs IH]; intros w; cbn [close_all]; [set_solver|]. rewrite mbind_proj, IH, hl_close. set_solver.
Qed.

Lemma emit_keeps f ls : (forall g l, f = Some g -> keeps (g l)) -> keeps (emit_lines f ls).
Proof.
  intros Hf. destruct f as [g|]; [|by destruct ls]. induction ls as [|l ls IH]; [done|]. cbn [emit_lines].
  apply keeps_bind; [by apply Hf|done].
Qed.

Lemma reader_keeps h c f : (forall g l, f = Some g -> keeps (g l)) -> keeps (reader h c f).
Proof.
  intros Hf. unfold reader. apply keeps_bind; [apply hl_read|]. intros chunks. destruct (feed_all _ _) as [s ls]. destruct (flush s) as [s' ls'].
  apply keeps_bind; [by apply emit_keeps|intros; apply keeps_return].
Qed.

Definition all_handles (p : Pipes) : gset Z := {[stdin_r p; stdin_w p; stdout_r p; stdout_w p; stderr_r p; stderr_w p]}.

Lemma create_pipes_opened w :
  match create_pipes w with
  | (Some p, w') => opened w' = all_handles p ∪ opened w /\ all_handles p ## opened w
  | (None, w') => opened w ⊆ opened w'
  end.
Proof.
  unfold create_pipes, mbind, mreturn. pose proof (hl_pipe w) as H1. destruct (create_pipe w) as [[[ar aw]|] w1]; [|by rewrite H1].
  pose proof (hl_pipe w1) as H2. destruct (create_pipe w1) as [[[br bw]|] w2]; [|destruct H1 as [H1 _]; rewrite H2, H1; clear; set_solver].
  pose proof (hl_pipe w2) as H3. destruct (create_pipe w2) as [[[cr cw]|] w3]; [|destruct H1 as [H1 _], H2 as [H2 _]; rewrite H3, H2, H1; clear; set_solver].
  destruct H1 as (E1 & Ha & Ha'), H2 as (E2 & Hb & Hb'), H3 as (E3 & Hc & Hc'). split.
  - rewrite E3, E2, E1. clear. unfold all_handles. cbn. set_solver.
  - rewrite E2 in Hc, Hc'. rewrite E1 in Hb, Hb', Hc, Hc'. clear E1 E2 E3.
    assert (br ∉ opened w /\ bw ∉ opened w /\ cr ∉ opened w /\ cw ∉ opened w) as (? & ? & ? & ?)
      by (rewrite !elem_of_union in *; tauto).
    intros x Hx HO. unfold all_handles in Hx. cbn in Hx. rewrite !elem_of_union, !elem_of_singleton in Hx. naive_solver.
Qed.

(** The handles that a computation closes. *)
Definition closes {A} (hs : gset Z) (m : M W A) : Prop := forall w, opened (m w).2 = opened w ∖ hs.

Lemma closes_bind {A B} hs1 hs2 (m : M W A) (k : A -> M W B) : closes hs1 m -> (forall a, closes hs2 (k a)) -> closes (hs1 ∪ hs2) (mbind m k).
Proof. intros Hm Hk w. rewrite mbind_proj, Hk, Hm. set_solver. Qed.

Lemma closes_keeps {A B} hs (m : M W A) (k : A -> M W B) : keeps m -> (forall a, closes hs (k a)) -> closes hs (mbind m k).
Proof. intros Hm Hk w. by rewrite mbind_proj, Hk, Hm. Qed.

Lemma closes_return {A} (a : A) : closes ∅ (mreturn a).
Proof. intros w. unfold mreturn. cbn. set_solver. Qed.

Lemma publish_keeps process : keeps (publish process).
Proof.
  apply keeps_bind; [apply hl_publish|]. intros []. apply keeps_bind; [apply hl_cancelled|]. intros []; [apply hl_terminate|apply keeps_return].
Qed.

Lemma supervise_opened request start p process thread :
  closes ({[stdin_w p]} ∪ ({[thread; process]} ∪ ({[stdout_r p; stderr_r p]} ∪ ∅)))
    (supervise on_stdout_line on_stderr_line request start p process thread).
Proof.
  assert (forall hs, closes (list_to_set hs) (close_all hs)) as Hclose by (intros hs w; apply close_all_opened).
  unfold supervise. apply closes_keeps; [apply publish_keeps|]. intros [].
  apply closes_keeps; [destruct (rq_stdin_data request); [apply hl_write|apply keeps_return]|]. intros [].
  apply closes_bind; [intros w; apply hl_close|]. intros []. apply closes_keeps; [apply hl_wait|]. intros late.
  apply closes_keeps.
  { destruct late; [|apply keeps_return]. apply keeps_bind; [apply hl_terminate|]. intros []. apply keeps_bind; [apply hl_wait|done]. }
  intros []. apply closes_keeps; [apply hl_cancelled|]. intros cancelled. apply closes_keeps; [apply hl_exit|]. intros code.
  apply closes_keeps; [apply hl_publish|]. intros []. apply closes_bind; [intros w; rewrite close_all_opened; set_solver|]. intros [].
  apply closes_keeps; [apply reader_keeps, hl_out|]. intros out. apply closes_keeps; [apply reader_keeps, hl_err|]. intros err.
  apply closes_bind; [intros w; rewrite close_all_opened; set_solver|]. intros []. apply closes_keeps; [apply hl_now|]. intros now. apply closes_return.
Qed.

Lemma keeps_then {A B} (m : M W A) (k : A -> M W B) w O :
  keeps m -> (forall a w', opened w' = opened w -> opened (k a w').2 = O) -> opened (mbind m k w).2 = O.
Proof. intros Hm Hk. rewrite mbind_proj. apply Hk, Hm. Qed.

Lemma handles_back p (O : gset Z) : all_handles p ## O ->
  (((all_handles p ∪ O) ∖ list_to_set [stdin_r p; stdout_w p; stderr_w p]) ∖ list_to_set [stdin_w p; stdout_r p; stderr_r p]) = O.
Proof.
  intros Hd. apply set_eq. intros x. unfold all_handles in *. cbn in *.
  assert (x ∈ O -> x <> stdin_r p /\ x <> stdin_w p /\ x <> stdout_r p /\ x <> stdout_w p /\ x <> stderr_r p /\ x <> stderr_w p) as H.
  { intros HO. split_and!; intros ->; refine (Hd _ _ HO); clear; set_solver. }
  clear Hd. set_solver.
Qed.

Lemma process_back p process thread (O : gset Z) : all_handles p ## O -> process ∉ all_handles p ∪ O -> thread ∉ all_handles p ∪ O ->
  ({[process; thread]} ∪ (all_handles p ∪ O)) ∖ list_to_set [stdin_r p; stdout_w p; stderr_w p] ∖
    ({[stdin_w p]} ∪ ({[thread; process]} ∪ ({[stdout_r p; stderr_r p]} ∪ ∅))) = O.
Proof.
  intros Hd Hp Ht. rewrite <- (handles_back p O Hd) at 2. apply set_eq. intros x.
  assert (x ∈ O -> x <> process /\ x <> thread) as H by (intros HO; split; intros ->; [apply Hp|apply Ht]; by apply elem_of_union; right).
  assert (x ∈ all_handles p -> x <> process /\ x <> thread) as H' by (intros HO; split; intros ->; [apply Hp|apply Ht]; by apply elem_of_union; left).
  clear Hd Hp Ht. cbn in *. set_solver.
Qed.

(** No handle is lost unless a pipe could not be made: whatever else happens, a child that does not
    start, a deadline, a cancellation, the process has the handles that it had before; but when
    [CreatePipe] fails the pipes that were already made stay open. *)
Theorem spawn_windows_closes request w :
  let x := spawn_windows on_stdout_line on_stderr_line request w in
  opened x.2 = opened w \/ x.1 = error Io "Subprocess: CreatePipe failed" /\ opened w ⊆ opened x.2.
Proof.
  unfold spawn_windows. cbv zeta. rewrite mbind_proj. pose proof (hl_now w) as Hn. destruct (steady_now_ms w) as [start w0]. cbn [fst snd] in *.
  destruct (str_empty _); [by left|]. rewrite mbind_proj. pose proof (create_pipes_opened w0) as Hp.
  destruct (create_pipes w0) as [[p|] w1]; cbn [fst snd]; [|right; by rewrite <- Hn]. left. destruct Hp as [Hp Hd].
  apply keeps_then; [apply hl_inherit|]. intros [] w2 H2. apply keeps_then; [apply hl_inherit|]. intros [] w3 H3.
  apply keeps_then; [apply hl_inherit|]. intros [] w4 H4. rewrite mbind_proj. set (c := create_process _ _ _).
  pose proof (hl_process (command_line (rq_executable request) (rq_arguments request)) (rq_working_directory request) (stdin_r p, stdout_w p, stderr_w p) w4) as H5.
  fold c in H5. rewrite H4, H3, H2, Hp, Hn in H5. rewrite Hn in Hd.
  destruct (c w4) as [[err|[process thread]] w5]; cbn [fst snd]; rewrite mbind_proj.
  - rewrite mbind_proj. cbn [mreturn snd]. rewrite !close_all_opened, H5. by apply handles_back.
  - destruct H5 as (H5 & Hp1 & Hp2). rewrite mbind_proj. cbn [mreturn snd]. rewrite supervise_opened, close_all_opened, H5.
    by apply process_back.
Qed.

End Handles.
