(* ===== verification/SplitFile.v ===== *)
(** * Splitting a file into parts: [split_file] of [telegram_uploader.cpp]

    A file above the split size is copied, 1 MiB at a time, into the files [name.part001],
    [name.part002], ...  The calls on the streams are [PartFiles]; what they do to the files is
    [PartFilesLaws].  A read can fail before the end of the file, and the bytes that a stream
    has accepted can be lost when its destructor flushes them: the code looks at neither, so
    [Faults] counts both. *)

From S2P Require Import Prelude CoreError Files.

Local Open Scope coro_scope.

Definition kSplitStreamBuffer : Z := 1024 * 1024.

(** [fmt::format("{:02d}", n)] and ["{:03d}"]. *)
Definition pad_02 (n : Z) : string := if n <? 100 then fmt_02 n else fmt_int n.
Definition pad_03 (n : Z) : string := if n <? 1000 then fmt_03 n else fmt_int n.

Definition part_path (src : string) (i : Z) : string := src +:+ ".part" +:+ pad_03 (i + 1).

(** An [std::ifstream]: the bytes it has not delivered yet and whether it tests true. *)
Record Ifstream := MkStream { unread : list ascii; good : bool }.

(** [in.read(buffer, n)]: fewer bytes than asked for make the stream fail, and so does a fault
    of the device, which leaves at most the bytes before it. *)
Definition stream_read (fault : option nat) (stream : Ifstream) (n : Z) : list ascii * Ifstream :=
  match fault with
  | None =>
      (take (Z.to_nat n) (unread stream),
       MkStream (drop (Z.to_nat n) (unread stream)) (good stream && (Z.to_nat n <=? length (unread stream))%nat))
  | Some before =>
      let got := Nat.min before (Z.to_nat n) in
      (take got (unread stream), MkStream (drop got (unread stream)) false)
  end.

(** The calls on streams: the constructor of a part and whether it tests true, [write] and
    whether the stream still tests true, the destructor and whether its flush went well, and
    the device under a read.  [remove_part] gives the message of an error. *)
Class PartFiles (W : Type) := {
  create_part : string -> M W bool;
  write_part : string -> string -> M W bool;
  close_part : string -> M W bool;
  remove_part : string -> M W (option string);
  device_fault : M W (option nat)
}.

Definition write_failed (path : string) : AppError := MkError Io ("telegram_uploader: write failed for " +:+ path).
Definition create_failed (path : string) : AppError := MkError Io ("telegram_uploader: cannot create part " +:+ path).

Section Split.
  Context {W : Type} `{files : !Files W, parts : !PartFiles W}.

(** The inner loop: [remaining] bytes of the stream into the part. *)
Fixpoint copy_part (fuel : nat) (path : string) (remaining : Z) (stream : Ifstream) : Throwing W Ifstream :=
  match fuel with
  | O => mreturn Unfinished
  | S fuel =>
      if negb ((0 <? remaining) && good stream) then finish_with (Ok stream)
      else
        co_throwing fault <- observe device_fault;
        let '(got, stream) := stream_read fault stream (Z.min remaining kSplitStreamBuffer) in
        match got with
        | [] => finish_with (Ok stream)
        | _ =>
            co_throwing written <- observe (write_part path (of_chars got));
            if written : bool then copy_part fuel path (remaining - Z.of_nat (length got)) stream
            else finish_with (Err (write_failed path))
        end
  end.

(** One iteration per full buffer, one for the rest and one for the final test. *)
Definition copy_fuel (remaining : Z) : nat := S (S (Z.to_nat (remaining / kSplitStreamBuffer))).

(** The scope of a part's stream: its destructor runs however the scope ends. *)
Definition with_part {A} (path : string) (body : Throwing W A) : Throwing W A :=
  co_await outcome <- body;
  co_await flushed <- close_part path;
  mreturn outcome.

(** The outer loop: [n] parts from index [i] on. *)
Fixpoint copy_parts (n : nat) (src : string) (chunk_bytes i : Z) (stream : Ifstream) (made : list string) : Throwing W (list string) :=
  match n with
  | O => finish_with (Ok made)
  | S n =>
      let path := part_path src i in
      co_throwing created <- observe (create_part path);
      if negb created then finish_with (Err (create_failed path))
      else
        co_throwing stream <- with_part path (copy_part (copy_fuel chunk_bytes) path chunk_bytes stream);
        copy_parts n src chunk_bytes (i + 1) stream (made ++ [path])
  end.

(** [static_cast<int>((total + chunk - 1) / chunk)] over [std::uintmax_t]. *)
Definition chunk_count (total chunk_bytes : Z) : Z := to_int32 ((total + chunk_bytes - 1) mod 2 ^ 64 / chunk_bytes).

(** [split_file]; [reserve] throws on a negative count. *)
Definition split_file (src : string) (chunk_bytes : Z) : Throwing W (list string) :=
  co_throwing content <- observe (read_file src);
  match content with
  | None => finish_with (error Io ("telegram_uploader: cannot open " +:+ src +:+ " for splitting"))
  | Some content =>
      co_throwing size <- observe (fs_file_size src);
      match size with
      | inl what => finish_with (error FileSystem ("telegram_uploader: file_size failed: " +:+ what))
      | inr total =>
          if chunk_bytes <=? 0 then finish_with (error InvalidArgument "telegram_uploader: split_size must be > 0")
          else if chunk_count total chunk_bytes <? 0 then mreturn (Thrown "vector::reserve")
          else copy_parts (Z.to_nat (chunk_count total chunk_bytes)) src chunk_bytes 0 (MkStream (chars content) true) []
      end
  end.

(** The reads and the flushes that failed so far. *)
Record Faults := MkFaults { failed_reads : nat; failed_flushes : nat }.

(** What the calls do to the contents of the files, those of an open part being what its stream
    has accepted, and which of them count as faults. *)
Class PartFilesLaws (contents : W -> gmap string string) (faults : W -> Faults) : Prop := {
  read_law path w : contents (read_file path w).2 = contents w /\
    forall c, (read_file path w).1 = Some c -> contents w !! path = Some c;
  size_law path w : contents (fs_file_size path w).2 = contents w /\
    forall n c, (fs_file_size path w).1 = inr n -> contents w !! path = Some c -> n = Z.of_nat (str_size c);
  create_law path w : (create_part path w).1 = true -> contents (create_part path w).2 = <[path := ""]> (contents w);
  write_law path s w old : (write_part path s w).1 = true -> contents w !! path = Some old ->
    contents (write_part path s w).2 = <[path := old +:+ s]> (contents w);
  close_law path w : (close_part path w).1 = true -> contents (close_part path w).2 = contents w;
  device_law w : contents (device_fault w).2 = contents w;
  create_frame path w p : p <> path -> contents (create_part path w).2 !! p = contents w !! p;
  write_frame path s w p : p <> path -> contents (write_part path s w).2 !! p = contents w !! p;
  close_frame path w p : p <> path -> contents (close_part path w).2 !! p = contents w !! p;
  read_faults path w : faults (read_file path w).2 = faults w;
  size_faults path w : faults (fs_file_size path w).2 = faults w;
  create_faults path w : faults (create_part path w).2 = faults w;
  write_faults path s w : faults (write_part path s w).2 = faults w;
  close_faults path w : faults (close_part path w).2 =
    if (close_part path w).1 then faults w else MkFaults (failed_reads (faults w)) (S (failed_flushes (faults w)));
  device_faults w : faults (device_fault w).2 =
    match (device_fault w).1 with
    | None => faults w
    | Some _ => MkFaults (S (failed_reads (faults w))) (failed_flushes (faults w))
    end
}.

End Split.

(** ** Names of parts *)

Lemma dec_value_digits v ds :
  Forall (fun d => 0 <= d <= 9) ds -> dec_value v (map digit_char ds) = fold_left (fun v d => 10 * v + d) ds v.
Proof.
  revert v. induction ds as [|d ds IH]; intros v; [done|]. intros [Hd Hds]%Forall_cons. unfold dec_value in *. cbn [map fold_left].
  rewrite digit_value_char by done. rewrite (IH _ Hds). do 2 f_equal; try lia.
Qed.

Lemma dec_value_pad_03 n : 0 <= n -> dec_value 0 (chars (pad_03 n)) = n.
Proof.
  intros Hn. unfold pad_03. destruct (Z.ltb_spec n 1000) as [H|H]; [|by rewrite chars_fmt_int, dec_value_fmt_nat].
  unfold fmt_03. rewrite chars_of_chars.
  change (dec_value 0 (map digit_char [n / 100; n / 10 mod 10; n mod 10]) = n).
  rewrite dec_value_digits; cbn [fold_left]; [|repeat constructor]; Z.to_euclidean_division_equations; lia.
Qed.

Lemma pad_03_inj a b : 0 <= a -> 0 <= b -> pad_03 a = pad_03 b -> a = b.
Proof. intros Ha Hb H. by rewrite <- (dec_value_pad_03 a), <- (dec_value_pad_03 b), H. Qed.

Lemma part_path_inj src i j : 0 <= i -> 0 <= j -> part_path src i = part_path src j -> i = j.
Proof.
  unfold part_path. intros Hi Hj H%str_app_inj_l%str_app_inj_l. apply pad_03_inj in H; lia.
Qed.

Lemma part_path_src src i : part_path src i <> src.
Proof.
  unfold part_path. intros H%(f_equal str_size). rewrite !str_size_app in H. change (str_size ".part") with 5%nat in H. lia.
Qed.

(** ** Copying a part *)

Section Copy.
  Context {W : Type} `{files : !Files W, parts : !PartFiles W}.

Lemma stream_read_got fault stream n got stream' :
  stream_read fault stream n = (got, stream') ->
  got ++ unread stream' = unread stream /\ (length got <= Z.to_nat n)%nat /\
  (good stream' = true -> length got = Z.to_nat n) /\
  (fault = None -> got = take (Z.to_nat n) (unread stream) /\
     (good stream = true -> good stream' = false -> unread stream' = [])).
Proof.
  unfold stream_read. destruct fault as [before|]; intros [= <- <-]; cbn [unread good].
  - split_and!; [apply take_drop| |done|done]. rewrite length_take. lia.
  - split_and!; [apply take_drop|rewrite length_take; lia| |].
    + intros [Hg Hl%Nat.leb_le]%andb_true_iff. rewrite length_take. lia.
    + intros _. split; [done|]. intros -> H. apply Nat.leb_gt in H. apply nil_length_inv. rewrite length_drop. lia.
Qed.

(** [copy_part] ends within its fuel. *)
Lemma copy_part_ends fuel path remaining stream w :
  (copy_fuel remaining <= fuel)%nat -> (copy_part fuel path remaining stream w).1 <> Unfinished.
Proof.
  revert remaining stream w. induction fuel as [|fuel IH]; intros remaining stream w Hf; [unfold copy_fuel in Hf; lia|].
  cbn [copy_part]. destruct ((0 <? remaining) && good stream) eqn:E; [|done]. apply andb_true_iff in E as [Hr%Z.ltb_lt Hg].
  cbn [negb]. unfold throwing_try at 1, observe at 1. rewrite !mbind_proj. cbn [fst snd mreturn].
  destruct (device_fault w) as [fault w0]; cbn [fst snd].
  destruct (stream_read _ _ _) as [got stream'] eqn:Hs. destruct (stream_read_got _ _ _ _ _ Hs) as (_ & Hl & Hgood & _).
  destruct got as [|c got]; [done|]. unfold throwing_try, observe. rewrite !mbind_proj. cbn [fst snd mreturn].
  destruct (write_part _ _ w0) as [[] w1]; cbn [fst snd]; [|done]. remember (length (c :: got)) as k eqn:Hk.
  destruct ((0 <? remaining - Z.of_nat k) && good stream') eqn:Hmore.
  - apply IH. apply andb_true_iff in Hmore as [Hpos%Z.ltb_lt Hg']. pose proof (Hgood Hg') as Hfull.
    assert (0 < kSplitStreamBuffer) by done. assert (Z.of_nat k = kSplitStreamBuffer) as -> by lia. unfold copy_fuel in *.
    replace (remaining - kSplitStreamBuffer) with (remaining + -1 * kSplitStreamBuffer) by lia. rewrite Z.div_add by lia.
    assert (1 <= remaining / kSplitStreamBuffer) by (apply Z.div_le_lower_bound; lia). lia.
  - destruct fuel as [|fuel]; [unfold copy_fuel in Hf; lia|]. cbn [copy_part]. by rewrite Hmore.
Qed.

(** A stream that failed has nothing left. *)
Definition exhausted (stream : Ifstream) : Prop := good stream = false -> unread stream = [].

Context (contents : W -> gmap string string) (faults : W -> Faults) `{laws : !PartFilesLaws contents faults}.

(** Faults are only ever added. *)
Definition faults_le (f g : Faults) : Prop :=
  (failed_reads f <= failed_reads g)%nat /\ (failed_flushes f <= failed_flushes g)%nat.

Lemma device_faults_le w : faults_le (faults w) (faults (device_fault w).2).
Proof. rewrite device_faults. destruct (device_fault w).1; split; simpl; lia. Qed.

Lemma close_faults_le path w : faults_le (faults w) (faults (close_part path w).2).
Proof. rewrite close_faults. destruct (close_part path w).1; split; simpl; lia. Qed.

(** What a part received: [got] of the stream, all that was asked for unless the stream failed. *)
Record received (remaining : Z) (stream stream' : Ifstream) (got : list ascii) : Prop := {
  rc_split : got ++ unread stream' = unread stream;
  rc_length : (length got <= Z.to_nat remaining)%nat;
  rc_bad : good stream = false -> got = [] /\ good stream' = false;
  rc_full : good stream' = true -> length got = Z.to_nat remaining
}.

Lemma append_nothing path old m : m !! path = Some old -> m = <[path := old +:+ of_chars []]> (m : gmap string string).
Proof. intros H. rewrite insert_id; [done|]. rewrite H. f_equal. apply chars_inj. by rewrite chars_app, app_nil_r. Qed.

(** A part receives the next bytes of the stream and no other file changes; without a fault it
    receives all that are left, up to its size. *)
Lemma copy_part_copies fuel path remaining stream w stream' w' old :
  0 <= remaining -> contents w !! path = Some old ->
  copy_part fuel path remaining stream w = (Finished (Ok stream'), w') ->
  exists got, contents w' = <[path := old +:+ of_chars got]> (contents w) /\ received remaining stream stream' got /\
    failed_flushes (faults w') = failed_flushes (faults w) /\ (failed_reads (faults w) <= failed_reads (faults w'))%nat /\
    (failed_reads (faults w') = failed_reads (faults w) -> exhausted stream ->
       got = take (Z.to_nat remaining) (unread stream) /\ exhausted stream').
Proof.
  revert remaining stream w old. induction fuel as [|fuel IH]; intros remaining stream w old Hr Hold; [done|]. cbn [copy_part].
  destruct ((0 <? remaining) && good stream) eqn:E; cbn [negb].
  2:{ intros [= <- <-]. exists []. split_and!; [by apply append_nothing| |done|done|].
      - split; [done|simpl; lia|done|]. intros Hg. rewrite Hg, andb_true_r in E. apply Z.ltb_ge in E. simpl. lia.
      - intros _ He. split; [|done]. apply andb_false_iff in E as [E%Z.ltb_ge|E]; [by replace (Z.to_nat remaining) with 0%nat by lia|].
        by rewrite (He E), take_nil. }
  apply andb_true_iff in E as [Hpos%Z.ltb_lt Hg]. intros H. apply throwing_try_Ok_inv in H as (fault & w0 & Hd & H).
  apply observe_inv in Hd. pose proof (device_law w) as Hc0. pose proof (device_faults w) as Hf0. rewrite Hd in Hc0, Hf0. cbn [fst snd] in Hc0, Hf0.
  assert (failed_flushes (faults w0) = failed_flushes (faults w) /\ (failed_reads (faults w) <= failed_reads (faults w0))%nat /\
    (failed_reads (faults w0) = failed_reads (faults w) -> fault = None)) as (Hfl0 & Hle0 & Hnone).
  { rewrite Hf0. destruct fault; simpl; split_and!; try done; lia. }
  destruct (stream_read _ _ _) as [got stream1] eqn:Hs. destruct (stream_read_got _ _ _ _ _ Hs) as (Hu & Hl & Hgood & Hok).
  assert (0 < kSplitStreamBuffer) by done. destruct got as [|c got].
  { injection H as <- <-. exists []. split_and!; [rewrite <- Hc0 in *; by apply append_nothing| |done|done|].
    - split; [done|simpl; lia|by rewrite Hg|]. intros Hg1. specialize (Hgood Hg1). simpl in Hgood. lia.
    - intros Hsame He. destruct (Hok (Hnone Hsame)) as [Ht _]. cbn [app] in Hu. assert (unread stream = []) as Hnil.
      { destruct (unread stream) eqn:Eu; [done|]. destruct (Z.to_nat (Z.min remaining kSplitStreamBuffer)) eqn:En; [lia|done]. }
      rewrite Hnil, take_nil. split; [done|]. intros _. by rewrite Hu. }
  remember (c :: got) as piece eqn:Hp. clear Hp. apply throwing_try_Ok_inv in H as (written & w1 & Hw & H).
  apply observe_inv in Hw. destruct written; [|done].
  assert (contents w1 = <[path := old +:+ of_chars piece]> (contents w)) as Hc1.
  { pose proof (write_law path (of_chars piece) w0 old) as Hlaw. rewrite Hw, Hc0 in Hlaw. by apply Hlaw. }
  pose proof (write_faults path (of_chars piece) w0) as Hf1. rewrite Hw in Hf1. cbn [snd] in Hf1.
  apply (IH _ _ w1 (old +:+ of_chars piece)) in H as (got2 & Hc & [H1 H2 H3 H4] & Hfl & Hle & Hno); [|lia|by rewrite Hc1, lookup_insert_eq].
  rewrite Hf1 in Hfl, Hle, Hno. exists (piece ++ got2). split_and!; [|split|lia|lia|].
  - by rewrite Hc, Hc1, insert_insert_eq, of_chars_app, str_app_assoc.
  - by rewrite <- app_assoc, H1.
  - rewrite length_app. lia.
  - by rewrite Hg.
  - intros Hg'. rewrite length_app. specialize (H4 Hg'). lia.
  - intros Hsame He. assert (failed_reads (faults w0) = failed_reads (faults w)) as Hsame0 by lia.
    destruct (Hok (Hnone Hsame0)) as [_ Hbad]. assert (exhausted stream1) as He1 by (intros H; by apply Hbad).
    destruct (Hno ltac:(lia) He1) as [Hg2 He2]. split; [|done]. rewrite <- Hu, take_app_ge by lia. f_equal.
    rewrite Hg2. f_equal. lia.
Qed.

(** ** The parts *)

(** What [n] parts of [size] bytes hold of a list of bytes. *)
Fixpoint pieces (n size : nat) (l : list ascii) : list (list ascii) :=
  match n with O => [] | S n => take size l :: pieces n size (drop size l) end.

Lemma concat_pieces n size l : concat (pieces n size l) = take (n * size) l.
Proof.
  revert l. induction n as [|n IH]; intros l; [by rewrite take_0|]. cbn [pieces concat Nat.mul]. rewrite IH.
  apply take_take_drop.
Qed.

Lemma length_pieces n size l : length (pieces n size l) = n.
Proof. revert l. induction n as [|n IH]; intros l; [done|]. cbn. by rewrite IH. Qed.

Lemma lookup_pieces n size l k piece : pieces n size l !! k = Some piece -> (k < n)%nat /\ piece = take size (drop (k * size) l).
Proof.
  revert l k. induction n as [|n IH]; intros l [|k]; try done; cbn [pieces lookup list_lookup].
  - intros [= <-]. split; [lia|done].
  - intros [Hk ->]%IH. split; [lia|]. by rewrite drop_drop.
Qed.

(** The end of a part's scope. *)
Lemma with_part_inv {A} path (body : Throwing W A) w o w' :
  with_part path body w = (o, w') -> exists w1, body w = (o, w1) /\ w' = (close_part path w1).2.
Proof. unfold with_part. rewrite !mbind_proj. cbn [mreturn]. destruct (body w) as [o1 w1]. intros [= <- <-]. by exists w1. Qed.

Lemma copy_part_faults fuel path remaining stream w : faults_le (faults w) (faults (copy_part fuel path remaining stream w).2).
Proof.
  revert remaining stream w. induction fuel as [|fuel IH]; intros remaining stream w; [by split|]. cbn [copy_part].
  destruct (negb _); [by split|]. rewrite throwing_try_proj. unfold observe. rewrite mbind_proj. cbn [fst snd mreturn].
  pose proof (device_faults_le w) as [H1 H2]. destruct (device_fault w) as [fault w0]. cbn [fst snd] in *.
  destruct (stream_read _ _ _) as [[|c got] stream']; [by split|]. rewrite throwing_try_proj, mbind_proj. cbn [fst snd mreturn].
  pose proof (write_faults path (of_chars (c :: got)) w0) as Hw. destruct (write_part _ _ w0) as [[] w1]; cbn [fst snd] in *.
  - specialize (IH (remaining - Z.of_nat (length (c :: got))) stream' w1) as [H3 H4]. rewrite Hw in H3, H4. split; lia.
  - change (faults_le (faults w) (faults w1)). rewrite Hw. by split.
Qed.

Lemma copy_parts_faults n src chunk i stream made w : faults_le (faults w) (faults (copy_parts n src chunk i stream made w).2).
Proof.
  revert i stream made w. induction n as [|n IH]; intros i stream made w; [by split|]. cbn [copy_parts].
  rewrite throwing_try_proj. unfold observe. rewrite mbind_proj. cbn [fst snd mreturn].
  pose proof (create_faults (part_path src i) w) as Hcr. destruct (create_part _ w) as [[] w1]; cbn [fst snd negb] in *;
    [|change (faults_le (faults w) (faults w1)); rewrite Hcr; by split].
  rewrite throwing_try_proj. pose proof (copy_part_faults (copy_fuel chunk) (part_path src i) chunk stream w1) as [H1 H2].
  destruct (with_part _ _ w1) as [o w3] eqn:Hp. apply with_part_inv in Hp as (w2 & Hcopy & ->). rewrite Hcopy in H1, H2.
  cbn [fst snd] in *. rewrite Hcr in H1, H2. pose proof (close_faults_le (part_path src i) w2) as [H3 H4].
  destruct o as [[stream2|e]|what|]; cbn [fst snd]; try (split; lia).
  specialize (IH (i + 1) stream2 (made ++ [part_path src i]) (close_part (part_path src i) w2).2) as [H5 H6]. split; lia.
Qed.

(** The parts of a stream: what they received, in pieces of the size of a part.  Without a failed
    flush that is what they hold; without a failed read it is all of the stream. *)
Lemma copy_parts_copies n src chunk i stream made w parts_ w' :
  0 <= chunk -> 0 <= i -> copy_parts n src chunk i stream made w = (Finished (Ok parts_), w') ->
  let fresh := part_path src <$> seqZ i (Z.of_nat n) in
  parts_ = made ++ fresh /\
  (forall p, p ∉ fresh -> contents w' !! p = contents w !! p) /\
  exists got, got `prefix_of` unread stream /\ (good stream = false -> got = []) /\
    (failed_flushes (faults w') = failed_flushes (faults w) ->
       Forall2 (fun p piece => contents w' !! p = Some (of_chars piece)) fresh (pieces n (Z.to_nat chunk) got)) /\
    (failed_reads (faults w') = failed_reads (faults w) -> exhausted stream ->
       got = take (n * Z.to_nat chunk) (unread stream)).
Proof.
  intros Hc. revert i stream made w. induction n as [|n IH]; intros i stream made w Hi.
  { intros [= <- <-]. cbn. rewrite app_nil_r. split_and!; [done|done|]. exists []. split_and!; [apply prefix_nil|done|by constructor|done]. }
  cbn [copy_parts]. set (path := part_path src i). intros H. apply throwing_try_Ok_inv in H as (created & w1 & Hw & H).
  apply observe_inv in Hw. destruct created; [|done]. cbn [negb] in H.
  pose proof (create_law path w) as Hcr. pose proof (create_faults path w) as Hcf. rewrite Hw in Hcr, Hcf. specialize (Hcr eq_refl). cbn [snd] in Hcr, Hcf.
  apply throwing_try_Ok_inv in H as (stream2 & w3 & Hcopy & H). apply with_part_inv in Hcopy as (w2 & Hcopy & ->).
  apply (copy_part_copies _ _ _ _ _ _ _ "") in Hcopy as (got & Hc2 & [R1 R2 R3 R4] & Hfl & Hle & Hno); [|done|by rewrite Hcr, lookup_insert_eq].
  rewrite Hcf in Hfl, Hle, Hno. pose proof (close_faults_le path w2) as [Hcl1 Hcl2].
  pose proof (copy_parts_faults n src chunk (i + 1) stream2 (made ++ [path]) (close_part path w2).2) as [Hm1 Hm2]. rewrite H in Hm1, Hm2. cbn [snd] in Hm1, Hm2.
  apply IH in H as (-> & Hframe & got2 & Hpre & Hbad & Hflush & Hread); [|lia].
  rewrite (seqZ_cons i) by lia. replace (Z.pred (Z.of_nat (S n))) with (Z.of_nat n) by lia. change (i + 1) with (Z.succ i) in *.
  rewrite fmap_cons. fold path. assert (path ∉ part_path src <$> seqZ (Z.succ i) (Z.of_nat n)) as Hfresh.
  { intros (j & Hj & [Hlo _]%elem_of_seqZ)%list_elem_of_fmap. apply part_path_inj in Hj; lia. }
  rewrite Hcr, insert_insert_eq in Hc2. split_and!; [by rewrite <- app_assoc| |].
  { intros p [Hne Hp]%not_elem_of_cons. by rewrite Hframe, close_frame, Hc2, lookup_insert_ne. }
  assert (take (Z.to_nat chunk) (got ++ got2) = got /\ drop (Z.to_nat chunk) (got ++ got2) = got2) as [Ht Hd].
  { destruct (good stream2) eqn:Hg2.
    - rewrite <- (R4 eq_refl). by rewrite take_app_length, drop_app_length.
    - rewrite (Hbad eq_refl), app_nil_r. by rewrite take_ge, drop_ge by lia. }
  exists (got ++ got2). split_and!.
  - rewrite <- R1. by apply prefix_app.
  - intros Hg. destruct (R3 Hg) as [-> Hg2]. by rewrite (Hbad Hg2).
  - intros Hsame. cbn [pieces]. rewrite Ht, Hd. rewrite close_faults in *.
    destruct ((close_part path w2).1) eqn:Hok; [|simpl in *; lia]. constructor; [|apply Hflush; lia].
    by rewrite Hframe, close_law, Hc2, lookup_insert_eq by done.
  - intros Hsame He. assert (failed_reads (faults (close_part path w2).2) = failed_reads (faults w2)) as Hr by (rewrite close_faults; by destruct (_.1)).
    destruct (Hno ltac:(lia) He) as [Hgot He2]. rewrite (Hread ltac:(lia) He2).
    assert (unread stream2 = drop (Z.to_nat chunk) (unread stream)) as ->.
    { rewrite <- R1. destruct (good stream2) eqn:Hg2; [by rewrite <- (R4 eq_refl), drop_app_length|].
      rewrite (He2 Hg2), app_nil_r. by rewrite drop_ge by lia. }
    cbn [Nat.mul]. rewrite Hgot. apply take_take_drop.
Qed.

(** A failed copy changes the part only, and reports it. *)
Lemma copy_part_frame fuel path remaining stream w p :
  p <> path -> contents (copy_part fuel path remaining stream w).2 !! p = contents w !! p.
Proof.
  intros Hp. revert remaining stream w. induction fuel as [|fuel IH]; intros remaining stream w; [done|]. cbn [copy_part].
  destruct (negb _); [done|]. rewrite throwing_try_proj. unfold observe. rewrite mbind_proj. cbn [fst snd mreturn].
  pose proof (device_law w) as Hd. destruct (device_fault w) as [fault w0]. cbn [fst snd] in *. rewrite <- Hd.
  destruct (stream_read _ _ _) as [[|c got] stream']; [done|]. rewrite throwing_try_proj, mbind_proj.
  pose proof (write_frame path (of_chars (c :: got)) w0 p Hp) as Hw. destruct (write_part _ _ w0) as [[] w1]; cbn [fst snd mreturn] in *; [by rewrite IH|done].
Qed.

Lemma copy_part_error fuel path remaining stream w e :
  (copy_part fuel path remaining stream w).1 = Finished (Err e) -> e = write_failed path.
Proof.
  revert remaining stream w. induction fuel as [|fuel IH]; intros remaining stream w; [done|]. cbn [copy_part].
  destruct (negb _); [done|]. rewrite throwing_try_proj. unfold observe. rewrite mbind_proj. cbn [fst snd mreturn].
  destruct (stream_read _ _ _) as [[|c got] stream']; [done|]. rewrite throwing_try_proj, mbind_proj.
  destruct (write_part _ _ _) as [[] w1]; cbn [fst snd mreturn]; [apply IH|by intros [= <-]].
Qed.

Lemma copy_parts_frame n src chunk i stream made w p :
  p ∉ part_path src <$> seqZ i (Z.of_nat n) -> contents (copy_parts n src chunk i stream made w).2 !! p = contents w !! p.
Proof.
  revert i stream made w. induction n as [|n IH]; intros i stream made w; [done|]. rewrite (seqZ_cons i) by lia.
  replace (Z.pred (Z.of_nat (S n))) with (Z.of_nat n) by lia. rewrite fmap_cons. intros [Hne Hp]%not_elem_of_cons. cbn [copy_parts].
  rewrite throwing_try_proj. unfold observe. rewrite mbind_proj. pose proof (create_frame (part_path src i) w p Hne) as Hcr.
  destruct (create_part _ w) as [[] w1]; cbn [fst snd mreturn negb] in *; [|done]. rewrite throwing_try_proj.
  pose proof (copy_part_frame (copy_fuel chunk) (part_path src i) chunk stream w1 p Hne) as Hcopy.
  destruct (with_part _ _ w1) as [o w3] eqn:E. apply with_part_inv in E as (w2 & E & ->). rewrite E in Hcopy. cbn [fst snd] in *.
  pose proof (close_frame (part_path src i) w2 p Hne) as Hcl.
  destruct o as [[stream2|e2]|what|]; cbn [fst snd] in *; [rewrite IH by done|..]; by rewrite Hcl, Hcopy.
Qed.

(** When part [k] cannot be written, the parts before it are there, unless a fault hit them. *)
Lemma copy_parts_error n src chunk i stream made w e w' :
  exhausted stream -> 0 <= chunk -> 0 <= i -> faults w' = faults w ->
  copy_parts n src chunk i stream made w = (Finished (Err e), w') ->
  exists k, (k < n)%nat /\ (e = create_failed (part_path src (i + Z.of_nat k)) \/ e = write_failed (part_path src (i + Z.of_nat k))) /\
    Forall2 (fun p piece => contents w' !! p = Some (of_chars piece)) (part_path src <$> seqZ i (Z.of_nat k)) (pieces k (Z.to_nat chunk) (unread stream)).
Proof.
  intros He Hc. revert i stream made w He. induction n as [|n IH]; intros i stream made w He Hi Hsame; [done|]. cbn [copy_parts].
  rewrite throwing_try_proj. unfold observe. rewrite mbind_proj. pose proof (create_law (part_path src i) w) as Hcr.
  pose proof (create_faults (part_path src i) w) as Hcf.
  destruct (create_part (part_path src i) w) as [[] w1]; cbn [fst snd mreturn negb] in *.
  2:{ intros [= <- <-]. exists 0%nat. split_and!; [lia|left; by rewrite Z.add_0_r|constructor]. }
  specialize (Hcr eq_refl). rewrite throwing_try_proj.
  destruct (with_part _ _ w1) as [o w3] eqn:E. apply with_part_inv in E as (w2 & Hcopy & ->).
  destruct o as [[stream2|e2]|what|]; cbn [fst snd]; [|..|done|done].
  2:{ intros [= <- <-]. exists 0%nat. split_and!; [lia| |constructor]. right. rewrite Z.add_0_r. eapply copy_part_error. by rewrite Hcopy. }
  intros H. pose proof H as Hrun. pose proof (copy_parts_faults n src chunk (i + 1) stream2 (made ++ [part_path src i]) (close_part (part_path src i) w2).2) as [Hm1 Hm2].
  rewrite H in Hm1, Hm2. cbn [snd] in Hm1, Hm2. pose proof (close_faults_le (part_path src i) w2) as [Hl1 Hl2].
  pose proof Hcopy as Hcopy2. apply (copy_part_copies _ _ _ _ _ _ _ "") in Hcopy2 as (got & Hc2 & [R1 R2 R3 R4] & Hfl & Hle & Hno); [|done|by rewrite Hcr, lookup_insert_eq].
  rewrite Hcf in *. rewrite Hsame in Hm1, Hm2. destruct (Hno ltac:(lia) He) as [-> He2].
  assert ((close_part (part_path src i) w2).1 = true) as Hok.
  { destruct ((close_part (part_path src i) w2).1) eqn:Hok; [done|]. rewrite close_faults, Hok in Hm2. simpl in Hm2. lia. }
  assert (unread stream2 = drop (Z.to_nat chunk) (unread stream)) as Hd.
  { rewrite <- (take_drop (Z.to_nat chunk) (unread stream)) in R1 at 2. by apply app_inv_head in R1. }
  apply IH in H as (k & Hk & Hcase & Hall); [|done|lia|].
  2:{ rewrite Hsame, close_faults, Hok. destruct (faults w2), (faults w). simpl in *. f_equal; lia. }
  exists (S k). split_and!; [lia|by replace (i + Z.of_nat (S k)) with (i + 1 + Z.of_nat k) by lia|].
  rewrite (seqZ_cons i) by lia. replace (Z.pred (Z.of_nat (S k))) with (Z.of_nat k) by lia. rewrite fmap_cons. constructor; [|by rewrite <- Hd].
  pose proof (copy_parts_frame n src chunk (i + 1) stream2 (made ++ [part_path src i]) (close_part (part_path src i) w2).2 (part_path src i)) as Hf. rewrite Hrun in Hf. cbn [snd] in Hf.
  rewrite Hf, close_law, Hc2, Hcr, lookup_insert_eq; [done|done|]. intros (j & Hj & [Hlo _]%elem_of_seqZ)%list_elem_of_fmap. apply part_path_inj in Hj; lia.
Qed.

(** [split_file] ends, whatever the calls answer. *)
Lemma copy_parts_ends n src chunk i stream made w : (copy_parts n src chunk i stream made w).1 <> Unfinished.
Proof using.
  clear. revert i stream made w. induction n as [|n IH]; intros i stream made w; [done|]. cbn [copy_parts].
  rewrite throwing_try_proj. unfold observe, mbind. destruct (create_part _ w) as [[] w1]; cbn [fst snd mreturn negb]; [|done].
  rewrite throwing_try_proj. pose proof (copy_part_ends _ (part_path src i) chunk stream w1 (le_n _)) as H.
  destruct (with_part _ _ w1) as [o w3] eqn:E. apply with_part_inv in E as (w2 & E & ->). rewrite E in H. cbn [fst snd] in *.
  destruct o as [[stream2|e]|what|]; cbn [fst snd]; [apply IH|done..].
Qed.
End Copy.

Lemma copy_part_quiet `{parts : !PartFiles W} fuel path remaining stream : never_throws (copy_part (W := W) fuel path remaining stream).
Proof.
  revert remaining stream. induction fuel as [|fuel IH]; intros remaining stream; cbn [copy_part]; [quiet|].
  destruct (negb _); [quiet|]. apply never_throws_try; [quiet|]. intros fault.
  destruct (stream_read _ _ _) as [[|c got] stream']; quiet.
Qed.

Lemma with_part_quiet `{parts : !PartFiles W} {A} path (body : Throwing W A) : never_throws body -> never_throws (with_part path body).
Proof. intros H w what. unfold with_part. rewrite !mbind_proj. cbn [mreturn fst]. apply H. Qed.

Lemma copy_parts_quiet `{parts : !PartFiles W} n src chunk i stream made : never_throws (copy_parts (W := W) n src chunk i stream made).
Proof.
  revert i stream made. induction n as [|n IH]; intros i stream made; cbn [copy_parts]; [quiet|].
  apply never_throws_try; [quiet|]. intros created. destruct (negb created); [quiet|].
  apply never_throws_try; [by apply with_part_quiet, copy_part_quiet|]. intros stream2. apply IH.
Qed.

(** The split ends, whatever the calls on files answer. *)
Theorem split_file_terminates `{files : !Files W, parts : !PartFiles W} src chunk (w : W) : (split_file src chunk w).1 <> Unfinished.
Proof.
  unfold split_file. rewrite throwing_try_proj. unfold observe, mbind. destruct (read_file src w) as [[content|] w1]; cbn [fst snd mreturn]; [|done].
  rewrite throwing_try_proj. destruct (fs_file_size src w1) as [[what|total] w2]; cbn [fst snd mreturn]; [done|].
  destruct (_ <=? 0); [done|]. destruct (_ <? 0); [done|]. apply copy_parts_ends.
Qed.

(** The number of parts of a file. *)
Definition parts_needed (total chunk : Z) : Z := (total + chunk - 1) / chunk.

Lemma parts_needed_bounds total chunk :
  0 <= total -> 0 < chunk -> 0 <= parts_needed total chunk /\ parts_needed total chunk * chunk < total + chunk /\ total <= parts_needed total chunk * chunk.
Proof. intros. unfold parts_needed. Z.to_euclidean_division_equations. nia. Qed.

Lemma chunk_count_exact total chunk :
  0 <= total <= INT64_MAX -> 0 < chunk <= INT64_MAX -> parts_needed total chunk < 2 ^ 31 -> chunk_count total chunk = parts_needed total chunk.
Proof.
  intros Ht Hc Hn. pose proof (parts_needed_bounds total chunk ltac:(lia) ltac:(lia)) as [H0 _]. unfold chunk_count, to_int32, INT64_MAX in *.
  rewrite (Z.mod_small (total + chunk - 1)) by lia. fold (parts_needed total chunk). rewrite Z.mod_small; lia.
Qed.

(** Every part but the last is full and the last is not empty. *)
Lemma piece_size total chunk l k piece :
  0 < chunk -> Z.of_nat (length l) = total -> pieces (Z.to_nat (parts_needed total chunk)) (Z.to_nat chunk) l !! k = Some piece ->
  Z.of_nat (length piece) = Z.min chunk (total - Z.of_nat k * chunk) /\ piece <> [].
Proof.
  intros Hc Hl [Hk ->]%lookup_pieces. pose proof (parts_needed_bounds total chunk ltac:(lia) Hc) as (H0 & H1 & _).
  assert (Z.of_nat k * chunk < total) by nia. rewrite <- length_zero_iff_nil, length_take, length_drop. nia.
Qed.

Section Parts.
  Context {W : Type} `{files : !Files W, parts : !PartFiles W}.

(** What a split that succeeds leaves in the files: [got] of the file, cut into the parts. *)
Record split_into (contents : W -> gmap string string) (faults : W -> Faults) (src : string) (chunk : Z) (content : string)
    (w w' : W) (names : list string) (got : list ascii) : Prop := {
  si_names : names = part_path src <$> seqZ 0 (parts_needed (Z.of_nat (str_size content)) chunk);
  si_frame name : name ∉ names -> contents w' !! name = contents w !! name;
  si_prefix : got `prefix_of` chars content;
  si_parts : failed_flushes (faults w') = failed_flushes (faults w) ->
    Forall2 (fun name piece => contents w' !! name = Some (of_chars piece)) names
      (pieces (Z.to_nat (parts_needed (Z.of_nat (str_size content)) chunk)) (Z.to_nat chunk) got);
  si_whole : failed_reads (faults w') = failed_reads (faults w) -> got = chars content;
  si_positive : 0 < chunk;
  si_room : (length got <= Z.to_nat (parts_needed (Z.of_nat (str_size content)) chunk) * Z.to_nat chunk)%nat
}.

Lemma split_file_into (contents : W -> gmap string string) (faults : W -> Faults) `{laws : !PartFilesLaws contents faults}
    src chunk content w names w' :
  let total := Z.of_nat (str_size content) in
  contents w !! src = Some content -> total <= INT64_MAX -> chunk <= INT64_MAX -> parts_needed total chunk < 2 ^ 31 ->
  split_file src chunk w = (Finished (Ok names), w') -> exists got, split_into contents faults src chunk content w w' names got.
Proof.
  intros total Hsrc Ht Hchunk Hn. unfold split_file. intros H. apply throwing_try_Ok_inv in H as (c & w1 & Hr & H).
  apply observe_inv in Hr. destruct (read_law src w) as [Hk Hc]. pose proof (read_faults src w) as Hf. rewrite Hr in Hk, Hc, Hf. cbn [fst snd] in *.
  destruct c as [c|]; [|done]. specialize (Hc c eq_refl). rewrite Hsrc in Hc. injection Hc as <-.
  apply throwing_try_Ok_inv in H as (size & w2 & Hs & H). apply observe_inv in Hs. destruct (size_law src w1) as [Hk1 Hz].
  pose proof (size_faults src w1) as Hf1. rewrite Hs in Hk1, Hz, Hf1. cbn [fst snd] in *. destruct size as [what|size]; [done|].
  rewrite Hk in Hz. specialize (Hz size content eq_refl Hsrc). fold total in Hz. subst size.
  destruct (Z.leb_spec chunk 0) as [|Hpos]; [done|]. assert (0 <= total) as H0 by lia.
  rewrite chunk_count_exact in H by lia. destruct (parts_needed_bounds total chunk H0 Hpos) as (Hc0 & Hlt & Hle).
  destruct (Z.ltb_spec (parts_needed total chunk) 0) as [|_]; [lia|].
  apply (copy_parts_copies contents faults) in H as (-> & Hframe & got & Hpre & _ & Hflush & Hread); [|lia..]. cbn [unread app] in *.
  rewrite Z2Nat.id in * by done. rewrite Hf1, Hf in *. exists got. split; fold total.
  - done.
  - intros. by rewrite Hframe, Hk1, Hk.
  - done.
  - done.
  - intros Hsame. rewrite (Hread Hsame) by done. apply take_ge. unfold str_size in total. lia.
  - done.
  - apply prefix_length in Hpre. unfold str_size in total. lia.
Qed.

Lemma split_into_names contents faults src chunk content w w' names got :
  split_into contents faults src chunk content w w' names got -> NoDup names.
Proof using.
  intros [-> _ _ _ _ _ _]. apply NoDup_fmap_2_strong; [|apply NoDup_seqZ]. intros x y [? _]%elem_of_seqZ [? _]%elem_of_seqZ. by apply part_path_inj.
Qed.

(** The parts together. *)
Lemma concat_parts n k (got : list ascii) : (length got <= n * k)%nat -> concat (map chars (of_chars <$> pieces n k got)) = got.
Proof using.
  intros H. change (of_chars <$> ?l) with (map of_chars l). rewrite map_map, (map_ext _ id) by apply chars_of_chars.
  rewrite map_id, concat_pieces. by apply take_ge.
Qed.

End Parts.


(** A split that fails on part [k] has written the parts before it, and leaves them, unless a
    fault hit them. *)
Lemma split_failure_leaves_parts `{files : !Files W, parts : !PartFiles W} (contents : W -> gmap string string)
    (faults : W -> Faults) `{laws : !PartFilesLaws contents faults} src chunk content w e w' k j :
  contents w !! src = Some content -> split_file src chunk w = (Finished (Err e), w') -> faults w' = faults w ->
  e = create_failed (part_path src (Z.of_nat k)) \/ e = write_failed (part_path src (Z.of_nat k)) -> (j < k)%nat ->
  contents w' !! part_path src (Z.of_nat j) = Some (substr content (j * Z.to_nat chunk) (Z.to_nat chunk)).
Proof.
  intros Hsrc H Hsame Hek Hj. unfold split_file in H. rewrite throwing_try_proj in H. unfold observe, mbind in H.
  destruct (read_law src w) as [_ Hc]. pose proof (read_faults src w) as Hf. destruct (read_file src w) as [[c|] w1] eqn:Hr; cbn [fst snd mreturn] in *; [|by injection H as <- _; destruct Hek].
  specialize (Hc c eq_refl). rewrite Hsrc in Hc. injection Hc as <-. rewrite throwing_try_proj in H.
  pose proof (size_faults src w1) as Hf1. destruct (fs_file_size src w1) as [[what|total] w2]; cbn [fst snd mreturn] in *; [by injection H as <- _; destruct Hek|].
  destruct (Z.leb_spec chunk 0); [by injection H as <- _; destruct Hek|]. destruct (_ <? 0); [done|].
  apply (copy_parts_error contents faults) in H as (k' & Hk' & Hcase & Hall); [|done|lia|lia|congruence]. rewrite Z.add_0_l in Hcase.
  assert (k' = k) as ->.
  { assert (part_path src (Z.of_nat k') = part_path src (Z.of_nat k)) as Heq%part_path_inj; [|lia..].
    destruct Hcase as [->| ->], Hek as [E|E]; try discriminate; injection E as E; exact E. }
  destruct (Forall2_lookup_l _ _ _ j (part_path src (Z.of_nat j)) Hall) as (piece & Hp & ->).
  { rewrite list_lookup_fmap, lookup_seqZ_lt by lia. cbn. by rewrite Z.add_0_l. }
  by apply lookup_pieces in Hp as [_ ->].
Qed.

(** ** Files in memory *)

Module MemFiles.

Definition World := gmap string string.

#[export] Instance files : Files World := {|
  fs_exists path w := (bool_decide (is_Some (w !! path)), w);
  fs_file_size path w := (match w !! path with Some c => inr (Z.of_nat (str_size c)) | None => inl "No such file or directory" end, w);
  fs_is_directory _ := mreturn false;
  read_file path w := (w !! path, w);
  can_open path w := (bool_decide (is_Some (w !! path)), w)
|}.

#[export] Instance parts : PartFiles World := {|
  create_part path w := (true, <[path := ""]> w);
  write_part path s w := match w !! path with Some old => (true, <[path := old +:+ s]> w) | None => (false, w) end;
  close_part _ := mreturn true;
  remove_part path w := (None, delete path w);
  device_fault := mreturn None
|}.

Definition no_faults (w : World) : Faults := MkFaults 0 0.

#[export] Instance laws : PartFilesLaws (W := World) id no_faults.
Proof.
  split; unfold id; try done.
  - intros path w. split; [done|]. intros n c H Hc. unfold fs_file_size, files in H. cbn [fst] in H. unfold World in *. rewrite Hc in H. by injection H.
  - intros path s w old _ Hold. unfold write_part, parts, World in *. by rewrite Hold.
  - intros path w p Hp. cbn. by apply lookup_insert_ne.
  - intros path s w p Hp. unfold write_part, parts, World in *. destruct (w !! path); [|done]. by apply lookup_insert_ne.
Qed.

Definition sample : World := {[ "/f" := "abcde" ]}.

(** The same files on a device that fails at the second read; the number counts the reads. *)
Definition worn_files : Files (World * nat) := {|
  fs_exists path w := (bool_decide (is_Some (w.1 !! path)), w);
  fs_file_size path w := (match w.1 !! path with Some c => inr (Z.of_nat (str_size c)) | None => inl "No such file or directory" end, w);
  fs_is_directory _ := mreturn false;
  read_file path w := (w.1 !! path, w);
  can_open path w := (bool_decide (is_Some (w.1 !! path)), w)
|}.

Definition worn_parts : PartFiles (World * nat) := {|
  create_part path w := (true, (<[path := ""]> w.1, w.2));
  write_part path s w := match w.1 !! path with Some old => (true, (<[path := old +:+ s]> w.1, w.2)) | None => (false, w) end;
  close_part _ := mreturn true;
  remove_part path w := (None, (delete path w.1, w.2));
  device_fault w := (if (w.2 =? 0)%nat then None else Some 0%nat, (w.1, S w.2))
|}.

Definition worn_faults (w : World * nat) : Faults := MkFaults (pred w.2) 0.

Lemma worn_laws : PartFilesLaws (files := worn_files) (parts := worn_parts) fst worn_faults.
Proof.
  split; try done.
  - intros path w. split; [done|]. intros n c H Hc. unfold fs_file_size, worn_files in H. cbn [fst] in H. unfold World in *. rewrite Hc in H. by injection H.
  - intros path s w old _ Hold. unfold write_part, worn_parts, World in *. by rewrite Hold.
  - intros path w p Hp. cbn. by apply lookup_insert_ne.
  - intros path s w p Hp. unfold write_part, worn_parts, World in *. destruct (w.1 !! path); [|done]. by apply lookup_insert_ne.
  - intros path s w. unfold write_part, worn_parts. by destruct (w.1 !! path).
  - intros [w n]. unfold worn_faults, device_fault, worn_parts. cbn. by destruct n.
Qed.

End MemFiles.
Import MemFiles.

