(* ===== verification/TelegramUploader.v ===== *)
(** * Uploads to Telegram: [telegram_uploader.cpp]

    A file up to the split size is one message; a larger one is split ([SplitFile]) and its
    parts are sent by a pool of workers ([JobPool]), as are the files of a directory.  The
    messenger, files and the executor are interfaces. *)

From S2P Require Import Prelude CoreError Identifiers ByteSize Ports Files PoolJoin JobPool SplitFile.

Local Open Scope coro_scope.

(** ** Media kinds *)

Inductive MediaKind := Document | Video | Audio | Photo.

Definition kind_label (k : MediaKind) : string :=
  match k with Video => "video" | Audio => "audio" | Photo => "photo" | Document => "document" end.

(** [path.extension()]: from the last dot of the file name, unless that starts the name. *)
Definition extension (path : string) : string :=
  let name := chars (filename path) in
  match split_last "."%char name with
  | Some ([], _) => ""
  | Some (["."%char], []) => ""
  | Some (_, ext) => of_chars ("."%char :: ext)
  | None => ""
  end.

Definition lower_ext (path : string) : string := str_map tolower (extension path).

Definition video : list string := [".mp4"; ".mkv"; ".mov"; ".avi"; ".webm"].
Definition audio : list string := [".mp3"; ".flac"; ".wav"; ".opus"; ".m4a"; ".aac"].
Definition photo : list string := [".jpg"; ".jpeg"; ".png"; ".webp"].

Definition classify (path : string) : MediaKind :=
  let ext := lower_ext path in
  if bool_decide (ext ∈ video) then Video
  else if bool_decide (ext ∈ audio) then Audio
  else if bool_decide (ext ∈ photo) then Photo
  else Document.

(** The kind of an upload, which only a log line reads. *)
Definition media_kind (path : string) (config : UploadConfig) : MediaKind :=
  if uc_as_document config then Document else classify path.

(** ** Shared progress of the parts: [uploaded_bytes] and [last_cb] of [SharedState] *)
Record PartsProgress := MkPartsProgress { uploaded_bytes : Z; last_cb : Z }.

(** ** The order of [fs::path]: by components, an absolute path after a relative one *)

(** The components of a path: what stands between slashes, runs of slashes counting as one. *)
Fixpoint components_from (cur : list ascii) (l : list ascii) : list (list ascii) :=
  match l with
  | [] => match cur with [] => [] | _ => [rev cur] end
  | c :: l => if bool_decide (c = "/"%char) then match cur with [] => components_from [] l | _ => rev cur :: components_from [] l end
              else components_from (c :: cur) l
  end.
Definition components (path : string) : list (list ascii) := components_from [] (chars path).

Fixpoint components_ltb (a b : list (list ascii)) : bool :=
  match a, b with
  | _, [] => false
  | [], _ :: _ => true
  | x :: a, y :: b => bytes_ltb x y || (negb (bytes_ltb y x) && components_ltb a b)
  end.

Definition path_ltb (a b : string) : bool :=
  match starts_with a "/", starts_with b "/" with
  | false, true => true
  | true, false => false
  | _, _ => components_ltb (components a) (components b)
  end.

(** [std::ranges::sort] as an insertion sort. *)
Fixpoint insert_path (p : string) (l : list string) : list string :=
  match l with
  | [] => [p]
  | q :: l => if path_ltb q p then q :: insert_path p l else p :: q :: l
  end.
Definition sort_paths (l : list string) : list string := foldr insert_path [] l.

Section Uploads.
  Context {W : Type} `{messenger_ : !MessengerInterface W, files : !Files W, parts : !PartFiles W, walk : !Walk W}.
  Context `{steady : !SteadyClock W, cancel : !Cancellation W, parts_pool : !Executor (PartsProgress * W), files_pool : !Executor W}.
  Context (upload_parallelism upload_files_parallelism : Z) (on_progress : option (UploadProgress -> M W unit)).

Definition cancelled : AppError := MkError Cancelled "telegram_uploader: cancelled".

Definition report (p : UploadProgress) : Throwing W unit :=
  match on_progress with Some f => observe (f p) | None => finish_with (Ok ()) end.

(** [duration_cast<milliseconds>(now - started)] and the result. *)
Definition uploaded (id : string) (size started : Z) : Throwing W UploadResult :=
  co_throwing stop <- observe steady_clock_now;
  finish_with (Ok (MkUploadResult id "" size (Z.quot (stop - started) 1000000))).

(** ** One part *)

(** After a part: the counter, and a report at most once per second. *)
Definition count_part (name : string) (file_size total_parts : Z) (idx : nat) (part_size : Z) : Throwing (PartsProgress * W) unit :=
  co_throwing p <- observe get_state;
  let running := uploaded_bytes p + part_size in
  co_throwing counted <- observe (put_state (MkPartsProgress running (last_cb p)));
  match on_progress with
  | None => finish_with (Ok ())
  | Some f =>
      co_throwing now <- observe (lift steady_clock_now);
      if 1000000000 <=? now - last_cb p then
        co_throwing stamped <- observe (put_state (MkPartsProgress running now));
        observe (lift (f (MkProgress name file_size running (Z.of_nat idx + 1) total_parts 0 0)))
      else finish_with (Ok ())
  end.

Definition part_caption (name : string) (idx : nat) (total_parts : Z) : string :=
  "Part" +:+ pad_02 (Z.of_nat idx + 1) +:+ "/" +:+ pad_02 total_parts +:+ " " +:+ name.

(** The job of a worker: its slot of [results] and of [part_sizes]. *)
Definition send_part (chat : ChatId) (thumb : option string) (name : string) (file_size : Z) (part_paths : list string) (idx : nat)
  : Throwing (PartsProgress * W) (MessageId * Z) :=
  let total_parts := Z.of_nat (length part_paths) in
  let part := default "" (part_paths !! idx) in
  co_throwing size <- observe (lift (fs_file_size part));
  match size with
  | inl what => finish_with (error FileSystem ("telegram_uploader: file_size on part failed: " +:+ what))
  | inr part_size =>
      co_throwing msg <- no_throw (lift (send_file chat part (part_caption name idx total_parts) thumb));
      co_throwing counted <- count_part name file_size total_parts idx part_size;
      finish_with (Ok (msg, part_size))
  end.

(** ** Gathering the parts *)

(** The loop over the slots: the sum of the sizes and the first message. *)
Fixpoint gather (slots : nat -> option (MessageId * Z)) (n i : nat) (size : Z) (file_id : string) : Result (Z * string) :=
  match n with
  | O => Ok (size, file_id)
  | S n =>
      match slots i with
      | None => error Internal ("telegram_uploader: missing result for part " +:+ fmt_int (Z.of_nat i + 1))
      | Some (msg, part_size) =>
          gather slots n (S i) (size + part_size) (if str_empty file_id then fmt_int (value msg) else file_id)
      end
  end.

Definition parts_outcome (total_parts : nat) (s : JobPool (MessageId * Z)) : Result (Z * string) :=
  match jp_error s with
  | Some e => Err e
  | None => gather (slot (jp_results s)) total_parts 0 0 ""
  end.

(** [~PartsCleanup]; failures are only logged. *)
Definition remove_parts (part_paths : list string) : M W unit :=
  mfold (fun _ p => co_await failed <- remove_part p; co_return ()) part_paths ().

(** [std::min(std::max(configured, 1), total_parts)]. *)
Definition parts_width (total_parts : nat) : nat := Z.to_nat (Z.min (Z.max upload_parallelism 1) (Z.of_nat total_parts)).

(** A part of the world's state that lives as long as a call. *)
Definition with_state {S A} (init : S) (m : M (S * W) A) : M W A := fun w => let '(a, c) := m (init, w) in (a, c.2).

(** The pool that sends the parts.  Without a worker, or when the last one is gone too early,
    nobody cancels the timer. *)
Definition send_parts (chat : ChatId) (thumb : option string) (name : string) (file_size : Z) (part_paths : list string)
  : Throwing W (Z * string) :=
  co_throwing now <- observe steady_clock_now;
  co_throwing joined <- observe (with_state (MkPartsProgress 0 (now - 2000000000))
    (run_jobs (MessageId * Z) (length part_paths) (parts_width (length part_paths)) (Some cancelled)
       (send_part chat thumb name file_size part_paths)));
  match joined with
  | None => mreturn Unfinished
  | Some s =>
      match parts_outcome (length part_paths) s with
      | Err e =>
          co_throwing removed <- observe (remove_parts part_paths);
          finish_with (Err e)
      | Ok (size, file_id) =>
          let total_parts := Z.of_nat (length part_paths) in
          co_throwing seen <- report (MkProgress name file_size size total_parts total_parts 0 0);
          co_throwing removed <- observe (remove_parts part_paths);
          finish_with (Ok (size, file_id))
      end
  end.

(** ** [upload_file] *)

Definition upload_whole (path : string) (chat : ChatId) (config : UploadConfig) (file_size started : Z) : Throwing W UploadResult :=
  co_throwing seen <- report (MkProgress (filename path) file_size 0 1 1 0 0);
  co_throwing msg <- no_throw (send_file chat path (default "" (uc_caption config)) (uc_thumbnail_path config));
  co_throwing seen <- report (MkProgress (filename path) file_size file_size 1 1 0 0);
  uploaded (fmt_int (value msg)) file_size started.

Definition upload_split (path : string) (chat : ChatId) (config : UploadConfig) (file_size started : Z) : Throwing W UploadResult :=
  co_throwing part_paths <- split_file path (bytes (uc_split_size config));
  co_throwing sent <- send_parts chat (uc_thumbnail_path config) (filename path) file_size part_paths;
  uploaded sent.2 sent.1 started.

Definition tg_upload_file (path : string) (config : UploadConfig) : Throwing W UploadResult :=
  co_throwing started <- observe steady_clock_now;
  match uc_chat_id config with
  | None => finish_with (error InvalidArgument "telegram_uploader: UploadConfig.chat_id is required")
  | Some chat =>
      co_throwing found <- observe (fs_exists path);
      if negb found then finish_with (error NotFound ("telegram_uploader: file not found: " +:+ path))
      else
        co_throwing size <- observe (fs_file_size path);
        match size with
        | inl what => finish_with (error FileSystem ("telegram_uploader: file_size failed: " +:+ what))
        | inr file_size =>
            co_throwing stop <- observe cancellation_requested;
            if stop : bool then finish_with (Err cancelled)
            else if file_size <=? bytes (uc_split_size config) then upload_whole path chat config file_size started
            else upload_split path chat config file_size started
        end
  end.

(** ** [upload_directory] *)

Definition regular_files (entries : list DirEntry) : list string :=
  flat_map (fun e => match de_kind e with RegularFile => [de_path e] | _ => [] end) entries.

(** [std::clamp(configured, 1, size)]. *)
Definition files_width (n : nat) : nat := Z.to_nat (Z.max 1 (Z.min upload_files_parallelism (Z.of_nat n))).

Definition tg_upload_directory (path : string) (config : UploadConfig) : Throwing W (list UploadResult) :=
  co_throwing found <- observe (fs_is_directory path);
  if negb found then finish_with (error InvalidArgument ("telegram_uploader: not a directory: " +:+ path))
  else
    co_throwing walked <- observe (recursive_directory_iterator path);
    match sort_paths (regular_files (visited walked)) with
    | [] => finish_with (Ok [])
    | sorted =>
        co_throwing joined <- observe (run_jobs UploadResult (length sorted) (files_width (length sorted)) (Some cancelled)
          (fun idx => tg_upload_file (default "" (sorted !! idx)) config));
        match joined with
        | None => mreturn Unfinished
        | Some s => finish_with (directory_outcome s)
        end
    end.

End Uploads.

(** ** What a success means *)

Section Success.
  Context {W : Type} `{messenger_ : !MessengerInterface W, files : !Files W, parts : !PartFiles W, walk : !Walk W}.
  Context `{steady : !SteadyClock W, cancel : !Cancellation W, parts_pool : !Executor (PartsProgress * W), files_pool : !Executor W}.
  Context `{parts_laws : !ExecutorLaws (PartsProgress * W), files_laws : !ExecutorLaws W}.
  Context (upload_parallelism upload_files_parallelism : Z) (on_progress : option (UploadProgress -> M W unit)).

Lemma count_part_quiet name file_size total_parts idx part_size :
  never_throws (count_part on_progress name file_size total_parts idx part_size).
Proof. unfold count_part. quiet. Qed.

Lemma send_part_quiet chat thumb name file_size part_paths idx :
  never_throws (send_part on_progress chat thumb name file_size part_paths idx).
Proof. pose proof count_part_quiet. unfold send_part. quiet. Qed.

(** *** What is sent *)

(** A request to send a file, with the bytes of the file at that time. *)
Record Message := MkMessage {
  m_chat : ChatId;
  m_path : string;
  m_caption : string;
  m_thumbnail : option string;
  m_bytes : option string
}.

Context (outbox : W -> list Message) (contents : W -> gmap string string) (faults : W -> Faults).
Context `{file_laws : !PartFilesLaws contents faults}.

Definition untouched (w : W) : list Message * gmap string string * Faults := (outbox w, contents w, faults w).

(** [send_file] sends one message; nothing else sends, and of the calls around the split only
    those on the parts change files. *)
Class SendLog : Prop := {
  sl_sent chat path caption thumb w : outbox (send_file chat path caption thumb w).2 =
    outbox w ++ [MkMessage chat path caption thumb (contents w !! path)];
  sl_send_contents chat path caption thumb :: Preserves contents (send_file chat path caption thumb);
  sl_send_faults chat path caption thumb :: Preserves faults (send_file chat path caption thumb);
  sl_exists p :: Preserves untouched (fs_exists p);
  sl_now :: Preserves untouched steady_clock_now;
  sl_cancel :: Preserves untouched cancellation_requested;
  sl_progress f p : on_progress = Some f -> Preserves untouched (f p);
  sl_size p :: Preserves outbox (fs_file_size p);
  sl_read p :: Preserves outbox (read_file p);
  sl_create p :: Preserves outbox (create_part p);
  sl_write p s :: Preserves outbox (write_part p s);
  sl_close p :: Preserves outbox (close_part p);
  sl_device :: Preserves outbox device_fault;
  sl_remove p :: Preserves outbox (remove_part p);
  sl_remove_faults p :: Preserves faults (remove_part p)
}.
Context `{send_log : !SendLog}.

(** A part that was sent: its size was read and the messenger took it. *)
Definition part_sent (chat : ChatId) (config : UploadConfig) (name : string) (part_paths : list string) (idx : nat) (sent : MessageId * Z) : Prop :=
  exists w w', (fs_file_size (default "" (part_paths !! idx)) w).1 = inr sent.2 /\
    (send_file chat (default "" (part_paths !! idx)) (part_caption name idx (Z.of_nat (length part_paths)))
       (uc_thumbnail_path config) w').1 = Ok sent.1.

Lemma send_part_sent chat config name file_size part_paths idx c c' sent :
  send_part on_progress chat (uc_thumbnail_path config) name file_size part_paths idx c = (Finished (Ok sent), c') ->
  part_sent chat config name part_paths idx sent.
Proof.
  unfold send_part. intros H. repeat undo_step. subst.
  match goal with H1 : observe (lift (fs_file_size _)) _ = _ |- _ => apply observe_inv in H1; unfold lift in H1; injection H1 as H1 _ end.
  match goal with H1 : no_throw _ _ = _ |- _ => apply no_throw_inv in H1; unfold lift in H1; injection H1 as Hmsg _ end.
  unfold part_sent. eauto.
Qed.

#[local] Instance size_untouched p : Preserves untouched (fs_file_size p).
Proof. intros w. unfold untouched. by rewrite (sl_size p w), (proj1 (size_law p w)), size_faults. Qed.

#[local] Instance report_untouched p : Preserves untouched (report on_progress p).
Proof. unfold report. destruct on_progress as [f|] eqn:E; [|apply _]. pose proof (sl_progress f p E). apply _. Qed.

#[local] Instance count_part_untouched name file_size total_parts idx part_size :
  Preserves (fun c : PartsProgress * W => untouched c.2) (count_part on_progress name file_size total_parts idx part_size).
Proof.
  assert (forall s, Preserves (fun c : PartsProgress * W => untouched c.2) (put_state s)) by done.
  assert (Preserves (fun c : PartsProgress * W => untouched c.2) (A := PartsProgress) get_state) by done.
  unfold count_part. destruct on_progress as [f|] eqn:E; frame.
  refine (preserves_observe (fun c : PartsProgress * W => untouched c.2) _ (preserves_lift untouched _ (sl_progress f _ E))).
Qed.

(** The message for part [idx], when the files are [fs]. *)
Definition part_message (chat : ChatId) (config : UploadConfig) (name : string) (names : list string) (fs : gmap string string) (idx : nat) : Message :=
  let part := default "" (names !! idx) in
  MkMessage chat part (part_caption name idx (Z.of_nat (length names))) (uc_thumbnail_path config) (fs !! part).

Lemma send_part_effect chat config name file_size names idx c :
  let '(o, c') := send_part on_progress chat (uc_thumbnail_path config) name file_size names idx c in
  contents c'.2 = contents c.2 /\ faults c'.2 = faults c.2 /\
  exists l, outbox c'.2 = outbox c.2 ++ l /\
    forall x, o = Finished (Ok x) -> l = [part_message chat config name names (contents c.2) idx].
Proof.
  unfold send_part. rewrite throwing_try_proj. unfold observe. rewrite !mbind_proj. cbn [mreturn fst snd lift].
  set (part := default "" (names !! idx)). destruct c as [p w]. cbn [fst snd].
  pose proof (size_untouched part w) as H1. destruct (fs_file_size part w) as [[what|size] w1]; cbn [fst snd] in *;
    injection H1 as Hs1 Hc1 Hf1.
  { split_and!; [done|done|]. exists []. split; [by rewrite app_nil_r|done]. }
  rewrite throwing_try_proj. unfold no_throw. rewrite !mbind_proj. cbn [mreturn fst snd lift].
  set (caption := part_caption name idx (Z.of_nat (length names))).
  pose proof (sl_sent chat part caption (uc_thumbnail_path config) w1) as Hs2.
  pose proof (sl_send_contents chat part caption (uc_thumbnail_path config) w1) as Hc2.
  pose proof (sl_send_faults chat part caption (uc_thumbnail_path config) w1) as Hf2.
  destruct (send_file chat part caption (uc_thumbnail_path config) w1) as [[msg|e] w2]; cbn [fst snd] in *.
  2: { split_and!; [by rewrite Hc2|by rewrite Hf2|]. eexists. split; [by rewrite Hs2, Hs1|done]. }
  rewrite throwing_try_proj.
  pose proof (count_part_untouched name file_size (Z.of_nat (length names)) idx size (p, w2)) as H3.
  destruct (count_part _ _ _ _ _ _ _) as [o c3]. cbn [fst snd] in H3. injection H3 as Hs3 Hc3 Hf3.
  destruct o as [[u|e]|what|]; cbn [fst snd finish_with mreturn];
    (split_and!; [by rewrite Hc3, Hc2|by rewrite Hf3, Hf2|]; eexists; split; [by rewrite Hs3, Hs2, Hs1|]; try done).
  intros x _. unfold part_message. by rewrite <- Hc1.
Qed.

(** Gathering succeeds exactly on full slots: all parts in order, with the first one's id. *)
Lemma gather_Ok slots n i size file_id out :
  gather slots n i size file_id = Ok out ->
  exists sent, length sent = n /\ (forall k x, sent !! k = Some x -> slots (i + k)%nat = Some x) /\
    out.1 = size + sum_of snd sent /\
    out.2 = if str_empty file_id then match sent with [] => "" | x :: _ => fmt_int (value x.1) end else file_id.
Proof.
  revert i size file_id. induction n as [|n IH]; intros i size file_id; cbn [gather].
  - intros [= <-]. exists []. split_and!; [done|done|simpl; lia|]. simpl. destruct (str_empty file_id) eqn:E; [|done]. by apply str_empty_spec.
  - destruct (slots i) as [[msg part_size]|] eqn:Hs; [|done]. intros H%IH. destruct H as (sent & Hl & Hsl & H1 & H2).
    exists ((msg, part_size) :: sent). split_and!; [simpl; lia| |simpl; lia|].
    + intros [|k] x; cbn; [intros [= <-]; by rewrite Nat.add_0_r|]. intros Hk. rewrite <- (Hsl k x Hk). f_equal. lia.
    + rewrite H2. destruct (str_empty file_id) eqn:E; [|by rewrite E]. simpl.
      assert (str_empty (fmt_int (value msg)) = false) as ->; [|done]. apply str_empty_false.
      unfold fmt_int. rewrite chars_of_chars. destruct (value msg <? 0); [done|]. destruct (fmt_nat_chars_nonempty (value msg)) as (c & l & ->). done.
Qed.

(** The parts of a file were all sent: their sizes and their messages' ids. *)
Record parts_sent (chat : ChatId) (config : UploadConfig) (path : string) (names : list string) (sent : list (MessageId * Z)) (out : Z * string) : Prop := {
  one_answer_each : length sent = length names;
  answers_of_parts k x : sent !! k = Some x -> part_sent chat config (filename path) names k x;
  sizes_add_up : out.1 = sum_of snd sent;
  first_message : exists x, sent !! 0%nat = Some x /\ out.2 = fmt_int (value x.1)
}.

(** The messages for the parts, each once. *)
Definition part_messages (chat : ChatId) (config : UploadConfig) (path : string) (names : list string) (fs : gmap string string) : list Message :=
  part_message chat config (filename path) names fs <$> seq 0 (length names).

Lemma with_state_inv {S A} (init : S) (m : M (S * W) A) w a w' :
  with_state init m w = (a, w') -> exists s, m (init, w) = (a, (s, w')).
Proof. unfold with_state. destruct (m (init, w)) as [a1 [s w1]]. intros [= <- <-]. by exists s. Qed.

Lemma remove_parts_effect names w :
  outbox (remove_parts names w).2 = outbox w /\ faults (remove_parts names w).2 = faults w.
Proof.
  assert (forall B (v : W -> B), (forall p, Preserves v (remove_part p)) -> v (remove_parts names w).2 = v w) as H; [|split; apply H; apply _].
  intros B v Hv. refine (preserves_fold v _ _ _ _ w). intros b x. apply preserves_bind; intros; apply _.
Qed.

Lemma send_parts_sent chat config path file_size names w w' out :
  send_parts upload_parallelism on_progress chat (uc_thumbnail_path config) (filename path) file_size names w = (Finished (Ok out), w') ->
  (exists sent, parts_sent chat config path names sent out) /\ faults w' = faults w /\
  outbox w' ≡ₚ outbox w ++ part_messages chat config path names (contents w).
Proof.
  unfold send_parts. intros H. apply throwing_try_Ok_inv in H as (now & w1 & Hnow & H). apply observe_inv in Hnow.
  pose proof (preserves (v := untouched) (m := steady_clock_now) w) as H1. rewrite Hnow in H1. injection H1 as Hs1 Hc1 Hf1.
  apply throwing_try_Ok_inv in H as (joined & w2 & Hpool & H). apply observe_inv, with_state_inv in Hpool as [p2 Hpool].
  destruct joined as [s|]; [|done].
  destruct (parts_outcome (length names) s) as [[size file_id]|e] eqn:Hout.
  2: { apply throwing_try_Ok_inv in H as (u & w3 & _ & H). discriminate H. }
  apply throwing_try_Ok_inv in H as (u & w3 & Hrep & H). apply throwing_try_Ok_inv in H as (u' & w4 & Hrem & H).
  apply observe_inv in Hrem. injection H as <- <-.
  pose proof (preserves (v := untouched) (m := report on_progress (MkProgress (filename path) file_size size (Z.of_nat (length names)) (Z.of_nat (length names)) 0 0)) w2) as H3.
  rewrite Hrep in H3. injection H3 as Hs3 Hc3 Hf3. destruct (remove_parts_effect names w3) as [Hs4 Hf4]. rewrite Hrem in Hs4, Hf4. cbn [snd] in Hs4, Hf4.
  unfold parts_outcome in Hout. destruct (jp_error s) eqn:He; [done|].
  destruct (pool_logs_all (length names) (parts_width upload_parallelism (length names)) (Some cancelled)
    (send_part on_progress chat (uc_thumbnail_path config) (filename path) file_size names)
    (fun c => contents c.2 = contents w /\ faults c.2 = faults w) (fun c => outbox c.2)
    (fun idx => [part_message chat config (filename path) names (contents w) idx]) (MkPartsProgress 0 (now - 2000000000), w1) s (p2, w2) (conj Hc1 Hf1)
    (send_part_quiet chat (uc_thumbnail_path config) (filename path) file_size names)) as [[_ Hf2] Hlog]; [|exact Hpool|done|].
  { intros idx c [Hc Hf]. pose proof (send_part_effect chat config (filename path) file_size names idx c) as Heff.
    destruct (send_part _ _ _ _ _ _ _ c) as [o c']. destruct Heff as (E1 & E2 & l & E3 & E4). cbn [fst snd].
    split; [by rewrite E1, E2|]. exists l. split; [done|]. intros x Hx. rewrite <- Hc. by apply (E4 x). }
  cbn [snd] in Hlog, Hf2. split_and!.
  - pose proof (f_equal fst Hpool) as Hm. cbn [fst] in Hm. destruct (pool_ran _ _ _ _ _ _ Hm) as [es Hran].
    apply gather_Ok in Hout as (sent & Hl & Hs & Hsize & Hid). exists sent. split; [done| |exact Hsize|].
    + intros k m Hk. apply Hs, slot_Some in Hk. cbn [plus] in Hk. destruct (ran_answers _ _ _ _ _ _ _ _ Hran Hk) as [c0 Hc].
      destruct (send_part _ _ _ _ _ _ _ c0) as [o c1] eqn:E in Hc. cbn [fst] in Hc. subst o. by eapply send_part_sent.
    + pose proof (ran_width _ _ _ _ _ _ Hran) as Hw. unfold parts_width in Hw. destruct sent as [|m sent]; [simpl in Hl; lia|]. by exists m.
  - congruence.
  - rewrite Hs4, Hs3, Hlog, Hs1. apply Permutation_app_head. unfold part_messages.
    clear. induction (seq 0 (length names)) as [|k l IH]; [done|]. cbn. by rewrite IH.
Qed.

(** The bytes that messages carry, in order. *)
Definition carried (messages : list Message) : list ascii := concat (map (fun m => chars (default "" (m_bytes m))) messages).

(** A file that went as one message. *)
Definition whole_sent (chat : ChatId) (config : UploadConfig) (path : string) (out : UploadResult) : Prop :=
  ur_size out <= bytes (uc_split_size config) /\
  exists w w' msg, (fs_file_size path w).1 = inr (ur_size out) /\ ur_file_id out = fmt_int (value msg) /\
    (send_file chat path (default "" (uc_caption config)) (uc_thumbnail_path config) w').1 = Ok msg.

Definition whole_message (chat : ChatId) (config : UploadConfig) (path : string) (fs : gmap string string) : Message :=
  MkMessage chat path (default "" (uc_caption config)) (uc_thumbnail_path config) (fs !! path).

(** A file that went in parts: those of a split that began with the files as they were. *)
Definition split_sent (chat : ChatId) (config : UploadConfig) (path : string) (out : UploadResult) (w : W) (messages : list Message) (g : Faults) : Prop :=
  exists w1 w2 names sent, untouched w1 = untouched w /\
    split_file path (bytes (uc_split_size config)) w1 = (Finished (Ok names), w2) /\ faults w2 = g /\
    messages = part_messages chat config path names (contents w2) /\
    parts_sent chat config path names sent (ur_size out, ur_file_id out).

Lemma uploaded_inv id size started w out w' :
  uploaded id size started w = (Finished (Ok out), w') ->
  ur_file_id out = id /\ ur_size out = size /\ ur_link out = "" /\ untouched w' = untouched w.
Proof.
  unfold uploaded. intros H. apply throwing_try_Ok_inv in H as (stop & w1 & Hnow & H). apply observe_inv in Hnow. injection H as <- <-.
  pose proof (preserves (v := untouched) (m := steady_clock_now) w) as H1. rewrite Hnow in H1. done.
Qed.

Lemma split_file_outbox path chunk : Preserves outbox (split_file path chunk).
Proof.
  assert (forall fuel p r st, Preserves outbox (copy_part fuel p r st)) as Hcopy.
  { induction fuel as [|fuel IH]; intros p r st; cbn [copy_part]; [apply _|]. destruct (negb _); [apply _|].
    apply preserves_throwing_try; [apply _|]. intros fault. destruct (stream_read _ _ _) as [[|c got] st']; frame. }
  assert (forall n i st made, Preserves outbox (copy_parts n path chunk i st made)) as Hparts.
  { induction n as [|n IH]; intros i st made; cbn [copy_parts]; [apply _|]. apply preserves_throwing_try; [apply _|]. intros created.
    destruct (negb created); [apply _|]. apply preserves_throwing_try; [|intros st'; apply IH].
    unfold with_part. apply preserves_bind; [apply Hcopy|intros o]. apply preserves_bind; intros; apply _. }
  unfold split_file. apply preserves_throwing_try; [apply _|]. intros [content|]; [|apply _].
  apply preserves_throwing_try; [apply _|]. intros [what|total]; [apply _|]. destruct (_ <=? 0); [apply _|]. destruct (_ <? 0); [done|apply Hparts].
Qed.

Lemma upload_whole_sent path chat config file_size started w out w' :
  upload_whole on_progress path chat config file_size started w = (Finished (Ok out), w') ->
  file_size <= bytes (uc_split_size config) -> (exists w0, (fs_file_size path w0).1 = inr file_size) ->
  ur_link out = "" /\ whole_sent chat config path out /\
  outbox w' = outbox w ++ [whole_message chat config path (contents w)] /\ faults w' = faults w.
Proof.
  unfold upload_whole. intros H Hle Hsize. apply throwing_try_Ok_inv in H as (u & w1 & H1 & H). apply throwing_try_Ok_inv in H as (msg & w2 & H2 & H).
  apply no_throw_inv in H2. apply throwing_try_Ok_inv in H as (u' & w3 & H3 & H). apply uploaded_inv in H as (Hid & Hn & Hlink & H4).
  pose proof (report_untouched (MkProgress (filename path) file_size 0 1 1 0 0) w) as E1. rewrite H1 in E1. injection E1 as Hs1 Hc1 Hf1.
  pose proof (report_untouched (MkProgress (filename path) file_size file_size 1 1 0 0) w2) as E3. rewrite H3 in E3. injection E3 as Hs3 _ Hf3.
  injection H4 as Hs4 _ Hf4.
  pose proof (sl_sent chat path (default "" (uc_caption config)) (uc_thumbnail_path config) w1) as Hs2.
  pose proof (sl_send_faults chat path (default "" (uc_caption config)) (uc_thumbnail_path config) w1) as Hf2.
  rewrite H2 in Hs2, Hf2. cbn [snd] in Hs2, Hf2. split_and!; [done| | |congruence].
  - split; [by rewrite Hn|]. destruct Hsize as [w0 Hw0]. exists w0, w1, msg. rewrite Hn. split_and!; [done..|by rewrite H2].
  - unfold whole_message. by rewrite Hs4, Hs3, Hs2, Hs1, Hc1.
Qed.

Lemma upload_split_sent path chat config file_size started w out w' :
  upload_split upload_parallelism on_progress path chat config file_size started w = (Finished (Ok out), w') ->
  ur_link out = "" /\ exists messages, outbox w' ≡ₚ outbox w ++ messages /\ split_sent chat config path out w messages (faults w').
Proof.
  unfold upload_split. intros H. apply throwing_try_Ok_inv in H as (names & w1 & Hsplit & H). apply throwing_try_Ok_inv in H as (sent & w2 & Hsend & H).
  apply uploaded_inv in H as (Hid & Hn & Hlink & E). injection E as Hs3 _ Hf3. apply send_parts_sent in Hsend as ([each Heach] & Hf2 & Hperm).
  pose proof (split_file_outbox path (bytes (uc_split_size config)) w) as Hs1. rewrite Hsplit in Hs1. cbn [snd] in Hs1.
  split; [done|]. exists (part_messages chat config path names (contents w1)). split; [by rewrite Hs3, Hperm, Hs1|].
  exists w, w1, names, each. split_and!; [done|done|congruence|done|]. rewrite Hn, Hid. by destruct sent.
Qed.

(** Without a fault the parts of a split carry the bytes of the file. *)
Lemma split_sent_carries chat config path out w messages content :
  split_sent chat config path out w messages (faults w) -> contents w !! path = Some content ->
  bytes (uc_split_size config) <= INT64_MAX -> Z.of_nat (str_size content) <= INT64_MAX ->
  parts_needed (Z.of_nat (str_size content)) (bytes (uc_split_size config)) < 2 ^ 31 ->
  carried messages = chars content.
Proof.
  intros (w1 & w2 & names & sent & Hsame & Hsplit & Hf & -> & _) Hc Hsz Hsize Hn. injection Hsame as _ Hc1 Hf1. rewrite <- Hc1 in Hc.
  apply (split_file_into contents faults) with (content := content) in Hsplit as [got [_ _ _ Hparts Hwhole _ Hroom]]; [|done..].
  rewrite <- Hf1 in Hf. specialize (Hparts ltac:(by rewrite Hf)). rewrite (Hwhole ltac:(by rewrite Hf)) in *. clear Hwhole.
  rewrite <- (concat_parts _ _ _ Hroom). unfold carried, part_messages. f_equal. change (?f <$> seq 0 ?n) with (map f (seq 0 n)). rewrite map_map.
  revert Hparts. generalize (pieces (Z.to_nat (parts_needed (Z.of_nat (str_size content)) (bytes (uc_split_size config)))) (Z.to_nat (bytes (uc_split_size config))) (chars content)) as held.
  clear. intros held H. cbn [part_message m_bytes].
  rewrite <- (map_map (fun k => default "" (names !! k)) (fun name => chars (default "" (contents w2 !! name)))).
  change (map ?f (seq 0 ?n)) with (f <$> seq 0 n). rewrite fmap_lookup_seq. induction H as [|name piece names held E _ IH]; [done|].
  cbn. by rewrite IH, E.
Qed.


End Success.

(** ** Directories *)

Lemma insert_path_perm p l : insert_path p l ≡ₚ p :: l.
Proof. induction l as [|q l IH]; cbn; [done|]. destruct (path_ltb q p); [|done]. rewrite IH. apply Permutation_swap. Qed.

Lemma sort_paths_perm l : sort_paths l ≡ₚ l.
Proof. induction l as [|p l IH]; cbn; [done|]. by rewrite insert_path_perm, IH. Qed.

Section Directory.
  Context {W : Type} `{messenger_ : !MessengerInterface W, files : !Files W, parts : !PartFiles W, walk : !Walk W}.
  Context `{steady : !SteadyClock W, cancel : !Cancellation W, parts_pool : !Executor (PartsProgress * W), files_pool : !Executor W}.
  Context `{files_laws : !ExecutorLaws W}.
  Context (upload_parallelism upload_files_parallelism : Z) (on_progress : option (UploadProgress -> M W unit)).

(** File sizes are those of a 64-bit file system, and no file needs [2^31] parts. *)
Definition sizes_in_range (split : Z) : Prop :=
  split <= INT64_MAX /\ forall path w n, (fs_file_size path w).1 = inr n -> 0 <= n <= INT64_MAX /\ parts_needed n split < 2 ^ 31.

Lemma split_file_quiet path split : sizes_in_range split -> never_throws (split_file path split).
Proof.
  intros [Hsplit Hsizes] w what. unfold split_file. rewrite throwing_try_proj. unfold observe, mbind.
  destruct (read_file path w) as [[content|] w1]; cbn [fst snd mreturn]; [|done].
  rewrite throwing_try_proj. specialize (Hsizes path w1). destruct (fs_file_size path w1) as [[e|n] w2]; cbn [fst snd mreturn] in *; [done|].
  destruct (Hsizes n eq_refl) as [Hn Hp]. destruct (Z.leb_spec split 0) as [|Hpos]; [done|].
  rewrite chunk_count_exact by lia. destruct (parts_needed_bounds n split) as [H0 _]; [lia..|].
  destruct (Z.ltb_spec (parts_needed n split) 0); [lia|]. apply copy_parts_quiet.
Qed.

Lemma tg_upload_file_quiet path config :
  sizes_in_range (bytes (uc_split_size config)) -> never_throws (tg_upload_file upload_parallelism on_progress path config).
Proof.
  intros Hs. pose proof (split_file_quiet path _ Hs).
  assert (forall p, never_throws (report on_progress p)) by (intros; unfold report; quiet).
  assert (forall id size started, never_throws (uploaded id size started)) by (intros; unfold uploaded; quiet).
  unfold tg_upload_file, upload_whole, upload_split, send_parts. quiet.
Qed.

(** A directory upload that reports success has uploaded every regular file that the walk
    visited, each exactly once (an error that ends the walk early goes unnoticed): the results are those of successful uploads of these files, in
    the order in which the uploads ended. *)
Theorem telegram_directory_complete path config w outs w' :
  sizes_in_range (bytes (uc_split_size config)) ->
  tg_upload_directory upload_parallelism upload_files_parallelism on_progress path config w = (Finished (Ok outs), w') ->
  exists walked order, (exists w0, (recursive_directory_iterator path w0).1 = walked) /\ order ≡ₚ regular_files (visited walked) /\
    Forall2 (fun file out => exists w1, (tg_upload_file upload_parallelism on_progress file config w1).1 = Finished (Ok out)) order outs.
Proof.
  intros Hs. unfold tg_upload_directory. intros H. undo_step. undo_step; [done|]. undo_step.
  match goal with H1 : observe (recursive_directory_iterator _) ?w0 = (Finished (Ok ?walked), _) |- _ =>
    apply observe_inv in H1; exists walked; rename H1 into Hwalk end.
  match type of Hwalk with _ = (?walked, _) => pose proof (sort_paths_perm (regular_files (visited walked))) as Hperm; set (sorted := sort_paths (regular_files (visited walked))) in * end.
  destruct sorted as [|p ps] eqn:Hsorted.
  { injection H as <- <-. exists []. split_and!; [by eexists; rewrite Hwalk|by rewrite <- Hperm|constructor]. }
  rewrite <- Hsorted in *. clear Hsorted p ps. repeat undo_step.
  match goal with H1 : observe (run_jobs _ _ _ _ _) ?w0 = _ |- _ => apply observe_inv, (f_equal fst) in H1; destruct (pool_ran _ _ _ _ _ _ H1) as [es Hran] end.
  eapply directory_outcome_Ok in H as (order & Ho & Hall); [|exact Hran|by intros; apply tg_upload_file_quiet].
  exists ((fun idx => default "" (sorted !! idx)) <$> order). split_and!; [by eexists; rewrite Hwalk| |by apply Forall2_fmap_l].
  by rewrite Ho, <- Hperm, fmap_lookup_seq.
Qed.
End Directory.

(** ** Parts on disk *)

Section Cleanup.
  Context {W : Type} `{messenger_ : !MessengerInterface W, files : !Files W, parts : !PartFiles W}.
  Context `{steady : !SteadyClock W, parts_pool : !Executor (PartsProgress * W)}.
  Context (upload_parallelism : Z) (on_progress : option (UploadProgress -> M W unit)).

(** Once the workers were joined, removing every part is the last thing done to the world,
    whether the upload succeeded or not. *)
Theorem telegram_parts_removed chat thumb name file_size names w r w' :
  send_parts upload_parallelism on_progress chat thumb name file_size names w = (Finished r, w') ->
  exists w1, w' = (remove_parts names w1).2.
Proof.
  unfold send_parts. rewrite throwing_try_proj. unfold observe at 1. rewrite mbind_proj. cbn [fst snd mreturn].
  rewrite throwing_try_proj. unfold observe at 1. rewrite mbind_proj. cbn [fst snd mreturn].
  destruct (with_state _ _ _) as [[s|] w1]; cbn [fst snd]; [|done]. destruct (parts_outcome _ s) as [[size file_id]|e].
  - unfold report. destruct on_progress as [f|]; rewrite throwing_try_proj; unfold observe; rewrite ?mbind_proj; cbn [fst snd mreturn finish_with];
      rewrite throwing_try_proj, mbind_proj; intros [= _ <-]; eauto.
  - rewrite throwing_try_proj. unfold observe. rewrite mbind_proj. intros [= _ <-]. eauto.
Qed.

(** Nothing is removed when the split itself fails: the upload ends with the error of part
    [k], and the parts before it stay on the disk next to the file with their bytes, if no read
    and no flush failed on the way. *)
Theorem telegram_failed_split_leaves_parts (contents : W -> gmap string string) (faults : W -> Faults)
    `{laws : !PartFilesLaws contents faults} path chat config file_size started content w e w' k j :
  contents w !! path = Some content ->
  split_file path (bytes (uc_split_size config)) w = (Finished (Err e), w') -> faults w' = faults w ->
  e = create_failed (part_path path (Z.of_nat k)) \/ e = write_failed (part_path path (Z.of_nat k)) -> (j < k)%nat ->
  upload_split upload_parallelism on_progress path chat config file_size started w = (Finished (Err e), w') /\
  contents w' !! part_path path (Z.of_nat j) =
    Some (substr content (j * Z.to_nat (bytes (uc_split_size config))) (Z.to_nat (bytes (uc_split_size config)))).
Proof.
  intros Hsrc Hsplit Hf He Hj. split; [|by eapply (split_failure_leaves_parts contents faults)].
  unfold upload_split. by rewrite throwing_try_proj, Hsplit.
Qed.
End Cleanup.

(** ** A concrete chat *)

Module MemTelegram.
Import MemFiles.

(** The files and the messages sent. *)
Definition Chat : Type := World * list Message.
Definition in_files {A} (m : M World A) : M Chat A := fun c => let '(a, w) := m c.1 in (a, (w, c.2)).

#[export] Instance files : Files Chat := {|
  fs_exists path := in_files (fs_exists path);
  fs_file_size path := in_files (fs_file_size path);
  fs_is_directory path := in_files (fs_is_directory path);
  read_file path := in_files (read_file path);
  can_open path := in_files (can_open path)
|}.

(** The streams of a disk. *)
Definition chat_parts (disk : PartFiles World) : PartFiles Chat := {|
  create_part path := in_files (create_part path);
  write_part path s := in_files (write_part path s);
  close_part path := in_files (close_part path);
  remove_part path := in_files (remove_part path);
  device_fault := in_files device_fault
|}.
#[export] Instance parts : PartFiles Chat := chat_parts MemFiles.parts.

#[export] Instance messenger : MessengerInterface Chat := {|
  send_html _ _ := mreturn (Ok (MkId 1));
  edit_html _ _ _ := mreturn (Ok ());
  edit_html_with_keyboard _ _ _ _ := mreturn (Ok ());
  send_html_with_keyboard _ _ _ := mreturn (Ok (MkId 1));
  edit_keyboard _ _ _ := mreturn (Ok ());
  answer_callback _ _ _ := mreturn (Ok ());
  send_file chat path caption thumb c :=
    (Ok (MkId (Z.of_nat (str_size caption))), (c.1, c.2 ++ [MkMessage chat path caption thumb (c.1 !! path)]));
  delete_message _ _ := mreturn (Ok ())
|}.
#[export] Instance steady : SteadyClock Chat := mreturn 5000000000.
#[export] Instance cancel : Cancellation Chat := mreturn false.
#[export] Instance walk : Walk Chat := fun _ => mreturn (MkWalked [
  MkEntry "/d/s" (inr ["s"]) Directory; MkEntry "/d/s/b" (inr ["s"; "b"]) RegularFile; MkEntry "/d/a" (inr ["a"]) RegularFile] None).

Definition on_disk (c : Chat) : gmap string string := c.1.
Definition no_fault (c : Chat) : Faults := MkFaults 0 0.

Lemma in_files_world {A} (m : M World A) c : on_disk (in_files m c).2 = (m c.1).2.
Proof. unfold in_files, on_disk. by destruct (m c.1). Qed.

Lemma in_files_answer {A} (m : M World A) c : (in_files m c).1 = (m c.1).1.
Proof. unfold in_files. by destruct (m c.1). Qed.

Lemma in_files_sent {A} (m : M World A) : Preserves snd (in_files m).
Proof. intros c. unfold in_files. by destruct (m c.1). Qed.

Lemma chat_laws (disk : PartFiles World) :
  PartFilesLaws (parts := disk) id no_faults -> PartFilesLaws (parts := chat_parts disk) on_disk no_fault.
Proof.
  intros [Hr Hs Hc Hw Hcl Hd Fc Fw Fcl _ _ _ _ Gcl Gd]. unfold id in *. split; intros; cbn [read_file fs_file_size create_part write_part close_part device_fault files chat_parts] in *;
    rewrite ?in_files_world, ?in_files_answer in *; try done; eauto.
Qed.

Definition config : UploadConfig := MkUploadConfig (Some (MkId 42)) None None false None None (from_unchecked 2).

#[export] Instance laws : PartFilesLaws on_disk no_fault := chat_laws _ MemFiles.laws.

#[export] Instance send_log : SendLog None snd on_disk no_fault.
Proof. split; first [discriminate|intros; apply in_files_sent|intros; reflexivity|intros; intros [w sent]; reflexivity]. Qed.

(** A disk that is full after one part. *)
Definition full_disk : PartFiles World := {|
  create_part path w := if (length (map_to_list w) <? 2)%nat then (true, <[path := ""]> w) else (false, w);
  write_part path s w := match w !! path with Some old => (true, <[path := old +:+ s]> w) | None => (false, w) end;
  close_part _ := mreturn true;
  remove_part path w := (None, delete path w);
  device_fault := mreturn None
|}.

Lemma full_disk_laws : PartFilesLaws (parts := full_disk) (W := World) id no_faults.
Proof.
  destruct MemFiles.laws as [Hr Hs _ Hw Hcl Hd _ Fw Fcl]. split; [exact Hr|exact Hs| |exact Hw|exact Hcl|exact Hd| |exact Fw|exact Fcl|done..].
  - intros path w. unfold create_part, full_disk, World in *. destruct (length (map_to_list w) <? 2)%nat; [done|discriminate].
  - intros path w p Hp. unfold create_part, full_disk, World in *. destruct (length (map_to_list w) <? 2)%nat; [by apply lookup_insert_ne|done].
Qed.

End MemTelegram.
Import MemFiles MemTelegram.


Definition dir_files : Files Chat := {|
  fs_exists _ := mreturn true;
  fs_file_size _ := mreturn (inr 1);
  fs_is_directory _ := mreturn true;
  read_file _ := mreturn (Some "x");
  can_open _ := mreturn true
|}.

Lemma telegram_directory_complete_witness :
  sizes_in_range (files := dir_files) 2 /\
  (tg_upload_directory (files := dir_files) (parts_pool := Sequential.exec) (files_pool := Sequential.exec) 4 2 None "/d" config (sample, [])).1 =
    Finished (Ok [MkUploadResult "0" "" 1 0; MkUploadResult "0" "" 1 0]) /\
  exists order, order ≡ₚ ["/d/s/b"; "/d/a"] /\ length order = 2%nat.
Proof.
  assert (sizes_in_range (files := dir_files) 2) as Hs.
  { split; [done|]. intros path w n [= <-]. split; [split; [discriminate|discriminate]|reflexivity]. }
  split; [exact Hs|].
  destruct (tg_upload_directory (files := dir_files) (parts_pool := Sequential.exec) (files_pool := Sequential.exec) 4 2 None "/d" config (sample, [])) as [o w'] eqn:E.
  assert (o = Finished (Ok [MkUploadResult "0" "" 1 0; MkUploadResult "0" "" 1 0])) as Ho.
  { change o with (o, w').1. rewrite <- E. vm_compute. reflexivity. }
  split; [exact Ho|]. subst o.
  destruct (telegram_directory_complete (files_laws := Sequential.laws) 4 2 None "/d" config (sample, []) _ w' Hs E) as (walked & order & [w0 Hw] & Hp & Hall).
  exists order. split; [rewrite Hp, <- Hw; reflexivity|]. exact (Forall2_length _ _ _ Hall).
Defined.

Lemma telegram_parts_removed_witness :
  (send_parts (parts_pool := Sequential.exec) 1 None (MkId 42) None "f" 3 ["/f"] (sample, [])).1 = Finished (Ok (5, "11")) /\
  exists w1, (send_parts (parts_pool := Sequential.exec) 1 None (MkId 42) None "f" 3 ["/f"] (sample, [])).2 = (remove_parts ["/f"] w1).2.
Proof.
  destruct (send_parts (parts_pool := Sequential.exec) 1 None (MkId 42) None "f" 3 ["/f"] (sample, [])) as [o w'] eqn:E.
  assert (o = Finished (Ok (5, "11"))) as Ho.
  { change o with (o, w').1. rewrite <- E. vm_compute. reflexivity. }
  split; [exact Ho|]. subst o. exact (telegram_parts_removed 1 None (MkId 42) None "f" 3 ["/f"] (sample, []) _ w' E).
Defined.

Lemma telegram_failed_split_leaves_parts_witness :
  (split_file (parts := chat_parts full_disk) "/f" 2 (sample, [])).1 = Finished (Err (create_failed (part_path "/f" 1))) /\
  (upload_split (parts := chat_parts full_disk) (parts_pool := Sequential.exec) 1 None "/f" (MkId 42) config 5 0 (sample, [])).1 =
    Finished (Err (create_failed (part_path "/f" 1))) /\
  (split_file (parts := chat_parts full_disk) "/f" 2 (sample, [])).2.1 !! part_path "/f" 0 = Some "ab".
Proof.
  split; [vm_compute; reflexivity|].
  destruct (split_file (parts := chat_parts full_disk) "/f" 2 (sample, [])) as [o w'] eqn:E.
  assert (o = Finished (Err (create_failed (part_path "/f" (Z.of_nat 1))))) as Ho.
  { change o with (o, w').1. rewrite <- E. vm_compute. reflexivity. }
  subst o.
  destruct (telegram_failed_split_leaves_parts (parts_pool := Sequential.exec) 1 None on_disk no_fault (laws := chat_laws _ full_disk_laws) "/f" (MkId 42) config 5 0 "abcde"
    (sample, []) _ w' 1 0 eq_refl E eq_refl (or_introl eq_refl) ltac:(lia)) as [H1 H2].
  split; [exact (f_equal fst H1)|exact H2].
Defined.
