(* ===== verification/DriveResources.v ===== *)
(** * Google Drive commands: [application/clone_drive_resource.cpp], [count_drive_resource.cpp],
    [delete_drive_resource.cpp]

    The id is cut out of the link the user gives, and one operation of the Drive port runs
    on it.  The regular expressions of [extract_drive_id] are literal prefixes followed by
    a run of id characters; they are modelled as the search they denote. *)

From S2P Require Import Prelude CoreError Identifiers Formatting Ports.

Local Open Scope coro_scope.

(** ** [extract_drive_id] *)

(** The class [[a-zA-Z0-9_-]]. *)
Definition is_id_char (c : ascii) : bool :=
  let n := code c in
  ((97 <=? n) && (n <=? 122) || (65 <=? n) && (n <=? 90) || (48 <=? n) && (n <=? 57) || (n =? 95) || (n =? 45))%N.

(** The text after the prefix [p] of [l], if it starts with an id character: a match of the
    expression at the first byte of [l]. *)
Definition match_here (p l : list ascii) : option (list ascii) :=
  if list_prefixb p l then
    match take_while is_id_char (drop (length p) l) with
    | [] => None
    | id => Some id
    end
  else None.

(** [std::regex_search] for any of the prefixes: the leftmost match. *)
Fixpoint search_id (prefixes : list (list ascii)) (l : list ascii) : option (list ascii) :=
  match head (omap (fun p => match_here p l) prefixes) with
  | Some id => Some id
  | None => match l with
            | [] => None
            | _ :: l' => search_id prefixes l'
            end
  end.

Definition file_re : list (list ascii) := [chars "/file/d/"].
Definition folder_re : list (list ascii) := [chars "/folders/"].
Definition query_re : list (list ascii) := [chars "?id="; chars "&id="].

(** [extract_drive_id]. *)
Definition extract_drive_id (input : string) : string :=
  match search_id file_re (chars input) with
  | Some id => of_chars id
  | None => match search_id folder_re (chars input) with
            | Some id => of_chars id
            | None => match search_id query_re (chars input) with
                      | Some id => of_chars id
                      | None => input
                      end
            end
  end.

(** ** The use cases *)

(** [struct CountResult]. *)
Record CountResult := MkCountResult { cr_files : Z; cr_folders : Z; cr_total_bytes : Z }.

(** [class DriveResourceOperations], with the folder the bot copies to. *)
Class DriveResourceOperations (W : Type) := {
  drive_copy : string -> string -> M W (Result string);
  drive_count : string -> M W (Result CountResult);
  drive_remove : string -> M W (Result unit);
  target_folder_id : string
}.

(** The request of the three use cases. *)
Record DriveRequest := MkDriveRequest { dr_source_url : string; dr_user : UserId; dr_chat : ChatId }.

Section UseCases.
  Context {W : Type} `{!MessengerInterface W, !DriveResourceOperations W}.

(** [CloneDriveResource::execute]. *)
Definition clone_execute (request : DriveRequest) : M W (Result string) :=
  if str_empty (dr_source_url request) then co_return error InvalidArgument "clone: empty source URL"
  else if str_empty (target_folder_id (W := W)) then
    co_return error InvalidConfiguration "clone: target folder id not configured"
  else
    let source_id := extract_drive_id (dr_source_url request) in
    co_try progress <- send_html (dr_chat request)
      ("<b><u>Cloning</u></b>" +:+ newline +:+ "<blockquote>Drive copy started.</blockquote>");
    co_await copied <- drive_copy source_id target_folder_id;
    match copied with
    | Err e =>
        co_do edit_html (dr_chat request) progress
          ("<b><u>Clone Failed</u></b>" +:+ newline +:+ "<blockquote>" +:+ escape_html (err_message e) +:+ "</blockquote>");
        co_return Err e
    | Ok id =>
        co_do edit_html (dr_chat request) progress
          ("<b><u>Cloned</u></b>" +:+ newline +:+ "<b>Drive id:</b> <code>" +:+ escape_html id +:+ "</code>");
        co_return Ok id
    end.

(** [CountDriveResource::execute]. *)
Definition count_execute (request : DriveRequest) : M W (Result CountResult) :=
  if str_empty (dr_source_url request) then co_return error InvalidArgument "count: empty source URL"
  else
    let folder_id := extract_drive_id (dr_source_url request) in
    co_try progress <- send_html (dr_chat request)
      ("<b><u>Counting</u></b>" +:+ newline +:+ "<blockquote>Drive folder scan started.</blockquote>");
    co_await counted <- drive_count folder_id;
    match counted with
    | Err e =>
        co_do edit_html (dr_chat request) progress
          ("<b><u>Count Failed</u></b>" +:+ newline +:+ "<blockquote>" +:+ escape_html (err_message e) +:+ "</blockquote>");
        co_return Err e
    | Ok n =>
        co_do edit_html (dr_chat request) progress
          ("<b><u>Drive Count</u></b>" +:+ newline +:+
           "<b>Files:</b> <code>" +:+ fmt_int (cr_files n) +:+ "</code>" +:+ newline +:+
           "<b>Folders:</b> <code>" +:+ fmt_int (cr_folders n) +:+ "</code>" +:+ newline +:+
           "<b>Total:</b> <code>" +:+ format_bytes (cr_total_bytes n) +:+ "</code>");
        co_return Ok n
    end.

(** [DeleteDriveResource::execute]. *)
Definition delete_execute (request : DriveRequest) : M W (Result unit) :=
  if str_empty (dr_source_url request) then co_return error InvalidArgument "delete: empty source URL"
  else
    let file_id := extract_drive_id (dr_source_url request) in
    co_await removed <- drive_remove file_id;
    match removed with
    | Err e =>
        co_do send_html (dr_chat request)
          ("<b><u>Delete Failed</u></b>" +:+ newline +:+ "<blockquote>" +:+ escape_html (err_message e) +:+ "</blockquote>");
        co_return Err e
    | Ok _ =>
        co_do send_html (dr_chat request)
          ("<b><u>Deleted</u></b>" +:+ newline +:+ "<b>Drive id:</b> <code>" +:+ escape_html file_id +:+ "</code>");
        co_return Ok ()
    end.

End UseCases.

(** ** Lemmas *)

Definition id_chars (l : list ascii) : Prop := Forall (fun c => is_id_char c = true) l.

Lemma take_while_stop l tail :
  id_chars l -> match tail with [] => True | c :: _ => is_id_char c = false end ->
  take_while is_id_char (l ++ tail) = l.
Proof.
  induction 1 as [|c l Hc _ IH]; intros Ht; simpl; [|by rewrite Hc, IH].
  destruct tail as [|c tail]; [done|]. simpl. by rewrite Ht.
Qed.

Lemma list_prefixb_app p l : list_prefixb p (p ++ l) = true.
Proof. apply list_prefixb_spec. by exists l. Qed.

(** A match where the prefix is. *)
Lemma match_here_app p id tail :
  id <> [] -> id_chars id -> match tail with [] => True | c :: _ => is_id_char c = false end ->
  match_here p (p ++ id ++ tail) = Some id.
Proof.
  intros Hne Hid Ht. unfold match_here. rewrite list_prefixb_app, drop_app_length, take_while_stop by done.
  by destruct id.
Qed.

Lemma match_here_no_head p c l : head p <> Some c -> p <> [] -> match_here p (c :: l) = None.
Proof. intros H Hne. destruct p as [|d p]; [done|]. unfold match_here. simpl. rewrite bool_decide_false by naive_solver. done. Qed.

(** No match in a text without the first byte of the prefixes. *)
Lemma search_id_none prefixes l :
  Forall (fun p => exists c p', p = c :: p' /\ c ∉ l) prefixes -> search_id prefixes l = None.
Proof.
  intros Hp.
  assert (forall q, Forall (fun p => exists c p', p = c :: p' /\ c ∉ q) prefixes ->
            omap (fun p => match_here p q) prefixes = []) as Hnone.
  { intros q Hq. clear Hp. induction Hq as [|p ps (c & p' & -> & Hc) _ IH]; [done|]. csimpl.
    assert (match_here (c :: p') q = None) as ->; [|exact IH].
    destruct q as [|d q]; [done|]. apply match_here_no_head; [|done]. intros [= ->]. set_solver. }
  induction l as [|d l IH]; simpl; rewrite Hnone by done; [done|].
  apply IH. eapply Forall_impl; [exact Hp|]. intros p (c & p' & -> & Hc). exists c, p'. split; [done|]. set_solver.
Qed.

Lemma search_id_chars prefixes l id : search_id prefixes l = Some id -> id_chars id.
Proof.
  assert (forall q, head (omap (fun p => match_here p q) prefixes) = Some id -> id_chars id) as Hhead.
  { intros q H. assert (id ∈ omap (fun p => match_here p q) prefixes) as Hin.
    { destruct (omap _ _); [done|]. injection H as ->. set_solver. }
    apply list_elem_of_omap in Hin as (p & _ & Hp). unfold match_here in Hp.
    destruct (list_prefixb p q); [|done].
    pose proof (take_while_Forall is_id_char (drop (length p) q)) as Ht.
    destruct (take_while _ _); [done|]. by injection Hp as <-. }
  induction l as [|c l IH]; simpl; (destruct (head _) as [id'|] eqn:E; [intros [= ->]; by eapply Hhead|]); auto. done.
Qed.

(** Letters, digits, [_] and [-] hold no prefix. *)
Lemma bare_id l : id_chars l -> extract_drive_id (of_chars l) = of_chars l.
Proof.
  intros Hl. unfold extract_drive_id. rewrite chars_of_chars.
  assert (forall c, is_id_char c = false -> c ∉ l) as Hc.
  { intros c Hc Hin. unfold id_chars in Hl. rewrite Forall_forall in Hl. rewrite Hl in Hc; done. }
  rewrite !search_id_none; [done|..]; repeat constructor; do 2 eexists; (split; [reflexivity|by apply Hc]).
Qed.

(** A prefix does not match where its second half holds a byte that does not follow. *)
Lemma match_here_missing c p d l x : x ∈ p -> x ∉ l -> match_here (c :: p) (d :: l) = None.
Proof.
  intros Hp Hl. unfold match_here. destruct (list_prefixb (c :: p) (d :: l)) eqn:E; [|done].
  apply list_prefixb_spec in E as [r [= -> ->]]. set_solver.
Qed.

Lemma search_id_skip prefixes c l :
  omap (fun p => match_here p (c :: l)) prefixes = [] -> search_id prefixes (c :: l) = search_id prefixes l.
Proof. intros H. simpl. by rewrite H. Qed.

Lemma search_id_here p prefixes l id : match_here p l = Some id -> search_id (p :: prefixes) l = Some id.
Proof. intros H. destruct l; cbn -[match_here]; by rewrite H. Qed.

Lemma search_id_skip_one p c l : match_here p (c :: l) = None -> search_id [p] (c :: l) = search_id [p] l.
Proof. intros H. cbn -[match_here]. by rewrite H. Qed.

Ltac skip := repeat (rewrite search_id_skip by reflexivity).

Section Links.
  Context (id tail : list ascii) (Hne : id <> []) (Hid : id_chars id).
  Context (Htail : match tail with [] => True | c :: _ => is_id_char c = false end).

Lemma no_slash_in_id : "/"%char ∉ id.
Proof. intros Hin. unfold id_chars in Hid. rewrite Forall_forall in Hid. by apply Hid in Hin. Qed.

Lemma file_link : extract_drive_id (of_chars (chars "https://drive.google.com/file/d/" ++ id ++ tail)) = of_chars id.
Proof.
  unfold extract_drive_id. rewrite chars_of_chars. unfold file_re. simpl app. skip.
  rewrite (search_id_here _ _ _ id); [done|]. by apply (match_here_app (chars "/file/d/")).
Qed.

Context (Hslash : "/"%char ∉ tail).

Lemma no_slash : "/"%char ∉ id ++ tail.
Proof. pose proof no_slash_in_id. set_solver. Qed.

Lemma folder_link : extract_drive_id (of_chars (chars "https://drive.google.com/drive/folders/" ++ id ++ tail)) = of_chars id.
Proof.
  unfold extract_drive_id. rewrite chars_of_chars. unfold file_re at 1. simpl app. skip.
  rewrite search_id_skip_one by (apply (match_here_missing _ _ _ _ "/"%char); [set_solver|apply no_slash]).
  rewrite search_id_none. 2: { repeat constructor. do 2 eexists. split; [reflexivity|apply no_slash]. }
  unfold folder_re. skip. rewrite (search_id_here _ _ _ id); [done|]. by apply (match_here_app (chars "/folders/")).
Qed.

Lemma query_link : extract_drive_id (of_chars (chars "https://drive.google.com/open?id=" ++ id ++ tail)) = of_chars id.
Proof.
  pose proof no_slash as Hn.
  unfold extract_drive_id. rewrite chars_of_chars. unfold file_re, folder_re. simpl app. skip.
  rewrite search_id_none. 2: { repeat constructor. do 2 eexists. split; [reflexivity|exact Hn]. }
  skip. rewrite search_id_none. 2: { repeat constructor. do 2 eexists. split; [reflexivity|exact Hn]. }
  unfold query_re. skip. rewrite (search_id_here _ _ _ id); [done|]. by apply (match_here_app (chars "?id=")).
Qed.
End Links.

(** ** Theorem *)

(** The Drive commands act on the resource the link names: the id of a file link, of a
    folder link and of an [open?id=] link is extracted exactly, whatever follows it; a bare
    id is used as it is; and extraction is idempotent on every input. *)
Theorem drive_id_extraction :
  (forall id tail, id <> [] -> id_chars id -> match tail with [] => True | c :: _ => is_id_char c = false end ->
     extract_drive_id (of_chars (chars "https://drive.google.com/file/d/" ++ id ++ tail)) = of_chars id /\
     ("/"%char ∉ tail ->
        extract_drive_id (of_chars (chars "https://drive.google.com/drive/folders/" ++ id ++ tail)) = of_chars id /\
        extract_drive_id (of_chars (chars "https://drive.google.com/open?id=" ++ id ++ tail)) = of_chars id)) /\
  (forall id, id_chars id -> extract_drive_id (of_chars id) = of_chars id) /\
  (forall s, extract_drive_id (extract_drive_id s) = extract_drive_id s).
Proof.
  split_and!.
  - intros id tail Hne Hid Ht. split; [by apply file_link|]. intros Hs. split; [by apply folder_link|by apply query_link].
  - intros id. apply bare_id.
  - intros s. unfold extract_drive_id at 2 3.
    destruct (search_id file_re (chars s)) as [id|] eqn:E1; [by apply bare_id, (search_id_chars _ _ _ E1)|].
    destruct (search_id folder_re (chars s)) as [id|] eqn:E2; [by apply bare_id, (search_id_chars _ _ _ E2)|].
    destruct (search_id query_re (chars s)) as [id|] eqn:E3; [by apply bare_id, (search_id_chars _ _ _ E3)|].
    unfold extract_drive_id. by rewrite E1, E2, E3.
Qed.

Lemma drive_id_extraction_witness :
  extract_drive_id "https://drive.google.com/file/d/1aB_c-9/view?usp=sharing" = "1aB_c-9".
Proof.
  apply (proj1 (proj1 drive_id_extraction (chars "1aB_c-9") (chars "/view?usp=sharing") ltac:(done)
    ltac:(repeat constructor) ltac:(done))).
Defined.
