(* ===== verification/DriveAuth.v ===== *)
(** * Google Drive credentials: [upload/google_drive_uploader.cpp]

    The service account, the signed JWT and the cached bearer token.  OpenSSL is [OpenSsl],
    nlohmann::json is [Json], the credentials file is [CredentialsFile]. *)

From S2P Require Import Prelude CoreError Ports Http ConfigData Json Encodings.

Local Open Scope coro_scope.

(** [struct DriveAccessToken]: the header value, and when it expires (steady clock, ns). *)
Record DriveAccessToken := MkToken { tk_value : string; expires_at : Z }.

(** [DriveAccessToken{}]. *)
Definition no_token : DriveAccessToken := MkToken "" 0.

(** [struct ServiceAccountKey]. *)
Record ServiceAccountKey := MkKey { client_email : string; private_key_pem : string; token_uri : string }.

(** ** Signing *)

(** The OpenSSL calls of [rs256_sign]; a failure carries the text of [openssl_last_error]. *)
Class OpenSsl := {
  pkey : Type;
  md_ctx : Type;
  ssl_base64 :: OpenSslBase64;
  bio_new_mem_buf : string -> bool;
  pem_read_private_key : string -> string + pkey;
  md_ctx_new : bool;
  digest_sign_init : pkey -> string + md_ctx;
  digest_sign_update : md_ctx -> string -> string + md_ctx;
  digest_sign_size : md_ctx -> string + Z;
  digest_sign_final : md_ctx -> string + string
}.

Section Signing.
  Context `{ssl : !OpenSsl}.

(** An OpenSSL call in [rs256_sign]. *)
Definition openssl {A B} (code : ErrorCode) (call : string) (r : string + A) (k : A -> Result B) : Result B :=
  match r with inl err => error code ("gdrive: " +:+ call +:+ " failed: " +:+ err) | inr a => k a end.

(** [rs256_sign]. *)
Definition rs256_sign (signing_input pem : string) : Result string :=
  if negb (bio_new_mem_buf pem) then error Internal "gdrive: BIO_new_mem_buf failed"
  else openssl InvalidConfiguration "PEM_read_bio_PrivateKey" (pem_read_private_key pem) (fun key =>
    if negb md_ctx_new then error Internal "gdrive: EVP_MD_CTX_new failed"
    else openssl Internal "EVP_DigestSignInit" (digest_sign_init key) (fun ctx =>
      openssl Internal "EVP_DigestSignUpdate" (digest_sign_update ctx signing_input) (fun ctx =>
        openssl Internal "EVP_DigestSignFinal(size)" (digest_sign_size ctx) (fun _ =>
          openssl Internal "EVP_DigestSignFinal" (digest_sign_final ctx) (fun sig => Ok (base64url sig)))))).

End Signing.

(** ** The service account *)

(** Reading the file: [None] when it cannot be opened; [in >> doc]. *)
Class CredentialsFile `{!Json} := stream_json : string -> option (string + json).

Section Account.
  Context `{json_lib : !Json, file : !CredentialsFile}.

(** The [try] block over the members. *)
Definition account_of_json (doc : json) : string + ServiceAccountKey :=
  try v <- json_at doc "client_email"; try email <- get_string v;
  try v <- json_at doc "private_key"; try pem <- get_string v;
  match json_find doc "token_uri" with
  | Some v => try uri <- get_string v; inr (MkKey email pem uri)
  | None => inr (MkKey email pem "https://oauth2.googleapis.com/token")
  end.

(** [load_service_account]. *)
Definition load_service_account (credentials_path : string) : Result ServiceAccountKey :=
  match stream_json credentials_path with
  | None => error NotFound ("gdrive: cannot open credentials file " +:+ credentials_path)
  | Some (inl what) => error JsonParse ("gdrive: credentials JSON parse failed: " +:+ what)
  | Some (inr doc) =>
      match account_of_json doc with
      | inl what => error InvalidConfiguration ("gdrive: missing field in credentials: " +:+ what)
      | inr key =>
          if str_empty (client_email key) || str_empty (private_key_pem key)
          then error InvalidConfiguration "gdrive: client_email / private_key must be non-empty"
          else Ok key
      end
  end.

(** The constructor: without an account the uploader is not [ready_]. *)
Definition ready_account (config : GoogleDriveConfig) : option ServiceAccountKey :=
  match load_service_account (gd_credentials_path config) with Ok key => Some key | Err _ => None end.

End Account.

(** ** Bearer tokens *)

Definition default_timeout : Z := 30000.

(** [make_request] and [add_header]. *)
Definition make_request (method : HttpMethod) (url : string) (headers : list HttpHeader) (body : string) : HttpRequest :=
  MkRequest method url headers body default_timeout.

Section Tokens.
  Context `{json_lib : !Json, ssl : !OpenSsl} {W : Type} `{http : !HttpClient W, clock : !Clock W, steady : !SteadyClock W}.
  Context (key : ServiceAccountKey).

Notation C := (DriveAccessToken * W)%type.

(** [build_signed_jwt] at the time [t] of the system clock. *)
Definition jwt_header : json := json_object [("alg", json_of_string "RS256"); ("typ", json_of_string "JWT")].
Definition jwt_claims (t : Z) : json :=
  let iat := Z.quot t 1000000000 in
  json_object [("iss", json_of_string (client_email key));
               ("scope", json_of_string "https://www.googleapis.com/auth/drive");
               ("aud", json_of_string (token_uri key)); ("exp", json_of_int (iat + 3600)); ("iat", json_of_int iat)].

Definition build_signed_jwt (t : Z) : string + Result string :=
  try header <- json_dump jwt_header;
  try claims <- json_dump (jwt_claims t);
  let signing_input := base64url header +:+ "." +:+ base64url claims in
  inr match rs256_sign signing_input (private_key_pem key) with
      | Ok sig => Ok (signing_input +:+ "." +:+ sig)
      | Err e => Err e
      end.

(** The request of [mint_bearer]. *)
Definition token_request (jwt : string) : HttpRequest :=
  make_request Post (token_uri key) [MkHeader "Content-Type" "application/x-www-form-urlencoded"]
    ("grant_type=urn:ietf:params:oauth:grant-type:jwt-bearer&assertion=" +:+ url_escape jwt).

(** The token of a response: its text and its life time in seconds. *)
Definition token_of_body (text : string) : string + (string * Z) :=
  try doc <- json_parse text;
  try v <- json_at doc "access_token"; try at_ <- get_string v;
  try expires <- json_value get_int32 doc "expires_in" 3600;
  inr (at_, expires).

(** [mint_bearer]. *)
Definition mint_bearer : Throwing C DriveAccessToken :=
  co_await t <- lift now;
  co_throwing jwt <- settle (build_signed_jwt t);
  co_throwing res <- no_throw (lift (http_request (token_request jwt)));
  if negb (status_code res =? 200) then
    finish_with (error Unauthenticated ("gdrive: token exchange returned " +:+ fmt_int (status_code res) +:+ ": " +:+ body res))
  else
    match token_of_body (body res) with
    | inl what => finish_with (error JsonParse ("gdrive: token response parse failed: " +:+ what))
    | inr (at_, expires) =>
        co_await t <- lift steady_clock_now;
        finish_with (Ok (MkToken ("Bearer " +:+ at_) (t + expires * 1000000000)))
    end.

(** [acquire_bearer]. *)
Definition acquire_bearer : Throwing C string :=
  co_await cached <- get_state;
  co_await t <- lift steady_clock_now;
  if negb (str_empty (tk_value cached)) && (t <? expires_at cached - 60 * 1000000000) then finish_with (Ok (tk_value cached))
  else
    co_throwing fresh <- mint_bearer;
    co_do put_state fresh;
    finish_with (Ok (tk_value fresh)).

(** [invalidate_bearer_cache]. *)
Definition invalidate_bearer_cache : M C unit := put_state no_token.

(** A request with its [Authorization] header in front. *)
Definition authorized (bearer : string) (method : HttpMethod) (url : string) (headers : list HttpHeader) (body : string) : HttpRequest :=
  make_request method url (MkHeader "Authorization" bearer :: headers) body.

End Tokens.

(** ** The JWT *)

Section Jwt.
  Context `{json_lib : !Json, ssl : !OpenSsl}.
  Hypothesis openssl_rfc4648 : forall s, openssl_base64 s = base64_encode s.

Lemma rs256_sign_Ok input pem sig : rs256_sign input pem = Ok sig -> exists raw, sig = base64url raw.
Proof. unfold rs256_sign, openssl. repeat crush_match; try done. intros [= <-]. eauto. Qed.

Lemma base64url_no_dot s : Forall (fun c => c <> "."%char) (chars (base64url s)).
Proof. eapply Forall_impl; [by apply base64url_safe|]. by intros c [_ H]. Qed.

(** The assertion is a well-formed JWT that arrives intact: it has three parts between its
    dots, which decode to the header, to the claims with a life of one hour, and to the
    signature over the first two, and escaping it for the form changes nothing. *)
Theorem jwt_wellformed key t jwt :
  build_signed_jwt key t = inr (Ok jwt) ->
  exists header claims raw,
    json_dump jwt_header = inr header /\ json_dump (jwt_claims key t) = inr claims /\
    rs256_sign (base64url header +:+ "." +:+ base64url claims) (private_key_pem key) = Ok (base64url raw) /\
    map base64url_decode (split_on "."%char (chars jwt)) = [Some (chars header); Some (chars claims); Some (chars raw)] /\
    rq_body (token_request key jwt) = "grant_type=urn:ietf:params:oauth:grant-type:jwt-bearer&assertion=" +:+ jwt.
Proof.
  unfold build_signed_jwt, throwing_bind. destruct (json_dump jwt_header) as [|header]; [done|].
  destruct (json_dump (jwt_claims key t)) as [|claims]; [done|]. intros [= H].
  destruct (rs256_sign _ _) as [sig|e] eqn:Hsig; [|done]. injection H as <-.
  destruct (rs256_sign_Ok _ _ _ Hsig) as [raw ->]. exists header, claims, raw. split_and!; try done.
  - rewrite !chars_app, <- !app_assoc. change (chars ".") with ["."%char]. cbn [app].
    rewrite !split_on_app, split_on_none by apply base64url_no_dot. cbn [map]. by rewrite !base64url_decode_encode.
  - simpl. rewrite url_escape_safe; [done|]. rewrite !chars_app, !Forall_app.
    assert (forall s, Forall (fun c => c ∈ safe_chars) (chars (base64url s))) as Hs.
    { intros s. eapply Forall_impl; [by apply base64url_safe|]. by intros c [H _]. }
    assert (Forall (fun c => c ∈ safe_chars) (chars ".")) as Hdot.
    { apply Forall_singleton. apply (bool_decide_unpack _). vm_compute. done. }
    auto.
Qed.

End Jwt.

(** ** The cache *)

Section Cache.
  Context `{json_lib : !Json, ssl : !OpenSsl} {W : Type} `{http : !HttpClient W, clock : !Clock W, steady : !SteadyClock W}.
  Context (key : ServiceAccountKey) (sent : W -> list HttpRequest).

(** Only [request] sends. *)
Class SendLog : Prop := {
  request_logged r w : sent (http_request r w).2 = sent w ++ [r];
  now_silent :: Preserves sent now;
  steady_silent :: Preserves sent steady_clock_now
}.
Context `{logged : !SendLog}.

(** A token is used while it has more than a minute to live. *)
Definition token_valid (tok : DriveAccessToken) (t : Z) : bool :=
  negb (str_empty (tk_value tok)) && (t <? expires_at tok - 60 * 1000000000).

(** A call of [mint_bearer] sends its one request at most. *)
Lemma mint_bearer_effect tok w :
  let '(o, (tok', w')) := mint_bearer key (tok, w) in
  tok' = tok /\ exists l, sent w' = sent w ++ l /\ (length l <= 1)%nat /\ Forall (fun r => exists jwt, r = token_request key jwt) l /\
  match o with Finished (Ok fresh) => l <> [] /\ exists at_, tk_value fresh = "Bearer " +:+ at_ | _ => True end.
Proof.
  unfold mint_bearer. rewrite mbind_proj. cbn [lift fst snd]. pose proof (now_silent w) as Hn.
  destruct (now w) as [t w1]. cbn [fst snd] in *. rewrite throwing_try_proj. cbn [settle mreturn fst snd].
  destruct (build_signed_jwt key t) as [what|[jwt|e]]; cbn [fst snd];
    try (split; [done|]; exists []; rewrite app_nil_r; split_and!; by auto).
  rewrite throwing_try_proj. unfold no_throw. rewrite !mbind_proj. cbn [lift mreturn fst snd].
  pose proof (request_logged (token_request key jwt) w1) as Hr. rewrite Hn in Hr.
  assert (forall w', sent w' = sent w ++ [token_request key jwt] -> tok = tok /\ exists l, sent w' = sent w ++ l /\ (length l <= 1)%nat /\
    Forall (fun r => exists jwt, r = token_request key jwt) l /\ True) as Hone.
  { intros w' H. split; [done|]. exists [token_request key jwt]. rewrite Forall_singleton. split_and!; eauto. }
  destruct (http_request (token_request key jwt) w1) as [[res|e] w2]; cbn [fst snd] in *; [|by apply Hone].
  destruct (negb (status_code res =? 200)); [by apply Hone|].
  destruct (token_of_body (body res)) as [what|[at_ expires]]; [by apply Hone|].
  rewrite mbind_proj. cbn [lift fst snd]. pose proof (steady_silent w2) as Hs.
  destruct (steady_clock_now w2) as [t2 w3]. cbn [fst snd finish_with mreturn] in *. split; [done|].
  exists [token_request key jwt]. rewrite Forall_singleton, Hs, Hr. split_and!; eauto.
Qed.

Lemma acquire_bearer_effect tok w :
  let t := (steady_clock_now w).1 in
  let '(o, (tok', w')) := acquire_bearer key (tok, w) in
  if token_valid tok t then o = Finished (Ok (tk_value tok)) /\ tok' = tok /\ sent w' = sent w
  else exists l, sent w' = sent w ++ l /\ (length l <= 1)%nat /\ Forall (fun r => exists jwt, r = token_request key jwt) l /\
    match o with
    | Finished (Ok bearer) => tk_value tok' = bearer /\ l <> [] /\ exists at_, bearer = "Bearer " +:+ at_
    | _ => tok' = tok
    end.
Proof.
  unfold acquire_bearer. rewrite mbind_proj. cbn [get_state fst snd]. rewrite mbind_proj. cbn [lift fst snd].
  pose proof (steady_silent w) as Hs. destruct (steady_clock_now w) as [t w1]. cbn [fst snd] in *. fold (token_valid tok t).
  destruct (token_valid tok t); [done|]. rewrite throwing_try_proj. pose proof (mint_bearer_effect tok w1) as Hm.
  destruct (mint_bearer key (tok, w1)) as [o [tok' w2]]. destruct Hm as (-> & l & Hl & Hn & Hf & Ho). rewrite Hs in Hl.
  destruct o as [[fresh|e]|what|]; cbn [fst snd mbind put_state finish_with mreturn]; exists l; split_and!; try done.
  - apply Ho.
  - apply Ho.
Qed.

Lemma acquire_bearer_sends tok w :
  let '(o, (tok', w')) := acquire_bearer key (tok, w) in
  exists l, sent w' = sent w ++ l /\ (length l <= 1)%nat /\ Forall (fun r => exists jwt, r = token_request key jwt) l.
Proof.
  pose proof (acquire_bearer_effect tok w) as H. destruct (acquire_bearer key (tok, w)) as [o [tok' w']]. cbv zeta in H.
  destruct (token_valid _ _).
  - destruct H as (_ & _ & H). exists []. rewrite app_nil_r. split_and!; [done|simpl; lia|done].
  - destruct H as (l & H1 & H2 & H3 & _). eauto.
Qed.

(** The bearer is cached exactly as long as it is good: with a token that has more than a
    minute left nothing is sent and it is used; otherwise the token endpoint is asked once, at
    most, nothing else is sent, a success replaces the cached token by the fresh one that is
    returned, and a failure leaves the cache as it was. *)
Theorem bearer_cached_while_valid tok w :
  let t := (steady_clock_now w).1 in
  let '(o, (tok', w')) := acquire_bearer key (tok, w) in
  if token_valid tok t then o = Finished (Ok (tk_value tok)) /\ tok' = tok /\ sent w' = sent w
  else exists l, sent w' = sent w ++ l /\ (length l <= 1)%nat /\ Forall (fun r => exists jwt, r = token_request key jwt) l /\
    match o with
    | Finished (Ok bearer) => tk_value tok' = bearer /\ l <> [] /\ exists at_, bearer = "Bearer " +:+ at_
    | _ => tok' = tok
    end.
Proof. apply acquire_bearer_effect. Qed.

End Cache.

(** ** A concrete account *)

Module MemDriveAuth.

#[export] Instance json_lib : Json := MemJson.json_of_table [
  ("token", MemJson.JObject [("access_token", MemJson.JString "ya29"); ("expires_in", MemJson.JInt 3599)])].

#[export] Instance ssl : OpenSsl := {|
  pkey := unit;
  md_ctx := string;
  ssl_base64 := base64_encode;
  bio_new_mem_buf _ := true;
  pem_read_private_key _ := inr ();
  md_ctx_new := true;
  digest_sign_init _ := inr "";
  digest_sign_update ctx text := inr (ctx +:+ text);
  digest_sign_size _ := inr 256;
  digest_sign_final ctx := inr ("signed " +:+ ctx)
|}.

(** The log of requests; every one is answered with a token. *)
#[export] Instance http : HttpClient (list HttpRequest) := fun r w => (Ok (MkResponse 200 [] "token"), w ++ [r]).
#[export] Instance clock : Clock (list HttpRequest) := mreturn 1700000000000000000.
#[export] Instance steady : SteadyClock (list HttpRequest) := mreturn 5000000000.
#[export] Instance log : SendLog (W := list HttpRequest) id.
Proof. by split. Qed.

Definition account : ServiceAccountKey := MkKey "bot@example.iam" "pem" "https://oauth2.googleapis.com/token".
Definition jwt : string := match build_signed_jwt account 1700000000000000000 with inr (Ok jwt) => jwt | _ => "" end.

End MemDriveAuth.
Import MemDriveAuth.

Lemma jwt_wellformed_witness :
  build_signed_jwt account 1700000000000000000 = inr (Ok jwt) /\
  exists header claims raw,
    json_dump jwt_header = inr header /\ json_dump (jwt_claims account 1700000000000000000) = inr claims /\
    rs256_sign (base64url header +:+ "." +:+ base64url claims) (private_key_pem account) = Ok (base64url raw) /\
    map base64url_decode (split_on "."%char (chars jwt)) = [Some (chars header); Some (chars claims); Some (chars raw)] /\
    rq_body (token_request account jwt) = "grant_type=urn:ietf:params:oauth:grant-type:jwt-bearer&assertion=" +:+ jwt.
Proof.
  assert (build_signed_jwt account 1700000000000000000 = inr (Ok jwt)) as H by (vm_compute; reflexivity).
  split; [exact H|]. exact (jwt_wellformed (fun s => eq_refl) account 1700000000000000000 jwt H).
Defined.

Lemma bearer_cached_while_valid_witness :
  SendLog (W := list HttpRequest) id /\
  acquire_bearer account (no_token, []) = (Finished (Ok "Bearer ya29"), (MkToken "Bearer ya29" 3604000000000, [token_request account jwt])) /\
  exists l, [token_request account jwt] = [] ++ l /\ (length l <= 1)%nat.
Proof.
  split; [exact log|]. split; [vm_compute; reflexivity|].
  destruct (bearer_cached_while_valid account id no_token []) as (l & H & Hl & _). exists l. split; [exact H|exact Hl].
Defined.
