(* ===== verification/DriveApi.v ===== *)
(** * Google Drive over REST: [upload/google_drive_uploader.cpp], copy, count and delete

    The operations of [DriveResourceOperations] on top of [DriveAuth]: one request each, the
    paginated listing, and the two walks over a folder tree.  Loops that the server's answers
    end take fuel; the theorems show that enough exists. *)

From S2P Require Import Prelude CoreError Ports Http ConfigData Json Encodings DriveAuth DriveResources.

Local Open Scope coro_scope.

Definition kFolderMime : string := "application/vnd.google-apps.folder".
Definition files_url : string := "https://www.googleapis.com/drive/v3/files".

(** [status_code / 100 != 2]. *)
Definition success (res : HttpResponse) : bool := Z.quot (status_code res) 100 =? 2.

Definition drive_error {A} (what : string) (res : HttpResponse) : Result A :=
  error GoogleDriveApi (what +:+ " returned " +:+ fmt_int (status_code res) +:+ ": " +:+ body res).

(** [struct Frame] of [copy]. *)
Record Frame := MkFrame { fr_source : string; fr_destination : string }.

Section Api.
  Context `{json_lib : !Json, ssl : !OpenSsl} {W : Type}.
  Context `{http : !HttpClient W, clock : !Clock W, steady : !SteadyClock W, cancel : !Cancellation W}.
  Context (key : option ServiceAccountKey).

Notation C := (DriveAccessToken * W)%type.

Definition json_type : HttpHeader := MkHeader "Content-Type" "application/json; charset=UTF-8".

(** [if (!ready_) co_return ...; auto bearer = co_await acquire_bearer()]. *)
Definition with_bearer {A} (k : string -> Throwing C A) : Throwing C A :=
  match key with
  | None => finish_with (error InvalidState "gdrive: uploader not ready")
  | Some key => co_throwing bearer <- acquire_bearer key; k bearer
  end.

(** [http_.request]. *)
Definition send (r : HttpRequest) : Throwing C HttpResponse := no_throw (lift (http_request r)).

(** The id in a response. *)
Definition id_of_body (text : string) : string + string :=
  try doc <- json_parse text; try v <- json_at doc "id"; get_string v.

Definition parsed_id (what text : string) : Result string :=
  match id_of_body text with inr id => Ok id | inl e => error JsonParse (what +:+ e) end.

(** ** Single requests *)

(** [create_folder] with its bearer. *)
Definition create_folder (account : ServiceAccountKey) (name parent : string) : Throwing C string :=
  co_throwing bearer <- acquire_bearer account;
  co_throwing body_text <- may_throw (json_dump (json_object
    [("name", json_of_string name); ("mimeType", json_of_string kFolderMime); ("parents", json_array [json_of_string parent])]));
  co_throwing res <- send (authorized bearer Post files_url [json_type] body_text);
  finish_with (if negb (success res) then drive_error "gdrive: create folder" res
               else parsed_id "gdrive: create folder parse: " (body res)).

(** [fetch_metadata]. *)
Definition metadata_request (bearer id : string) : HttpRequest :=
  authorized bearer Get (files_url +:+ "/" +:+ url_escape id +:+ "?fields=id,name,mimeType,size,parents") [] "".

Definition fetch_metadata (bearer id : string) : Throwing C json :=
  co_throwing res <- send (metadata_request bearer id);
  finish_with
    (if status_code res =? 404 then error NotFound ("gdrive: id not found: " +:+ id)
     else if negb (success res) then drive_error ("gdrive: metadata fetch " +:+ id) res
     else match json_parse (body res) with inr doc => Ok doc | inl e => error JsonParse ("gdrive: metadata parse: " +:+ e) end).

(** The request of one page of [list_children]. *)
Definition list_request (bearer parent_id page_token : string) : HttpRequest :=
  authorized bearer Get
    (files_url +:+ "?q=" +:+ url_escape ("'" +:+ parent_id +:+ "'")
     +:+ "+in+parents+and+trashed%3Dfalse&fields=nextPageToken,files(id,name,mimeType,size)&pageSize=1000"
     +:+ (if str_empty page_token then "" else "&pageToken=" +:+ url_escape page_token)) [] "".

(** [list_children]: the children after [out], from the page of [page_token]. *)
Fixpoint list_pages (fuel : nat) (bearer parent_id page_token : string) (out : list json) : Throwing C (list json) :=
  match fuel with
  | O => mreturn Unfinished
  | S fuel =>
      co_throwing res <- send (list_request bearer parent_id page_token);
      if negb (success res) then finish_with (drive_error ("gdrive: list children of " +:+ parent_id) res)
      else match json_parse (body res) with
           | inl e => finish_with (error JsonParse ("gdrive: list children parse: " +:+ e))
           | inr doc =>
               let out := out ++ array_member doc "files" in
               match string_member doc "nextPageToken" with
               | Some token => list_pages fuel bearer parent_id token out
               | None => finish_with (Ok out)
               end
           end
  end.

Definition list_children (fuel : nat) (bearer parent_id : string) : Throwing C (list json) := list_pages fuel bearer parent_id "" [].

(** [files.copy] of one file. *)
Definition copy_file (what bearer source_id destination : string) : Throwing C HttpResponse :=
  co_throwing body_text <- may_throw (json_dump (json_object [("parents", json_array [json_of_string destination])]));
  co_throwing res <- send (authorized bearer Post (files_url +:+ "/" +:+ url_escape source_id +:+ "/copy") [json_type] body_text);
  if negb (success res) then finish_with (drive_error what res) else finish_with (Ok res).

(** ** [copy] *)

(** The children of one frame; folders go on the stack. *)
Fixpoint copy_children (account : ServiceAccountKey) (bearer destination : string) (children : list json) (stack : list Frame)
  : Throwing C (list Frame) :=
  match children with
  | [] => finish_with (Ok stack)
  | child :: rest =>
      co_throwing cid <- may_throw (json_value get_string child "id" "");
      if str_empty cid then copy_children account bearer destination rest stack
      else
        co_throwing cmime <- may_throw (json_value get_string child "mimeType" "");
        co_throwing cname <- may_throw (json_value get_string child "name" "item");
        if bool_decide (cmime = kFolderMime) then
          co_throwing created <- create_folder account cname destination;
          copy_children account bearer destination rest (MkFrame cid created :: stack)
        else
          co_throwing res <- copy_file "gdrive: child copy" bearer cid destination;
          copy_children account bearer destination rest stack
  end.

Fixpoint copy_frames (fuel : nat) (account : ServiceAccountKey) (bearer : string) (stack : list Frame) : Throwing C unit :=
  match fuel, stack with
  | _, [] => finish_with (Ok ())
  | O, _ => mreturn Unfinished
  | S fuel, frame :: stack =>
      co_await stop <- lift cancellation_requested;
      if stop : bool then finish_with (error Cancelled "gdrive: copy cancelled")
      else
        co_throwing children <- list_children fuel bearer (fr_source frame);
        co_throwing stack <- copy_children account bearer (fr_destination frame) children stack;
        copy_frames fuel account bearer stack
  end.

(** [copy]. *)
Definition gdrive_copy (fuel : nat) (source_id target_folder_id : string) : Throwing C string :=
  match key with
  | None => finish_with (error InvalidState "gdrive: uploader not ready")
  | Some account =>
      co_throwing bearer <- acquire_bearer account;
      co_throwing meta <- fetch_metadata bearer source_id;
      co_throwing mime <- may_throw (json_value get_string meta "mimeType" "");
      co_throwing name <- may_throw (json_value get_string meta "name" "copy");
      if negb (bool_decide (mime = kFolderMime)) then
        co_throwing res <- copy_file "gdrive: copy" bearer source_id target_folder_id;
        finish_with (parsed_id "gdrive: copy response parse: " (body res))
      else
        co_throwing root_id <- create_folder account name target_folder_id;
        co_throwing done <- copy_frames fuel account bearer [MkFrame source_id root_id];
        finish_with (Ok root_id)
  end.

(** ** [count] *)

(** One child: the totals, and the folder still to visit. *)
Definition count_child (child : json) (totals : CountResult) : string + (CountResult * option string) :=
  try cmime <- json_value get_string child "mimeType" "";
  if bool_decide (cmime = kFolderMime) then
    try cid <- json_value get_string child "id" "";
    inr (MkCountResult (cr_files totals) (cr_folders totals + 1) (cr_total_bytes totals), if str_empty cid then None else Some cid)
  else
    let size := default 0 (string_member child "size" ≫= stoll) in
    inr (MkCountResult (cr_files totals + 1) (cr_folders totals) (cr_total_bytes totals + size), None).

Fixpoint count_children (children : list json) (totals : CountResult) (queue : list string) : string + (CountResult * list string) :=
  match children with
  | [] => inr (totals, queue)
  | child :: rest =>
      try (totals, next) <- count_child child totals;
      count_children rest totals (match next with Some cid => cid :: queue | None => queue end)
  end.

Fixpoint count_folders (fuel : nat) (bearer : string) (totals : CountResult) (queue : list string) : Throwing C CountResult :=
  match fuel, queue with
  | _, [] => finish_with (Ok totals)
  | O, _ => mreturn Unfinished
  | S fuel, here :: queue =>
      co_await stop <- lift cancellation_requested;
      if stop : bool then finish_with (error Cancelled "gdrive: count cancelled")
      else
        co_throwing children <- list_children fuel bearer here;
        co_throwing next <- may_throw (count_children children totals queue);
        count_folders fuel bearer next.1 next.2
  end.

(** [count]. *)
Definition gdrive_count (fuel : nat) (folder_id : string) : Throwing C CountResult :=
  with_bearer (fun bearer => count_folders fuel bearer (MkCountResult 0 0 0) [folder_id]).

(** ** [remove] *)

Definition delete_request (bearer file_id : string) : HttpRequest :=
  authorized bearer Delete_ (files_url +:+ "/" +:+ url_escape file_id) [] "".

Definition gdrive_remove (file_id : string) : Throwing C unit :=
  with_bearer (fun bearer =>
    co_throwing res <- send (delete_request bearer file_id);
    finish_with (if status_code res =? 404 then error NotFound ("gdrive: file not found: " +:+ file_id)
                 else if negb (success res) then drive_error "gdrive: delete" res else Ok ())).

End Api.

(** ** Counting a tree *)

(** What a folder of Drive holds; a document of Google's own has no size. *)
Inductive Entry :=
| EFile (size : option Z)
| EFolder (id : string) (children : list Entry).

Definition plus_counts (a b : CountResult) : CountResult :=
  MkCountResult (cr_files a + cr_files b) (cr_folders a + cr_folders b) (cr_total_bytes a + cr_total_bytes b).
Definition zero_counts : CountResult := MkCountResult 0 0 0.

(** Everything below a folder, each entry once. *)
Fixpoint tally (e : Entry) : CountResult :=
  match e with
  | EFile size => MkCountResult 1 0 (default 0 size)
  | EFolder _ children => plus_counts (MkCountResult 0 1 0) (foldr (fun e acc => plus_counts (tally e) acc) zero_counts children)
  end.
Definition tally_all (es : list Entry) : CountResult := foldr (fun e acc => plus_counts (tally e) acc) zero_counts es.

Lemma plus_counts_assoc a b c : plus_counts a (plus_counts b c) = plus_counts (plus_counts a b) c.
Proof. unfold plus_counts. simpl. f_equal; lia. Qed.
Lemma plus_counts_comm a b : plus_counts a b = plus_counts b a.
Proof. unfold plus_counts. f_equal; lia. Qed.
Lemma plus_counts_zero a : plus_counts a zero_counts = a.
Proof. destruct a. unfold plus_counts. simpl. f_equal; lia. Qed.

Section Trees.
  Context `{json_lib : !Json, ssl : !OpenSsl} {W : Type}.
  Context `{http : !HttpClient W, clock : !Clock W, steady : !SteadyClock W, cancel : !Cancellation W}.
  Context (bearer : string).

(** What [files.list] documents: a record of a child. *)
Inductive describes : json -> Entry -> Prop :=
| describes_file j mime :
    json_value get_string j "mimeType" "" = inr mime -> mime <> kFolderMime ->
    describes j (EFile (string_member j "size" ≫= stoll))
| describes_folder j id children :
    json_value get_string j "mimeType" "" = inr kFolderMime ->
    json_value get_string j "id" "" = inr id -> id <> "" ->
    describes j (EFolder id children).

(** The pages the server answers with, whatever was asked before. *)
Inductive lists : string -> string -> list json -> Prop :=
| last_page parent token res doc :
    (forall w, (http_request (list_request bearer parent token) w).1 = Ok res) -> success res = true ->
    json_parse (body res) = inr doc -> string_member doc "nextPageToken" = None ->
    lists parent token (array_member doc "files")
| more_pages parent token res doc token' rest :
    (forall w, (http_request (list_request bearer parent token) w).1 = Ok res) -> success res = true ->
    json_parse (body res) = inr doc -> string_member doc "nextPageToken" = Some token' ->
    lists parent token' rest ->
    lists parent token (array_member doc "files" ++ rest).

(** A folder tree the server shows. *)
Inductive serves : string -> list Entry -> Prop :=
| serves_folder id js es : lists id "" js -> Forall2 describes js es -> serves_all es -> serves id es
with serves_all : list Entry -> Prop :=
| serves_nil : serves_all []
| serves_file size es : serves_all es -> serves_all (EFile size :: es)
| serves_sub id children es : serves id children -> serves_all es -> serves_all (EFolder id children :: es).

(** [m] returns [a] from every world. *)
Definition always {A} (m : Throwing (DriveAccessToken * W) A) (a : A) : Prop := forall c, (m c).1 = Finished (Ok a).

Lemma always_try {A B} (m : Throwing (DriveAccessToken * W) A) (k : A -> Throwing (DriveAccessToken * W) B) a b :
  always m a -> always (k a) b -> always (throwing_try m k) b.
Proof. intros Hm Hk c. rewrite throwing_try_proj, Hm. apply Hk. Qed.

Lemma always_send r res : (forall w, (http_request r w).1 = Ok res) -> always (send r) res.
Proof. intros H c. unfold send, no_throw. rewrite mbind_proj. simpl. by rewrite H. Qed.

(** Enough fuel for the pages. *)
Lemma list_pages_lists parent token js :
  lists parent token js -> exists n, forall fuel out, (n <= fuel)%nat -> always (list_pages fuel bearer parent token out) (out ++ js).
Proof.
  induction 1 as [parent token res doc H Hs Hp Ht|parent token res doc token' rest H Hs Hp Ht _ [n IH]].
  - exists 1%nat. intros [|fuel] out Hf; [lia|]. cbn [list_pages]. eapply always_try; [by apply always_send|].
    rewrite Hs. cbn [negb]. rewrite Hp, Ht. by intros c.
  - exists (S n). intros [|fuel] out Hf; [lia|]. cbn [list_pages]. eapply always_try; [by apply always_send|].
    rewrite Hs. cbn [negb]. rewrite Hp, Ht, app_assoc. apply IH. lia.
Qed.

(** The subfolders of a folder. *)
Definition subfolders (es : list Entry) : list (string * list Entry) :=
  omap (fun e => match e with EFolder id ch => Some (id, ch) | EFile _ => None end) es.

Definition tally_stack (st : list (string * list Entry)) : CountResult :=
  foldr (fun f acc => plus_counts (tally_all f.2) acc) zero_counts st.

Lemma tally_all_file size es : tally_all (EFile size :: es) = plus_counts (MkCountResult 1 0 (default 0 size)) (tally_all es).
Proof. done. Qed.
Lemma tally_all_folder id ch es :
  tally_all (EFolder id ch :: es) = plus_counts (plus_counts (MkCountResult 0 1 0) (tally_all ch)) (tally_all es).
Proof. done. Qed.
Lemma tally_stack_cons f st : tally_stack (f :: st) = plus_counts (tally_all f.2) (tally_stack st).
Proof. done. Qed.

(** Sums of counts, component by component. *)
Ltac counts := unfold plus_counts; simpl; f_equal; lia.

(** One folder counts its children and leaves its subfolders to be counted. *)
Lemma count_children_spec js es totals st :
  Forall2 describes js es ->
  exists totals' st', count_children js totals (map fst st) = inr (totals', map fst st') /\
    st' = rev (subfolders es) ++ st /\
    plus_counts totals' (tally_stack st') = plus_counts totals (plus_counts (tally_all es) (tally_stack st)).
Proof.
  intros H. revert totals st. induction H as [|j e js es Hj _ IH]; intros totals st.
  { by exists totals, st. }
  cbn [count_children]. destruct Hj as [j mime Hm Hne|j id ch Hm Hid Hne]; unfold count_child; rewrite Hm; cbn [throwing_bind].
  - rewrite bool_decide_false by done. cbn [throwing_bind].
    destruct (IH (MkCountResult (cr_files totals + 1) (cr_folders totals) (cr_total_bytes totals + default 0 (string_member j "size" ≫= stoll))) st)
      as (totals' & st' & Hc & Hst & Hsum). exists totals', st'. split_and!; [done..|]. rewrite Hsum, tally_all_file. counts.
  - rewrite bool_decide_true, Hid by done. cbn [throwing_bind].
    assert (str_empty id = false) as -> by (apply not_true_is_false; intros E; by apply Hne, str_empty_spec).
    destruct (IH (MkCountResult (cr_files totals) (cr_folders totals + 1) (cr_total_bytes totals)) ((id, ch) :: st))
      as (totals' & st' & Hc & Hst & Hsum). exists totals', st'. split_and!; [done| |].
    + rewrite Hst. unfold subfolders. cbn [omap list_omap]. simpl. by rewrite <- app_assoc.
    + rewrite Hsum, tally_all_folder, tally_stack_cons. counts.
Qed.

Lemma tally_stack_app st1 st2 : tally_stack (st1 ++ st2) = plus_counts (tally_stack st1) (tally_stack st2).
Proof. induction st1 as [|f st1 IH]; cbn [app]; [destruct (tally_stack st2); counts|]. rewrite !tally_stack_cons, IH. counts. Qed.

(** Enough fuel for a stack of folders. *)
Definition counted (st : list (string * list Entry)) : Prop :=
  exists n, forall fuel totals, (n <= fuel)%nat ->
    always (count_folders fuel bearer totals (map fst st)) (plus_counts totals (tally_stack st)).

Hypothesis not_cancelled : forall w, (cancellation_requested w).1 = false.

Lemma counted_nil : counted [].
Proof. exists 0%nat. intros fuel totals _ c. destruct fuel; simpl; by rewrite plus_counts_zero. Qed.

Lemma counted_cons id js es st :
  lists id "" js -> Forall2 describes js es -> counted (rev (subfolders es) ++ st) -> counted ((id, es) :: st).
Proof.
  intros Hl Hd [n1 H1]. destruct (list_pages_lists id "" js Hl) as [n2 H2]. exists (S (Nat.max n1 n2)).
  intros [|fuel] totals Hf; [lia|]. cbn [map count_folders fst]. intros [tok w]. rewrite mbind_proj. cbn [lift fst snd].
  rewrite not_cancelled. revert tok. generalize (cancellation_requested w).2. intros w1 tok. generalize (tok, w1).
  change (always (throwing_try (list_children fuel bearer id) (fun children =>
    throwing_try (may_throw (count_children children totals (map fst st))) (fun next => count_folders fuel bearer next.1 next.2)))
    (plus_counts totals (tally_stack ((id, es) :: st)))).
  eapply always_try; [apply H2; lia|]. destruct (count_children_spec js es totals st Hd) as (totals' & st' & Hc & -> & Hsum).
  cbn [app]. rewrite Hc. eapply (always_try _ _ (totals', _)); [by intros c|]. cbn [fst snd].
  rewrite tally_stack_cons. cbn [snd]. rewrite <- Hsum. apply H1. lia.
Qed.

Scheme serves_mut := Minimality for serves Sort Prop
  with serves_all_mut := Minimality for serves_all Sort Prop.

Lemma serves_counted id es : serves id es -> forall st, counted st -> counted ((id, es) :: st).
Proof.
  revert id es. apply (serves_mut (fun id es => forall st, counted st -> counted ((id, es) :: st))
    (fun es => forall st, counted st -> counted (rev (subfolders es) ++ st))).
  - intros id js es Hl Hd _ IH st Hst. apply (counted_cons id js es st Hl Hd). by apply IH.
  - by intros st Hst.
  - intros size es _ IH st Hst. by apply IH.
  - intros id ch es _ IHch _ IHes st Hst. unfold subfolders. cbn [omap list_omap]. simpl. rewrite <- app_assoc.
    apply IHes. by apply IHch.
Qed.

(** Counting is exact and ends: of a folder tree that the server shows, in any number of
    pages, with nobody cancelling, [count] reports every file, every folder and every byte
    below the folder exactly once, the folder itself left out, with any sufficient fuel. *)
Theorem drive_count_exact account id es tok w c :
  acquire_bearer account (tok, w) = (Finished (Ok bearer), c) -> serves id es ->
  exists enough, forall fuel, (enough <= fuel)%nat ->
    (gdrive_count (Some account) fuel id (tok, w)).1 = Finished (Ok (tally_all es)).
Proof.
  intros Hb Hs. destruct (serves_counted id es Hs [] counted_nil) as [n H]. exists n. intros fuel Hf.
  unfold gdrive_count, with_bearer. rewrite throwing_try_proj, Hb. cbn [fst snd]. rewrite (H fuel _ Hf).
  rewrite tally_stack_cons. do 2 f_equal. destruct (tally_all es) eqn:E. cbn [snd]. rewrite E. counts.
Qed.

End Trees.

(** ** What is sent *)

Section Requests.
  Context `{json_lib : !Json, ssl : !OpenSsl} {W : Type}.
  Context `{http : !HttpClient W, clock : !Clock W, steady : !SteadyClock W, cancel : !Cancellation W}.
  Context (sent : W -> list HttpRequest) `{logged : !SendLog sent} `{!Preserves sent cancellation_requested}.

(** Every request [m] sends satisfies [P]. *)
Definition sends {A} (P : HttpRequest -> Prop) (m : M (DriveAccessToken * W) A) : Prop :=
  forall c, exists l, sent (m c).2.2 = sent c.2 ++ l /\ Forall P l.

Lemma sends_return {A} P (a : A) : sends P (mreturn a).
Proof. intros c. exists []. by rewrite app_nil_r. Qed.

Lemma sends_try {A B} P (m : Throwing (DriveAccessToken * W) A) (k : A -> Throwing (DriveAccessToken * W) B) :
  sends P m -> (forall a, sends P (k a)) -> sends P (throwing_try m k).
Proof.
  intros Hm Hk c. destruct (Hm c) as (l1 & H1 & F1). rewrite throwing_try_proj.
  destruct (m c) as [o c1]. cbn [fst snd] in *.
  destruct o as [[a|e]|what|]; cbn [snd]; try (by exists l1).
  destruct (Hk a c1) as (l2 & H2 & F2). exists (l1 ++ l2). rewrite H2, H1, app_assoc. split; [done|by apply Forall_app].
Qed.

Lemma sends_observe {A B} P (m : M W A) (k : A -> M (DriveAccessToken * W) B) `{!Preserves sent m} :
  (forall a, sends P (k a)) -> sends P (mbind (lift m) k).
Proof.
  intros Hk c. rewrite mbind_proj. cbn [lift fst snd]. destruct (Hk (m c.2).1 (c.1, (m c.2).2)) as (l & H & F).
  exists l. rewrite H. cbn [snd]. by rewrite preserves.
Qed.

Lemma sends_send (P : HttpRequest -> Prop) r : P r -> sends P (send r).
Proof.
  intros Hr c. exists [r]. unfold send, no_throw. rewrite mbind_proj. cbn [lift fst snd mreturn].
  split; [exact (request_logged sent r c.2)|by constructor].
Qed.

Lemma sends_bearer (P : HttpRequest -> Prop) account :
  (forall jwt, P (token_request account jwt)) -> sends P (acquire_bearer account).
Proof.
  intros HP [tok w]. pose proof (acquire_bearer_sends account sent tok w) as H.
  destruct (acquire_bearer account (tok, w)) as [o [tok' w']]. destruct H as (l & Hl & _ & Hf). exists l.
  split; [done|]. eapply Forall_impl; [exact Hf|]. by intros r [jwt ->].
Qed.

(** Requests that read or create and leave everything that exists as it is. *)
Definition creates (account : ServiceAccountKey) (r : HttpRequest) : Prop :=
  match rq_method r with
  | Get => True
  | Post => rq_url r = token_uri account \/ rq_url r = files_url \/
            exists id, rq_url r = files_url +:+ "/" +:+ url_escape id +:+ "/copy"
  | _ => False
  end.

(** Take a coroutine apart down to its requests. *)
Ltac walk_requests :=
  repeat first
    [ apply sends_return | apply sends_bearer | apply sends_send | apply sends_try; [|intros ?]
    | (apply sends_observe; [apply _|intros ?]) | progress cbn beta iota zeta
    | match goal with |- sends _ (if ?b then _ else _) => destruct b
                    | |- sends _ (match ?x with _ => _ end) => destruct x end
    | progress unfold finish_with, may_throw, list_children ];
  try solve [auto | unfold creates; simpl; eauto].

Lemma sends_list account fuel bearer parent token out : sends (creates account) (list_pages fuel bearer parent token out).
Proof.
  revert token out. induction fuel as [|fuel IH]; intros token out; cbn [list_pages]; [apply sends_return|].
  walk_requests.
Qed.

Lemma sends_create_folder account name parent : sends (creates account) (create_folder account name parent).
Proof. unfold create_folder. walk_requests. Qed.

Lemma sends_copy_file account what bearer id destination : sends (creates account) (copy_file what bearer id destination).
Proof. unfold copy_file. walk_requests. Qed.

Lemma sends_copy_children account bearer destination children stack :
  sends (creates account) (copy_children account bearer destination children stack).
Proof.
  revert stack. induction children as [|child rest IH]; intros stack; cbn [copy_children]; walk_requests;
    auto using sends_create_folder, sends_copy_file.
Qed.

Lemma sends_copy_frames account fuel bearer stack : sends (creates account) (copy_frames fuel account bearer stack).
Proof.
  revert stack. induction fuel as [|fuel IH]; intros [|frame stack]; cbn [copy_frames]; walk_requests;
    auto using sends_copy_children, sends_list.
Qed.

Lemma sends_count_folders account fuel bearer totals queue : sends (creates account) (count_folders fuel bearer totals queue).
Proof.
  revert totals queue. induction fuel as [|fuel IH]; intros totals [|here queue]; cbn [count_folders]; walk_requests;
    auto using sends_list.
Qed.

(** Cloning and counting are safe for what is already on the drive: whatever the server
    answers, every request they send fetches, lists, exchanges a token, creates a folder or
    copies a file; none deletes or updates.  Deleting sends, besides token requests, one
    request at most, the [DELETE] of exactly the id it was given. *)
Theorem drive_operations_scope account fuel source target file_id :
  sends (creates account) (gdrive_copy (Some account) fuel source target) /\
  sends (creates account) (gdrive_count (Some account) fuel source) /\
  forall tok w, exists tokens deletes,
    sent (gdrive_remove (Some account) file_id (tok, w)).2.2 = sent w ++ tokens ++ deletes /\
    Forall (fun r => exists jwt, r = token_request account jwt) tokens /\ (length deletes <= 1)%nat /\
    Forall (fun r => exists bearer, r = delete_request bearer file_id) deletes.
Proof.
  split_and!.
  - unfold gdrive_copy, fetch_metadata. walk_requests;
      auto using sends_create_folder, sends_copy_file, sends_copy_frames.
  - unfold gdrive_count, with_bearer. walk_requests; auto using sends_count_folders.
  - intros tok w. unfold gdrive_remove, with_bearer. rewrite throwing_try_proj.
    pose proof (acquire_bearer_sends account sent tok w) as H.
    destruct (acquire_bearer account (tok, w)) as [o [tok' w1]]. destruct H as (tokens & Hl & _ & Hf). cbn [fst snd] in *.
    assert (forall w', sent w' = sent w1 -> exists tokens deletes, sent w' = sent w ++ tokens ++ deletes /\
      Forall (fun r => exists jwt, r = token_request account jwt) tokens /\ (length deletes <= 1)%nat /\
      Forall (fun r => exists bearer, r = delete_request bearer file_id) deletes) as Hnone.
    { intros w' Hw. exists tokens, []. rewrite app_nil_r, Hw. split_and!; [done|done|simpl; lia|done]. }
    destruct o as [[bearer|e]|what|]; cbn [snd]; try by apply Hnone.
    rewrite throwing_try_proj. unfold send, no_throw. rewrite mbind_proj. cbn [lift mreturn fst snd].
    pose proof (request_logged sent (delete_request bearer file_id) w1) as Hr.
    exists tokens, [delete_request bearer file_id]. rewrite Forall_singleton. split_and!; [|done|simpl; lia|eauto].
    rewrite app_assoc, <- Hl, <- Hr. by destruct (http_request _ w1) as [[res|e] w2].
Qed.

End Requests.

(** ** A concrete drive *)

Module MemDrive.
Import MemJson.

Definition file (size : string) : node := JObject [("id", JString "f"); ("mimeType", JString "text/plain"); ("size", JString size)].
Definition folder (id : string) : node := JObject [("id", JString id); ("mimeType", JString kFolderMime)].

Definition R1 : node := JObject [("files", JArray [file "7"]); ("nextPageToken", JString "p2")].
Definition R2 : node := JObject [("files", JArray [folder "S"])].
Definition S1 : node := JObject [("files", JArray [file "5"; file "none"])].

(** The folder [R] holds a file and, on a second page, the folder [S], which holds two files. *)
#[export] Instance json_lib : Json := json_of_table [
  ("token", JObject [("access_token", JString "ya29")]);
  ("R1", R1); ("R2", R2); ("S1", S1)].

#[export] Instance ssl : OpenSsl := MemDriveAuth.ssl.

Definition bearer : string := "Bearer ya29".

Definition answer (r : HttpRequest) : string :=
  if bool_decide (rq_url r = rq_url (list_request bearer "R" "")) then "R1"
  else if bool_decide (rq_url r = rq_url (list_request bearer "R" "p2")) then "R2"
  else if bool_decide (rq_url r = rq_url (list_request bearer "S" "")) then "S1" else "token".

#[export] Instance http : HttpClient (list HttpRequest) := fun r w => (Ok (MkResponse 200 [] (answer r)), w ++ [r]).
#[export] Instance clock : Clock (list HttpRequest) := mreturn 1700000000000000000.
#[export] Instance steady : SteadyClock (list HttpRequest) := mreturn 5000000000.
#[export] Instance cancel : Cancellation (list HttpRequest) := mreturn false.
#[export] Instance log : SendLog (W := list HttpRequest) id.
Proof. by split. Qed.
#[export] Instance cancel_silent : Preserves (W := list HttpRequest) id cancellation_requested.
Proof. done. Qed.

Definition account : ServiceAccountKey := MemDriveAuth.account.
Definition tree : list Entry := [EFile (Some 7); EFolder "S" [EFile (Some 5); EFile None]].

Lemma response text r : answer r = text -> forall w, (http_request r w).1 = Ok (MkResponse 200 [] text).
Proof. intros H w. simpl. by rewrite H. Qed.

Lemma tree_served : serves bearer "R" tree.
Proof.
  assert (forall t s, serves_all (json_lib := json_lib) bearer [EFile t; EFile s]) as Hfiles by (intros; repeat constructor).
  apply serves_folder with (js := [file "7"] ++ [folder "S"]).
  - apply (more_pages (json_lib := json_lib) bearer "R" "" (MkResponse 200 [] "R1") R1 "p2" [folder "S"] (response "R1" (list_request bearer "R" "") ltac:(vm_compute; reflexivity))
      eq_refl eq_refl eq_refl).
    exact (last_page (json_lib := json_lib) bearer "R" "p2" (MkResponse 200 [] "R2") R2 (response "R2" (list_request bearer "R" "p2") ltac:(vm_compute; reflexivity)) eq_refl eq_refl eq_refl).
  - constructor; [|constructor; [by apply (describes_folder (json_lib := json_lib) _ "S" _)|done]].
    by apply (describes_file (json_lib := json_lib) (file "7") "text/plain").
  - apply serves_file, serves_sub; [|constructor]. apply serves_folder with (js := [file "5"; file "none"]); [|..|done].
    + exact (last_page (json_lib := json_lib) bearer "S" "" (MkResponse 200 [] "S1") S1 (response "S1" (list_request bearer "S" "") ltac:(vm_compute; reflexivity)) eq_refl eq_refl eq_refl).
    + constructor; [by apply (describes_file (json_lib := json_lib) (file "5") "text/plain")|].
      constructor; [by apply (describes_file (json_lib := json_lib) (file "none") "text/plain")|done].
Qed.

End MemDrive.
Import MemDrive.

Lemma drive_count_exact_witness :
  serves bearer "R" tree /\
  (gdrive_count (Some account) 5 "R" (no_token, [])).1 = Finished (Ok (MkCountResult 3 1 12)) /\
  exists enough, forall fuel, (enough <= fuel)%nat ->
    (gdrive_count (Some account) fuel "R" (no_token, [])).1 = Finished (Ok (MkCountResult 3 1 12)).
Proof.
  split; [exact tree_served|]. split; [vm_compute; reflexivity|].
  exact (drive_count_exact bearer (fun w => eq_refl) account "R" tree no_token [] _
    ltac:(vm_compute; reflexivity) tree_served).
Defined.

Lemma drive_operations_scope_witness :
  SendLog (W := list HttpRequest) id /\ sends id (creates account) (gdrive_copy (Some account) 5 "R" "T") /\
  exists tokens deletes,
    (gdrive_remove (Some account) "R" (no_token, [])).2.2 = [] ++ tokens ++ deletes /\ (length deletes <= 1)%nat.
Proof.
  split; [exact log|]. destruct (drive_operations_scope id account 5 "R" "T" "R") as (H1 & _ & H3).
  split; [exact H1|]. destruct (H3 no_token []) as (tokens & deletes & H & _ & Hl & _). exists tokens, deletes. split; [exact H|exact Hl].
Defined.
