(* ===== verification/DriveChunks.v ===== *)
(** * Parallel chunks of a resumable upload: [GoogleDriveUploader::upload_resumable]

    The plan of aligned chunks, and the workers that send them as a step relation.  The
    workers run on the threads of the executor; a step is what one coroutine does between two
    suspension points, and the events choose the order.  The shared flags are atomic or under
    a mutex and only ever set, so that finer interleavings reach no further states. *)

From Stdlib Require Import Permutation.
From S2P Require Import Prelude CoreError ConfigData Http Json PoolJoin DriveAuth DriveApi.

(** ** The plan *)

Definition kResumableAlignment : Z := 256 * 1024.

(** [chunk_bytes]: at least one alignment unit, rounded down to whole units. *)
Definition chunk_bytes (config : GoogleDriveConfig) : Z :=
  Z.max (to_int64 (gd_chunk_size config)) kResumableAlignment / kResumableAlignment * kResumableAlignment.

(** [struct ChunkPlan]. *)
Record ChunkPlan := MkChunk { ck_offset : Z; ck_length : Z }.

(** The loop over the offsets from [off]; [fuel] bounds the chunks left. *)
Fixpoint plan_from (fuel : nat) (chunk total off : Z) : list ChunkPlan :=
  match fuel with
  | O => []
  | S fuel => if off <? total then MkChunk off (Z.min chunk (total - off)) :: plan_from fuel chunk total (off + chunk) else []
  end.

(** [plan]: there are [(total + chunk - 1) / chunk] chunks. *)
Definition chunk_plan (config : GoogleDriveConfig) (total : Z) : list ChunkPlan :=
  let chunk := chunk_bytes config in plan_from (Z.to_nat ((total + chunk - 1) / chunk)) chunk total 0.

(** [std::clamp(config_.parallel_chunks_per_file, 1, std::max(1, num_chunks))]. *)
Definition parallelism (config : GoogleDriveConfig) (plan : list ChunkPlan) : nat :=
  Z.to_nat (Z.max 1 (Z.min (gd_parallel_chunks_per_file config) (Z.max 1 (Z.of_nat (length plan))))).

(** The delay before attempt [attempt], in milliseconds. *)
Definition backoff_delay (config : GoogleDriveConfig) (attempt : Z) : Z :=
  gd_initial_retry_delay config * 2 ^ Z.min (attempt - 1) 10.

(** ** The workers *)

(** Where a worker is suspended. *)
Inductive Worker :=
| Starting
| Claiming
| Acquiring (idx : nat) (attempt : Z) (refreshed_bearer : bool)
| Putting (idx : nat) (attempt : Z) (refreshed_bearer : bool)
| BackingOff (idx : nat) (attempt delay : Z)
| Exited.

(** [struct Shared], the workers spawned so far, and the coroutine that waits for them. *)
Record Shared := MkShared {
  next_index : nat;
  live_workers : Z;
  bytes_uploaded : Z;
  abort : bool;
  first_error : option AppError;
  file_id : string;
  workers : list Worker;
  parent : Parent
}.

Inductive Event :=
| Spawn
| Park
| Opened (w : nat) (ok : bool)
| Claim (w : nat) (cancelled readable : bool)
| Bearer (w : nat) (r : Result string)
| Answer (w idx : nat) (r : Result HttpResponse)
| Elapsed (w : nat)
| Threw (w : nat).

Section Workers.
  Context `{json_lib : !Json} (config : GoogleDriveConfig) (path : string) (plan : list ChunkPlan).

Definition initial : Shared := MkShared 0 (Z.of_nat (parallelism config plan)) 0 false None "" [] Spawning.

Definition set_worker (w : nat) (p : Worker) (s : Shared) : Shared :=
  MkShared (next_index s) (live_workers s) (bytes_uploaded s) (abort s) (first_error s) (file_id s) (<[w := p]> (workers s)) (parent s).

(** [record_error]. *)
Definition record_error (e : AppError) (s : Shared) : Shared :=
  MkShared (next_index s) (live_workers s) (bytes_uploaded s) true
    (match first_error s with None => Some e | Some e => Some e end) (file_id s) (workers s) (parent s).

Definition set_abort (s : Shared) : Shared :=
  MkShared (next_index s) (live_workers s) (bytes_uploaded s) true (first_error s) (file_id s) (workers s) (parent s).

(** [~ExitGuard]. *)
Definition exit_worker (w : nat) (s : Shared) : Shared :=
  let '(live, parent) := count_out (live_workers s) (parent s) in
  MkShared (next_index s) live (bytes_uploaded s) (abort s) (first_error s) (file_id s) (<[w := Exited]> (workers s)) parent.

Definition bail (w : nat) (code : ErrorCode) (msg : string) (s : Shared) : Shared := exit_worker w (record_error (MkError code msg) s).

Definition max_retries : Z := Z.max 0 (gd_max_retries config).

(** Another attempt, or the error. *)
Definition retry (w idx : nat) (attempt : Z) (e : AppError) (s : Shared) : Shared :=
  if attempt <? max_retries then set_worker w (BackingOff idx (attempt + 1) (backoff_delay config (attempt + 1))) s
  else exit_worker w (record_error e s).

(** A chunk that Drive has taken. *)
Definition accept (w : nat) (chunk : ChunkPlan) (id : string) (s : Shared) : Shared :=
  MkShared (next_index s) (live_workers s) (bytes_uploaded s + ck_length chunk) (abort s) (first_error s) id
    (<[w := Claiming]> (workers s)) (parent s).

(** A response that is not retried. *)
Definition classify (w : nat) (chunk : ChunkPlan) (res : HttpResponse) (s : Shared) : Shared :=
  let code := status_code res in
  if abort s then exit_worker w s
  else if (code =? 200) || (code =? 201) then
    match id_of_body (body res) with
    | inr id => accept w chunk id s
    | inl what => bail w JsonParse ("gdrive: final chunk parse: " +:+ what) s
    end
  else if negb (code =? 308) then
    bail w GoogleDriveApi ("gdrive: chunk PUT returned " +:+ fmt_int code +:+ ": " +:+ body res) s
  else accept w chunk (file_id s) s.

(** The answer to a [PUT]; a first 401 drops the cached token and asks for another one. *)
Definition answered (w idx : nat) (attempt : Z) (refreshed : bool) (chunk : ChunkPlan) (r : Result HttpResponse) (s : Shared) : Shared :=
  match r with
  | Err e => if bool_decide (err_code e = Cancelled) then exit_worker w (record_error e s) else retry w idx attempt e s
  | Ok res =>
      let code := status_code res in
      if (code =? 401) && negb refreshed then set_worker w (Acquiring idx attempt true) s
      else if (code =? 429) || ((500 <=? code) && (code <? 600)) then
        retry w idx attempt (MkError GoogleDriveApi ("gdrive: chunk PUT exhausted " +:+ fmt_int (max_retries + 1) +:+ " retries: HTTP "
          +:+ fmt_int code +:+ ": " +:+ body res)) s
      else classify w chunk res s
  end.

(** The top of the worker's loop: the chunk is claimed, and read in full or not. *)
Definition claim (w : nat) (cancelled readable : bool) (s : Shared) : Shared :=
  if abort s then exit_worker w s
  else if cancelled then exit_worker w (set_abort s)
  else
    let idx := next_index s in
    let s := MkShared (S idx) (live_workers s) (bytes_uploaded s) (abort s) (first_error s) (file_id s) (workers s) (parent s) in
    if (length plan <=? idx)%nat then exit_worker w s
    else if readable then set_worker w (Acquiring idx 0 false) s
    else bail w Io ("gdrive: worker short read on " +:+ path) s.

Definition step (e : Event) (s : Shared) : option Shared :=
  match e with
  | Spawn =>
      match parent s with
      | Spawning => if (length (workers s) <? parallelism config plan)%nat
                    then Some (MkShared (next_index s) (live_workers s) (bytes_uploaded s) (abort s) (first_error s) (file_id s)
                                 (workers s ++ [Starting]) Spawning)
                    else None
      | _ => None
      end
  | Park =>
      match parent s with
      | Spawning => if (length (workers s) =? parallelism config plan)%nat
                    then Some (MkShared (next_index s) (live_workers s) (bytes_uploaded s) (abort s) (first_error s) (file_id s)
                                 (workers s) Parked)
                    else None
      | _ => None
      end
  | Opened w ok =>
      match workers s !! w with
      | Some Starting => Some (if ok : bool then set_worker w Claiming s
                               else bail w Io ("gdrive: worker cannot open " +:+ path) s)
      | _ => None
      end
  | Claim w cancelled readable =>
      match workers s !! w with Some Claiming => Some (claim w cancelled readable s) | _ => None end
  | Bearer w r =>
      match workers s !! w with
      | Some (Acquiring idx attempt refreshed) =>
          Some (match r with
                | Ok _ => set_worker w (Putting idx attempt refreshed) s
                | Err e => exit_worker w (record_error e s)
                end)
      | _ => None
      end
  | Answer w idx r =>
      match workers s !! w with
      | Some (Putting i attempt refreshed) =>
          if bool_decide (i = idx) then
            match plan !! idx with Some chunk => Some (answered w idx attempt refreshed chunk r s) | None => None end
          else None
      | _ => None
      end
  | Elapsed w =>
      match workers s !! w with
      | Some (BackingOff idx attempt _) =>
          Some (if abort s then exit_worker w s else set_worker w (Acquiring idx attempt false) s)
      | _ => None
      end
  | Threw w =>
      match workers s !! w with
      | Some (Acquiring _ _ _) | Some (Putting _ _ _) => Some (exit_worker w s)
      | _ => None
      end
  end.

Definition run : list Event -> Shared -> option Shared := run_events step.

(** What the upload returns once the workers have been joined. *)
Definition upload_outcome (s : Shared) : Result string :=
  match first_error s with
  | Some e => Err e
  | None => if str_empty (file_id s) then error GoogleDriveApi "gdrive: no chunk returned final response" else Ok (file_id s)
  end.

End Workers.

(** ** Lemmas: the plan *)

(** The chunks lie one after the other from [off] to [total]. *)
Fixpoint covers (off : Z) (plan : list ChunkPlan) (total : Z) : Prop :=
  match plan with
  | [] => off = total
  | c :: rest => ck_offset c = off /\ 0 < ck_length c /\ covers (off + ck_length c) rest total
  end.

Lemma chunk_bytes_aligned config : kResumableAlignment <= chunk_bytes config /\ (kResumableAlignment | chunk_bytes config).
Proof.
  unfold chunk_bytes. set (c := Z.max _ _). assert (kResumableAlignment <= c) as Hc by lia. split; [|apply Z.divide_factor_r].
  assert (0 < kResumableAlignment) as H0 by done. pose proof (Z.div_le_lower_bound c kResumableAlignment 1 H0). nia.
Qed.

Lemma plan_from_spec chunk total fuel off :
  0 < chunk -> (kResumableAlignment | chunk) -> (kResumableAlignment | off) -> off <= total ->
  Z.of_nat fuel = (total - off + chunk - 1) / chunk ->
  covers off (plan_from fuel chunk total off) total /\
  Forall (fun c => ck_length c <= chunk /\ (kResumableAlignment | ck_offset c) /\
                   (ck_length c = chunk \/ ck_offset c + ck_length c = total)) (plan_from fuel chunk total off).
Proof.
  intros Hc Ha. revert off. induction fuel as [|fuel IH]; intros off Hoff Hle Hf.
  - assert (total = off) by (symmetry in Hf; apply Z.div_small_iff in Hf; lia). simpl. by subst.
  - assert (off < total) by (apply Z.nle_gt; intros H; assert (total = off) as -> by lia; rewrite Z.div_small in Hf; lia).
    cbn [plan_from]. rewrite (proj2 (Z.ltb_lt _ _)) by done. cbn [covers ck_offset ck_length].
    destruct (Z_le_dec (total - off) chunk) as [Hl|Hl].
    + rewrite Z.min_r by done.
      assert (fuel = O) as -> by (assert ((total - off + chunk - 1) / chunk < 2) by (apply Z.div_lt_upper_bound; lia); lia).
      cbn [plan_from covers]. split; [lia|]. constructor; [|constructor]. cbn [ck_length ck_offset]. split_and!; [lia|done|right; lia].
    + rewrite Z.min_l by lia. destruct (IH (off + chunk)) as [H1 H2]; [by apply Z.divide_add_r|lia| |].
      { replace (total - off + chunk - 1) with (total - (off + chunk) + chunk - 1 + 1 * chunk) in Hf by lia.
        rewrite Z.div_add in Hf by lia. lia. }
      split; [split_and!; [done|lia|done]|]. constructor; [|done]. cbn [ck_length ck_offset]. split_and!; [lia|done|by left].
Qed.

Lemma chunk_plan_covers config total : 0 <= total -> covers 0 (chunk_plan config total) total.
Proof.
  intros Ht. destruct (chunk_bytes_aligned config) as [H1 H2]. assert (0 < kResumableAlignment) by done. 
  apply (plan_from_spec (chunk_bytes config) total (Z.to_nat ((total + chunk_bytes config - 1) / chunk_bytes config)) 0);
    [lia|done|apply Z.divide_0_r|lia|]. rewrite Z2Nat.id, Z.sub_0_r; [done|]. apply Z.div_pos; lia.
Qed.

(** The pieces of a text that a plan cuts out are the text. *)
Lemma covers_pieces {A} (l : list A) plan off :
  0 <= off -> covers off plan (Z.of_nat (length l)) ->
  concat (map (fun k => take (Z.to_nat (ck_length k)) (drop (Z.to_nat (ck_offset k)) l)) plan) = drop (Z.to_nat off) l.
Proof.
  revert off. induction plan as [|k plan IH]; intros off Hoff; cbn [covers map concat].
  - intros ->. symmetry. apply drop_ge. lia.
  - intros (-> & Hlen & H). rewrite (IH (off + ck_length k) ltac:(lia) H), Z2Nat.inj_add, <- drop_drop by lia. apply take_drop.
Qed.

(** C32. The chunks of an upload are the file: for every configured chunk size, zero and values
    beyond 64 bits included, the plan covers the file from its first to its last byte without
    gap or overlap, every chunk starts at a multiple of 256 KiB and is not empty, and all but
    the last have the same size, a positive multiple of 256 KiB. *)
Theorem chunk_plan_partitions config total :
  0 < total ->
  let plan := chunk_plan config total in
  covers 0 plan total /\ kResumableAlignment <= chunk_bytes config /\ (kResumableAlignment | chunk_bytes config) /\
  Forall (fun c => ck_length c <= chunk_bytes config /\ (kResumableAlignment | ck_offset c) /\
                   (ck_length c = chunk_bytes config \/ ck_offset c + ck_length c = total)) plan.
Proof.
  intros Ht. cbv zeta. destruct (chunk_bytes_aligned config) as [H1 H2]. assert (0 < kResumableAlignment) by done.
  destruct (plan_from_spec (chunk_bytes config) total (Z.to_nat ((total + chunk_bytes config - 1) / chunk_bytes config)) 0) as [H3 H4];
    [lia|done|apply Z.divide_0_r|lia| |done].
  rewrite Z2Nat.id, Z.sub_0_r; [done|]. apply Z.div_pos; lia.
Qed.

Lemma chunk_plan_partitions_witness :
  0 < 600000 /\ covers 0 (chunk_plan (MkGoogleDriveConfig "" "" true "" 300000 4 4 6 500) 600000) 600000.
Proof. split; [lia|]. apply (chunk_plan_partitions (MkGoogleDriveConfig "" "" true "" 300000 4 4 6 500) 600000). lia. Defined.

(** ** Lemmas: workers and the coroutine that joins them *)

Section Join.
  Context `{json_lib : !Json} (config : GoogleDriveConfig) (path : string) (plan : list ChunkPlan).

Notation step := (step config path plan).
Notation run := (run config path plan).

Definition gone (p : Worker) : bool := match p with Exited => true | _ => false end.

Notation moves := (moves workers live_workers parent gone (parallelism config plan)).
Notation consistent := (consistent workers live_workers parent gone (parallelism config plan)).

Lemma moves_exit w p s s0 :
  workers s !! w = Some p -> gone p = false -> workers s0 = workers s -> live_workers s0 = live_workers s -> parent s0 = parent s ->
  moves s (exit_worker w s0).
Proof.
  intros Hw Hp Ew El Ep. unfold exit_worker. rewrite Ew, El, Ep.
  destruct (count_out (live_workers s) (parent s)) as [l q] eqn:E. by apply (works_out _ _ _ _ _ _ _ w p Exited).
Qed.

Lemma moves_set w p q s s' :
  workers s !! w = Some p -> gone p = false -> workers s' = <[w := q]> (workers s) -> gone q = false ->
  live_workers s' = live_workers s -> parent s' = parent s -> moves s s'.
Proof. intros. by apply (works_on _ _ _ _ _ _ _ w p q). Qed.

Lemma moves_retry w p idx attempt e s : workers s !! w = Some p -> gone p = false -> moves s (retry config w idx attempt e s).
Proof. intros. unfold retry. destruct (_ <? _); [by eapply moves_set|by eapply moves_exit]. Qed.

Lemma moves_answered w p idx attempt refreshed chunk r s :
  workers s !! w = Some p -> gone p = false -> moves s (answered config w idx attempt refreshed chunk r s).
Proof.
  intros. unfold answered, classify, bail. repeat crush_match;
    first [by eapply moves_exit|by eapply moves_retry|by eapply moves_set].
Qed.

Lemma step_moves e s s' : step e s = Some s' -> moves s s'.
Proof.
  destruct e as [| |w ok|w cancelled readable|w r|w idx r|w|w]; simpl.
  - destruct (parent s) eqn:P; try done. destruct (Nat.ltb_spec (length (workers s)) (parallelism config plan)); [|done].
    intros [= <-]. by apply (spawns _ _ _ _ _ _ _ Starting).
  - destruct (parent s) eqn:P; try done. destruct (Nat.eqb_spec (length (workers s)) (parallelism config plan)); [|done].
    intros [= <-]. by apply parks.
  - destruct (workers s !! w) as [[]|] eqn:E; try done. intros [= <-]. destruct ok; [by eapply moves_set|by eapply moves_exit].
  - destruct (workers s !! w) as [[]|] eqn:E; try done. intros [= <-].
    unfold claim, bail. repeat crush_match; first [by eapply moves_exit|by eapply moves_set].
  - destruct (workers s !! w) as [[]|] eqn:E; try done. intros [= <-]. destruct r; [by eapply moves_set|by eapply moves_exit].
  - destruct (workers s !! w) as [[| | |i attempt refreshed| |]|] eqn:E; try done. destruct (bool_decide (i = idx)); [|done].
    destruct (plan !! idx) as [chunk|]; [|done]. intros [= <-]. by eapply moves_answered.
  - destruct (workers s !! w) as [[]|] eqn:E; try done. intros [= <-]. destruct (abort s); [by eapply moves_exit|by eapply moves_set].
  - destruct (workers s !! w) as [[]|] eqn:E; try done; intros [= <-]; by eapply moves_exit.
Qed.

Lemma consistent_initial : consistent (initial config plan).
Proof. by apply consistent_fresh. Qed.

Lemma reached_consistent es s : run es (initial config plan) = Some s -> consistent s.
Proof. apply (run_consistent _ _ _ _ _ _ step_moves), consistent_initial. Qed.

Lemma parallelism_pos : (0 < parallelism config plan)%nat.
Proof. unfold parallelism. lia. Qed.

(** The join works when it is waited for in time: if the coroutine that started the workers
    waits while one of them still runs, then under every interleaving, with any errors and
    exceptions, it is woken when the last one leaves, and not before. *)
Theorem drive_join_wakes es1 s es2 s' :
  run es1 (initial config plan) = Some s -> parent s = Parked -> 0 < live_workers s -> run es2 s = Some s' ->
  (parent s' = Joined <-> Forall (fun p => gone p = true) (workers s')).
Proof. intros H1. apply (join_wakes _ _ _ _ _ _ step_moves). by apply (reached_consistent es1). Qed.

(** The join is lost otherwise: if the workers are gone before the coroutine that started
    them waits, for instance because none of them can open the file, it waits for ever: nothing
    can happen any more, and the upload never returns. *)
Theorem drive_join_lost es1 s es s' :
  run es1 (initial config plan) = Some s -> live_workers s = 0 -> parent s = Spawning ->
  run (Park :: es) s = Some s' -> es = [] /\ parent s' = Parked.
Proof.
  intros H1 Hl Hp. pose proof (reached_consistent es1 s H1) as Hc. unfold run. cbn [run_events].
  destruct (step Park s) as [s1|] eqn:E; [|done]. simpl. pose proof (consistent_step _ _ _ _ _ _ step_moves _ _ _ Hc E) as Hc1.
  simpl in E. rewrite Hp in E. destruct (_ =? _)%nat; [|done]. injection E as <-.
  by apply (join_lost _ _ _ _ _ _ step_moves).
Qed.

End Join.

(** ** Lemmas: the chunks that were taken *)

Section Complete.
  Context `{json_lib : !Json} (config : GoogleDriveConfig) (path : string) (plan : list ChunkPlan).

Notation step := (step config path plan).
Notation run := (run config path plan).

(** The answers with which Drive takes a chunk. *)
Definition taken (res : HttpResponse) : bool :=
  (status_code res =? 200) || (status_code res =? 201) || (status_code res =? 308).

Definition acked_by (e : Event) : list nat :=
  match e with Answer _ idx (Ok res) => if taken res then [idx] else [] | _ => [] end.
Definition acked (es : list Event) : list nat := concat (map acked_by es).

(** No cancellation was seen and nothing threw. *)
Definition clean (e : Event) : Prop := match e with Claim _ true _ | Threw _ => False | _ => True end.

(** The chunk a worker has claimed. *)
Definition held (p : Worker) : list nat :=
  match p with Acquiring idx _ _ | Putting idx _ _ | BackingOff idx _ _ => [idx] | _ => [] end.

Definition held_all (ws : list Worker) : list nat := concat (map held ws).

Definition length_at (idx : nat) : Z := match plan !! idx with Some c => ck_length c | None => 0 end.

(** Without an error, every claimed chunk is either with one worker or taken, and a worker only
    leaves when all are claimed. *)
Record accounted (es : list Event) (s : Shared) : Prop := {
  not_aborted : abort s = false;
  claimed_exact : acked es ++ held_all (workers s) ≡ₚ seq 0 (Nat.min (next_index s) (length plan));
  bytes_exact : bytes_uploaded s = sum_of length_at (acked es);
  left_last w : workers s !! w = Some Exited -> (length plan <= next_index s)%nat
}.

Lemma held_insert ws w p q :
  ws !! w = Some p -> held p ++ held_all (<[w := q]> ws) ≡ₚ held q ++ held_all ws.
Proof.
  unfold held_all. revert w. induction ws as [|r ws IH]; intros [|w]; try done; cbn [lookup list_lookup].
  - intros [= ->]. cbn. by rewrite (Permutation_app_swap_app (held p)).
  - intros H. change (<[S w := q]> (r :: ws)) with (r :: <[w := q]> ws). cbn [map concat].
    rewrite (Permutation_app_swap_app (held p)), (IH w H). apply Permutation_app_swap_app.
Qed.

(** A worker that keeps its chunk, or has none before and after. *)
Lemma accounted_keep es s s' w p q :
  accounted es s -> workers s !! w = Some p -> held q = held p -> q <> Exited ->
  abort s' = abort s -> next_index s' = next_index s -> bytes_uploaded s' = bytes_uploaded s ->
  workers s' = <[w := q]> (workers s) -> accounted es s'.
Proof.
  intros [Ha Hc Hb Hx] Hw Hh Hq Ea En Eb Ew. split; rewrite ?Ea, ?En, ?Eb, ?Ew; try done.
  - rewrite <- Hc. apply Permutation_app_head. pose proof (held_insert _ _ _ q Hw) as H. rewrite Hh in H.
    by apply Permutation_app_inv_l in H.
  - intros w' H. destruct (decide (w = w')) as [<-|Hne]; [|rewrite list_lookup_insert_ne in H by done; by eapply Hx].
    rewrite list_lookup_insert_eq in H by (by eapply lookup_lt_Some). congruence.
Qed.

Lemma acked_snoc es e : acked (es ++ [e]) = acked es ++ acked_by e.
Proof. unfold acked. rewrite map_app, concat_app. simpl. by rewrite app_nil_r. Qed.

Lemma accounted_snoc es e s : acked_by e = [] -> accounted es s -> accounted (es ++ [e]) s.
Proof. intros He [Ha Hc Hb Hx]. split; rewrite ?acked_snoc, ?He, ?app_nil_r; done. Qed.

Lemma accounted_initial : accounted [] (initial config plan).
Proof. by split. Qed.

(** A worker that leaves without a chunk when all are claimed. *)
Lemma accounted_exit es s s' w p :
  accounted es s -> workers s !! w = Some p -> held p = [] -> (length plan <= next_index s)%nat ->
  abort s' = abort s -> next_index s' = S (next_index s) -> bytes_uploaded s' = bytes_uploaded s ->
  workers s' = <[w := Exited]> (workers s) -> accounted es s'.
Proof.
  intros [Ha Hc Hb Hx] Hw Hh Hn Ea En Eb Ew. split; rewrite ?Ea, ?En, ?Eb, ?Ew; try done; [|lia].
  replace (Nat.min (S (next_index s)) (length plan)) with (Nat.min (next_index s) (length plan)) by lia.
  rewrite <- Hc. apply Permutation_app_head. pose proof (held_insert _ _ _ Exited Hw) as H. by rewrite Hh in H.
Qed.

(** A worker that claims the next chunk. *)
Lemma accounted_claim es s s' w p idx a r :
  accounted es s -> workers s !! w = Some p -> held p = [] -> idx = next_index s -> (next_index s < length plan)%nat ->
  abort s' = abort s -> next_index s' = S (next_index s) -> bytes_uploaded s' = bytes_uploaded s ->
  workers s' = <[w := Acquiring idx a r]> (workers s) -> accounted es s'.
Proof.
  intros [Ha Hc Hb Hx] Hw Hh -> Hn Ea En Eb Ew. split; rewrite ?Ea, ?En, ?Eb, ?Ew; try done.
  - replace (Nat.min (S (next_index s)) (length plan)) with (S (Nat.min (next_index s) (length plan))) by lia.
    rewrite seq_S, <- Hc, <- app_assoc. apply Permutation_app_head.
    pose proof (held_insert _ _ _ (Acquiring (next_index s) a r) Hw) as H. rewrite Hh in H. simpl in H.
    rewrite H, Nat.min_l by lia. simpl. apply Permutation_cons_append.
  - intros w' H. destruct (decide (w = w')) as [<-|Hne]; [|rewrite list_lookup_insert_ne in H by done; specialize (Hx w' H); lia].
    rewrite list_lookup_insert_eq in H by (by eapply lookup_lt_Some). congruence.
Qed.

(** A chunk is taken. *)
Lemma accounted_accept es e s w idx chunk p id :
  accounted es s -> workers s !! w = Some p -> held p = [idx] -> plan !! idx = Some chunk -> acked_by e = [idx] ->
  accounted (es ++ [e]) (accept w chunk id s).
Proof.
  intros [Ha Hc Hb Hx] Hw Hh Hp He. split; simpl; rewrite ?acked_snoc, ?He; try done.
  - rewrite <- Hc, <- app_assoc. apply Permutation_app_head. pose proof (held_insert _ _ _ Claiming Hw) as H. by rewrite Hh in H.
  - rewrite sum_of_app, Hb. simpl. assert (length_at idx = ck_length chunk) as -> by (unfold length_at; by rewrite Hp). lia.
  - intros w' H. destruct (decide (w = w')) as [<-|Hne]; [|rewrite list_lookup_insert_ne in H by done; by eapply Hx].
    rewrite list_lookup_insert_eq in H by (by eapply lookup_lt_Some). congruence.
Qed.

(** Errors stay. *)
Lemma error_recorded e s : first_error (record_error e s) <> None.
Proof. unfold record_error. simpl. by destruct (first_error s). Qed.

Definition keeps (es : list Event) (s : Shared) : Prop := first_error s = None -> accounted es s.

Lemma keeps_error es e s : keeps es (record_error e s).
Proof. intros H. by destruct (error_recorded e s). Qed.

Lemma keeps_bail es w c msg s : keeps es (bail w c msg s).
Proof. intros H. by destruct (error_recorded (MkError c msg) s). Qed.

Lemma keeps_retry es s w idx attempt e p :
  accounted es s -> workers s !! w = Some p -> held p = [idx] -> keeps es (retry config w idx attempt e s).
Proof.
  intros Ha Hw Hh. unfold retry. destruct (_ <? _); [|intros H; by destruct (error_recorded e s)].
  intros _. by eapply (accounted_keep es s _ w p (BackingOff idx _ _)).
Qed.

Lemma keeps_answered es s w idx attempt refreshed chunk r :
  accounted es s -> workers s !! w = Some (Putting idx attempt refreshed) -> plan !! idx = Some chunk ->
  keeps (es ++ [Answer w idx r]) (answered config w idx attempt refreshed chunk r s).
Proof.
  intros Ha Hw Hp. destruct r as [res|e]; unfold answered.
  - destruct (taken res) eqn:T.
    + unfold taken in T. rewrite !orb_true_iff, !Z.eqb_eq in T.
      assert ((status_code res =? 401) = false) as -> by (apply Z.eqb_neq; lia).
      assert ((status_code res =? 429) || (500 <=? status_code res) && (status_code res <? 600) = false) as ->.
      { apply orb_false_iff. split; [apply Z.eqb_neq; lia|]. apply andb_false_iff. left. apply Z.leb_gt. lia. }
      cbn [andb]. unfold classify. rewrite (not_aborted _ _ Ha).
      assert (acked_by (Answer w idx (Ok res)) = [idx]) as He.
      { simpl. unfold taken. by destruct T as [[-> | ->]| ->]. }
      destruct ((status_code res =? 200) || (status_code res =? 201)) eqn:T2.
      * destruct (id_of_body (body res)); [apply keeps_bail|]. intros _. by eapply accounted_accept.
      * assert ((status_code res =? 308) = true) as ->.
        { apply orb_false_iff in T2 as [H1%Z.eqb_neq H2%Z.eqb_neq]. apply Z.eqb_eq. lia. }
        intros _. by eapply accounted_accept.
    + assert (accounted (es ++ [Answer w idx (Ok res)]) s) as Ha' by (apply accounted_snoc; [simpl; by rewrite T|done]).
      destruct ((status_code res =? 401) && negb refreshed); [intros _; by eapply (accounted_keep _ s _ w _ (Acquiring idx attempt true))|].
      destruct (_ || _); [by eapply keeps_retry|]. unfold classify. rewrite (not_aborted _ _ Ha).
      unfold taken in T. apply orb_false_iff in T as [-> ->]. apply keeps_bail.
  - assert (accounted (es ++ [Answer w idx (Err e)]) s) as Ha' by by apply accounted_snoc.
    destruct (bool_decide _); [intros H; by destruct (error_recorded e s)|by eapply keeps_retry].
Qed.

Lemma keeps_step es e s s' : clean e -> accounted es s -> step e s = Some s' -> keeps (es ++ [e]) s'.
Proof.
  intros He Ha. pose proof (not_aborted _ _ Ha) as Hab. assert (acked_by e = [] -> accounted (es ++ [e]) s) as Hs by (intros H; by apply accounted_snoc).
  destruct e as [| |w ok|w cancelled readable|w r|w idx r|w|w]; simpl in *; try specialize (Hs eq_refl).
  - repeat crush_match; try done. intros [= <-] _. destruct Hs as [H1 H2 H3 H4]. split; try done; cbn [workers next_index].
    + unfold held_all. rewrite map_app, concat_app. simpl. by rewrite !app_nil_r.
    + intros w [H|[_ H]]%lookup_app_Some; [by eapply H4|]. by apply list_lookup_singleton_Some in H as [_ H].
  - repeat crush_match; try done. intros [= <-] _. by destruct Hs.
  - destruct (workers s !! w) as [[]|] eqn:E; try done. intros [= <-]. destruct ok; [|apply keeps_bail].
    intros _. by eapply (accounted_keep _ s _ w Starting Claiming).
  - destruct (workers s !! w) as [[]|] eqn:E; try done. intros [= <-]. unfold claim. rewrite Hab.
    destruct cancelled; [done|]. destruct (Nat.leb_spec (length plan) (next_index s)); [|destruct readable; [|apply keeps_bail]]; intros _.
    + by eapply (accounted_exit _ s _ w Claiming).
    + by eapply (accounted_claim _ s _ w Claiming).
  - destruct (workers s !! w) as [[]|] eqn:E; try done. intros [= <-]. destruct r; [|intros H; by destruct (error_recorded e s)].
    intros _. by eapply (accounted_keep _ s _ w _ (Putting idx attempt refreshed_bearer)).
  - destruct (workers s !! w) as [[| | |i attempt refreshed| |]|] eqn:E; try done. destruct (bool_decide (i = idx)) eqn:Ei; [|done].
    apply bool_decide_eq_true in Ei as ->. destruct (plan !! idx) as [chunk|] eqn:Ep; [|done]. intros [= <-]. by apply keeps_answered.
  - destruct (workers s !! w) as [[]|] eqn:E; try done. intros [= <-]. rewrite Hab.
    intros _. by eapply (accounted_keep _ s _ w _ (Acquiring idx attempt false)).
  - done.
Qed.

Lemma step_error e s s' : step e s = Some s' -> first_error s' = None -> first_error s = None.
Proof.
  assert (forall e s, first_error (record_error e s) = None -> first_error s = None) as Hr.
  { intros e0 s0 H. by destruct (error_recorded e0 s0). }
  destruct e as [| |w ok|w cancelled readable|w r|w idx r|w|w]; simpl; unfold claim, answered, classify, retry, bail;
    repeat crush_match; try done; intros [= <-]; simpl; try done; by eauto.
Qed.

Lemma run_accounted es0 es s s' :
  accounted es0 s -> Forall clean es -> run es s = Some s' -> first_error s' = None -> accounted (es0 ++ es) s'.
Proof.
  assert (forall es s s', run es s = Some s' -> first_error s' = None -> first_error s = None) as Hback.
  { clear. unfold run. induction es as [|e es IH]; intros s s'; simpl; [by intros [= <-]|]. destruct (step e s) eqn:E; [|done].
    simpl. intros H1 H2. eapply step_error; [done|]. by eapply IH. }
  unfold run in *. revert es0 s. induction es as [|e es IH]; intros es0 s Ha; simpl; [intros _ [= <-]; by rewrite app_nil_r|].
  intros [He Hes]%Forall_cons. destruct (step e s) as [s1|] eqn:E; [|done]. simpl. intros Hrun Hn.
  rewrite (app_assoc es0 [e] es : es0 ++ e :: es = _). apply (IH (es0 ++ [e]) s1); [|done..].
  eapply keeps_step; [done..|]. by eapply Hback.
Qed.

Lemma upload_complete es s id :
  run es (initial config plan) = Some s -> parent s = Joined -> Forall clean es -> upload_outcome s = Ok id ->
  acked es ≡ₚ seq 0 (length plan) /\ bytes_uploaded s = sum_of ck_length plan /\ id <> "".
Proof.
  intros Hrun Hj Hes Hout. unfold upload_outcome in Hout. destruct (first_error s) eqn:En; [done|].
  pose proof (run_accounted [] es _ s accounted_initial Hes Hrun En) as [_ Hc Hb Hx]. simpl in Hc, Hb.
  pose proof (reached_consistent config path plan es s Hrun) as Hcons.
  pose proof (all_exited _ _ _ _ _ s Hcons (joined_none _ _ _ _ _ _ Hcons Hj)) as Hall.
  assert (held_all (workers s) = []) as Hnone.
  { clear -Hall. unfold held_all. induction Hall as [|p l Hp _ IH]; simpl; [done|]. rewrite IH. by destruct p. }
  assert (length plan <= next_index s)%nat as Hn.
  { pose proof (spawned_all _ _ _ _ _ _ Hcons ltac:(congruence)) as Hlen. pose proof (parallelism_pos config plan).
    destruct (workers s) as [|p ws] eqn:E; [simpl in Hlen; lia|]. apply (Hx 0%nat). simpl.
    apply Forall_cons in Hall as [Hp _]. by destruct p. }
  rewrite Hnone, app_nil_r, Nat.min_r in Hc by done. split_and!; [done| |].
  - rewrite Hb, (sum_of_perm _ _ _ Hc). apply sum_of_lookup.
  - destruct (str_empty (file_id s)) eqn:E; [done|]. injection Hout as <-. intros Hid. by rewrite Hid in E.
Qed.

(** A parallel upload that reports success is complete: under every interleaving of the
    workers, of retries, refreshed tokens and failed requests, if nothing was cancelled and no
    exception ended a worker, then a file id is only returned when Drive has taken every chunk
    of the plan, each exactly once, and the bytes counted are those of the whole plan. *)
Theorem drive_upload_complete es s id :
  run es (initial config plan) = Some s -> parent s = Joined -> Forall clean es -> upload_outcome s = Ok id ->
  acked es ≡ₚ seq 0 (length plan) /\ bytes_uploaded s = sum_of ck_length plan /\ id <> "".
Proof. apply upload_complete. Qed.

End Complete.

(** ** Lemmas: how often a chunk is sent *)

Section Bounded.
  Context `{json_lib : !Json} (config : GoogleDriveConfig) (path : string) (plan : list ChunkPlan) (idx : nat).

Notation step := (step config path plan).
Notation run := (run config path plan).
Notation retries := (max_retries config).

Definition puts_by (e : Event) : Z := match e with Answer _ i _ => if bool_decide (i = idx) then 1 else 0 | _ => 0 end.

(** The requests a worker may still send for the chunk. *)
Definition credit (p : Worker) : Z :=
  match p with
  | Acquiring i a r | Putting i a r => if bool_decide (i = idx) then 2 * (retries - a) + (if r then 1 else 2) else 0
  | BackingOff i a _ => if bool_decide (i = idx) then 2 * (retries - a) + 2 else 0
  | _ => 0
  end.

Definition attempt_ok (p : Worker) : Prop :=
  match p with Acquiring _ a _ | Putting _ a _ | BackingOff _ a _ => 0 <= a <= retries | _ => True end.

Definition unclaimed (s : Shared) : Z := if (next_index s <=? idx)%nat then 2 * (retries + 1) else 0.

Record budgeted (n : Z) (s : Shared) : Prop := {
  budget : n + sum_of credit (workers s) + unclaimed s <= 2 * (retries + 1);
  attempts_ok : Forall attempt_ok (workers s)
}.

(** A worker goes on with less. *)
Lemma budgeted_set n k s s' w p q :
  budgeted n s -> workers s !! w = Some p -> workers s' = <[w := q]> (workers s) -> attempt_ok q ->
  k + credit q + unclaimed s' <= credit p + unclaimed s -> budgeted (n + k) s'.
Proof.
  intros [Hb Ha] Hw Ew Hq Hk. split.
  - rewrite Ew, (sum_of_insert _ _ _ _ _ Hw). lia.
  - rewrite Ew. by apply Forall_insert.
Qed.

Lemma credit_pos p : attempt_ok p -> 0 <= credit p.
Proof. destruct p; simpl; repeat crush_match; lia. Qed.

Lemma budgeted_on n k s s' w p q :
  budgeted n s -> workers s !! w = Some p -> workers s' = <[w := q]> (workers s) -> attempt_ok q ->
  next_index s' = next_index s -> k + credit q <= credit p -> budgeted (n + k) s'.
Proof. intros Hb Hw Ew Hq En Hk. eapply budgeted_set; [done..|]. unfold unclaimed. rewrite En. lia. Qed.

Lemma budgeted_exit n k s s' w p :
  budgeted n s -> workers s !! w = Some p -> workers s' = <[w := Exited]> (workers s) -> unclaimed s' <= unclaimed s -> k <= credit p ->
  budgeted (n + k) s'.
Proof. intros Hb Hw Ew Hu Hk. eapply budgeted_set; [done..| |]; simpl; [done|lia]. Qed.

Lemma budgeted_answered n s w i a r chunk res :
  budgeted n s -> workers s !! w = Some (Putting i a r) ->
  budgeted (n + puts_by (Answer w i res)) (answered config w i a r chunk res s).
Proof.
  intros Hb Hw. pose proof (attempts_ok _ _ Hb) as Hok. rewrite Forall_lookup in Hok. specialize (Hok _ _ Hw). simpl in Hok.
  assert (puts_by (Answer w i res) <= credit (Putting i a r)) as Hk by (simpl; repeat crush_match; lia).
  assert (forall e, budgeted (n + puts_by (Answer w i res)) (retry config w i a e s)) as Hretry.
  { intros e. unfold retry. destruct (Z.ltb_spec a retries); [|by eapply budgeted_exit].
    eapply budgeted_on; [done|exact Hw|reflexivity|simpl; lia|reflexivity|]. simpl. repeat crush_match; lia. }
  unfold answered, classify, bail, accept. destruct res as [res|e]; [|by destruct (bool_decide _); [eapply budgeted_exit|]].
  destruct ((_ =? 401) && negb r) eqn:E.
  { apply andb_true_iff in E as [_ E%negb_true_iff]. eapply budgeted_on; [done|exact Hw|reflexivity|simpl; lia|reflexivity|].
    simpl. rewrite E. repeat crush_match; lia. }
  destruct (_ || _); [done|]. clear Hretry. revert Hk. generalize (puts_by (Answer w i (Ok res))). intros k Hk. repeat crush_match;
    first [by eapply budgeted_exit | eapply budgeted_on; [done|exact Hw|reflexivity|done|reflexivity|simpl in *; lia]].
Qed.

Lemma budgeted_step n e s s' : budgeted n s -> step e s = Some s' -> budgeted (n + puts_by e) s'.
Proof.
  intros Hb. pose proof (attempts_ok _ _ Hb) as Hok. rewrite Forall_lookup in Hok.
  destruct e as [| |w ok|w cancelled readable|w r|w i r|w|w]; cbn [DriveChunks.step].
  - repeat crush_match; try done. intros [= <-]. destruct Hb as [Hb Ha]. split; simpl; [|by apply Forall_app; repeat constructor].
    rewrite sum_of_app. unfold unclaimed in *. simpl in *. lia.
  - repeat crush_match; try done. intros [= <-]. destruct Hb as [Hb Ha]. split; simpl; [|done]. unfold unclaimed in *. simpl in *. lia.
  - destruct (workers s !! w) as [[]|] eqn:E; try done. intros [= <-].
    destruct ok; [eapply budgeted_on; [done|exact E|reflexivity|done|reflexivity|simpl; lia]|by eapply budgeted_exit].
  - destruct (workers s !! w) as [[]|] eqn:E; try done. intros [= <-]. unfold claim, bail.
    assert (unclaimed (MkShared (S (next_index s)) (live_workers s) (bytes_uploaded s) (abort s) (first_error s) (file_id s) (workers s) (parent s))
      <= unclaimed s) as Hu by (unfold unclaimed; cbn [next_index]; pose proof (Z.le_max_l 0 (gd_max_retries config)); unfold max_retries;
        destruct (Nat.leb_spec (next_index s) idx), (Nat.leb_spec (S (next_index s)) idx); lia).
    destruct (abort s); [by eapply budgeted_exit|]. destruct cancelled; [by eapply budgeted_exit|].
    destruct (length plan <=? next_index s)%nat; [by eapply budgeted_exit|]. destruct readable; [|by eapply budgeted_exit].
    pose proof (Z.le_max_l 0 (gd_max_retries config)).
    eapply budgeted_set; [done|exact E|reflexivity|unfold attempt_ok, max_retries; lia|]. unfold unclaimed, credit, max_retries. cbn [next_index set_worker puts_by].
    destruct (Nat.leb_spec (next_index s) idx), (Nat.leb_spec (S (next_index s)) idx); case_bool_decide; lia.
  - destruct (workers s !! w) as [[]|] eqn:E; try done. intros [= <-]. specialize (Hok _ _ E).
    destruct r; [eapply budgeted_on; [done|exact E|reflexivity|done|reflexivity|simpl; lia]|].
    eapply budgeted_exit; [done|exact E|reflexivity|done|by apply credit_pos].
  - destruct (workers s !! w) as [[| | |i' attempt refreshed| |]|] eqn:E; try done. destruct (bool_decide (i' = i)) eqn:Ei; [|done].
    apply bool_decide_eq_true in Ei as ->. destruct (plan !! i) as [chunk|]; [|done]. intros [= <-]. by apply budgeted_answered.
  - destruct (workers s !! w) as [[]|] eqn:E; try done. intros [= <-]. specialize (Hok _ _ E).
    destruct (abort s); [eapply budgeted_exit; [done|exact E|reflexivity|done|by apply credit_pos]|].
    eapply budgeted_on; [done|exact E|reflexivity|done|reflexivity|simpl; lia].
  - destruct (workers s !! w) as [[]|] eqn:E; try done; intros [= <-]; specialize (Hok _ _ E);
      (eapply budgeted_exit; [done|exact E|reflexivity|done|by apply credit_pos]).
Qed.

(** Retries are bounded: whatever the answers, the network and the interleaving, at most
    two requests per attempt, [2 * (max_retries + 1)] in all, are sent for a chunk by all
    workers together. *)
Theorem drive_chunk_requests_bounded es s :
  run es (initial config plan) = Some s -> sum_of puts_by es <= 2 * (retries + 1).
Proof.
  assert (forall es n s s', budgeted n s -> run es s = Some s' -> budgeted (n + sum_of puts_by es) s') as Hrun.
  { clear. unfold run. induction es as [|e es IH]; intros n s s' Hb; simpl; [intros [= <-]; by rewrite Z.add_0_r|].
    destruct (step e s) as [s1|] eqn:E; [|done]. simpl. intros H. rewrite Z.add_assoc. eapply IH; [|done]. by eapply budgeted_step. }
  intros H. assert (budgeted 0 (initial config plan)) as H0.
  { split; [|constructor]. unfold unclaimed, initial. simpl. lia. }
  destruct (Hrun es 0 _ s H0 H) as [Hb Ha]. assert (0 <= sum_of credit (workers s)) as Hc.
  { clear -Ha. induction Ha as [|p l Hp _ IH]; simpl; [lia|]. pose proof (credit_pos p Hp). lia. }
  assert (0 <= unclaimed s) by (unfold unclaimed, max_retries; destruct (_ <=? _)%nat; lia). lia.
Qed.

End Bounded.

(** ** A concrete upload *)

Module MemChunks.
Import MemJson.

#[export] Instance json_lib : Json := json_of_table [("taken", JObject [("id", JString "F1")])].

Definition config : GoogleDriveConfig := MkGoogleDriveConfig "" "" true "" 262144 2 4 6 500.
Definition plan : list ChunkPlan := chunk_plan config 600000.

Definition start : list Event := [Spawn; Spawn; Park].

(** Two workers, three chunks, an expired token and a failed request on the way. *)
Definition transfer : list Event := [
  Opened 0 true; Opened 1 true; Claim 0 false true; Claim 1 false true; Bearer 0 (Ok "t"); Bearer 1 (Ok "t");
  Answer 1 1 (Ok (MkResponse 308 [] "")); Answer 0 0 (Ok (MkResponse 401 [] "")); Bearer 0 (Ok "u"); Claim 1 false true;
  Answer 0 0 (error Network "reset"); Bearer 1 (Ok "u"); Elapsed 0; Bearer 0 (Ok "u"); Answer 0 0 (Ok (MkResponse 308 [] ""));
  Answer 1 2 (Ok (MkResponse 200 [] "taken")); Claim 0 false true; Claim 1 false true].

Definition started : Shared := default (initial config plan) (run config "f" plan start (initial config plan)).
Definition finished : Shared := default (initial config plan) (run config "f" plan (start ++ transfer) (initial config plan)).

(** Both workers fail to open the file before the first coroutine waits for them. *)
Definition no_file : list Event := [Spawn; Opened 0 false; Spawn; Opened 1 false].
Definition failed : Shared := default (initial config plan) (run config "f" plan no_file (initial config plan)).

End MemChunks.
Import MemChunks.

Lemma drive_upload_complete_witness :
  upload_outcome finished = Ok "F1" /\ acked (start ++ transfer) ≡ₚ seq 0 3 /\ bytes_uploaded finished = 600000.
Proof.
  split; [vm_compute; reflexivity|].
  destruct (drive_upload_complete config "f" plan (start ++ transfer) finished "F1") as (H1 & H2 & _).
  - vm_compute. reflexivity.
  - vm_compute. reflexivity.
  - repeat (constructor; [exact I|]). constructor.
  - vm_compute. reflexivity.
  - split; [exact H1|]. rewrite H2. vm_compute. reflexivity.
Defined.

Lemma drive_chunk_requests_bounded_witness :
  run config "f" plan (start ++ transfer) (initial config plan) = Some finished /\ sum_of (puts_by 0) (start ++ transfer) <= 14.
Proof.
  assert (run config "f" plan (start ++ transfer) (initial config plan) = Some finished) as H by (vm_compute; reflexivity).
  split; [exact H|]. exact (drive_chunk_requests_bounded config "f" plan 0 (start ++ transfer) finished H).
Defined.

Lemma drive_join_wakes_witness :
  live_workers started = 2 /\ (parent finished = Joined <-> Forall (fun p => gone p = true) (workers finished)).
Proof.
  split; [vm_compute; reflexivity|].
  exact (drive_join_wakes config "f" plan start started transfer finished ltac:(vm_compute; reflexivity)
    ltac:(vm_compute; reflexivity) ltac:(vm_compute; reflexivity) ltac:(vm_compute; reflexivity)).
Defined.

Lemma drive_join_lost_witness : exists s', run config "f" plan [Park] failed = Some s' /\ parent s' = Parked.
Proof.
  assert (exists s', run config "f" plan [Park] failed = Some s') as [s' H] by (eexists; vm_compute; reflexivity).
  exists s'. split; [exact H|].
  exact (proj2 (drive_join_lost config "f" plan no_file failed [] s' ltac:(vm_compute; reflexivity)
    ltac:(vm_compute; reflexivity) ltac:(vm_compute; reflexivity) H)).
Defined.
