(* ===== verification/DriveUpload.v ===== *)
(** * Uploads to Google Drive: [GoogleDriveUploader::upload_file], [upload_directory]

    Small files go in one multipart request, larger ones through a resumable session whose
    chunks the workers of [DriveChunks] send.  The file system is [Files], the stream that a
    worker reads its chunks from [ChunkReader], and the executor that interleaves the workers
    [WorkerPool]. *)

From S2P Require Import Prelude CoreError Identifiers ByteSize Ports Http Files ConfigData Json Encodings PoolJoin DriveAuth DriveResources DriveApi DriveChunks.

Local Open Scope coro_scope.

Definition kMultipartThreshold : Z := 5 * 1024 * 1024.

(** [seekg] and [read] on the stream of a worker: the chunk, when [gcount] is its length. *)
Class ChunkReader (W : Type) := read_chunk : string -> ChunkPlan -> M W (option string).

(** The executor runs the workers of a session; the coroutine that waits for them sees the
    state they leave, or is never woken. *)
Class WorkerPool (W : Type) :=
  join_workers : ServiceAccountKey -> string -> string -> Z -> M (DriveAccessToken * W) (option Shared).

Section Uploads.
  Context `{json_lib : !Json, ssl : !OpenSsl} {W : Type}.
  Context `{http : !HttpClient W, clock : !Clock W, steady : !SteadyClock W, cancel : !Cancellation W}.
  Context `{files : !Files W, walk : !Walk W, pool : !WorkerPool W}.
  Context (key : option ServiceAccountKey) (config : GoogleDriveConfig) (on_progress : option (UploadProgress -> M W unit)).

Notation C := (DriveAccessToken * W)%type.

Definition progress (path : string) (total uploaded : Z) : Throwing C unit :=
  match on_progress with
  | Some f => observe (lift (f (MkProgress (filename path) total uploaded 0 1 0 0)))
  | None => finish_with (Ok ())
  end.

Definition view_link (id : string) : string := "https://drive.google.com/file/d/" +:+ id +:+ "/view".

(** [duration_cast<milliseconds>(now - started)]. *)
Definition finished_upload (path id : string) (size started : Z) : Throwing C UploadResult :=
  co_throwing stop <- observe (lift steady_clock_now);
  co_throwing seen <- progress path size size;
  finish_with (Ok (MkUploadResult id (view_link id) size (Z.quot (stop - started) 1000000))).

Definition file_metadata (path parent_folder : string) : string + string :=
  json_dump (json_object [("name", json_of_string (filename path)); ("parents", json_array [json_of_string parent_folder])]).

(** ** [upload_multipart] *)

Definition crlf : string := of_chars ["013"; "010"]%char.
Definition boundary : string := "cmlb-mp-7af3b1-XXyy".

Definition multipart_body (meta content : string) : string :=
  "--" +:+ boundary +:+ crlf +:+ "Content-Type: application/json; charset=UTF-8" +:+ crlf +:+ crlf +:+ meta
  +:+ crlf +:+ "--" +:+ boundary +:+ crlf +:+ "Content-Type: application/octet-stream" +:+ crlf +:+ crlf +:+ content
  +:+ crlf +:+ "--" +:+ boundary +:+ "--" +:+ crlf.

Definition upload_url (kind : string) : string :=
  "https://www.googleapis.com/upload/drive/v3/files?uploadType=" +:+ kind
  +:+ "&supportsAllDrives=true&fields=id,name,size,webViewLink,mimeType".

Definition multipart_request (bearer meta content : string) : HttpRequest :=
  authorized bearer Post (upload_url "multipart") [MkHeader "Content-Type" ("multipart/related; boundary=" +:+ boundary)]
    (multipart_body meta content).

Definition upload_multipart (account : ServiceAccountKey) (path parent_folder : string) : Throwing C UploadResult :=
  co_throwing started <- observe (lift steady_clock_now);
  co_throwing content <- observe (lift (read_file path));
  match content with
  | None => finish_with (error Io ("gdrive: cannot open " +:+ path))
  | Some content =>
      co_throwing bearer <- acquire_bearer account;
      co_throwing meta <- may_throw (file_metadata path parent_folder);
      co_throwing seen <- progress path (Z.of_nat (str_size content)) 0;
      co_throwing res <- send (multipart_request bearer meta content);
      if negb (success res) then finish_with (drive_error "gdrive: multipart upload" res)
      else
        co_throwing id <- finish_with (parsed_id "gdrive: multipart response parse: " (body res));
        finished_upload path id (Z.of_nat (str_size content)) started
  end.

(** ** [upload_resumable] *)

(** [abort_resumable_session]; its failures are only logged. *)
Definition abort_request (bearer : option string) (session_uri : string) : HttpRequest :=
  make_request Delete_ session_uri (match bearer with Some b => [MkHeader "Authorization" b] | None => [] end) "".

Definition abort_resumable_session (account : ServiceAccountKey) (session_uri : string) : Throwing C unit :=
  co_await o <- acquire_bearer account;
  match o with
  | Thrown what => mreturn (Thrown what)
  | Unfinished => mreturn Unfinished
  | Finished bearer =>
      co_await res <- lift (http_request (abort_request (match bearer with Ok b => Some b | Err _ => None end) session_uri));
      finish_with (Ok ())
  end.

Definition init_request (bearer meta : string) (total : Z) : HttpRequest :=
  authorized bearer Post (upload_url "resumable")
    [MkHeader "Content-Type" "application/json; charset=UTF-8"; MkHeader "X-Upload-Content-Type" "application/octet-stream";
     MkHeader "X-Upload-Content-Length" (fmt_int total)] meta.

(** The request of a worker for its chunk, of which [body] has been read. *)
Definition chunk_request (bearer session_uri : string) (total : Z) (chunk : ChunkPlan) (body : string) : HttpRequest :=
  authorized bearer Put session_uri
    [MkHeader "Content-Length" (fmt_int (ck_length chunk));
     MkHeader "Content-Range" ("bytes " +:+ fmt_int (ck_offset chunk) +:+ "-" +:+ fmt_int (ck_offset chunk + ck_length chunk - 1)
                               +:+ "/" +:+ fmt_int total)] body.

(** Step 1: the session's URI. *)
Definition open_session (account : ServiceAccountKey) (path parent_folder : string) (total : Z) : Throwing C string :=
  co_throwing bearer <- acquire_bearer account;
  co_throwing meta <- may_throw (file_metadata path parent_folder);
  co_throwing res <- send (init_request bearer meta total);
  finish_with
    (if negb (success res) then drive_error "gdrive: resumable init" res
     else match find_header "location" (resp_headers res) with
          | Some uri => Ok uri
          | None => error GoogleDriveApi "gdrive: resumable session missing Location header"
          end).

(** After the join: an error of a worker ends the session; a missing final response does not. *)
Definition close_session (account : ServiceAccountKey) (session_uri : string) (s : Shared) : Throwing C string :=
  match first_error s with
  | Some e =>
      co_throwing done <- abort_resumable_session account session_uri;
      finish_with (Err e)
  | None => finish_with (upload_outcome s)
  end.

Definition upload_resumable (account : ServiceAccountKey) (path parent_folder : string) : Throwing C UploadResult :=
  co_throwing started <- observe (lift steady_clock_now);
  co_throwing size <- observe (lift (fs_file_size path));
  match size with
  | inl what => finish_with (error FileSystem ("gdrive: file_size failed: " +:+ what))
  | inr total =>
      co_throwing session_uri <- open_session account path parent_folder total;
      co_throwing readable <- observe (lift (can_open path));
      if negb readable then
        co_throwing done <- abort_resumable_session account session_uri;
        finish_with (error Io ("gdrive: cannot open " +:+ path))
      else
        co_throwing joined <- observe (join_workers account path session_uri total);
        match joined with
        | None => mreturn Unfinished
        | Some s =>
            co_throwing id <- close_session account session_uri s;
            finished_upload path id total started
        end
  end.

(** ** The public calls *)

(** The parent folder of an upload. *)
Definition parent_of (upload : UploadConfig) : string := default (gd_parent_folder_id config) (uc_folder_id upload).

Definition no_parent {A} : Result A := error InvalidArgument "gdrive: no parent folder id (config + override both empty)".

(** [upload_file]. *)
Definition gdrive_upload_file (path : string) (upload : UploadConfig) : Throwing C UploadResult :=
  match key with
  | None => finish_with (error InvalidState "gdrive: uploader not ready (credentials missing)")
  | Some account =>
      co_throwing found <- observe (lift (fs_exists path));
      if negb found then finish_with (error NotFound ("gdrive: file not found: " +:+ path))
      else
        co_throwing size <- observe (lift (fs_file_size path));
        match size with
        | inl what => finish_with (error FileSystem ("gdrive: file_size failed: " +:+ what))
        | inr size =>
            if str_empty (parent_of upload) then finish_with no_parent
            else
              co_throwing stop <- observe (lift cancellation_requested);
              if stop : bool then finish_with (error Cancelled "gdrive: cancelled")
              else if size <=? kMultipartThreshold then upload_multipart account path (parent_of upload)
              else upload_resumable account path (parent_of upload)
        end
  end.

(** [struct FileWork]. *)
Record FileWork := MkWork { source : string; parent_id : string }.

(** [parent_path] and [filename] of a relative path. *)
Definition parent_path (rel : list string) : list string := removelast rel.
Definition last_component (rel : list string) : string := List.last rel "".

(** The walk of [upload_directory]: folders are created as they are met; [folder_ids] maps
    relative paths to ids, the empty path to the root folder. *)
Fixpoint plan_entries (account : ServiceAccountKey) (entries : list DirEntry) (folder_ids : gmap (list string) string) (work : list FileWork)
  : Throwing C (list FileWork) :=
  match entries with
  | [] => finish_with (Ok work)
  | entry :: rest =>
      co_throwing stop <- observe (lift cancellation_requested);
      if stop : bool then finish_with (error Cancelled "gdrive: cancelled")
      else
        match de_relative entry with
        | inl what => finish_with (error FileSystem ("gdrive: relative() failed: " +:+ what))
        | inr rel =>
            let parent := match folder_ids !! parent_path rel with Some id => id | None => default "" (folder_ids !! []) end in
            match de_kind entry with
            | Directory =>
                co_throwing created <- create_folder account (last_component rel) parent;
                plan_entries account rest (<[rel := created]> folder_ids) work
            | RegularFile => plan_entries account rest folder_ids (work ++ [MkWork (de_path entry) parent])
            | Other => plan_entries account rest folder_ids work
            end
        end
  end.

(** [upload_directory] up to its worker pool: the files with the folders to put them in. *)
Definition plan_directory (path : string) (upload : UploadConfig) : Throwing C (list FileWork) :=
  match key with
  | None => finish_with (error InvalidState "gdrive: uploader not ready (credentials missing)")
  | Some account =>
      co_throwing found <- observe (lift (fs_is_directory path));
      if negb found then finish_with (error InvalidArgument ("gdrive: not a directory: " +:+ path))
      else if str_empty (parent_of upload) then finish_with no_parent
      else
        co_throwing root <- create_folder account (filename path) (parent_of upload);
        co_throwing walked <- observe (lift (recursive_directory_iterator path));
        plan_entries account (visited walked) {[ [] := root ]} []
  end.

End Uploads.

(** Undo the binds of a coroutine that succeeded. *)
Ltac undo :=
  repeat first
    [ undo_step
    | match goal with
      | H : drive_error _ _ = Ok _ |- _ => discriminate
      | H : @no_parent _ = Ok _ |- _ => discriminate H
      end ].

(** ** What a success means *)

(** A request with its answer. *)
Definition Exchange : Type := HttpRequest * Result HttpResponse.

(** An upload of a chunk that was taken. *)
Definition put_taken (x : Exchange) : bool :=
  match rq_method x.1, x.2 with Put, Ok res => taken res | _, _ => false end.

Definition threw (e : Event) : bool := match e with Threw _ => true | _ => false end.

Section Success.
  Context `{json_lib : !Json, ssl : !OpenSsl} {W : Type}.
  Context `{http : !HttpClient W, clock : !Clock W, steady : !SteadyClock W, cancel : !Cancellation W}.
  Context `{files : !Files W, walk : !Walk W, reader : !ChunkReader W, pool : !WorkerPool W}.
  Context (key : option ServiceAccountKey) (config : GoogleDriveConfig) (on_progress : option (UploadProgress -> M W unit)).

Notation C := (DriveAccessToken * W)%type.

(** *** The workers as coroutines *)

Section Worker.
  Context (account : ServiceAccountKey) (uri : string) (total : Z) (path : string).
  Context {X : Type} (I : C -> Prop) (log : C -> list X).

(** The calls of a worker. *)
Inductive worker_call : forall A, M C A -> Prop :=
| call_open : worker_call bool (lift (can_open path))
| call_read chunk : worker_call (option string) (lift (read_chunk path chunk))
| call_bearer : worker_call (Outcome string) (acquire_bearer account)
| call_put bearer chunk body : worker_call (Result HttpResponse) (lift (http_request (chunk_request bearer uri total chunk body)))
| call_invalidate : worker_call unit invalidate_bearer_cache.

(** What a call made in a world that satisfies [I] answers and adds to the log. *)
Definition called {A} (m : M C A) (answer : A) (l : list X) : Prop :=
  exists c, I c /\ (m c).1 = answer /\ log (m c).2 = log c ++ l.

(** An event with what it adds to the log.  A chunk is put with bytes that were read for it; a
    401 drops the cached token.  The workers are detached, so that nobody requests their
    cancellation; a worker may be ended by an exception wherever it is. *)
Definition worker_did (e : Event) (l : list X) : Prop :=
  match e with
  | Spawn | Park | Elapsed _ => l = []
  | Opened _ ok => called (lift (can_open path)) ok l
  | Claim _ cancelled _ => cancelled = false /\ (l = [] \/ exists chunk read, called (lift (read_chunk path chunk)) read l)
  | Bearer _ r => called (acquire_bearer account) (Finished r) l
  | Answer _ idx r => exists bearer chunk body l0 l1,
      chunk_plan config total !! idx = Some chunk /\ called (lift (read_chunk path chunk)) (Some body) l0 /\
      called (lift (http_request (chunk_request bearer uri total chunk body))) r l1 /\
      (l = l1 \/ exists l2, called invalidate_bearer_cache () l2 /\ l = l1 ++ l2)
  | Threw _ => True
  end.

(** Every call keeps [I] and only appends to the log. *)
Definition worker_keeps : Prop :=
  forall A (m : M C A), worker_call A m -> forall c, I c -> I (m c).2 /\ exists l, log (m c).2 = log c ++ l.

End Worker.

(** The pool runs the workers, which only touch the world through their calls: the state it
    leaves comes from their steps, and the log has grown by what they have added. *)
Class PoolLaws : Prop := pool_logged : forall X (I : C -> Prop) (log : C -> list X) account path uri total c s c',
  I c -> worker_keeps account uri total path I log -> join_workers account path uri total c = (Some s, c') ->
  let plan := chunk_plan config total in
  I c' /\ exists es ls, run config path plan es (initial config plan) = Some s /\ parent s = Joined /\
    Forall2 (worker_did account uri total path I log) es ls /\ log c' ≡ₚ log c ++ concat ls.

(** *** Files and requests *)

Context (contents : W -> gmap string string) (exchanges : W -> list Exchange) (short_reads : W -> nat).

Definition kept (w : W) : list Exchange * gmap string string * nat := (exchanges w, contents w, short_reads w).

(** Requests are logged and change no file.  The stream of a whole file may end before the
    file, which counts; a chunk is read in full or not at all. *)
Class UploadLaws : Prop := {
  ul_exchange r w : exchanges (http_request r w).2 = exchanges w ++ [(r, (http_request r w).1)];
  ul_request_contents r :: Preserves contents (http_request r);
  ul_request_reads r :: Preserves short_reads (http_request r);
  ul_now :: Preserves kept now;
  ul_steady :: Preserves kept steady_clock_now;
  ul_cancel :: Preserves kept cancellation_requested;
  ul_progress f p : on_progress = Some f -> Preserves kept (f p);
  ul_exists p :: Preserves kept (fs_exists p);
  ul_size p :: Preserves kept (fs_file_size p);
  ul_open p :: Preserves kept (can_open p);
  ul_chunk p k :: Preserves kept (read_chunk p k);
  ul_read_exchanges p :: Preserves exchanges (read_file p);
  ul_read_contents p :: Preserves contents (read_file p);
  ul_size_exact path w n c : (fs_file_size path w).1 = inr n -> contents w !! path = Some c -> n = Z.of_nat (str_size c);
  ul_read_prefix path w got c : (read_file path w).1 = Some got -> contents w !! path = Some c ->
    chars got `prefix_of` chars c /\ (short_reads (read_file path w).2 = short_reads w -> got = c);
  ul_chunk_exact path k w body c : (read_chunk path k w).1 = Some body -> contents w !! path = Some c ->
    body = substr c (Z.to_nat (ck_offset k)) (Z.to_nat (ck_length k))
}.

Context `{laws : !UploadLaws} `{pool_laws : !PoolLaws}.

(** The request for a token. *)
Definition is_token (account : ServiceAccountKey) (x : Exchange) : Prop := exists jwt, x.1 = token_request account jwt.

(** A small file: after a token at most, one request with its bytes, which Drive accepted, and
    whose answer named the id. *)
Definition sent_whole (account : ServiceAccountKey) (path parent content : string) (complete : Prop) (l : list Exchange) (out : UploadResult) : Prop :=
  exists tokens bearer meta got res,
    l = tokens ++ [(multipart_request bearer meta got, Ok res)] /\ Forall (is_token account) tokens /\
    file_metadata path parent = inr meta /\ success res = true /\ id_of_body (body res) = inr (ur_file_id out) /\
    ur_size out = Z.of_nat (str_size got) /\ chars got `prefix_of` chars content /\ (complete -> got = content).

(** The upload of a chunk that Drive took, with the bytes of the file. *)
Definition chunk_taken (uri content : string) (total : Z) (chunk : ChunkPlan) (x : Exchange) : Prop :=
  put_taken x = true /\ exists bearer,
    x.1 = chunk_request bearer uri total chunk (substr content (Z.to_nat (ck_offset chunk)) (Z.to_nat (ck_length chunk))).

(** A large file: the workers ended without an error and with the id, and, unless an exception
    ended one of them, Drive took every chunk exactly once, which are the bytes of the file. *)
Definition taken_whole (path content : string) (l : list Exchange) (out : UploadResult) : Prop :=
  let total := Z.of_nat (str_size content) in
  let plan := chunk_plan config total in
  ur_size out = total /\
  exists uri es s,
    run config path plan es (initial config plan) = Some s /\ parent s = Joined /\ upload_outcome s = Ok (ur_file_id out) /\
    ((exists w, Threw w ∈ es) \/
     exists took others,
       l ≡ₚ took ++ others /\ Forall2 (chunk_taken uri content total) plan took /\
       Forall (fun x => put_taken x = false) others /\ concat (map (fun x => chars (rq_body x.1)) took) = chars content).

Definition disk (w : W) : gmap string string * nat := (contents w, short_reads w).

#[local] Instance kept_exchanges {A} (m : M W A) : Preserves kept m -> Preserves exchanges m.
Proof. intros H w. by injection (H w). Qed.
#[local] Instance kept_disk {A} (m : M W A) : Preserves kept m -> Preserves disk m.
Proof. intros H w. injection (H w) as _ H1 H2. unfold disk. by rewrite H1, H2. Qed.
#[local] Instance request_disk r : Preserves disk (http_request r).
Proof. intros w. unfold disk. by rewrite (ul_request_contents r w), (ul_request_reads r w). Qed.
#[local] Instance get_keeps {B} (v : W -> B) : Preserves (fun c : C => v c.2) (get_state (S := DriveAccessToken)).
Proof. done. Qed.
#[local] Instance put_keeps {B} (v : W -> B) t : Preserves (fun c : C => v c.2) (put_state t).
Proof. done. Qed.
#[local] Instance settle_keeps {A B} (v : C -> B) (r : string + Result A) : Preserves v (settle r).
Proof. done. Qed.

Lemma request_appends r (P : Exchange -> Prop) :
  (forall o, P (r, o)) -> appends (fun c : C => exchanges c.2) P (lift (http_request r)).
Proof. intros H. apply appends_lift. intros w. eexists. rewrite ul_exchange. split; [done|]. by rewrite Forall_singleton. Qed.

Lemma bearer_appends account : appends (fun c : C => exchanges c.2) (is_token account) (acquire_bearer account).
Proof.
  assert (forall jwt, appends (fun c : C => exchanges c.2) (is_token account) (lift (http_request (token_request account jwt)))) as H
    by (intros jwt; apply request_appends; intros o; by exists jwt).
  unfold acquire_bearer, mint_bearer. grow.
Qed.

#[local] Instance bearer_disk account : Preserves (fun c : C => disk c.2) (acquire_bearer account).
Proof. unfold acquire_bearer, mint_bearer. frame. Qed.

#[local] Instance progress_kept path total n : Preserves (fun c : C => kept c.2) (progress on_progress path total n).
Proof.
  unfold progress. destruct on_progress as [f|] eqn:E; [|done].
  exact (preserves_observe (fun c : C => kept c.2) _ (preserves_lift kept _ (ul_progress f _ E))).
Qed.

#[local] Instance finished_kept path id size started : Preserves (fun c : C => kept c.2) (finished_upload on_progress path id size started).
Proof. unfold finished_upload. frame. Qed.

Lemma finished_upload_inv path id size started (c c' : C) out :
  finished_upload on_progress path id size started c = (Finished (Ok out), c') ->
  ur_file_id out = id /\ ur_link out = view_link id /\ ur_size out = size /\ kept c'.2 = kept c.2.
Proof.
  intros H. pose proof (finished_kept path id size started c) as Hk. rewrite H in Hk. unfold finished_upload in H. undo. by subst.
Qed.

(** What a call leaves as it was. *)
Lemma kept_step {A} (m : M C A) c a c' : m c = (a, c') -> Preserves (fun c : C => kept c.2) m -> kept c'.2 = kept c.2.
Proof. intros H Hm. pose proof (Hm c) as E. by rewrite H in E. Qed.

Lemma bearer_step account c o c' : acquire_bearer account c = (o, c') ->
  disk c'.2 = disk c.2 /\ exists tokens, exchanges c'.2 = exchanges c.2 ++ tokens /\ Forall (is_token account) tokens.
Proof.
  intros H. pose proof (bearer_disk account c) as Hd. pose proof (bearer_appends account c) as Ha. by rewrite H in Hd, Ha.
Qed.

Lemma request_step r (c : C) o c' : lift (http_request r) c = (o, c') -> disk c'.2 = disk c.2 /\ exchanges c'.2 = exchanges c.2 ++ [(r, o)].
Proof.
  destruct c as [tok w]. unfold lift. intros [= <- <-]. cbn [fst snd]. split; [apply request_disk|apply ul_exchange].
Qed.

Lemma kept_parts (w w' : W) : kept w' = kept w -> exchanges w' = exchanges w /\ contents w' = contents w /\ short_reads w' = short_reads w.
Proof. by intros [= H1 H2 H3]. Qed.

Lemma disk_parts (w w' : W) : disk w' = disk w -> contents w' = contents w /\ short_reads w' = short_reads w.
Proof. by intros [= H1 H2]. Qed.

Lemma upload_multipart_sent account path parent content c c' out :
  contents c.2 !! path = Some content -> upload_multipart on_progress account path parent c = (Finished (Ok out), c') ->
  ur_link out = view_link (ur_file_id out) /\ exists l, exchanges c'.2 = exchanges c.2 ++ l /\
    sent_whole account path parent content (short_reads c'.2 = short_reads c.2) l out.
Proof.
  intros Hc. unfold upload_multipart. intros H. apply throwing_try_Ok_inv in H as (started & c1 & H1 & H).
  apply observe_inv, kept_step, kept_parts in H1 as (Hx1 & Hc1 & Hr1); [|apply _].
  apply throwing_try_Ok_inv in H as (read & c2 & H2 & H). apply observe_inv in H2.
  pose proof (preserves_lift (S := DriveAccessToken) exchanges _ (ul_read_exchanges path) c1) as Hx2.
  pose proof (preserves_lift (S := DriveAccessToken) contents _ (ul_read_contents path) c1) as Hc2. rewrite H2 in Hx2, Hc2. cbn [snd] in Hx2, Hc2.
  unfold lift in H2. injection H2 as Hread H2. destruct read as [got|]; [|done].
  destruct (ul_read_prefix path c1.2 got content Hread ltac:(congruence)) as [Hpre Hfull]. replace (read_file path c1.2).2 with c2.2 in Hfull by (by rewrite <- H2).
  apply throwing_try_Ok_inv in H as (bearer & c3 & H3 & H). apply bearer_step in H3 as (Hd3 & tokens & Hx3 & Htok).
  apply throwing_try_Ok_inv in H as (meta & c4 & H4 & H). destruct (file_metadata path parent) as [what|meta'] eqn:Hmeta; [done|].
  injection H4 as -> <-. apply throwing_try_Ok_inv in H as (u & c5 & H5 & H). apply kept_step, kept_parts in H5 as (Hx5 & Hc5 & Hr5); [|apply _].
  apply throwing_try_Ok_inv in H as (res & c6 & H6 & H). apply no_throw_inv, request_step in H6 as [Hd6 Hx6].
  destruct (success res) eqn:Hok; [|done]. cbn [negb] in H. apply throwing_try_Ok_inv in H as (id & c7 & H7 & H).
  unfold parsed_id in H7. destruct (id_of_body (body res)) as [what|id'] eqn:Hid; [done|]. injection H7 as -> <-.
  apply finished_upload_inv in H as (Hfid & Hlink & Hsize & Hk%kept_parts). destruct Hk as (Hx8 & _ & Hr8).
  apply disk_parts in Hd3 as [_ Hr3], Hd6 as [_ Hr6]. split; [by rewrite Hfid|].
  exists (tokens ++ [(multipart_request bearer meta got, Ok res)]). split; [by rewrite Hx8, Hx6, Hx5, Hx3, Hx2, Hx1, <- !app_assoc|].
  exists tokens, bearer, meta, got, res. rewrite Hfid. split_and!; [done|done|exact Hmeta|done|exact Hid|done|done|].
  intros Hsame. apply Hfull. congruence.
Qed.

(** *** The workers *)

Section Transfer.
  Context (account : ServiceAccountKey) (path uri content : string) (fs : gmap string string).
  Hypothesis held : fs !! path = Some content.
Let total := Z.of_nat (str_size content).
Let plan := chunk_plan config total.
Let I (c : C) : Prop := contents c.2 = fs.
Let log (c : C) : list Exchange := exchanges c.2.

Lemma upload_worker_keeps : worker_keeps account uri total path I log.
Proof.
  intros A m Hm c Hc. unfold I, log in *.
  assert (forall A (m : M C A), Preserves (fun c : C => kept c.2) m -> contents (m c).2.2 = fs /\ exists l, exchanges (m c).2.2 = exchanges c.2 ++ l) as Hkept.
  { intros B m' Hk. destruct (kept_parts _ _ (Hk c)) as (H1 & H2 & _). split; [congruence|]. exists []. by rewrite H1, app_nil_r. }
  destruct Hm; [apply Hkept; apply _..| | |apply Hkept; done].
  - destruct (acquire_bearer account c) as [o c1] eqn:E. destruct (bearer_step _ _ _ _ E) as (Hd & tokens & Hx & _).
    apply disk_parts in Hd as [Hd _]. cbn [snd]. split; [congruence|eauto].
  - destruct (lift (http_request (chunk_request bearer uri total chunk body)) c) as [o c1] eqn:E. destruct (request_step _ _ _ _ E) as [Hd Hx].
    apply disk_parts in Hd as [Hd _]. cbn [snd]. split; [congruence|eauto].
Qed.

(** The exchanges of an event: the chunk that it got taken, with its number, and others. *)
Definition told_apart (acks : list nat) (l : list Exchange) : Prop :=
  exists tagged others, tagged.*1 = acks /\ l ≡ₚ tagged.*2 ++ others /\
    Forall (fun t : nat * Exchange => exists chunk, plan !! t.1 = Some chunk /\ chunk_taken uri content total chunk t.2) tagged /\
    Forall (fun x => put_taken x = false) others.

Lemma told_nothing l : Forall (fun x => put_taken x = false) l -> told_apart [] l.
Proof. exists [], l. by split_and!. Qed.

Lemma told_app acks acks' l l' : told_apart acks l -> told_apart acks' l' -> told_apart (acks ++ acks') (l ++ l').
Proof.
  intros (t & o & <- & Hp & Ht & Ho) (t' & o' & <- & Hp' & Ht' & Ho'). exists (t ++ t'), (o ++ o'). rewrite !fmap_app.
  split_and!; [done| |by apply Forall_app|by apply Forall_app]. rewrite Hp, Hp'. rewrite <- !app_assoc. apply Permutation_app_head.
  rewrite !app_assoc. apply Permutation_app_tail, Permutation_app_comm.
Qed.

Lemma called_quiet {A} (m : M C A) a l : Preserves (fun c : C => kept c.2) m -> called I log m a l -> l = [].
Proof.
  intros Hm (c & _ & _ & Hl). destruct (kept_parts _ _ (Hm c)) as (Hx & _ & _). unfold log in Hl. rewrite Hx in Hl.
  rewrite <- (app_nil_r (exchanges c.2)) in Hl at 1. by apply app_inv_head in Hl as <-.
Qed.

Lemma event_told e l : worker_did account uri total path I log e l -> (forall w, e <> Threw w) -> told_apart (acked_by e) l.
Proof.
  destruct e as [| |w ok|w cancelled readable|w r|w idx r|w|w]; cbn [worker_did acked_by]; intros H Hquiet;
    try (subst l; by apply told_nothing); [..|by destruct (Hquiet w)].
  - apply called_quiet in H as ->; [by apply told_nothing|apply _].
  - destruct H as [_ [->|(chunk & read & ->%called_quiet)]]; [by apply told_nothing..|apply _].
  - destruct H as (c & _ & _ & Hl). destruct (acquire_bearer account c) as [o c1] eqn:E. destruct (bearer_step _ _ _ _ E) as (_ & tokens & Hx & Ht).
    unfold log in Hl. cbn [snd] in Hl. rewrite Hx in Hl. apply app_inv_head in Hl as <-. apply told_nothing.
    eapply Forall_impl; [exact Ht|]. intros [r1 a] [jwt E1]. cbn [fst] in E1. by subst r1.
  - destruct H as (bearer & chunk & body & l0 & l1 & Hchunk & (c0 & H0 & Hbody & _) & (c & _ & Hr & Hl) & Hlast).
    assert (l = l1) as ->. { destruct Hlast as [->|(l2 & ->%called_quiet & ->)]; [done|by rewrite app_nil_r|done]. } clear Hlast.
    destruct (lift (http_request (chunk_request bearer uri total chunk body)) c) as [o c1] eqn:E. destruct (request_step _ _ _ _ E) as [_ Hx].
    unfold log in Hl. cbn [fst snd] in Hl, Hr. subst o. rewrite Hx in Hl. apply app_inv_head in Hl as <-.
    assert (body = substr content (Z.to_nat (ck_offset chunk)) (Z.to_nat (ck_length chunk))) as ->.
    { eapply (ul_chunk_exact path chunk c0.2); [exact Hbody|]. unfold I in H0. by rewrite H0. }
    destruct r as [res|e]; [destruct (taken res) eqn:Ht|]; [|apply told_nothing; by repeat constructor..].
    exists [(idx, (chunk_request bearer uri total chunk (substr content (Z.to_nat (ck_offset chunk)) (Z.to_nat (ck_length chunk))), Ok res))], [].
    split_and!; [done|done| |constructor]. apply Forall_singleton. exists chunk. split; [done|]. split; [done|by exists bearer].
Qed.

Lemma events_told es ls :
  Forall2 (worker_did account uri total path I log) es ls -> (forall w, Threw w ∉ es) -> told_apart (acked es) (concat ls).
Proof.
  induction 1 as [|e l es ls He _ IH]; intros Hquiet; [by apply told_nothing|]. cbn [concat].
  change (acked (e :: es)) with (acked_by e ++ acked es). apply told_app.
  - apply event_told; [done|]. intros w ->. apply (Hquiet w). by left.
  - apply IH. intros w Hw. apply (Hquiet w). by right.
Qed.

(** Every chunk once, in the order of the plan. *)
Lemma told_in_order l :
  told_apart (seq 0 (length plan)) l ->
  exists took others, l ≡ₚ took ++ others /\ Forall2 (chunk_taken uri content total) plan took /\ Forall (fun x => put_taken x = false) others /\
    concat (map (fun x => chars (rq_body x.1)) took) = chars content.
Proof.
  intros (tagged & others & Hseq & Hp & Ht & Ho). exists tagged.*2, others.
  assert (Forall2 (chunk_taken uri content total) plan tagged.*2) as Hall.
  { apply Forall2_same_length_lookup. split; [by rewrite length_fmap, <- (length_fmap fst tagged), Hseq, length_seq|].
    intros k chunk x Hk Hx. apply list_lookup_fmap_Some in Hx as ([i y] & -> & Hx).
    assert (i = k) as ->.
    { pose proof (f_equal (fun l => l !! k) Hseq) as E. cbn beta in E. rewrite list_lookup_fmap, Hx in E. cbn in E. symmetry in E.
      by apply lookup_seq in E as [-> _]. }
    rewrite Forall_lookup in Ht. destruct (Ht _ _ Hx) as (chunk' & E & Htaken). cbn [fst snd] in *. by rewrite Hk in E; injection E as <-. }
  split_and!; [done|done|done|]. transitivity (drop (Z.to_nat 0) (chars content)); [|done].
  rewrite <- (covers_pieces (chars content) plan 0); [|done|apply chunk_plan_covers; lia].
  f_equal. clear -Hall. induction Hall as [|k x plan' l [_ [bearer Hx]] _ IH]; [done|]. cbn [map]. rewrite IH, Hx. unfold substr. cbn [chunk_request authorized make_request rq_body fst concat]. by rewrite chars_of_chars.
Qed.

Lemma pool_takes c c' s :
  contents c.2 = fs -> join_workers account path uri total c = (Some s, c') ->
  contents c'.2 = fs /\ exists es l,
    run config path plan es (initial config plan) = Some s /\ parent s = Joined /\ exchanges c'.2 ≡ₚ exchanges c.2 ++ l /\
    (forall id, upload_outcome s = Ok id -> (exists w, Threw w ∈ es) \/
       exists took others, l ≡ₚ took ++ others /\ Forall2 (chunk_taken uri content total) plan took /\
         Forall (fun x => put_taken x = false) others /\ concat (map (fun x => chars (rq_body x.1)) took) = chars content).
Proof.
  intros Hc H. destruct (pool_logged _ I log account path uri total c s c' Hc upload_worker_keeps H) as (Hc' & es & ls & Hrun & Hj & Hdid & Hlog).
  split; [done|]. exists es, (concat ls). split_and!; [done..|]. intros id Hid.
  destruct (existsb threw es) eqn:Hthrew.
  { left. apply existsb_exists in Hthrew as (e & Hin%list_elem_of_In & He). destruct e as [| | | | | | |w]; try done. by exists w. }
  right. apply told_in_order.
  assert (forall w, Threw w ∉ es) as Hquiet.
  { intros w Hin%list_elem_of_In. rewrite <- not_true_iff_false in Hthrew. apply Hthrew, existsb_exists. by exists (Threw w). }
  assert (Forall clean es) as Hclean.
  { apply Forall_forall. intros e Hin. pose proof Hin as [k Hk]%list_elem_of_lookup.
    destruct (Forall2_lookup_l _ _ _ _ _ Hdid Hk) as (l & _ & Hl). destruct e as [| | |w [|] readable| | | |w]; try done; [by destruct Hl|].
    by destruct (Hquiet w). }
  destruct (upload_complete config path plan es s id Hrun Hj Hclean Hid) as (Hack & _ & _).
  destruct (events_told es ls Hdid Hquiet) as (tagged & others & Ht & Hp & Hall & Ho).
  rewrite <- Ht in Hack. symmetry in Hack. apply Permutation_map_inv in Hack as (tagged' & Hseq & Hperm).
  exists tagged', others. split_and!; [done| | |done].
  - rewrite Hp. by rewrite Hperm.
  - by rewrite <- Hperm.
Qed.

End Transfer.

Lemma upload_resumable_sent account path parent content c c' out :
  contents c.2 !! path = Some content -> upload_resumable on_progress account path parent c = (Finished (Ok out), c') ->
  ur_link out = view_link (ur_file_id out) /\ exists l, exchanges c'.2 ≡ₚ exchanges c.2 ++ l /\ taken_whole path content l out.
Proof.
  intros Hc. unfold upload_resumable. intros H. apply throwing_try_Ok_inv in H as (started & c1 & H1 & H).
  apply observe_inv, kept_step, kept_parts in H1 as (Hx1 & Hc1 & _); [|apply _].
  apply throwing_try_Ok_inv in H as (size & c2 & H2 & H). apply observe_inv in H2.
  assert (forall n, size = inr n -> n = Z.of_nat (str_size content)) as Hsize.
  { intros n ->. unfold lift in H2. injection H2 as H2 _. eapply ul_size_exact; [exact H2|congruence]. }
  apply kept_step, kept_parts in H2 as (Hx2 & Hc2 & _); [|apply _]. destruct size as [what|n]; [done|]. rewrite (Hsize n eq_refl) in H. clear n Hsize.
  apply throwing_try_Ok_inv in H as (uri & c3 & H3 & H).
  assert (contents c3.2 = contents c2.2 /\ exists opening, exchanges c3.2 = exchanges c2.2 ++ opening /\ Forall (fun x => put_taken x = false) opening)
    as (Hc3 & opening & Hx3 & Hopening).
  { unfold open_session in H3. apply throwing_try_Ok_inv in H3 as (bearer & d1 & E1 & H3). apply bearer_step in E1 as (Hd1%disk_parts & tokens & Hy1 & Htok).
    apply throwing_try_Ok_inv in H3 as (meta & d2 & E2 & H3). destruct (file_metadata path parent) as [what|meta'] eqn:Hmeta; [done|]. injection E2 as -> <-.
    apply throwing_try_Ok_inv in H3 as (res & d3 & E3 & H3). apply no_throw_inv, request_step in E3 as [Hd3%disk_parts Hy3]. injection H3 as _ <-.
    split; [by rewrite (proj1 Hd3), (proj1 Hd1)|]. exists (tokens ++ [(init_request bearer meta (Z.of_nat (str_size content)), Ok res)]).
    split; [by rewrite Hy3, Hy1, app_assoc|]. apply Forall_app. split; [|by repeat constructor].
    eapply Forall_impl; [exact Htok|]. intros [r a] [jwt E]. cbn [fst] in E. by subst r. }
  apply throwing_try_Ok_inv in H as (readable & c4 & H4 & H). apply observe_inv, kept_step, kept_parts in H4 as (Hx4 & Hc4 & _); [|apply _].
  destruct readable; cbn [negb] in H.
  2: { apply throwing_try_Ok_inv in H as (u & c5 & _ & H). discriminate H. }
  apply throwing_try_Ok_inv in H as (joined & c5 & H5 & H). apply observe_inv in H5. destruct joined as [s|]; [|done].
  apply throwing_try_Ok_inv in H as (id & c6 & H6 & H). apply finished_upload_inv in H as (Hid & Hlink & Hn & Hk%kept_parts).
  destruct Hk as (Hx7 & _ & _). destruct (pool_takes account path uri content (contents c.2) Hc c4 c5 s) as (_ & es & l & Hrun & Hj & Hx5 & Htook); [congruence|exact H5|].
  unfold close_session in H6. destruct (first_error s); [by apply throwing_try_Ok_inv in H6 as (u & d & _ & H6)|]. injection H6 as H6 <-.
  split; [by rewrite Hid|]. exists (opening ++ l). split; [by rewrite Hx7, Hx5, Hx4, Hx3, Hx2, Hx1, app_assoc|].
  split; [done|]. rewrite Hid. exists uri, es, s. split_and!; [done..|]. destruct (Htook id H6) as [Hthrew|(took & others & Hp & Hall & Ho & Hbytes)]; [by left|right].
  exists took, (opening ++ others). split_and!; [|done|by apply Forall_app|done]. rewrite Hp, !app_assoc. apply Permutation_app_tail, Permutation_app_comm.
Qed.


End Success.

(** ** Sessions *)

Section Sessions.
  Context `{json_lib : !Json, ssl : !OpenSsl} {W : Type}.
  Context `{http : !HttpClient W, clock : !Clock W, steady : !SteadyClock W, cancel : !Cancellation W}.
  Context (sent : W -> list HttpRequest) `{logged : !SendLog sent}.

(** A failed transfer cleans up after itself: when a worker failed, the session is deleted
    with exactly one request, after a token request at most, and the caller gets the first
    worker's error; only an exception while signing a new token prevents it.  When no worker
    failed nothing is sent, so that a session without a final answer is left behind. *)
Theorem drive_session_cleanup account uri s tok w :
  let '(o, (_, w')) := close_session account uri s (tok, w) in
  match first_error s with
  | Some e =>
      exists tokens, Forall (fun r => exists jwt, r = token_request account jwt) tokens /\ (length tokens <= 1)%nat /\
        ((exists bearer, o = Finished (Err e) /\ sent w' = sent w ++ tokens ++ [abort_request bearer uri]) \/
         (sent w' = sent w ++ tokens /\ forall r, o <> Finished r))
  | None => o = Finished (upload_outcome s) /\ sent w' = sent w
  end.
Proof.
  unfold close_session. destruct (first_error s) as [e|]; [|done].
  rewrite throwing_try_proj. unfold abort_resumable_session. rewrite mbind_proj.
  pose proof (acquire_bearer_sends account sent tok w) as H.
  destruct (acquire_bearer account (tok, w)) as [o [tok' w1]]. destruct H as (tokens & Hl & Hn & Hf). cbn [fst snd].
  destruct o as [bearer|what|]; cbn [fst snd mreturn].
  - rewrite mbind_proj. cbn [lift fst snd finish_with mreturn].
    set (b := match bearer with Ok b => Some b | Err _ => None end). pose proof (request_logged sent (abort_request b uri) w1) as Hr.
    destruct (http_request (abort_request b uri) w1) as [res w2]. cbn [fst snd] in *.
    exists tokens. split_and!; [done|done|]. left. exists b. by rewrite Hr, Hl, <- app_assoc.
  - exists tokens. split_and!; [done|done|]. by right.
  - exists tokens. split_and!; [done|done|]. by right.
Qed.

End Sessions.

(** ** A concrete upload *)

Module MemUpload.
Import MemJson.

#[export] Instance json_lib : Json := json_of_table [
  ("token", JObject [("access_token", JString "ya29")]); ("done", JObject [("id", JString "F1")])].
#[export] Instance ssl : OpenSsl := MemDriveAuth.ssl.

Definition World := list Exchange.
Definition sent (w : World) : list HttpRequest := map fst w.
Definition account : ServiceAccountKey := MemDriveAuth.account.
Definition config : GoogleDriveConfig := MkGoogleDriveConfig "" "root" true "" 262144 1 4 6 500.

(** Chunks of 4 MiB, so that a file of one byte more than 5 MiB has two. *)
Definition big_config : GoogleDriveConfig := MkGoogleDriveConfig "" "root" true "" 4194304 1 4 6 500.
Definition big_size : Z := 5242881.

(** What Drive answers; the last chunk of the big file ends its session. *)
Definition answer (r : HttpRequest) : HttpResponse :=
  if bool_decide (rq_url r = token_uri account) then MkResponse 200 [] "token"
  else if bool_decide (rq_url r = upload_url "resumable") then MkResponse 200 [MkHeader "location" "https://session"] ""
  else if bool_decide (rq_method r = Put) && negb (existsb (fun h => bool_decide (h_value h = "bytes 4194304-5242880/5242881")) (rq_headers r))
  then MkResponse 308 [] ""
  else MkResponse 200 [] "done".

#[export] Instance http : HttpClient World := fun r w => (Ok (answer r), w ++ [(r, Ok (answer r))]).
#[export] Instance clock : Clock World := mreturn 1700000000000000000.
#[export] Instance steady : SteadyClock World := mreturn 5000000000.
#[export] Instance cancel : Cancellation World := mreturn false.
#[export] Instance files : Files World := {|
  fs_exists _ := mreturn true;
  fs_file_size _ := mreturn (inr 5);
  fs_is_directory _ := mreturn false;
  read_file _ := mreturn (Some "bytes");
  can_open _ := mreturn true
|}.
#[export] Instance log : SendLog sent.
Proof. split; [|done..]. intros r w. unfold sent, http_request, http. cbn [snd]. by rewrite map_app. Qed.

(** The big file. *)
Definition big_files : Files World := {|
  fs_exists _ := mreturn true;
  fs_file_size _ := mreturn (inr big_size);
  fs_is_directory _ := mreturn false;
  read_file _ := mreturn None;
  can_open _ := mreturn true
|}.

(** A file of [size] bytes of which [cut] gives a piece. *)
Definition mem_reader (size : Z) (cut : Z -> Z -> string) : ChunkReader World := fun _ k =>
  mreturn (if (0 <=? ck_offset k) && (0 <=? ck_length k) && (ck_offset k + ck_length k <=? size) then Some (cut (ck_offset k) (ck_length k)) else None).
Definition cut_from (content : string) (offset length : Z) : string := substr content (Z.to_nat offset) (Z.to_nat length).

(** A pool that joins only when its one worker gets every chunk taken at the first attempt. *)
Section Lone.
  Context {W : Type} `{http : !HttpClient W, clock : !Clock W, steady : !SteadyClock W, files : !Files W, reader : !ChunkReader W}.
  Context (account : ServiceAccountKey) (path uri : string) (total : Z).

Fixpoint lone_chunks (k : nat) (chunks : list ChunkPlan) : M (DriveAccessToken * W) (option (list Event)) :=
  match chunks with
  | [] => mreturn (Some [Claim 0 false true])
  | chunk :: chunks =>
      co_await read <- lift (read_chunk path chunk);
      match read with
      | None => mreturn None
      | Some body =>
          co_await o <- acquire_bearer account;
          match o with
          | Finished (Ok bearer) =>
              co_await r <- lift (http_request (chunk_request bearer uri total chunk body));
              co_await rest <- lone_chunks (S k) chunks;
              mreturn (option_map (fun es => [Claim 0 false true; Bearer 0 (Ok bearer); Answer 0 k r] ++ es) rest)
          | _ => mreturn None
          end
      end
  end.

Definition lone_events (plan : list ChunkPlan) : M (DriveAccessToken * W) (option (list Event)) :=
  co_await ok <- lift (can_open path);
  co_await es <- lone_chunks 0 plan;
  mreturn (option_map (fun es => [Spawn; Park; Opened 0 ok] ++ es) es).
End Lone.

Definition joined_state (config : GoogleDriveConfig) (path : string) (plan : list ChunkPlan) (es : list Event) : option Shared :=
  match run config path plan es (initial config plan) with
  | Some s => match parent s with Joined => Some s | _ => None end
  | None => None
  end.

Definition lone_pool `{reader : !ChunkReader World} (files : Files World) (config : GoogleDriveConfig) : WorkerPool World :=
  fun account path uri total =>
  let plan := chunk_plan config total in
  co_await es <- lone_events account path uri total plan;
  mreturn (match es with Some es => joined_state config path plan es | None => None end).

Section LoneLaws.
  Context {files : Files World} `{reader : !ChunkReader World} (config : GoogleDriveConfig).
  Context {X : Type} (I : DriveAccessToken * World -> Prop) (log : DriveAccessToken * World -> list X).
  Context (account : ServiceAccountKey) (uri : string) (total : Z) (path : string) (keeps : worker_keeps account uri total path I log).
Let did := worker_did config account uri total path I log.

Lemma lone_call {A} (m : M (DriveAccessToken * World) A) c a c' :
  worker_call account uri total path A m -> I c -> m c = (a, c') -> I c' /\ exists l, called I log m a l /\ log c' = log c ++ l.
Proof.
  intros Hm Hc E. destruct (keeps A m Hm c Hc) as [Hc' [l Hl]]. rewrite E in Hc', Hl. split; [done|]. exists l. split; [|done].
  exists c. by rewrite E.
Qed.

Lemma lone_chunks_did chunks k c es c' :
  (forall j chunk, chunks !! j = Some chunk -> chunk_plan config total !! (k + j)%nat = Some chunk) -> I c ->
  lone_chunks account path uri total k chunks c = (Some es, c') ->
  I c' /\ exists ls, Forall2 did es ls /\ log c' = log c ++ concat ls.
Proof.
  revert k c es. induction chunks as [|chunk chunks IH]; intros k c es Hplan Hc; cbn [lone_chunks].
  - intros [= <- <-]. split; [done|]. exists [[]]. split; [by repeat constructor; left|]. cbn. by rewrite app_nil_r.
  - unfold mbind at 1. destruct (lift (read_chunk path chunk) c) as [read c1] eqn:E1.
    destruct (lone_call _ _ _ _ (call_read _ _ _ _ chunk) Hc E1) as (Hc1 & l1 & Hcall1 & Hl1). destruct read as [body|]; [|done].
    unfold mbind at 1. destruct (acquire_bearer account c1) as [o c2] eqn:E2.
    destruct (lone_call _ _ _ _ (call_bearer _ _ _ _) Hc1 E2) as (Hc2 & l2 & Hcall2 & Hl2). destruct o as [[bearer|]| |]; try done.
    unfold mbind at 1. destruct (lift (http_request (chunk_request bearer uri total chunk body)) c2) as [r c3] eqn:E3.
    destruct (lone_call _ _ _ _ (call_put _ _ _ _ bearer chunk body) Hc2 E3) as (Hc3 & l3 & Hcall3 & Hl3).
    unfold mbind at 1. destruct (lone_chunks account path uri total (S k) chunks c3) as [rest c4] eqn:E4. destruct rest as [rest|]; [|done].
    intros [= <- <-]. apply IH in E4 as (Hc4 & ls & Hls & Hl4); [|intros j x Hj; rewrite Nat.add_succ_comm; by apply Hplan|done].
    split; [done|]. exists (l1 :: l2 :: l3 :: ls). split.
    + constructor; [split; [done|right; by exists chunk, (Some body)]|]. constructor; [done|]. constructor; [|done].
      exists bearer, chunk, body, l1, l3. split_and!; [|done|done|by left]. rewrite <- (Nat.add_0_r k). by apply Hplan.
    + cbn [concat]. by rewrite Hl4, Hl3, Hl2, Hl1, <- !app_assoc.
Qed.
End LoneLaws.

Lemma lone_pool_laws `{reader : !ChunkReader World} (files : Files World) config : PoolLaws (pool := lone_pool files config) config.
Proof.
  intros X I log account path uri total c s c' Hc Hkeeps. unfold join_workers, lone_pool, lone_events. rewrite !mbind_proj.
  destruct (lift (can_open path) c) as [ok c1] eqn:E1. cbn [fst snd].
  destruct (lone_call I log account uri total path Hkeeps _ _ _ _ (call_open _ _ _ _) Hc E1) as (Hc1 & l1 & Hcall1 & Hl1).
  destruct (lone_chunks account path uri total 0 (chunk_plan config total) c1) as [es c2] eqn:E2. cbn [fst snd mreturn]. intros [= Hs ->].
  destruct es as [es|]; [|done]. cbn [option_map] in Hs.
  apply (lone_chunks_did config I log account uri total path Hkeeps) in E2 as (Hc2 & ls & Hls & Hl2); [|done|done].
  unfold joined_state in Hs. destruct (run _ _ _ _ _) as [s'|] eqn:Hrun; [|done]. destruct (parent s') eqn:Hj; [done..|]. injection Hs as ->.
  split; [done|]. exists ([Spawn; Park; Opened 0 ok] ++ es), ([[]; []; l1] ++ ls). split_and!; [done|done| |].
  - by repeat constructor.
  - cbn [concat app]. by rewrite Hl2, Hl1, <- app_assoc.
Qed.

#[export] Instance reader : ChunkReader World := mem_reader 5 (cut_from "bytes").
#[export] Instance pool : WorkerPool World := lone_pool files config.
#[export] Instance pool_laws : PoolLaws config := lone_pool_laws files config.

Definition big : string := of_chars (repeat "a"%char (Z.to_nat big_size)).
Definition big_reader : ChunkReader World := mem_reader big_size (cut_from big).

Definition on_disk (content : string) (w : World) : gmap string string := {[ "/d/f" := content ]}.
Definition all_read (w : World) : nat := 0.

Lemma on_disk_content content w p c : on_disk content w !! p = Some c -> c = content.
Proof. unfold on_disk. by intros [_ <-]%lookup_singleton_Some. Qed.

Lemma mem_reader_exact content size p k w body : (mem_reader size (cut_from content) p k w).1 = Some body ->
  body = substr content (Z.to_nat (ck_offset k)) (Z.to_nat (ck_length k)).
Proof. unfold mem_reader. cbn [mreturn fst]. destruct (_ && _); [|done]. by intros [= <-]. Qed.

#[export] Instance laws : UploadLaws None (on_disk "bytes") id all_read.
Proof.
  split; first [intros; exact eq_refl|intros; intros ?; exact eq_refl|discriminate|idtac].
  - intros p w n c [= <-] ->%on_disk_content. reflexivity.
  - intros p w got c [= <-] ->%on_disk_content. by split.
  - intros p k w body c H ->%on_disk_content. exact (mem_reader_exact _ 5 p k w body H).
Qed.

Lemma big_length : Z.of_nat (str_size big) = big_size.
Proof. unfold big. rewrite str_size_of_chars, repeat_length. apply Z2Nat.id. done. Qed.

Lemma big_laws : UploadLaws (files := big_files) (reader := big_reader) None (on_disk big) id all_read.
Proof.
  split; first [intros; exact eq_refl|intros; intros ?; exact eq_refl|discriminate|idtac].
  - intros p w n c [= <-] ->%on_disk_content. symmetry. exact big_length.
  - intros p k w body c H ->%on_disk_content. exact (mem_reader_exact _ big_size p k w body H).
Qed.

(** The big file is uploaded, whatever its bytes are. *)
Definition big_upload (cut : Z -> Z -> string) : Outcome UploadResult * (DriveAccessToken * World) :=
  gdrive_upload_file (files := big_files) (pool := lone_pool (reader := mem_reader big_size cut) big_files big_config)
    (Some account) big_config None "/d/f" default_upload_config (no_token, []).

Lemma big_upload_succeeds cut : (big_upload cut).1 = Finished (Ok (MkUploadResult "F1" (view_link "F1") big_size 0)).
Proof. vm_compute. reflexivity. Qed.

Definition result : UploadResult := MkUploadResult "F1" (view_link "F1") 5 0.
Definition big_result : UploadResult := MkUploadResult "F1" (view_link "F1") big_size 0.
Definition answered_as (r : HttpRequest) : Exchange := (r, Ok (answer r)).
Definition first_failure : Shared := MkShared 0 0 0 true (Some (MkError Io "gdrive: worker cannot open f")) "" [Exited] Joined.

Definition failed_transfer : Outcome string * (DriveAccessToken * World) := close_session account "https://session" first_failure (no_token, []).

End MemUpload.
Import MemUpload.


Lemma drive_session_cleanup_witness :
  SendLog sent /\
  failed_transfer =
    (Finished (error Io "gdrive: worker cannot open f"),
     (MkToken "Bearer ya29" 3605000000000, [answered_as (token_request account MemDriveAuth.jwt); answered_as (abort_request (Some "Bearer ya29") "https://session")])) /\
  exists tokens, (length tokens <= 1)%nat /\
    ((exists bearer, failed_transfer.1 = Finished (error Io "gdrive: worker cannot open f") /\
        sent failed_transfer.2.2 = sent [] ++ tokens ++ [abort_request bearer "https://session"]) \/
     (sent failed_transfer.2.2 = sent [] ++ tokens /\
      forall r, failed_transfer.1 <> Finished r)).
Proof.
  split; [exact log|]. split; [vm_compute; reflexivity|].
  pose proof (drive_session_cleanup sent account "https://session" first_failure no_token []) as H. change (close_session account "https://session" first_failure (no_token, [])) with failed_transfer in H.
  destruct failed_transfer as [o [tok' w']].
  destruct H as (tokens & _ & Hn & H). exists tokens. split; [exact Hn|exact H].
Defined.
