(* ===== verification/DriveDirectory.v ===== *)
(** * Directory uploads to Google Drive: [GoogleDriveUploader::upload_directory]

    The walk creates a folder per directory and collects the files ([plan_directory] of
    [DriveUpload]); a pool of workers ([JobPool]) then uploads each file into its folder. *)

From S2P Require Import Prelude CoreError Identifiers ByteSize Ports Http Files ConfigData Json PoolJoin JobPool DriveAuth DriveApi DriveChunks DriveUpload.

Local Open Scope coro_scope.

Section Directory.
  Context `{json_lib : !Json, ssl : !OpenSsl} {W : Type}.
  Context `{http : !HttpClient W, clock : !Clock W, steady : !SteadyClock W, cancel : !Cancellation W}.
  Context `{files : !Files W, walk : !Walk W, pool : !WorkerPool W, files_pool : !Executor (DriveAccessToken * W)}.
  Context (key : option ServiceAccountKey) (config : GoogleDriveConfig) (on_progress : option (UploadProgress -> M W unit)).

Notation C := (DriveAccessToken * W)%type.

(** [std::clamp(configured, 1, std::max(1, size))]. *)
Definition files_width (n : nat) : nat := Z.to_nat (Z.max 1 (Z.min (gd_parallel_files_per_directory config) (Z.max 1 (Z.of_nat n)))).

(** [per_file]: the folder of the file instead of that of the directory. *)
Definition into_folder (upload : UploadConfig) (folder : string) : UploadConfig :=
  MkUploadConfig (uc_chat_id upload) (Some folder) (uc_rclone_path upload) (uc_as_document upload) (uc_thumbnail_path upload)
    (uc_caption upload) (uc_split_size upload).

(** The job of a worker, which takes no index out of range. *)
Definition upload_work (upload : UploadConfig) (work : list FileWork) (idx : nat) : Throwing C UploadResult :=
  match work !! idx with
  | Some w => gdrive_upload_file key config on_progress (source w) (into_folder upload (parent_id w))
  | None => mreturn Unfinished
  end.

(** [upload_directory]; a cancellation that a worker sees stops the others without an error. *)
Definition gdrive_upload_directory (path : string) (upload : UploadConfig) : Throwing C (list UploadResult) :=
  co_throwing work <- plan_directory key config path upload;
  co_throwing joined <- observe (run_jobs UploadResult (length work) (files_width (length work)) None (upload_work upload work));
  match joined with
  | None => mreturn Unfinished
  | Some s => finish_with (directory_outcome s)
  end.

(** ** The folders *)

(** The order of a recursive walk: a directory before what it holds. *)
Inductive walk_order : list (list string) -> list DirEntry -> Prop :=
| walk_end known : walk_order known []
| walk_directory known path rel rest :
    parent_path rel ∈ known -> rel ∉ known -> walk_order (rel :: known) rest ->
    walk_order known (MkEntry path (inr rel) Directory :: rest)
| walk_file known path rel kind rest :
    kind <> Directory -> parent_path rel ∈ known -> walk_order known rest ->
    walk_order known (MkEntry path (inr rel) kind :: rest).

(** A folder that the walk created: in the folder of its parent, under its own name. *)
Definition folder_created (account : ServiceAccountKey) (ids : gmap (list string) string) (rel : list string) (id : string) : Prop :=
  exists parent c, ids !! parent_path rel = Some parent /\ (create_folder account (last_component rel) parent c).1 = Finished (Ok id).

(** A file and the folder it goes to. *)
Definition placed (ids : gmap (list string) string) (e : DirEntry) (w : FileWork) : Prop :=
  source w = de_path e /\ exists rel, de_relative e = inr rel /\ ids !! parent_path rel = Some (parent_id w).

Definition is_regular (e : DirEntry) : bool := match de_kind e with RegularFile => true | _ => false end.

(** The walk mirrors the tree: every directory gets a folder of its name inside the folder of
    its parent, and every regular file is planned once, in the order of the walk, into the
    folder of its own directory. *)
Lemma plan_entries_mirror account entries known ids work (c c' : C) out :
  walk_order known entries -> (forall p, p ∈ known <-> is_Some (ids !! p)) ->
  plan_entries account entries ids work c = (Finished (Ok out), c') ->
  exists ids' placed_work, ids ⊆ ids' /\ out = work ++ placed_work /\
    Forall2 (placed ids') (List.filter is_regular entries) placed_work /\
    (forall rel id, ids' !! rel = Some id -> ids !! rel = Some id \/ folder_created account ids' rel id) /\
    (forall e rel, e ∈ entries -> de_kind e = Directory -> de_relative e = inr rel -> is_Some (ids' !! rel)).
Proof.
  intros Hwalk. revert ids work c. induction Hwalk as [known|known path rel rest Hp Hn Hrest IH|known path rel kind rest Hk Hp Hrest IH];
    intros ids work c Hknown H; cbn [plan_entries de_relative de_kind de_path] in H.
  { injection H as <- _. exists ids, []. rewrite app_nil_r. split_and!; [done|done|constructor|by auto|]. intros e r He. by apply not_elem_of_nil in He. }
  - apply throwing_try_Ok_inv in H as (stop & c1 & _ & H). destruct stop; [done|]. destruct (proj1 (Hknown _) Hp) as [parent Hparent].
    rewrite Hparent in H. apply throwing_try_Ok_inv in H as (id & c2 & Hcreate & H).
    assert (ids !! rel = None) as Hnone by (apply eq_None_not_Some; by rewrite <- Hknown).
    apply IH in H as (ids' & more & Hsub & -> & Hall & Hfolders & Hdirs).
    2:{ intros p. rewrite elem_of_cons, Hknown, lookup_insert_is_Some. destruct (decide (rel = p)); naive_solver. }
    assert (ids ⊆ ids') as Hsub' by (etrans; [by apply insert_subseteq|done]).
    assert (ids' !! rel = Some id) as Hrel by (eapply lookup_weaken; [apply lookup_insert_eq|done]).
    exists ids', more. split_and!; [done|done|done| |].
    + intros r i [E|E]%Hfolders; [|auto]. destruct (decide (rel = r)) as [<-|Hne]; [|rewrite lookup_insert_ne in E by done; auto].
      rewrite lookup_insert_eq in E. injection E as <-. right. exists parent, c1. split; [by eapply lookup_weaken|]. by rewrite Hcreate.
    + intros e r [->|He]%elem_of_cons; [|by eauto]. cbn. intros _ [= <-]. by exists id.
  - apply throwing_try_Ok_inv in H as (stop & c1 & _ & H). destruct stop; [done|]. destruct (proj1 (Hknown _) Hp) as [parent Hparent].
    rewrite Hparent in H.
    assert (exists more, (plan_entries account rest ids (work ++ more) c1 = (Finished (Ok out), c')) /\
      more = if is_regular (MkEntry path (inr rel) kind) then [MkWork path parent] else []) as (more & H1 & Hmore).
    { unfold is_regular. destruct kind; cbn; [done|by eexists|]. exists []. by rewrite app_nil_r. }
    apply IH in H1 as (ids' & later & Hsub & -> & Hall & Hfolders & Hdirs); [|done]. exists ids', (more ++ later).
    split_and!; [done|by rewrite app_assoc| |done|].
    + cbn [List.filter]. destruct (is_regular _); subst more; [|done]. constructor; [|done].
      split; [done|]. exists rel. split; [done|]. by eapply lookup_weaken.
    + intros e r [->|He]%elem_of_cons; [done|by eauto].
Qed.

(** ** Exceptions *)

(** An upload throws only while it dumps JSON or signs. *)
Lemma acquire_bearer_quiet account :
  (forall t, exists jwt, build_signed_jwt account t = inr jwt) -> never_throws (W := C) (acquire_bearer account).
Proof. intros Hjwt. unfold acquire_bearer, mint_bearer. quiet. Qed.

Lemma abort_quiet account uri : never_throws (W := C) (acquire_bearer account) -> never_throws (W := C) (abort_resumable_session account uri).
Proof.
  intros Ha w what. unfold abort_resumable_session. rewrite mbind_proj. specialize (Ha w).
  destruct (acquire_bearer account w) as [[r|what'|] w1]; cbn [fst snd] in *; [|by destruct (Ha what')|done].
  by rewrite mbind_proj.
Qed.

Lemma gdrive_upload_file_quiet path upload :
  (forall account t, key = Some account -> exists jwt, build_signed_jwt account t = inr jwt) ->
  (exists meta, file_metadata path (parent_of config upload) = inr meta) ->
  never_throws (gdrive_upload_file key config on_progress path upload).
Proof.
  intros Hjwt Hmeta. unfold gdrive_upload_file. destruct key as [account|]; [|quiet].
  pose proof (acquire_bearer_quiet account (fun t => Hjwt account t eq_refl)).
  assert (forall p total n, never_throws (W := C) (progress on_progress p total n)) by (intros; unfold progress; quiet).
  assert (forall p id n t, never_throws (W := C) (finished_upload on_progress p id n t)) by (intros; unfold finished_upload; quiet).
  pose proof (abort_quiet account).
  unfold upload_multipart, upload_resumable, open_session, close_session, send. quiet.
Qed.

(** ** What a success means *)

Lemma walk_order_prefix known seen all : seen `prefix_of` all -> walk_order known all -> walk_order known seen.
Proof.
  intros [rest ->]. revert known. induction seen as [|e seen IH]; intros known H; [constructor|]. cbn [app] in H.
  inversion H; subst; constructor; auto.
Qed.

(** A file whose upload ends with an exception has a name that JSON cannot hold. *)
Lemma upload_work_throws upload work idx c what :
  (forall account t, key = Some account -> exists jwt, build_signed_jwt account t = inr jwt) ->
  (upload_work upload work idx c).1 = Thrown what ->
  exists w err, w ∈ work /\ file_metadata (source w) (parent_id w) = inl err.
Proof.
  intros Hjwt. unfold upload_work. destruct (work !! idx) as [w|] eqn:Hw; [|done]. intros H. exists w.
  destruct (file_metadata (source w) (parent_id w)) as [err|meta] eqn:E; [exists err; split; [by eapply list_elem_of_lookup_2|done]|].
  destruct (gdrive_upload_file_quiet (source w) (into_folder upload (parent_id w)) Hjwt (ex_intro _ meta E) c what H).
Qed.


(** An exception in an upload is not an error of the directory.  With one worker, when the
    upload of the first file ends with an exception, as it does for a name that is not UTF-8,
    the worker is gone, no other file is sent, and the call reports success with no result. *)
Theorem drive_directory_loses_files `{laws : !ExecutorLaws (DriveAccessToken * W)} path upload (c c1 c' : C) f rest r :
  gd_parallel_files_per_directory config <= 1 ->
  plan_directory key config path upload c = (Finished (Ok (f :: rest)), c1) ->
  (forall c2 r, (gdrive_upload_file key config on_progress (source f) (into_folder upload (parent_id f)) c2).1 <> Finished r) ->
  gdrive_upload_directory path upload c = (Finished r, c') -> r = Ok [].
Proof.
  intros Hone Hplan Hthrows. unfold gdrive_upload_directory. rewrite throwing_try_proj, Hplan. cbn [fst snd].
  rewrite throwing_try_proj. unfold observe. rewrite mbind_proj. cbn [fst snd mreturn].
  destruct (run_jobs _ _ _ _ _ c1) as [[s|] c2] eqn:E; cbn [fst snd]; [|done]. apply (f_equal fst) in E. destruct (pool_ran _ _ _ _ _ _ E) as [es Hran].
  intros [= <- _]. assert (files_width (length (f :: rest)) = 1%nat) as Hw by (unfold files_width; lia). rewrite Hw in Hran.
  eapply lone_worker_lost; [| |exact Hran]; [simpl; lia|exact Hthrows].
Qed.

End Directory.

(** ** A concrete directory *)

Module MemDirectory.
Import MemJson MemUpload.

#[export] Instance dir_files : Files World := {|
  fs_exists _ := mreturn true;
  fs_file_size _ := mreturn (inr 5);
  fs_is_directory _ := mreturn true;
  read_file _ := mreturn (Some "bytes");
  can_open _ := mreturn true
|}.

(** A file in a directory. *)
Definition sample : list DirEntry := [MkEntry "/d/s" (inr ["s"]) Directory; MkEntry "/d/s/a" (inr ["s"; "a"]) RegularFile].
#[export] Instance walk : Walk World := fun _ => mreturn (MkWalked sample None).

(** A file whose name is the byte 233, which is not UTF-8, before another one. *)
Definition latin1 : string := of_chars [ascii_of_N 233].
Definition latin1_walk : Walk World := fun _ => mreturn (MkWalked [
  MkEntry ("/d/" +:+ latin1) (inr [latin1]) RegularFile; MkEntry "/d/b" (inr ["b"]) RegularFile] None).

Definition one_file_at_a_time : GoogleDriveConfig := MkGoogleDriveConfig "" "root" true "" 262144 1 1 6 500.

(** The same directory when the walk fails in the folder. *)
Definition broken_walk : Walk World := fun _ => mreturn (MkWalked (take 1 sample) (Some "Input/output error")).

#[export] Instance walk_laws : WalkLaws (fun _ _ => sample).
Proof. by split. Qed.

Lemma broken_walk_laws : WalkLaws (walk := broken_walk) (fun _ _ => sample).
Proof. split; intros path w; [|done]. exists [MkEntry "/d/s/a" (inr ["s"; "a"]) RegularFile]. reflexivity. Qed.

Lemma mem_walk_order : walk_order [[]] sample.
Proof. repeat constructor; try done; set_solver. Qed.

Lemma mem_jwt t : exists jwt, build_signed_jwt account t = inr jwt.
Proof. eexists. vm_compute. reflexivity. Qed.

Lemma mem_bearer c : exists b c', acquire_bearer account c = (Finished (Ok b), c').
Proof.
  destruct c as [tok w]. unfold acquire_bearer. rewrite mbind_proj. cbn [fst snd get_state]. rewrite mbind_proj. cbn [fst snd].
  destruct (_ && _); [by eexists _, _|]. by eexists _, _.
Qed.

Lemma latin1_never_finishes c r :
  (gdrive_upload_file (Some account) one_file_at_a_time None ("/d/" +:+ latin1) (into_folder default_upload_config "F1") c).1 <> Finished r.
Proof.
  destruct (mem_bearer c) as (b & c' & Hb). unfold gdrive_upload_file, upload_multipart, throwing_try, observe, lift, mbind, mreturn.
  destruct c as [tok w]. cbn -[acquire_bearer file_metadata kMultipartThreshold]. change (5 <=? kMultipartThreshold) with true.
  cbn -[acquire_bearer file_metadata]. rewrite Hb.
  vm_compute. discriminate.
Qed.

End MemDirectory.
Import MemJson MemUpload MemDirectory.


Lemma drive_directory_loses_files_witness :
  (plan_directory (walk := latin1_walk) (Some account) one_file_at_a_time "/d" default_upload_config (no_token, [])).1 =
    Finished (Ok [MkWork ("/d/" +:+ latin1) "F1"; MkWork "/d/b" "F1"]) /\
  (gdrive_upload_directory (walk := latin1_walk) (files_pool := Sequential.exec) (Some account) one_file_at_a_time None "/d" default_upload_config (no_token, [])).1 =
    Finished (Ok []).
Proof.
  split; [vm_compute; reflexivity|].
  destruct (gdrive_upload_directory (walk := latin1_walk) (files_pool := Sequential.exec) (Some account) one_file_at_a_time None "/d" default_upload_config (no_token, []))
    as [o c'] eqn:E.
  assert (exists r, o = Finished r) as [r ->].
  { change o with (o, c').1. rewrite <- E. eexists. vm_compute. reflexivity. }
  cbn [fst]. f_equal.
  destruct (plan_directory (walk := latin1_walk) (Some account) one_file_at_a_time "/d" default_upload_config (no_token, [])) as [p c1] eqn:Hp.
  assert (p = Finished (Ok [MkWork ("/d/" +:+ latin1) "F1"; MkWork "/d/b" "F1"])) as ->.
  { change p with (p, c1).1. rewrite <- Hp. vm_compute. reflexivity. }
  eapply (drive_directory_loses_files (laws := Sequential.laws) (walk := latin1_walk) (Some account) one_file_at_a_time None "/d" default_upload_config); [|exact Hp|exact latin1_never_finishes|exact E].
  apply Z.leb_le. reflexivity.
Defined.
