(* ===== verification/RssFeeds.v ===== *)
(** * RSS feeds: [persistence/rss_feed_repository.hpp]

    The feed record and what the repository of feeds promises to its clients. *)

From Stdlib Require Import Sorted.
From S2P Require Import Prelude CoreError Identifiers TimeCodec Ports.

Local Open Scope coro_scope.

(** [struct RssFeed]. *)
Record RssFeed := MkFeed {
  feed_id : Z;
  feed_title : string;
  feed_url : string;
  feed_chat : ChatId;
  include_regex : string;
  exclude_regex : string;
  last_guid : string;
  last_checked_at : option Z;
  feed_enabled : bool;
  feed_created_at : Z
}.

#[global] Instance RssFeed_eq_dec : EqDecision RssFeed.
Proof. solve_decision. Defined.

(** [feed.feed_id = id]. *)
Definition with_feed_id (id : Z) (f : RssFeed) : RssFeed :=
  MkFeed id (feed_title f) (feed_url f) (feed_chat f) (include_regex f) (exclude_regex f) (last_guid f)
    (last_checked_at f) (feed_enabled f) (feed_created_at f).

(** [feed.created_at = tp]. *)
Definition with_feed_created (tp : Z) (f : RssFeed) : RssFeed :=
  MkFeed (feed_id f) (feed_title f) (feed_url f) (feed_chat f) (include_regex f) (exclude_regex f) (last_guid f)
    (last_checked_at f) (feed_enabled f) tp.

(** The polling state of a feed. *)
Definition with_feed_state (guid : string) (at_ : Z) (f : RssFeed) : RssFeed :=
  MkFeed (feed_id f) (feed_title f) (feed_url f) (feed_chat f) (include_regex f) (exclude_regex f) guid
    (Some at_) (feed_enabled f) (feed_created_at f).

(** [class RssFeedRepository]. *)
Class RssFeedRepository (W : Type) := {
  feeds_list_enabled : M W (Result (list RssFeed));
  feeds_find : Z -> M W (Result (option RssFeed));
  feeds_save : RssFeed -> M W (Result RssFeed);
  feeds_update_state : Z -> string -> Z -> M W (Result unit);
  feeds_remove : Z -> M W (Result unit)
}.

(** What the repository keeps of a feed: times at millisecond granularity. *)
Definition stored_feed (f : RssFeed) : RssFeed :=
  MkFeed (feed_id f) (feed_title f) (feed_url f) (feed_chat f) (include_regex f) (exclude_regex f) (last_guid f)
    (floor_time <$> last_checked_at f) (feed_enabled f) (floor_time (feed_created_at f)).

(** Feeds whose times the 64-bit clock can show. *)
Definition storable_feed (f : RssFeed) : Prop :=
  valid_time (feed_created_at f) /\ match last_checked_at f with Some t => valid_time t | None => True end.

(** The creation time [save] gives a feed: a zero time stamp is replaced. *)
Definition created_or (tp : Z) (f : RssFeed) : RssFeed :=
  if feed_created_at f =? 0 then with_feed_created tp f else f.

(** What [rss_feed_repository.hpp] promises: a failed call changes nothing; [save] of a
    record with id 0 inserts it under a new id unless its URL is taken; the readers return
    the feeds as they are held. *)
Class RssFeedRepositoryLaws (W : Type) `{!RssFeedRepository W} (finv : W -> Prop) (feeds : W -> gmap Z RssFeed) : Prop := {
  fl_list_inv w : finv w -> finv (feeds_list_enabled w).2;
  fl_list_frame w : finv w -> feeds (feeds_list_enabled w).2 = feeds w;
  fl_list_spec w l w' :
    finv w -> feeds_list_enabled w = (Ok l, w') ->
    StronglySorted Z.lt (feed_id <$> l) /\
    (forall f, f ∈ l <-> feeds w !! feed_id f = Some f /\ feed_enabled f = true);
  fl_find_inv id w : finv w -> finv (feeds_find id w).2;
  fl_find_frame id w : finv w -> feeds (feeds_find id w).2 = feeds w;
  fl_find_spec id w o w' : finv w -> feeds_find id w = (Ok o, w') -> o = feeds w !! id;
  fl_save_inv f w : finv w -> storable_feed f -> finv (feeds_save f w).2;
  fl_insert_spec f w :
    finv w -> storable_feed f -> feed_id f = 0 ->
    match feeds_save f w with
    | (Ok f', w') =>
        exists id tp, 0 < id /\ feeds w !! id = None /\ valid_time tp /\
          f' = with_feed_id id (created_or tp f) /\
          (forall k g, feeds w !! k = Some g -> feed_url g <> feed_url f) /\
          feeds w' = <[id := stored_feed f']> (feeds w)
    | (Err _, w') => feeds w' = feeds w
    end;
  fl_update_inv id guid at_ w : finv w -> valid_time at_ -> finv (feeds_update_state id guid at_ w).2;
  fl_update_spec id guid at_ w :
    finv w -> valid_time at_ ->
    match feeds_update_state id guid at_ w with
    | (Ok _, w') => exists f, feeds w !! id = Some f /\
                      feeds w' = <[id := with_feed_state guid (floor_time at_) f]> (feeds w)
    | (Err _, w') => feeds w' = feeds w
    end;
  fl_remove_inv id w : finv w -> finv (feeds_remove id w).2;
  fl_remove_spec id w :
    finv w ->
    match feeds_remove id w with
    | (Ok _, w') => is_Some (feeds w !! id) /\ feeds w' = delete id (feeds w)
    | (Err _, w') => feeds w' = feeds w
    end;
  fl_keys k f w : finv w -> feeds w !! k = Some f -> feed_id f = k /\ stored_feed f = f /\ storable_feed f
}.

(** ** Lemmas *)

Lemma stored_feed_idemp f : stored_feed (stored_feed f) = stored_feed f.
Proof.
  unfold stored_feed. simpl. rewrite floor_time_idemp. f_equal. destruct (last_checked_at f); simpl; [|done].
  by rewrite floor_time_idemp.
Qed.

Lemma storable_stored_feed f : storable_feed f -> storable_feed (stored_feed f).
Proof.
  intros [H1 H2]. split; simpl; [by apply valid_time_floor|].
  destruct (last_checked_at f); simpl; [by apply valid_time_floor|done].
Qed.
