(* ===== verification/SqliteRssFeedRepository.v ===== *)
(** * The SQLite feed repository: [infrastructure/persistence/sqlite_rss_feed_repository.cpp]

    [FeedsDb] is the interface of the statements on table [rss_feeds] and [FeedsDbLaws]
    their documented behaviour (migration V2: [feed_id] is an autoincremented key, [url]
    is unique).  The repository is proved to satisfy [RssFeedRepositoryLaws]. *)

From Stdlib Require Import Sorted.
From stdpp Require Import sorting.
From S2P Require Import Prelude CoreError Identifiers TimeCodec Ports Database RssFeeds.

Local Open Scope coro_scope.

(** A row of table [rss_feeds]. *)
Record FeedRow := MkFeedRow {
  fr_id : Z;
  fr_title : string;
  fr_url : string;
  fr_chat_id : Z;
  fr_include : string;
  fr_exclude : string;
  fr_last_guid : string;
  fr_last_checked : option string;
  fr_enabled : Z;
  fr_created_at : string
}.

#[global] Instance FeedRow_eq_dec : EqDecision FeedRow.
Proof. solve_decision. Defined.

Definition with_row_id (id : Z) (r : FeedRow) : FeedRow :=
  MkFeedRow id (fr_title r) (fr_url r) (fr_chat_id r) (fr_include r) (fr_exclude r) (fr_last_guid r)
    (fr_last_checked r) (fr_enabled r) (fr_created_at r).

Definition with_row_state (guid at_ : string) (r : FeedRow) : FeedRow :=
  MkFeedRow (fr_id r) (fr_title r) (fr_url r) (fr_chat_id r) (fr_include r) (fr_exclude r) guid
    (Some at_) (fr_enabled r) (fr_created_at r).

(** The statements; [insert_feed] yields [sqlite3_last_insert_rowid], [update_feed_state]
    and [delete_feed] yield [sqlite3_changes]. *)
Class FeedsDb (W : Type) := {
  select_enabled : M W (DbExn + list FeedRow);
  select_feed : Z -> M W (DbExn + list FeedRow);
  insert_feed : FeedRow -> M W (DbExn + Z);
  insert_or_replace_feed : FeedRow -> M W (DbExn + unit);
  update_feed_state : Z -> string -> string -> M W (DbExn + Z);
  delete_feed : Z -> M W (DbExn + Z)
}.

(** A map with every row that shares the URL of [r] removed. *)
Definition drop_url (url : string) (m : gmap Z FeedRow) : gmap Z FeedRow :=
  filter (fun kr => fr_url kr.2 <> url) m.

(** [SQLITE_CONSTRAINT], and its extended form for [UNIQUE]. *)
Definition SQLITE_CONSTRAINT : Z := 19.
Definition is_constraint (code : Z) : bool := (code =? SQLITE_CONSTRAINT) || (code =? 2067).

Class FeedsDbLaws (W : Type) `{!ConnectionPool W, !FeedsDb W} (table : W -> gmap Z FeedRow) : Prop := {
  fd_acquire :: Preserves table pool_acquire;
  fd_release :: Preserves table pool_release;
  fd_select_enabled_frame :: Preserves table select_enabled;
  fd_select_enabled w rows w' :
    (forall k r, table w !! k = Some r -> fr_id r = k) -> select_enabled w = (inr rows, w') ->
    rows ≡ₚ filter (fun r => fr_enabled r = 1) (map_to_list (table w)).*2 /\ StronglySorted Z.lt (fr_id <$> rows);
  fd_select_feed_frame id :: Preserves table (select_feed id);
  fd_select_feed id w rows w' : select_feed id w = (inr rows, w') -> rows = option_list (table w !! id);
  fd_insert r w :
    match insert_feed r w with
    | (inr id, w') => 0 < id /\ table w !! id = None /\
        (forall k r', table w !! k = Some r' -> fr_url r' <> fr_url r) /\
        table w' = <[id := with_row_id id r]> (table w)
    | (inl e, w') => table w' = table w
    end;
  fd_conflict r w k r' :
    table w !! k = Some r' -> fr_url r' = fr_url r ->
    match (insert_feed r w).1 with
    | inl (SqliteException code _) => is_constraint code = true
    | inl (StdException _) => True
    | inr _ => False
    end;
  fd_replace r w :
    table (insert_or_replace_feed r w).2 =
      match (insert_or_replace_feed r w).1 with
      | inr _ => <[fr_id r := r]> (drop_url (fr_url r) (table w))
      | inl _ => table w
      end;
  fd_update id guid at_ w :
    match update_feed_state id guid at_ w with
    | (inr n, w') => (n = 0 <-> table w !! id = None) /\ table w' = alter (with_row_state guid at_) id (table w)
    | (inl e, w') => table w' = table w
    end;
  fd_delete id w :
    match delete_feed id w with
    | (inr n, w') => (n = 0 <-> table w !! id = None) /\ table w' = delete id (table w)
    | (inl e, w') => table w' = table w
    end
}.

(** [map_row]. *)
Definition map_row (r : FeedRow) : Result RssFeed :=
  match parse_iso8601 (fr_created_at r) with
  | Err e => Err e
  | Ok created =>
      let feed last := Ok (MkFeed (fr_id r) (fr_title r) (fr_url r) (MkId (fr_chat_id r)) (fr_include r) (fr_exclude r)
                             (fr_last_guid r) last (negb (fr_enabled r =? 0)) created) in
      match fr_last_checked r with
      | None => feed None
      | Some text => match parse_iso8601 text with
                     | Err e => Err e
                     | Ok parsed => feed (Some parsed)
                     end
      end
  end.

(** The values the statements of [save] bind. *)
Definition feed_row (f : RssFeed) : FeedRow :=
  MkFeedRow (feed_id f) (feed_title f) (feed_url f) (value (feed_chat f)) (include_regex f) (exclude_regex f)
    (last_guid f) (to_iso8601 <$> last_checked_at f) (if feed_enabled f then 1 else 0) (to_iso8601 (feed_created_at f)).

(** The row callback of [list_enabled]: accumulate until the first unreadable row. *)
Fixpoint map_rows (rows : list FeedRow) : Result (list RssFeed) :=
  match rows with
  | [] => Ok []
  | r :: rest =>
      match map_row r with
      | Err e => Err e
      | Ok f => match map_rows rest with Ok fs => Ok (f :: fs) | Err e => Err e end
      end
  end.

Section Repository.
  Context {W : Type} `{!Clock W, !ConnectionPool W, !FeedsDb W}.

(** [SqliteRssFeedRepository::list_enabled]. *)
Definition list_enabled : M W (Result (list RssFeed)) :=
  with_lease (
    co_await rows <- select_enabled;
    co_return match rows with
              | inl e => database_error "rss_feeds.list_enabled" e
              | inr rows => map_rows rows
              end).

(** [SqliteRssFeedRepository::find]. *)
Definition find_feed (id : Z) : M W (Result (option RssFeed)) :=
  with_lease (
    co_await rows <- select_feed id;
    co_return match rows with
              | inl e => database_error "rss_feeds.find" e
              | inr rows => match map_rows rows with
                            | Ok fs => Ok (last fs)
                            | Err e => Err e
                            end
              end).

(** The [catch] arms of [save]. *)
Definition save_error (url : string) (e : DbExn) : Result RssFeed :=
  match e with
  | SqliteException code _ =>
      if is_constraint code then error AlreadyExists ("rss_feeds.save: URL already exists: " +:+ url)
      else database_error "rss_feeds.save" e
  | StdException _ => database_error "rss_feeds.save" e
  end.

(** [SqliteRssFeedRepository::save]. *)
Definition save_feed (feed : RssFeed) : M W (Result RssFeed) :=
  with_lease (
    co_await tp <- now;
    let feed := created_or tp feed in
    if feed_id feed =? 0 then
      co_await r <- insert_feed (feed_row feed);
      co_return match r with
                | inr rowid => Ok (with_feed_id rowid feed)
                | inl e => save_error (feed_url feed) e
                end
    else
      co_await r <- insert_or_replace_feed (feed_row feed);
      co_return match r with
                | inr _ => Ok feed
                | inl e => save_error (feed_url feed) e
                end).

(** [SqliteRssFeedRepository::update_state]. *)
Definition update_state (id : Z) (guid : string) (at_ : Z) : M W (Result unit) :=
  with_lease (
    co_await r <- update_feed_state id guid (to_iso8601 at_);
    co_return match r with
              | inl e => database_error "rss_feeds.update_state" e
              | inr n => if n =? 0 then error NotFound ("rss_feeds.update_state: no row for feed_id " +:+ fmt_int id)
                         else Ok ()
              end).

(** [SqliteRssFeedRepository::remove]. *)
Definition remove_feed (id : Z) : M W (Result unit) :=
  with_lease (
    co_await r <- delete_feed id;
    co_return match r with
              | inl e => database_error "rss_feeds.remove" e
              | inr n => if n =? 0 then error NotFound ("rss_feeds.remove: no row for feed_id " +:+ fmt_int id)
                         else Ok ()
              end).

#[global] Instance sqlite_rss_feed_repository : RssFeedRepository W := {
  feeds_list_enabled := list_enabled;
  feeds_find := find_feed;
  feeds_save := save_feed;
  feeds_update_state := update_state;
  feeds_remove := remove_feed
}.

End Repository.

(** ** Lemmas: rows *)

Lemma map_row_feed_row f : storable_feed f -> map_row (feed_row f) = Ok (stored_feed f).
Proof.
  intros [[H1 _] H2]. unfold map_row, feed_row, stored_feed. simpl. rewrite parse_to_iso8601 by done.
  destruct f as [? ? ? [] ? ? ? [t|] [] ?]; simpl in *; try done; destruct H2 as [H2 _]; by rewrite parse_to_iso8601.
Qed.

Lemma feed_row_stored f : feed_row (stored_feed f) = feed_row f.
Proof.
  unfold feed_row, stored_feed, to_iso8601. simpl. rewrite floor_ms_floor_time. f_equal.
  destruct (last_checked_at f); simpl; [|done]. by rewrite floor_ms_floor_time.
Qed.

(** A feed as the table keeps it. *)
Definition kept_feed (f : RssFeed) : Prop := storable_feed f /\ stored_feed f = f.

Lemma kept_stored_feed f : storable_feed f -> kept_feed (stored_feed f).
Proof. intros H. split; [by apply storable_stored_feed|apply stored_feed_idemp]. Qed.

Lemma map_row_kept f : kept_feed f -> map_row (feed_row f) = Ok f.
Proof. intros [H1 H2]. by rewrite map_row_feed_row, H2. Qed.

Definition held_feed (r : FeedRow) : option RssFeed := match map_row r with Ok f => Some f | Err _ => None end.

Lemma map_rows_kept fs : Forall kept_feed fs -> map_rows (feed_row <$> fs) = Ok fs.
Proof. induction 1 as [|f fs Hf _ IH]; [done|]. rewrite fmap_cons. simpl. by rewrite map_row_kept, IH. Qed.

Lemma created_or_storable tp f : valid_time tp -> storable_feed f -> storable_feed (created_or tp f).
Proof. intros Ht [H1 H2]. unfold created_or. destruct (_ =? _); by split. Qed.

Lemma alter_insert_lookup {A} (g : A -> A) (m : gmap Z A) k x : m !! k = Some x -> alter g k m = <[k := g x]> m.
Proof.
  intros H. apply map_eq. intros i. destruct (decide (i = k)) as [->|Hne].
  - by rewrite lookup_alter_eq, lookup_insert_eq, H.
  - by rewrite lookup_alter_ne, lookup_insert_ne.
Qed.

Lemma feed_row_state guid at_ f :
  feed_row (with_feed_state guid at_ f) = with_row_state guid (to_iso8601 at_) (feed_row f).
Proof. done. Qed.

(** ** The repository satisfies its interface *)

Section Laws.
  Context {W : Type} `{!Clock W, !ConnectionPool W, !FeedsDb W} (table : W -> gmap Z FeedRow).
  Context `{!FeedsDbLaws W table, !Preserves table now, !ValidClock W}.

(** Every row was written by [save]. *)
Definition feeds_inv (w : W) : Prop :=
  forall k r, table w !! k = Some r -> exists f, kept_feed f /\ r = feed_row f /\ k = feed_id f.

(** The feeds the table holds. *)
Definition held_feeds (w : W) : gmap Z RssFeed := omap held_feed (table w).

Lemma feeds_inv_frame w w' : table w' = table w -> feeds_inv w -> feeds_inv w'.
Proof. unfold feeds_inv. by intros ->. Qed.

Lemma held_feeds_frame w w' : table w' = table w -> held_feeds w' = held_feeds w.
Proof. unfold held_feeds. by intros ->. Qed.

Lemma held_feeds_lookup w k f :
  feeds_inv w -> held_feeds w !! k = Some f <-> kept_feed f /\ table w !! k = Some (feed_row f) /\ k = feed_id f.
Proof.
  intros Hinv. unfold held_feeds. rewrite lookup_omap_Some. unfold held_feed. split.
  - intros (r & Hr & Hk). destruct (Hinv k r Hk) as (f0 & Hf0 & -> & ->).
    rewrite map_row_kept in Hr by done. by injection Hr as ->.
  - intros (Hf & Hk & ->). exists (feed_row f). by rewrite map_row_kept.
Qed.

Lemma held_feeds_None w k : feeds_inv w -> held_feeds w !! k = None <-> table w !! k = None.
Proof.
  intros Hinv. unfold held_feeds. rewrite lookup_omap. destruct (table w !! k) as [r|] eqn:E; [|done]. simpl.
  destruct (Hinv k r E) as (f & Hf & -> & _). unfold held_feed. by rewrite map_row_kept.
Qed.

Lemma held_feed_insert f (m : gmap Z FeedRow) k :
  storable_feed f -> omap held_feed (<[k := feed_row f]> m) = <[k := stored_feed f]> (omap held_feed m).
Proof. intros H. apply omap_insert_Some. unfold held_feed. by rewrite map_row_feed_row. Qed.

#[local] Instance list_frame : Preserves table list_enabled.
Proof. unfold list_enabled. frame. Qed.
#[local] Instance find_frame id : Preserves table (find_feed id).
Proof. unfold find_feed. frame. Qed.

Lemma list_enabled_spec w l w' :
  feeds_inv w -> list_enabled w = (Ok l, w') ->
  StronglySorted Z.lt (feed_id <$> l) /\
  (forall f, f ∈ l <-> held_feeds w !! feed_id f = Some f /\ feed_enabled f = true).
Proof.
  intros Hinv (w1 & w2 & Ha & Hb)%with_lease_inv.
  pose proof (preserves (v := table) (m := pool_acquire) w) as Hf. rewrite Ha in Hf. simpl in Hf.
  unfold mbind, mreturn in Hb. destruct (select_enabled w1) as [[e|rows] w3] eqn:Hs; [by destruct e|].
  apply fd_select_enabled in Hs as [Hp Hsort].
  2: { intros k r. rewrite Hf. intros Hk. by destruct (Hinv k r Hk) as (f & _ & -> & ->). }
  rewrite Hf in Hp.
  assert (forall r, r ∈ rows <-> fr_enabled r = 1 /\ exists k, table w !! k = Some r) as Hel.
  { intros r. rewrite Hp, list_elem_of_filter, list_elem_of_fmap. split; intros [H1 H2]; (split; [done|]).
    - destruct H2 as ([k r'] & -> & H2%elem_of_map_to_list). eauto.
    - destruct H2 as [k H2]. exists (k, r). split; [done|]. by apply elem_of_map_to_list. }
  assert (exists fs, rows = feed_row <$> fs /\ Forall kept_feed fs) as (fs & -> & Hfs).
  { assert (forall r, r ∈ rows -> exists f, kept_feed f /\ r = feed_row f) as H.
    { intros r [_ [k Hk]]%Hel. destruct (Hinv k r Hk) as (f & ? & ? & _). eauto. }
    clear -H. induction rows as [|r rows IH]; [by exists []|].
    destruct IH as (fs & -> & Hfs); [intros; apply H; set_solver|].
    destruct (H r) as (f & Hf & ->); [set_solver|]. exists (f :: fs). by split; [|constructor]. }
  rewrite map_rows_kept in Hb by done. injection Hb as <- _. split.
  { rewrite <-list_fmap_compose in Hsort. exact Hsort. }
  intros f. rewrite held_feeds_lookup by done. split.
  - intros Hin. destruct (proj1 (Hel (feed_row f))) as [H1 [k Hk]]; [by apply list_elem_of_fmap_2|].
    rewrite Forall_forall in Hfs. destruct (Hinv k _ Hk) as (f0 & Hf0 & Heq & ->).
    assert (f0 = f) as -> by (apply (f_equal map_row) in Heq; rewrite !map_row_kept in Heq; auto; congruence).
    split; [by auto|]. simpl in H1. by destruct (feed_enabled f).
  - intros [(Hk & Ht & _) He]. assert (feed_row f ∈ feed_row <$> fs) as Hin.
    { apply Hel. split; [simpl; by rewrite He|eauto]. }
    apply list_elem_of_fmap in Hin as (f0 & Heq & Hin). rewrite Forall_forall in Hfs.
    assert (f = f0) as -> by (apply (f_equal map_row) in Heq; rewrite !map_row_kept in Heq; auto; congruence). done.
Qed.

Lemma find_feed_available id w w1 rows w2 :
  feeds_inv w -> pool_acquire w = (Ok (), w1) -> select_feed id w1 = (inr rows, w2) ->
  (find_feed id w).1 = Ok (held_feeds w !! id).
Proof.
  intros Hinv Ha Hs. unfold find_feed. rewrite (with_lease_run _ _ _ Ha). unfold mbind, mreturn. rewrite Hs. simpl.
  pose proof (preserves (v := table) (m := pool_acquire) w) as Hf. rewrite Ha in Hf. simpl in Hf.
  apply fd_select_feed in Hs as ->. rewrite Hf. unfold held_feeds. rewrite lookup_omap.
  destruct (table w !! id) as [r|] eqn:E; [|done]. destruct (Hinv id r E) as (f & Hk & -> & _).
  simpl. unfold held_feed. by rewrite map_row_kept.
Qed.

Lemma find_feed_spec id w o w' : feeds_inv w -> find_feed id w = (Ok o, w') -> o = held_feeds w !! id.
Proof.
  intros Hinv Hfind. destruct (with_lease_inv _ _ _ _ Hfind) as (w1 & w2 & Ha & Hb).
  unfold mbind, mreturn in Hb. destruct (select_feed id w1) as [[e|rows] w3] eqn:Hs; [by destruct e|].
  pose proof (find_feed_available id w w1 rows w3 Hinv Ha Hs) as H. rewrite Hfind in H. by injection H.
Qed.

(** What [save] does to the table, on every branch. *)
Lemma save_feed_effect f w :
  storable_feed f ->
  match save_feed f w with
  | (Err _, w') => table w' = table w
  | (Ok f', w') =>
      exists tp, valid_time tp /\
        if feed_id f =? 0 then
          exists id, 0 < id /\ table w !! id = None /\
            (forall k r, table w !! k = Some r -> fr_url r <> feed_url f) /\
            f' = with_feed_id id (created_or tp f) /\ table w' = <[id := feed_row f']> (table w)
        else f' = created_or tp f /\ table w' = (<[feed_id f := feed_row f']> (drop_url (feed_url f) (table w)) : gmap Z FeedRow)
  end.
Proof.
  intros Hf. unfold save_feed.
  leased table w w1 Hw1.
  pose proof (preserves (v := table) (m := now) w1) as Hn.
  pose proof (clock_shows w1) as Hv. destruct (now w1) as [tp w2]. simpl in *. rewrite <-Hw1, <-Hn. clear Hw1 Hn.
  assert (feed_id (created_or tp f) = feed_id f /\ feed_url (created_or tp f) = feed_url f) as [-> ->]
    by (unfold created_or; by destruct (feed_created_at f =? 0)).
  destruct (feed_id f =? 0) eqn:E.
  - pose proof (fd_insert (feed_row (created_or tp f)) w2) as Hi.
    destruct (insert_feed _ w2) as [[ex|id] w3]; simpl in *.
    + destruct ex as [c s|s]; simpl; [|done]. by destruct (is_constraint c).
    + destruct Hi as (H1 & H2 & H3 & H4). exists tp. split; [done|]. exists id. split_and!; try done.
      intros k r Hk Hu. apply (H3 k r Hk). rewrite Hu. unfold created_or. by destruct (feed_created_at f =? 0).
  - pose proof (fd_replace (feed_row (created_or tp f)) w2) as Hi.
    destruct (insert_or_replace_feed _ w2) as [[ex|[]] w3]; simpl in *.
    + destruct ex as [c s|s]; simpl; [|done]. by destruct (is_constraint c).
    + exists tp. split; [done|]. split; [done|]. rewrite Hi.
      unfold created_or. by destruct (feed_created_at f =? 0).
Qed.

(** A stored feed keeps its key and its readability under [save]. *)
Lemma save_feed_inv f w : feeds_inv w -> storable_feed f -> feeds_inv (save_feed f w).2.
Proof.
  intros Hinv Hf. pose proof (save_feed_effect f w Hf) as H.
  destruct (save_feed f w) as [[f'|e] w']; simpl; [|by eapply feeds_inv_frame].
  destruct H as (tp & Htp & H). pose proof (created_or_storable tp f Htp Hf) as Hc.
  assert (feed_id (created_or tp f) = feed_id f) as Hid by (unfold created_or; by destruct (feed_created_at f =? 0)).
  intros k r. destruct (feed_id f =? 0).
  - destruct H as (id & _ & _ & _ & -> & ->). rewrite lookup_insert_Some.
    intros [[<- <-]|[_ Hk]]; [|by apply Hinv]. exists (stored_feed (with_feed_id id (created_or tp f))).
    rewrite feed_row_stored. by split; [apply kept_stored_feed|].
  - destruct H as (-> & ->). rewrite lookup_insert_Some. intros [[<- <-]|[_ Hk]].
    + exists (stored_feed (created_or tp f)). rewrite feed_row_stored. split; [by apply kept_stored_feed|].
      by rewrite <-Hid.
    + unfold drop_url in Hk. apply map_lookup_filter_Some in Hk as [Hk _]. by apply Hinv.
Qed.

Lemma update_state_effect id guid at_ w :
  match update_state id guid at_ w with
  | (Err _, w') => table w' = table w
  | (Ok _, w') => is_Some (table w !! id) /\ table w' = alter (with_row_state guid (to_iso8601 at_)) id (table w)
  end.
Proof.
  unfold update_state.
  leased table w w1 Hw1.
  pose proof (fd_update id guid (to_iso8601 at_) w1) as Hu.
  rewrite Hw1 in Hu. destruct (update_feed_state _ _ _ w1) as [[ex|n] w2]; simpl; [by destruct ex|].
  destruct Hu as [Hn Hu]. destruct (Z.eqb_spec n 0) as [->|Hne]; simpl.
  - rewrite Hu. pose proof (proj1 Hn eq_refl) as Hnone. apply map_eq. intros k.
    destruct (decide (k = id)) as [->|Hk]; [by rewrite lookup_alter_eq, Hnone|by rewrite lookup_alter_ne].
  - split; [|done]. destruct (table w !! id) eqn:E; [eauto|]. by destruct Hne; apply Hn.
Qed.

Lemma remove_feed_effect id w :
  match remove_feed id w with
  | (Err _, w') => table w' = table w
  | (Ok _, w') => is_Some (table w !! id) /\ table w' = delete id (table w)
  end.
Proof.
  unfold remove_feed.
  leased table w w1 Hw1.
  pose proof (fd_delete id w1) as Hu.
  rewrite Hw1 in Hu. destruct (delete_feed _ w1) as [[ex|n] w2]; simpl; [by destruct ex|].
  destruct Hu as [Hn Hu]. destruct (Z.eqb_spec n 0) as [->|Hne]; simpl.
  - rewrite Hu. apply delete_id. by apply Hn.
  - split; [|done]. destruct (table w !! id) eqn:E; [eauto|]. by destruct Hne; apply Hn.
Qed.

#[global] Instance sqlite_feed_laws : RssFeedRepositoryLaws W feeds_inv held_feeds.
Proof.
  split.
  - intros w. apply feeds_inv_frame, list_frame.
  - intros w _. apply held_feeds_frame, list_frame.
  - intros w l w'. apply list_enabled_spec.
  - intros id w. apply feeds_inv_frame, find_frame.
  - intros id w _. apply held_feeds_frame, find_frame.
  - intros id w o w'. apply find_feed_spec.
  - intros f w. apply save_feed_inv.
  - intros f w Hinv Hf H0. pose proof (save_feed_effect f w Hf) as H. simpl.
    destruct (save_feed f w) as [[f'|e] w']; [|by apply held_feeds_frame].
    rewrite H0 in H. simpl in H. destruct H as (tp & Htp & id & Hpos & Hnone & Hurl & -> & Ht).
    exists id, tp. split_and!; [done|by apply held_feeds_None|done|done| |].
    + intros k g Hg. apply held_feeds_lookup in Hg as (_ & Hk & _); [|done]. exact (Hurl _ _ Hk).
    + unfold held_feeds. rewrite Ht. apply held_feed_insert. by apply created_or_storable.
  - intros id guid at_ w Hinv Ha. pose proof (update_state_effect id guid at_ w) as H. simpl.
    destruct (update_state id guid at_ w) as [[[]|e] w']; simpl; [|by eapply feeds_inv_frame].
    destruct H as [_ H]. intros k r. rewrite H, lookup_alter_Some. intros [(<- & r0 & Hk & ->)|[_ Hk]]; [|by apply Hinv].
    destruct (Hinv id r0 Hk) as (f & [Hs Hf] & -> & ->). exists (stored_feed (with_feed_state guid at_ f)).
    split; [apply kept_stored_feed; by destruct Hs; split|]. by rewrite feed_row_stored.
  - intros id guid at_ w Hinv Ha. pose proof (update_state_effect id guid at_ w) as H. simpl.
    destruct (update_state id guid at_ w) as [[[]|e] w']; simpl; [|by apply held_feeds_frame].
    destruct H as [[r0 Hr] H]. destruct (Hinv id r0 Hr) as (f & Hk & -> & ->). exists f. split.
    { by apply held_feeds_lookup. }
    destruct Hk as [[Hc Hl] Hst]. unfold held_feeds. rewrite H, (alter_insert_lookup _ _ _ _ Hr).
    rewrite <-feed_row_state, held_feed_insert by (by split). f_equal. rewrite <-Hst at 2. done.
  - intros id w Hinv. pose proof (remove_feed_effect id w) as H. simpl.
    destruct (remove_feed id w) as [[[]|e] w']; simpl; [|by eapply feeds_inv_frame].
    destruct H as [_ H]. intros k r. rewrite H, lookup_delete_Some. intros [_ Hk]. by apply Hinv.
  - intros id w Hinv. pose proof (remove_feed_effect id w) as H. simpl.
    destruct (remove_feed id w) as [[[]|e] w']; simpl; [|by apply held_feeds_frame].
    destruct H as [[r Hr] H]. split.
    + destruct (held_feeds w !! id) eqn:E; [eauto|]. apply held_feeds_None in E; [|done]. congruence.
    + unfold held_feeds. rewrite H. apply omap_delete.
  - intros k f w Hinv Hk. apply held_feeds_lookup in Hk as ([Hs Hst] & _ & ->); [|done]. done.
Qed.

End Laws.

(** ** A concrete database *)

Module MemFeedsDb.

Notation World := (gmap Z FeedRow).

#[export] Instance clock : Clock World := mreturn 1700000000000000000.

#[export] Instance pool : ConnectionPool World := {
  pool_acquire := mreturn (Ok ());
  pool_release := mreturn ()
}.

(** The next key: above every key in use. *)
Definition next_id (m : World) : Z := 1 + foldr Z.max 0 (map_to_list m).*1.

Lemma next_id_above (m : World) k r : m !! k = Some r -> k < next_id m /\ 0 < next_id m.
Proof.
  intros H. apply elem_of_map_to_list in H. unfold next_id.
  assert (k ∈ (map_to_list m).*1) as Hk by (apply list_elem_of_fmap; by exists (k, r)).
  revert Hk. clear H. generalize (map_to_list m).*1 as l. intros l Hk.
  assert (0 <= foldr Z.max 0 l) by (clear; induction l; simpl; lia).
  split; [|lia]. induction l as [|x l IH]; [by apply not_elem_of_nil in Hk|].
  apply elem_of_cons in Hk as [->|Hk]; simpl in *; [lia|]. specialize (IH Hk).
  assert (0 <= foldr Z.max 0 l) by (clear; induction l; simpl; lia). lia.
Qed.

Definition le_id (a b : FeedRow) : Prop := fr_id a <= fr_id b.
#[local] Instance le_id_dec a b : Decision (le_id a b).
Proof. unfold le_id. apply _. Defined.

#[local] Instance le_id_trans : Transitive le_id.
Proof. unfold le_id. intros a b c. lia. Qed.
#[local] Instance le_id_total : Total le_id.
Proof. unfold le_id. intros a b. lia. Qed.

Lemma sorted_strict l : StronglySorted le_id l -> NoDup (fr_id <$> l) -> StronglySorted Z.lt (fr_id <$> l).
Proof.
  induction 1 as [|r l _ IH Hall]; rewrite ?fmap_cons; intros Hnd; constructor; apply NoDup_cons in Hnd as [Hni Hnd].
  - by apply IH.
  - rewrite Forall_forall in Hall. apply Forall_forall. intros k Hk. pose proof Hk as Hk'.
    apply list_elem_of_fmap in Hk as (r' & -> & Hin). specialize (Hall _ Hin). unfold le_id in Hall.
    assert (fr_id r <> fr_id r') by (intros E; rewrite E in Hni; done). lia.
Qed.

Definition url_taken (url : string) (m : World) : bool :=
  existsb (fun r => bool_decide (fr_url r = url)) (map_to_list m).*2.

#[export] Instance db : FeedsDb World := {
  select_enabled := fun w =>
    (inr (merge_sort le_id (filter (fun r => fr_enabled r = 1) (map_to_list w).*2)), w);
  select_feed id := fun w => (inr (option_list (w !! id)), w);
  insert_feed r := fun w =>
    if url_taken (fr_url r) w then (inl (SqliteException SQLITE_CONSTRAINT "UNIQUE constraint failed"), w)
    else (inr (next_id w), <[next_id w := with_row_id (next_id w) r]> w);
  insert_or_replace_feed r := fun w => (inr (), <[fr_id r := r]> (drop_url (fr_url r) w));
  update_feed_state id guid at_ := fun w =>
    (inr (if decide (is_Some (w !! id)) then 1 else 0), alter (with_row_state guid at_) id w);
  delete_feed id := fun w => (inr (if decide (is_Some (w !! id)) then 1 else 0), delete id w)
}.

#[export] Instance db_laws : FeedsDbLaws World id.
Proof.
  split; try done.
  - intros w rows w' Hkeys [= <- <-]. split; [apply merge_sort_Permutation|].
    apply sorted_strict; [apply (StronglySorted_merge_sort le_id)|]. rewrite merge_sort_Permutation.
    eapply sublist_NoDup; [|apply fmap_sublist, sublist_filter].
    assert (fr_id <$> (map_to_list w).*2 = (map_to_list w).*1) as ->; [|apply NoDup_fst_map_to_list].
    rewrite <-list_fmap_compose. apply list_fmap_ext. intros i [k r] Hi. simpl.
    apply Hkeys, elem_of_map_to_list. by eapply list_elem_of_lookup_2.
  - intros k w rows w' [= <- <-]. done.
  - intros r w. unfold insert_feed, db. destruct (url_taken (fr_url r) w) eqn:E; [done|]. split_and!.
    + unfold next_id. assert (0 <= foldr Z.max 0 (map_to_list w).*1) by
        (generalize (map_to_list w).*1; intros l; induction l; simpl; lia). lia.
    + change (id w) with w. destruct (w !! next_id w) as [r'|] eqn:Hk; [|done]. apply next_id_above in Hk. lia.
    + intros k r' Hk Hu. apply not_true_iff_false in E. apply E, existsb_exists. exists r'.
      split; [|by apply bool_decide_eq_true]. apply list_elem_of_In, list_elem_of_fmap. exists (k, r').
      split; [done|]. by apply elem_of_map_to_list.
    + done.
  - intros r w k r' Hk Hu. unfold insert_feed, db. change (id w) with w in Hk.
    assert (url_taken (fr_url r) w = true) as ->; [|done]. apply existsb_exists. exists r'.
    split; [|by apply bool_decide_eq_true]. apply list_elem_of_In, list_elem_of_fmap. exists (k, r').
    split; [done|]. by apply elem_of_map_to_list.
  - intros k guid at_ w. split; [|done]. change (id w) with w. rewrite eq_None_not_Some.
    destruct (decide _); naive_solver lia.
  - intros k w. split; [|done]. change (id w) with w. rewrite eq_None_not_Some.
    destruct (decide _); naive_solver lia.
Qed.

#[export] Instance clock_frame : Preserves (id : World -> World) now.
Proof. done. Qed.

#[export] Instance clock_valid : ValidClock World.
Proof. by split; vm_compute. Qed.

Lemma no_feeds_inv : feeds_inv id (∅ : World).
Proof. intros k r H. by apply (lookup_empty_Some (M := gmap Z) k r) in H. Qed.

(** A subscription as the command handler builds it. *)
Definition sample_feed (url : string) (chat : Z) : RssFeed :=
  MkFeed 0 url url (MkId chat) "" "" "" None true 0.

Lemma sample_feed_storable url chat : storable_feed (sample_feed url chat).
Proof. by repeat split; vm_compute. Qed.

(** The table after saving some feeds. *)
Definition feeds_after (fs : list RssFeed) : World := foldl (fun w f => (save_feed f w).2) ∅ fs.

Lemma feeds_after_inv fs : Forall storable_feed fs -> feeds_inv id (feeds_after fs).
Proof.
  unfold feeds_after. generalize no_feeds_inv. generalize (∅ : World). intros w Hw Hfs. revert w Hw.
  induction Hfs as [|f fs Hf _ IH]; intros w Hw; [done|]. cbn [foldl]. apply IH.
  by apply (save_feed_inv id).
Qed.

End MemFeedsDb.

Import MemFeedsDb.

(** ** Theorems *)

(** A new subscription is stored once and read back: a successful [save] of a record
    without id gives it a positive id that was not in use and a URL that no stored feed
    has, [find] of that id returns the record (a missing creation time filled in, times at
    millisecond granularity) and no other feed changes; a failed [save] changes nothing,
    and a URL that is already stored makes it fail, with AlreadyExists whenever it is
    SQLite that reports the error. *)
Theorem rss_save_inserts {W} `{!Clock W, !ConnectionPool W, !FeedsDb W} (table : W -> gmap Z FeedRow)
  (Hdb : FeedsDbLaws W table) (Hframe : Preserves table now) (Hclock : ValidClock W) f w
  (Hinv : feeds_inv table w) (Hf : storable_feed f) (Hnew : feed_id f = 0) :
  match save_feed f w with
  | (Ok f', w') =>
      0 < feed_id f' /\ held_feeds table w !! feed_id f' = None /\
      (exists tp, f' = with_feed_id (feed_id f') (created_or tp f)) /\
      (forall o w2, find_feed (feed_id f') w' = (Ok o, w2) -> o = Some (stored_feed f')) /\
      (forall k, k <> feed_id f' -> held_feeds table w' !! k = held_feeds table w !! k)
  | (Err _, w') => held_feeds table w' = held_feeds table w
  end /\
  (forall wl k g, pool_acquire w = (Ok (), wl) -> held_feeds table w !! k = Some g -> feed_url g = feed_url f ->
     exists e, (save_feed f w).1 = Err e /\ (err_code e = AlreadyExists \/ err_code e = Database)).
Proof.
  pose proof (fl_insert_spec (finv := feeds_inv table) (feeds := held_feeds table) f w Hinv Hf Hnew) as H.
  pose proof (save_feed_inv table f w Hinv Hf) as Hinv'. simpl in H. split.
  - destruct (save_feed f w) as [[f'|e] w']; [|done].
    destruct H as (id & tp & Hpos & Hnone & _ & -> & _ & Hw). simpl in *. split_and!; [done|done|by exists tp| |].
    + intros o w2 Ho. apply (find_feed_spec table) in Ho as ->; [|done]. rewrite Hw. apply lookup_insert_eq.
    + intros k Hk. rewrite Hw. by apply lookup_insert_ne.
  - intros wl k g Ha Hg Hu. unfold save_feed. rewrite (with_lease_run _ _ _ Ha). unfold mbind, mreturn.
    pose proof (preserves (v := table) (m := now) wl) as Hn. destruct (now wl) as [tp w2]. simpl in Hn.
    pose proof (preserves (v := table) (m := pool_acquire) w) as Hp. rewrite Ha in Hp. simpl in Hp.
    assert (feed_id (created_or tp f) = 0 /\ feed_url (created_or tp f) = feed_url f) as [-> Hurl]
      by (unfold created_or; by destruct (feed_created_at f =? 0)).
    apply (held_feeds_lookup table) in Hg as (_ & Hg & _); [|done]. rewrite <-Hp, <-Hn in Hg.
    pose proof (fd_conflict (feed_row (created_or tp f)) w2 k _ Hg ltac:(simpl; congruence)) as Hc. simpl.
    destruct (insert_feed _ w2) as [[[c s|s]|] w3]; simpl in *; [|eauto|done]. rewrite Hc. eauto.
Qed.

Lemma rss_save_inserts_witness :
  let w := feeds_after [sample_feed "http://h/a" 1] in
  feed_id <$> (match (save_feed (sample_feed "http://h/b" 1) w).1 with Ok f => Some f | _ => None end) = Some 2 /\
  (save_feed (sample_feed "http://h/a" 2) w).1 = error AlreadyExists "rss_feeds.save: URL already exists: http://h/a" /\
  (forall o w2, find_feed 2 (save_feed (sample_feed "http://h/b" 1) w).2 = (Ok o, w2) -> is_Some o).
Proof.
  intros w. assert (feeds_inv id w) as Hinv.
  { apply feeds_after_inv. repeat constructor; by vm_compute. }
  assert (exists f' w', save_feed (sample_feed "http://h/b" 1) w = (Ok f', w') /\ feed_id f' = 2) as (f' & w' & E & Hid).
  { do 2 eexists. split; [vm_compute; reflexivity|reflexivity]. }
  split; [rewrite E; simpl; by rewrite Hid|]. split; [vm_compute; reflexivity|]. clearbody w.
  pose proof (proj1 (rss_save_inserts id db_laws clock_frame clock_valid (sample_feed "http://h/b" 1) w Hinv
    (sample_feed_storable _ _) eq_refl)) as H.
  rewrite E in *. destruct H as (_ & _ & _ & H & _). rewrite <-Hid. intros o w2 Ho. simpl in Ho. rewrite (H o w2 Ho). eauto.
Defined.

(** Saving an existing feed replaces more than the feed: a successful [save] of a record
    with an id stores it under that id and keeps every feed with another URL, but a
    different feed that holds the same URL is deleted (the statement is INSERT OR
    REPLACE), and no AlreadyExists is reported. *)
Theorem rss_save_evicts {W} `{!Clock W, !ConnectionPool W, !FeedsDb W} (table : W -> gmap Z FeedRow)
  (Hdb : FeedsDbLaws W table) (Hframe : Preserves table now) (Hclock : ValidClock W) f w f' w'
  (Hinv : feeds_inv table w) (Hf : storable_feed f) (Hold : feed_id f <> 0) (Hsave : save_feed f w = (Ok f', w')) :
  held_feeds table w' !! feed_id f = Some (stored_feed f') /\
  forall k g, k <> feed_id f -> held_feeds table w !! k = Some g ->
    held_feeds table w' !! k = if decide (feed_url g = feed_url f) then None else Some g.
Proof.
  pose proof (save_feed_effect table f w Hf) as H. rewrite Hsave in H. destruct H as (tp & Htp & H).
  rewrite (proj2 (Z.eqb_neq _ _) Hold) in H. destruct H as [-> Ht].
  assert (storable_feed (created_or tp f)) as Hs by by apply created_or_storable.
  unfold held_feeds at 1 3. rewrite !Ht, held_feed_insert by done. split; [apply lookup_insert_eq|].
  intros k g Hk Hg. rewrite lookup_insert_ne, lookup_omap by done.
  apply held_feeds_lookup in Hg as (Hkept & Hrow & _); [|done]. unfold drop_url.
  destruct (decide (feed_url g = feed_url f)) as [E|E].
  - rewrite (proj2 (map_lookup_filter_None _ _ _)); [done|]. right. intros r Hr. rewrite Hrow in Hr. injection Hr as <-.
    simpl. naive_solver.
  - rewrite (proj2 (map_lookup_filter_Some _ _ _ (feed_row g))) by done. simpl. unfold held_feed. by rewrite map_row_kept.
Qed.

Lemma rss_save_evicts_witness :
  let w := feeds_after [sample_feed "http://h/a" 1; sample_feed "http://h/b" 2] in
  let w' := (save_feed (with_feed_id 1 (sample_feed "http://h/b" 1)) w).2 in
  is_Some (held_feeds id w !! 2) /\ held_feeds id w' !! 2 = None.
Proof.
  intros w w'. assert (feeds_inv id w) as Hinv.
  { apply feeds_after_inv. repeat constructor; by vm_compute. }
  assert (exists g, held_feeds id w !! 2 = Some g /\ feed_url g = "http://h/b") as (g & Hg & Hu).
  { eexists. split; [vm_compute; reflexivity|reflexivity]. }
  assert (exists f', save_feed (with_feed_id 1 (sample_feed "http://h/b" 1)) w = (Ok f', w')) as [f' E].
  { eexists. unfold w'. vm_compute. reflexivity. }
  split; [eauto|]. clearbody w w'.
  destruct (rss_save_evicts id db_laws clock_frame clock_valid (with_feed_id 1 (sample_feed "http://h/b" 1)) w f' w' Hinv
    (sample_feed_storable _ _) ltac:(done) E) as [_ H].
  rewrite (H 2 g ltac:(done) Hg). by rewrite decide_True.
Defined.
