(* ===== verification/RssSubscription.v ===== *)
(** * RSS subscriptions: [application/rss_subscription.cpp]

    The use case behind [/rss add], [/rss list] and [/rss remove], over any repository
    that satisfies [RssFeedRepositoryLaws]. *)

From Stdlib Require Import Sorted.
From S2P Require Import Prelude CoreError Identifiers TimeCodec Ports Database RssFeeds.
From S2P Require Import SqliteRssFeedRepository.

Local Open Scope coro_scope.

Section Subscription.
  Context {W : Type} `{!RssFeedRepository W}.

(** The two schemes a subscription may have. *)
Definition http_url (url : string) : bool := starts_with url "http://" || starts_with url "https://".

(** [RssSubscription::add]. *)
Definition rss_add (feed : RssFeed) : M W (Result Z) :=
  if str_empty (feed_url feed) then co_return error InvalidArgument "rss add: empty URL"
  else if negb (http_url (feed_url feed)) then
    co_return error InvalidArgument "rss add: URL must start with http:// or https://"
  else
    co_try saved <- feeds_save (with_feed_id 0 feed);
    co_return Ok (feed_id saved).

(** [RssSubscription::list_for_chat]. *)
Definition rss_list_for_chat (chat : ChatId) : M W (Result (list RssFeed)) :=
  co_try all <- feeds_list_enabled;
  co_return Ok (filter (fun f => feed_chat f = chat) all).

(** [RssSubscription::remove]; the requester is only logged. *)
Definition rss_remove (id : Z) (requester : UserId) (requester_chat : ChatId) : M W (Result unit) :=
  co_try loaded <- feeds_find id;
  match loaded with
  | None => co_return error NotFound "rss remove: feed not found"
  | Some f =>
      if negb (bool_decide (feed_chat f = requester_chat)) then
        co_return error PermissionDenied "rss remove: requester does not own feed"
      else
        co_try removed <- feeds_remove id;
        co_return Ok ()
  end.

End Subscription.


(** ** Theorem *)

(** Subscriptions belong to their chat: [add] stores an enabled or disabled record under
    a fresh id exactly when its URL has an HTTP scheme and the repository accepts it, and
    otherwise touches nothing; [list_for_chat] returns exactly the enabled feeds of the
    chat, by id; [remove] deletes a feed only on behalf of the chat it belongs to, says
    PermissionDenied to every other chat and NotFound for an unknown id, and a failure
    changes nothing. *)
Theorem rss_subscription_scope {W} `{!RssFeedRepository W} (finv : W -> Prop) (feeds : W -> gmap Z RssFeed)
  (Hlaws : RssFeedRepositoryLaws W finv feeds) w (Hinv : finv w) :
  (forall f, storable_feed f ->
     match rss_add f w with
     | (Ok id, w') => http_url (feed_url f) = true /\ feeds w !! id = None /\
         (exists tp, feeds w' = <[id := stored_feed (with_feed_id id (created_or tp f))]> (feeds w))
     | (Err _, w') => feeds w' = feeds w
     end /\
     (http_url (feed_url f) = false -> exists msg, rss_add f w = (error InvalidArgument msg, w))) /\
  (forall chat l w', rss_list_for_chat chat w = (Ok l, w') ->
     feeds w' = feeds w /\ StronglySorted Z.lt (feed_id <$> l) /\
     forall f, f ∈ l <-> feeds w !! feed_id f = Some f /\ feed_enabled f = true /\ feed_chat f = chat) /\
  (forall id who chat,
     match rss_remove id who chat w with
     | (Ok _, w') => exists f, feeds w !! id = Some f /\ feed_chat f = chat /\ feeds w' = delete id (feeds w)
     | (Err _, w') => feeds w' = feeds w
     end /\
     (has_value (feeds_find id w).1 = true ->
        match feeds w !! id with
        | None => (rss_remove id who chat w).1 = error NotFound "rss remove: feed not found"
        | Some f => feed_chat f <> chat ->
            (rss_remove id who chat w).1 = error PermissionDenied "rss remove: requester does not own feed"
        end)).
Proof.
  split_and!.
  - intros f Hf. unfold rss_add. destruct (str_empty (feed_url f)) eqn:E.
    { split; [done|]. intros _. by eexists. }
    destruct (http_url (feed_url f)) eqn:Eh; simpl; [|split; [done|by eexists]]. split; [|done].
    pose proof (fl_insert_spec (with_feed_id 0 f) w Hinv Hf eq_refl) as H. unfold try_bind, mbind, mreturn.
    destruct (feeds_save (with_feed_id 0 f) w) as [[f'|e] w']; [|done].
    destruct H as (id & tp & Hpos & Hnone & _ & -> & _ & Hw). simpl. split; [done|]. split; [done|]. exists tp.
    rewrite Hw. f_equal. unfold created_or. simpl. by destruct (feed_created_at f =? 0).
  - intros chat l w' (all & w1 & Hall & [= <- <-])%try_bind_Ok_inv.
    pose proof (fl_list_frame w Hinv) as Hframe. rewrite Hall in Hframe.
    destruct (fl_list_spec w all w1 Hinv Hall) as [Hs Hel]. split_and!; [done| |].
    + clear -Hs. induction all as [|f all IH]; [done|]. rewrite fmap_cons in Hs.
      apply StronglySorted_inv in Hs as [Hs Hf]. rewrite filter_cons. destruct (decide _); [|by apply IH].
      rewrite fmap_cons. constructor; [by apply IH|]. rewrite Forall_forall in *. intros k Hk. apply Hf.
      apply list_elem_of_fmap in Hk as (g & -> & Hg). apply list_elem_of_filter in Hg as [_ Hg].
      by apply list_elem_of_fmap_2.
    + intros f. rewrite list_elem_of_filter, Hel. naive_solver.
  - intros id who chat. unfold rss_remove. unfold try_bind, mbind, mreturn.
    pose proof (fl_find_frame id w Hinv) as Hframe. pose proof (fl_find_inv id w Hinv) as Hinv1.
    destruct (feeds_find id w) as [[o|e] w1] eqn:Hfind; simpl in *; [|done].
    pose proof (fl_find_spec id w o w1 Hinv Hfind) as ->. destruct (feeds w !! id) as [f|] eqn:Ef; [|done].
    destruct (bool_decide_reflect (feed_chat f = chat)) as [Hc|Hc]; simpl; [|done]. split; [|done].
    pose proof (fl_remove_spec id w1 Hinv1) as H. rewrite Hframe in H.
    destruct (feeds_remove id w1) as [[[]|e] w2]; [|done]. destruct H as [_ H]. by exists f.
Qed.

(** ** Witness *)

Import MemFeedsDb.

Lemma rss_subscription_scope_witness :
  let w := feeds_after [sample_feed "http://h/a" 1] in
  (rss_remove 1 (MkId 7) (MkId 2) w).1 = error PermissionDenied "rss remove: requester does not own feed" /\
  held_feeds id (rss_remove 1 (MkId 7) (MkId 1) w).2 = delete 1 (held_feeds id w).
Proof.
  intros w. assert (feeds_inv id w) as Hinv.
  { apply feeds_after_inv. repeat constructor; by vm_compute. }
  assert ((rss_remove 1 (MkId 7) (MkId 2) w).1 = error PermissionDenied "rss remove: requester does not own feed") as H1
    by (vm_compute; reflexivity).
  assert (exists w', rss_remove 1 (MkId 7) (MkId 1) w = (Ok (), w')) as [w' E].
  { eexists. vm_compute. reflexivity. }
  split; [done|]. clear H1. clearbody w.
  destruct (rss_subscription_scope (feeds_inv id) (held_feeds id) (sqlite_feed_laws id) w Hinv) as (_ & _ & H).
  destruct (H 1 (MkId 7) (MkId 1)) as [Hr _]. rewrite E in *. destruct Hr as (f & _ & _ & Hr). exact Hr.
Defined.
