(* ===== verification/RssFeedPoller.v ===== *)
(** * Polling the feeds: [infrastructure/rss/rss_feed_poller.cpp]

    One pass over the enabled feeds.  The HTTP client, the document parser and the handler
    of new entries are the poller's collaborators; [std::regex] compiles a pattern or
    throws, and is a parameter. *)

From S2P Require Import Prelude CoreError Identifiers TimeCodec Ports Database Http RssFeeds.
From S2P Require Import SqliteRssFeedRepository.

Local Open Scope coro_scope.

(** [struct RssEntry]. *)
Record RssEntry := MkEntry {
  e_guid : string;
  e_title : string;
  e_link : string;
  e_magnet : option string;
  e_torrent_url : option string;
  e_description : option string;
  e_published_at : option Z
}.

(** [struct RssDocument]. *)
Record RssDocument := MkDocument {
  doc_title : string;
  doc_link : string;
  doc_description : option string;
  doc_entries : list RssEntry
}.

(** [std::regex{pattern, icase}] and [std::regex_search]: [None] is a [regex_error]. *)
Class RegexSearch := regex_search (pattern text : string) : option bool.

Class PollerPorts (W : Type) := {
  rss_parse : string -> Result RssDocument;
  (** [inl] is an exception of the handler, which the poller logs *)
  on_new_entry : RssFeed -> RssEntry -> M W (string + unit);
  (** [co_await this_coro::cancellation_state] shows a cancellation *)
  poll_cancelled : M W bool;
  (** one minute on the timer; [true] when the wait was aborted *)
  poll_sleep : M W bool
}.

Section Filters.
  Context `{!RegexSearch}.

(** [matches_optional_regex]; an empty pattern is the same as none. *)
Definition matches_optional_regex (pattern : option string) (text : string) (default_when_unset : bool) : bool :=
  match pattern with
  | None => default_when_unset
  | Some p => if str_empty p then default_when_unset
              else match regex_search p text with Some b => b | None => false end
  end.

(** [entry_passes_filters]. *)
Definition entry_passes_filters (feed : RssFeed) (entry : RssEntry) : bool :=
  if negb (matches_optional_regex (Some (include_regex feed)) (e_title entry) true) then false
  else if matches_optional_regex (Some (exclude_regex feed)) (e_title entry) false then false
  else true.

End Filters.

(** [previous_guid.empty() || entry.guid > previous_guid]. *)
Definition is_new (previous_guid : string) (entry : RssEntry) : bool :=
  str_empty previous_guid || str_ltb previous_guid (e_guid entry).

(** [if (entry.guid > newest_guid) newest_guid = entry.guid;]. *)
Definition newer_guid (newest_guid : string) (entry : RssEntry) : string :=
  if str_ltb newest_guid (e_guid entry) then e_guid entry else newest_guid.

(** [kDefaultInterval]: five minutes, in nanoseconds. *)
Definition kDefaultInterval : Z := 300000000000.

Section Poller.
  Context {W : Type} `{!Clock W, !RssFeedRepository W, !HttpClient W, !PollerPorts W, !RegexSearch}.

(** One round of the loop over the entries; the value is [newest_guid]. *)
Definition process_entry (feed : RssFeed) (previous_guid newest_guid : string) (entry : RssEntry) : M W string :=
  if negb (is_new previous_guid entry) then co_return newest_guid
  else
    let newest_guid := newer_guid newest_guid entry in
    if negb (entry_passes_filters feed entry) then co_return newest_guid
    else co_do on_new_entry feed entry; co_return newest_guid.

(** [RssFeedPoller::process_feed]. *)
Definition process_feed (feed : RssFeed) : M W unit :=
  co_await http_result <- http_get (feed_url feed) [];
  match http_result with
  | Err _ => co_return ()
  | Ok response =>
      if (status_code response <? 200) || (status_code response >=? 300) then co_return ()
      else match rss_parse (body response) with
           | Err _ => co_return ()
           | Ok parsed =>
               let previous_guid := last_guid feed in
               co_await newest_guid <- mfold (process_entry feed previous_guid) (doc_entries parsed) previous_guid;
               co_await tp <- now;
               co_do feeds_update_state (feed_id feed) newest_guid tp;
               co_return ()
           end
  end.

(** Is the feed due at time [tp]? *)
Definition feed_due (tp : Z) (feed : RssFeed) : bool :=
  match last_checked_at feed with
  | Some checked => negb (tp - checked <? kDefaultInterval)
  | None => true
  end.

(** The loop over the feeds: a cancellation ends it. *)
Fixpoint poll_feeds (tp : Z) (feeds : list RssFeed) : M W unit :=
  match feeds with
  | [] => co_return ()
  | feed :: rest =>
      if negb (feed_due tp feed) then poll_feeds tp rest
      else
        co_await cancelled <- poll_cancelled;
        if (cancelled : bool) then co_return ()
        else co_do process_feed feed; poll_feeds tp rest
  end.

(** [RssFeedPoller::poll_once]. *)
Definition poll_once : M W unit :=
  co_await feeds_result <- feeds_list_enabled;
  match feeds_result with
  | Err _ => co_return ()
  | Ok feeds => co_await tp <- now; poll_feeds tp feeds
  end.

(** The first [rounds] rounds of [RssFeedPoller::run]; [true] when the loop goes on. *)
Fixpoint run (rounds : nat) : M W bool :=
  match rounds with
  | O => co_return true
  | S n =>
      co_await cancelled <- poll_cancelled;
      if (cancelled : bool) then co_return false
      else
        co_do poll_once;
        co_await aborted <- poll_sleep;
        if (aborted : bool) then co_return false else run n
  end.

End Poller.

(** ** Lemmas *)

Lemma str_ltb_irrefl a : str_ltb a a = false.
Proof. apply bytes_ltb_irrefl. Qed.

(** The newest GUID is at least every GUID seen, and at least the previous one. *)
Lemma newest_bound g l :
  str_ltb (foldl newer_guid g l) g = false /\ Forall (fun e => str_ltb (foldl newer_guid g l) (e_guid e) = false) l.
Proof.
  revert g. induction l as [|e l IH]; intros g; simpl; [split; [apply str_ltb_irrefl|constructor]|].
  destruct (IH (newer_guid g e)) as [H1 H2].
  assert (str_ltb (newer_guid g e) g = false /\ str_ltb (newer_guid g e) (e_guid e) = false) as [H3 H4].
  { unfold newer_guid. destruct (str_ltb g (e_guid e)) eqn:E; split; try done; try apply str_ltb_irrefl.
    destruct (str_ltb (e_guid e) g) eqn:E2; [|done]. pose proof (bytes_ltb_trans _ _ _ E E2) as E3.
    by rewrite bytes_ltb_irrefl in E3. }
  split; [by apply (str_ge_trans _ _ _ H3)|]. constructor; [by apply (str_ge_trans _ _ _ H4)|done].
Qed.

(** What a pass over a document delivers, and the GUID it ends with. *)
Definition deliveries `{!RegexSearch} (feed : RssFeed) (entries : list RssEntry) : list (RssFeed * RssEntry) :=
  pair feed <$> filter (fun e => is_new (last_guid feed) e && entry_passes_filters feed e = true) entries.

Definition newest_guid_of (feed : RssFeed) (entries : list RssEntry) : string :=
  foldl newer_guid (last_guid feed) (filter (fun e => is_new (last_guid feed) e = true) entries).

(** An entry after the newest GUID is after everything the pass has seen. *)
Lemma after_newest feed entries e e2 :
  newest_guid_of feed entries <> "" -> e ∈ entries ->
  str_ltb (newest_guid_of feed entries) (e_guid e2) = true -> str_ltb (e_guid e) (e_guid e2) = true.
Proof.
  intros Hne Hin Hlt. unfold newest_guid_of in *.
  set (l := filter (fun e => is_new (last_guid feed) e = true) entries) in *.
  destruct (newest_bound (last_guid feed) l) as [H1 H2].
  assert (str_ltb (foldl newer_guid (last_guid feed) l) (e_guid e) = false) as Hge.
  { destruct (is_new (last_guid feed) e) eqn:E.
    - rewrite Forall_forall in H2. apply H2, list_elem_of_filter. done.
    - unfold is_new in E. apply orb_false_iff in E as [_ E]. by apply (str_ge_trans _ _ _ E). }
  destruct (str_ltb (e_guid e) (e_guid e2)) eqn:E; [done|].
  assert (str_ltb (foldl newer_guid (last_guid feed) l) (e_guid e2) = false) as Hc.
  { apply (str_ge_trans _ _ _ E). done. }
  congruence.
Qed.

Section Delivery.
  Context {W : Type} `{!Clock W, !RssFeedRepository W, !HttpClient W, !PollerPorts W, !RegexSearch}.
  Context (finv : W -> Prop) (feeds : W -> gmap Z RssFeed) (sent : W -> list (RssFeed * RssEntry)).

(** Only the handler receives entries, only the repository holds feeds. *)
Class PollerFrames : Prop := {
  pf_handler f e w : sent (on_new_entry f e w).2 = sent w ++ [(f, e)];
  pf_handler_feeds f e :: Preserves feeds (on_new_entry f e);
  pf_handler_inv f e w : finv w -> finv (on_new_entry f e w).2;
  pf_http u :: Preserves sent (http_get u []);
  pf_http_feeds u :: Preserves feeds (http_get u []);
  pf_http_inv u w : finv w -> finv (http_get u [] w).2;
  pf_now :: Preserves sent now;
  pf_now_feeds :: Preserves feeds now;
  pf_now_inv w : finv w -> finv (now w).2;
  pf_update id g t :: Preserves sent (feeds_update_state id g t)
}.

Context `{!RssFeedRepositoryLaws W finv feeds, !PollerFrames, !ValidClock W}.

Lemma entries_run feed prev newest l w :
  finv w ->
  let r := mfold (process_entry feed prev) l newest w in
  r.1 = foldl newer_guid newest (filter (fun e => is_new prev e = true) l) /\
  sent r.2 = sent w ++ (pair feed <$> filter (fun e => is_new prev e && entry_passes_filters feed e = true) l) /\
  feeds r.2 = feeds w /\ finv r.2.
Proof.
  revert newest w. induction l as [|e l IH]; intros newest w Hinv; [by rewrite app_nil_r|].
  assert (mfold (process_entry feed prev) (e :: l) newest w =
          let '(n1, w1) := process_entry feed prev newest e w in mfold (process_entry feed prev) l n1 w1) as -> by done.
  destruct (process_entry feed prev newest e w) as [n1 w1] eqn:E. unfold process_entry in E.
  destruct (is_new prev e) eqn:En; simpl in E.
  2: { injection E as <- <-. rewrite !filter_cons_False by (by rewrite ?En). exact (IH newest w Hinv). }
  rewrite (filter_cons_True _ e l) by done. cbn [foldl].
  destruct (entry_passes_filters feed e) eqn:Ep; simpl in E.
  2: { injection E as <- <-. rewrite filter_cons_False by (by rewrite En, Ep). exact (IH _ w Hinv). }
  rewrite filter_cons_True by (by rewrite En, Ep). unfold mbind, mreturn in E.
  pose proof (pf_handler feed e w) as Hs. pose proof (preserves (v := feeds) (m := on_new_entry feed e) w) as Hf.
  pose proof (pf_handler_inv feed e w Hinv) as Hi.
  destruct (on_new_entry feed e w) as [x w2]. injection E as <- <-. simpl in *.
  destruct (IH (newer_guid newest e) w2 Hi) as (H1 & H2 & H3 & H4). split_and!; [done| |congruence|done].
  rewrite H2, Hs, <-app_assoc. done.
Qed.

(** The end of a pass: [w'] is what the call of [update_state] leaves, which has the GUID [guid]; it
    stores that GUID with the time of the call, or fails and changes no feed. *)
Definition stores (feed : RssFeed) (guid : string) (w w' : W) : Prop :=
  exists tp w1 updated, feeds w1 = feeds w /\ feeds_update_state (feed_id feed) guid tp w1 = (updated, w') /\
    match updated with
    | Ok _ => exists f0, feeds w !! feed_id feed = Some f0 /\
                feeds w' = <[feed_id feed := with_feed_state guid (floor_time tp) f0]> (feeds w)
    | Err _ => feeds w' = feeds w
    end.

(** A pass over one feed, on every branch. *)
Lemma process_feed_effect feed w :
  finv w ->
  let r := process_feed feed w in
  finv r.2 /\
  ((sent r.2 = sent w /\ feeds r.2 = feeds w /\
    forall resp doc, (http_get (feed_url feed) [] w).1 = Ok resp -> 200 <= status_code resp < 300 ->
      rss_parse (W := W) (body resp) = Ok doc -> False) \/
   exists resp doc, (http_get (feed_url feed) [] w).1 = Ok resp /\ 200 <= status_code resp < 300 /\
     rss_parse (W := W) (body resp) = Ok doc /\
     sent r.2 = sent w ++ deliveries feed (doc_entries doc) /\
     stores feed (newest_guid_of feed (doc_entries doc)) w r.2).
Proof.
  intros Hinv r. subst r. unfold process_feed, mbind, mreturn.
  pose proof (preserves (v := sent) (m := http_get (feed_url feed) []) w) as Hs.
  pose proof (preserves (v := feeds) (m := http_get (feed_url feed) []) w) as Hf.
  pose proof (pf_http_inv (feed_url feed) w Hinv) as Hi.
  destruct (http_get (feed_url feed) [] w) as [[resp|e] w1]; simpl in *; [|split; [done|left]; by split_and!].
  destruct ((status_code resp <? 200) || (status_code resp >=? 300)) eqn:Est; simpl.
  { split; [done|left]. split_and!; try done. intros ? ? [= <-] ? _.
    apply orb_true_iff in Est as [Est|Est]; lia. }
  apply orb_false_iff in Est as [E1 E2].
  destruct (rss_parse (body resp)) as [doc|e] eqn:Ep; simpl; [|split; [done|left]; split_and!; try done; intros ? ? [= <-] _; congruence].
  destruct (entries_run feed (last_guid feed) (last_guid feed) (doc_entries doc) w1 Hi) as (H1 & H2 & H3 & H4).
  destruct (mfold _ _ _ w1) as [newest w2]. simpl in *. subst newest.
  pose proof (preserves (v := sent) (m := now) w2) as Hs2. pose proof (preserves (v := feeds) (m := now) w2) as Hf2.
  pose proof (pf_now_inv w2 H4) as Hi2. pose proof (clock_shows w2) as Hv.
  destruct (now w2) as [tp w3]. simpl in *.
  set (g := foldl _ _ _). pose proof (preserves (v := sent) (m := feeds_update_state (feed_id feed) g tp) w3) as Hs3.
  pose proof (fl_update_spec (feed_id feed) g tp w3 Hi2 Hv) as Hu.
  pose proof (fl_update_inv (feed_id feed) g tp w3 Hi2 Hv) as Hi3.
  destruct (feeds_update_state (feed_id feed) g tp w3) as [upd w4] eqn:Eu. simpl in *. split; [done|]. right.
  assert (feeds w3 = feeds w) as Hw3 by congruence.
  exists resp, doc. split_and!; [done|lia|lia|done|unfold deliveries; congruence|].
  exists tp, w3, upd. rewrite Hw3 in Hu. by split_and!.
Qed.
End Delivery.

(** ** A concrete environment: the in-memory table and the log of the handler *)

Module PollWorld.

Notation World := (MemFeedsDb.World * list (RssFeed * RssEntry))%type.

#[local] Existing Instances MemFeedsDb.clock MemFeedsDb.pool MemFeedsDb.db MemFeedsDb.db_laws
  MemFeedsDb.clock_frame MemFeedsDb.clock_valid.

(** A coroutine of the table alone. *)
Definition on_table {A} (m : M MemFeedsDb.World A) : M World A :=
  fun w => let '(a, t) := m w.1 in (a, (t, w.2)).

#[export] Instance clock : Clock World := on_table now.

#[export] Instance pool : ConnectionPool World := {
  pool_acquire := on_table pool_acquire;
  pool_release := on_table pool_release
}.

#[export] Instance db : FeedsDb World := {
  select_enabled := on_table select_enabled;
  select_feed id := on_table (select_feed id);
  insert_feed r := on_table (insert_feed r);
  insert_or_replace_feed r := on_table (insert_or_replace_feed r);
  update_feed_state id guid at_ := on_table (update_feed_state id guid at_);
  delete_feed id := on_table (delete_feed id)
}.

#[export] Instance db_laws : FeedsDbLaws World fst.
Proof.
  split; try done.
  - intros [t log] rows w' Hk [= <- <-]. by apply (fd_select_enabled (table := id) t _ t).
  - intros id [t log] rows w' [= <- <-]. done.
  - intros r [t log]. pose proof (fd_insert (table := id) r t) as H.
    assert (insert_feed r (t, log) = let '(x, t') := insert_feed r t in (x, (t', log))) as -> by done.
    by destruct (insert_feed r t) as [[e|n] t'].
  - intros r [t log] k r' Hk Hu. pose proof (fd_conflict (table := id) r t k r' Hk Hu) as H.
    assert (insert_feed r (t, log) = let '(x, t') := insert_feed r t in (x, (t', log))) as -> by done.
    by destruct (insert_feed r t) as [[e|n] t'].
  - intros k guid at_ [t log]. exact (fd_update (table := id) k guid at_ t).
  - intros k [t log]. exact (fd_delete (table := id) k t).
Qed.

#[export] Instance clock_frame : Preserves (fst : World -> MemFeedsDb.World) now.
Proof. done. Qed.
#[export] Instance clock_valid : ValidClock World.
Proof. by split; vm_compute. Qed.

(** A pattern matches the text that starts with it. *)
#[export] Instance search : RegexSearch := fun pattern text => Some (starts_with text pattern).

Definition entry (guid title : string) : RssEntry := MkEntry guid title "" None None None None.

(** Every URL serves a document whose body names the entries. *)
Definition document (body : string) : RssDocument :=
  MkDocument "t" "l" None
    (if bool_decide (body = "http://h/two") then [entry "1" "linux"; entry "2" "windows"; entry "3" "linux"]
     else [entry "1" "linux"]).

#[export] Instance http : HttpClient World := fun rq => mreturn (Ok (MkResponse 200 [] (rq_url rq))).

#[export] Instance ports : PollerPorts World := {
  rss_parse body := Ok (document body);
  on_new_entry f e := fun w => (inr (), (w.1, w.2 ++ [(f, e)]));
  poll_cancelled := mreturn false;
  poll_sleep := mreturn false
}.

Notation inv := (feeds_inv fst).
Notation feeds := (held_feeds fst).

#[export] Instance frames : PollerFrames inv feeds snd.
Proof. split; try done. Qed.

(** One feed that wants the titles starting with "linux". *)
Definition subscribed : World :=
  ((save_feed (MkFeed 0 "t" "http://h/two" (MkId 1) "linux" "" "" None true 0) (∅ : MemFeedsDb.World)).2, []).

Lemma subscribed_inv : inv subscribed.
Proof.
  apply (save_feed_inv id (MkFeed 0 "t" "http://h/two" (MkId 1) "linux" "" "" None true 0) ∅ MemFeedsDb.no_feeds_inv).
  by repeat split; vm_compute.
Qed.

End PollWorld.

Import PollWorld.

(** ** Theorems *)

(** C14. One pass over a feed announces exactly its new matching entries and records where it
    ended: when the download succeeds with a 2xx status and the document parses, the handler
    gets, in document order and once each, the entries whose GUID is after the stored one (all of
    them for a feed never polled) and whose title passes the two filters, and the pass ends with
    an update of the feed to the greatest GUID seen, which stores it unless the repository
    reports a failure; no other feed changes.  Otherwise nothing is announced and no feed
    changes. *)
Theorem rss_poll_delivers {W} `{!Clock W, !RssFeedRepository W, !HttpClient W, !PollerPorts W, !RegexSearch}
  (finv : W -> Prop) (feeds : W -> gmap Z RssFeed) (sent : W -> list (RssFeed * RssEntry))
  (Hlaws : RssFeedRepositoryLaws W finv feeds) (Hframes : PollerFrames finv feeds sent) (Hclock : ValidClock W)
  feed w (Hinv : finv w) :
  let w' := (process_feed feed w).2 in
  (forall resp doc, (http_get (feed_url feed) [] w).1 = Ok resp -> 200 <= status_code resp < 300 ->
     rss_parse (W := W) (body resp) = Ok doc ->
     sent w' = sent w ++ deliveries feed (doc_entries doc) /\
     stores feeds feed (newest_guid_of feed (doc_entries doc)) w w') /\
  ((forall resp doc, (http_get (feed_url feed) [] w).1 = Ok resp -> 200 <= status_code resp < 300 ->
     rss_parse (W := W) (body resp) = Ok doc -> False) -> sent w' = sent w /\ feeds w' = feeds w).
Proof.
  intros w'. destruct (process_feed_effect finv feeds sent feed w Hinv) as [_ Heff]. fold w' in Heff. split.
  - intros resp doc H1 H2 H3. destruct Heff as [(_ & _ & Hno)|(resp' & doc' & H1' & _ & H3' & Hs & Hf)].
    { exfalso. eauto. }
    assert (resp' = resp) as -> by congruence. by assert (doc' = doc) as -> by congruence.
  - intros Hno. destruct Heff as [(Hs & Hf & _)|(resp & doc & H1 & H2 & H3 & _)]; [done|]. exfalso. eauto.
Qed.

Lemma rss_poll_delivers_witness :
  let f := default (MkFeed 0 "" "" (MkId 0) "" "" "" None false 0) (held_feeds fst PollWorld.subscribed !! 1) in
  let w' := (process_feed f PollWorld.subscribed).2 in
  map (fun p => e_guid p.2) w'.2 = ["1"; "3"] /\ last_guid <$> held_feeds fst w' !! 1 = Some "3" /\
  w'.2 = PollWorld.subscribed.2 ++ deliveries f (doc_entries (PollWorld.document "http://h/two")).
Proof.
  intros f w'. split; [vm_compute; reflexivity|]. split; [vm_compute; reflexivity|].
  destruct (rss_poll_delivers (feeds_inv fst) (held_feeds fst) snd (sqlite_feed_laws fst) PollWorld.frames
    PollWorld.clock_valid f PollWorld.subscribed PollWorld.subscribed_inv) as [H _].
  apply (H (MkResponse 200 [] "http://h/two")); [vm_compute; reflexivity|by vm_compute|reflexivity].
Defined.

(** No entry is announced twice: once a pass over a document has stored its newest GUID,
    every entry that a later pass over the feed announces has a GUID after those of all the
    entries of that document. *)
Theorem rss_poll_no_repeats {W} `{!Clock W, !RssFeedRepository W, !HttpClient W, !PollerPorts W, !RegexSearch}
  (finv : W -> Prop) (feeds : W -> gmap Z RssFeed) (sent : W -> list (RssFeed * RssEntry))
  (Hlaws : RssFeedRepositoryLaws W finv feeds) (Hframes : PollerFrames finv feeds sent) (Hclock : ValidClock W)
  feed later doc w (Hinv : finv w) (Hguid : last_guid later = newest_guid_of feed (doc_entries doc))
  (Hne : last_guid later <> "") :
  exists l, sent (process_feed later w).2 = sent w ++ l /\
    Forall (fun p => p.1 = later /\ Forall (fun e => str_ltb (e_guid e) (e_guid p.2) = true) (doc_entries doc)) l.
Proof.
  destruct (process_feed_effect finv feeds sent later w Hinv) as [_ [(Hs & _)|(resp & doc2 & _ & _ & _ & Hs & _)]].
  - exists []. by rewrite app_nil_r.
  - eexists. split; [exact Hs|]. apply Forall_forall. intros [f e2] Hin.
    apply list_elem_of_fmap in Hin as (e & [= -> ->] & Hin). apply list_elem_of_filter in Hin as [Hp _].
    split; [done|]. apply Forall_forall. intros e1 Hin1. simpl.
    apply andb_prop in Hp as [Hn _]. unfold is_new in Hn. apply orb_prop in Hn as [Hn|Hn].
    + by apply str_empty_spec in Hn.
    + rewrite Hguid in *. by eapply after_newest.
Qed.

Lemma rss_poll_no_repeats_witness :
  let f := default (MkFeed 0 "" "" (MkId 0) "" "" "" None false 0) (held_feeds fst PollWorld.subscribed !! 1) in
  let w1 := (process_feed f PollWorld.subscribed).2 in
  let f1 := default f (held_feeds fst w1 !! 1) in
  last_guid f1 = "3" /\ exists l, (process_feed f1 PollWorld.subscribed).2.2 = PollWorld.subscribed.2 ++ l /\
    Forall (fun p => p.1 = f1) l.
Proof.
  intros f w1 f1. assert (last_guid f1 = "3") as Hg by (vm_compute; reflexivity). split; [done|].
  assert (last_guid f1 = newest_guid_of f (doc_entries (PollWorld.document "http://h/two"))) as Hn
    by (vm_compute; reflexivity).
  destruct (rss_poll_no_repeats (feeds_inv fst) (held_feeds fst) snd (sqlite_feed_laws fst) PollWorld.frames
    PollWorld.clock_valid f f1 (PollWorld.document "http://h/two") PollWorld.subscribed PollWorld.subscribed_inv Hn
    ltac:(rewrite Hg; done)) as (l & Hl & Hf).
  exists l. split; [exact Hl|]. eapply Forall_impl; [exact Hf|]. by intros p [H _].
Defined.
