(* ===== verification/Regex.v ===== *)
(** * Regular expressions

    The part of ECMAScript's [std::regex] that the patterns of the code need: classes, greedy
    and lazy repetition of a class, optional and capturing groups, and word boundaries.  The
    matcher backtracks in the order that the standard prescribes; its recursion is structural,
    so every search ends. *)

From S2P Require Import Prelude.

Inductive regex :=
| Eps
| Char (p : ascii -> bool)
| Seq (r1 r2 : regex)
| Star (greedy : bool) (p : ascii -> bool)
| Opt (r : regex)
| Group (n : nat) (r : regex)
| Boundary.

(** The captures of a match, the latest first. *)
Definition captures := list (nat * list ascii).
Definition capture (n : nat) (caps : captures) : option (list ascii) := snd <$> List.find (fun c => (c.1 =? n)%nat) caps.

(** [\w]: letters, digits and the underscore. *)
Definition word_char (c : ascii) : bool :=
  let n := code c in
  (((48 <=? n) && (n <=? 57)) || ((65 <=? n) && (n <=? 90)) || ((97 <=? n) && (n <=? 122)) || (n =? 95))%N.

Definition at_boundary (prev next : option ascii) : bool :=
  xorb (match prev with Some c => word_char c | None => false end) (match next with Some c => word_char c | None => false end).

Definition class (l : list ascii) (c : ascii) : bool := bool_decide (c ∈ l).
Definition none_of (l : list ascii) (c : ascii) : bool := negb (class l c).
Definition any (c : ascii) : bool := true.
Definition between (lo hi : N) (c : ascii) : bool := ((lo <=? code c) && (code c <=? hi))%N.

(** The text [s], with or without [icase]. *)
Fixpoint text (icase : bool) (s : list ascii) : regex :=
  match s with
  | [] => Eps
  | c :: s => Seq (Char (fun x => if icase then bool_decide (tolower x = tolower c) else bool_decide (x = c))) (text icase s)
  end.
Definition lit (icase : bool) (s : string) : regex := text icase (chars s).

(** Matching with a continuation, which gets the character before, the rest and the captures. *)
Section Matcher.
  Context {A : Type}.
  Notation cont := (option ascii -> list ascii -> captures -> option A).

(** A repetition of a class: greedy tries the longest first, lazy the shortest. *)
Fixpoint repeat_class (greedy : bool) (p : ascii -> bool) (k : cont) (prev : option ascii) (s : list ascii) (caps : captures) : option A :=
  match s with
  | c :: s' =>
      if p c then
        if greedy then match repeat_class greedy p k (Some c) s' caps with Some a => Some a | None => k prev s caps end
        else match k prev s caps with Some a => Some a | None => repeat_class greedy p k (Some c) s' caps end
      else k prev s caps
  | [] => k prev s caps
  end.

Fixpoint match_regex (r : regex) (k : cont) (prev : option ascii) (s : list ascii) (caps : captures) : option A :=
  match r with
  | Eps => k prev s caps
  | Char p => match s with c :: s' => if p c then k (Some c) s' caps else None | [] => None end
  | Seq r1 r2 => match_regex r1 (match_regex r2 k) prev s caps
  | Star greedy p => repeat_class greedy p k prev s caps
  | Opt r => match match_regex r k prev s caps with Some a => Some a | None => k prev s caps end
  | Group n r => match_regex r (fun prev' s' caps' => k prev' s' ((n, take (length s - length s') s) :: caps')) prev s caps
  | Boundary => if at_boundary prev (head s) then k prev s caps else None
  end.

End Matcher.

(** [std::match_results]: the position, the captures with the whole match as number 0, and what
    follows. *)
Record Match := MkMatch { position : nat; groups : captures; suffix_prev : option ascii; suffix : list ascii }.

(** [regex_search]: the first position where the pattern matches. *)
Fixpoint search_from (r : regex) (pos : nat) (prev : option ascii) (s : list ascii) : option Match :=
  match match_regex (Group 0 r) (fun prev' s' caps => Some (MkMatch pos caps prev' s')) prev s [] with
  | Some m => Some m
  | None => match s with c :: s' => search_from r (S pos) (Some c) s' | [] => None end
  end.

Definition search (r : regex) (s : list ascii) : option Match := search_from r 0 None s.

(** [std::cregex_iterator]: the next search starts behind a match.  None of the patterns matches
    the empty text, so that every match shortens the text and its length is fuel enough. *)
Fixpoint search_all_from (fuel : nat) (r : regex) (pos : nat) (prev : option ascii) (s : list ascii) : list Match :=
  match fuel with
  | O => []
  | S fuel =>
      match search_from r pos prev s with
      | None => []
      | Some m => m :: search_all_from fuel r (pos + (length s - length (suffix m))) (suffix_prev m) (suffix m)
      end
  end.

Definition search_all (r : regex) (s : list ascii) : list Match := search_all_from (length s) r 0 None s.

(** [m[n].str()]: empty when the group did not take part. *)
Definition group (n : nat) (m : Match) : list ascii := default [] (capture n (groups m)).

(** ** Lemmas: texts *)

Definition same_char (icase : bool) (c x : ascii) : bool :=
  if icase then bool_decide (tolower x = tolower c) else bool_decide (x = c).

(** [p] and [l] differ before either ends. *)
Fixpoint mismatch (icase : bool) (p l : list ascii) : bool :=
  match p, l with
  | c :: p, x :: l => negb (same_char icase c x) || mismatch icase p l
  | _, _ => false
  end.

(** The text [p] starts nowhere in [l], whatever follows [l]. *)
Fixpoint absent (icase : bool) (p l : list ascii) : bool :=
  match l with
  | [] => true
  | x :: l' => mismatch icase p l && absent icase p l'
  end.

Definition last_of (prev : option ascii) (l : list ascii) : option ascii := match last l with Some c => Some c | None => prev end.

Lemma last_of_cons prev c l : last_of prev (c :: l) = last_of (Some c) l.
Proof. unfold last_of. rewrite last_cons. by destruct (last l). Qed.

Lemma last_of_snoc prev l c : last_of prev (l ++ [c]) = Some c.
Proof. unfold last_of. by rewrite last_snoc. Qed.

Lemma mismatch_app icase p l r : mismatch icase p l = true -> mismatch icase p (l ++ r) = true.
Proof.
  revert l. induction p as [|c p IH]; intros [|x l]; try done. cbn [mismatch app]. intros [->|H]%orb_true_iff; [done|].
  rewrite (IH l H). apply orb_true_r.
Qed.

Lemma absent_app icase p l1 l2 : absent icase p l1 = true -> absent icase p l2 = true -> absent icase p (l1 ++ l2) = true.
Proof.
  induction l1 as [|x l1 IH]; [done|]. cbn [absent app]. intros [H1 H2]%andb_true_iff H3.
  apply andb_true_iff. split; [|by apply IH]. change (x :: l1 ++ l2) with ((x :: l1) ++ l2). by apply mismatch_app.
Qed.

(** A text is absent where its first character is. *)
Lemma absent_head icase c p l : Forall (fun x => same_char icase c x = false) l -> absent icase (c :: p) l = true.
Proof. induction 1 as [|x l Hx _ IH]; [done|]. cbn [absent mismatch]. by rewrite Hx, IH. Qed.

Section Texts.
  Context {A : Type}.
  Implicit Types k : option ascii -> list ascii -> captures -> option A.

Lemma match_text_same icase p k prev s caps : match_regex (text icase p) k prev (p ++ s) caps = k (last_of prev p) s caps.
Proof.
  revert prev. induction p as [|c p IH]; intros prev; [done|]. cbn [text match_regex app].
  replace (if icase then bool_decide (tolower c = tolower c) else bool_decide (c = c)) with true by (destruct icase; by rewrite bool_decide_true).
  by rewrite IH, last_of_cons.
Qed.

Lemma match_text_mismatch icase p k prev s caps : mismatch icase p s = true -> match_regex (text icase p) k prev s caps = None.
Proof.
  revert prev s. induction p as [|c p IH]; intros prev [|x s]; try done. cbn [mismatch text match_regex]. unfold same_char.
  destruct (if icase then _ else _); [|done]. apply IH.
Qed.

Lemma match_text_app icase p q k prev s caps :
  match_regex (text icase p) (match_regex (text icase q) k) prev s caps = match_regex (text icase (p ++ q)) k prev s caps.
Proof.
  revert prev s. induction p as [|c p IH]; intros prev s; [done|]. cbn [text match_regex app]. destruct s as [|x s]; [done|].
  destruct (if icase then _ else _); [|done]. apply IH.
Qed.

Lemma repeat_stop greedy p k prev c s caps : p c = false -> repeat_class greedy p k prev (c :: s) caps = k prev (c :: s) caps.
Proof. intros H. cbn. by rewrite H. Qed.

(** A lazy repetition of anything skips what its continuation refuses. *)
Lemma repeat_lazy k prev body s caps :
  (forall l1 c l2, body = l1 ++ c :: l2 -> k (last_of prev l1) (c :: l2 ++ s) caps = None) ->
  is_Some (k (last_of prev body) s caps) ->
  repeat_class false any k prev (body ++ s) caps = k (last_of prev body) s caps.
Proof.
  intros Hno Hk. revert prev Hno Hk. induction body as [|c body IH]; intros prev Hno Hk.
  - cbn [app]. destruct Hk as [a Ha]. change (last_of prev []) with prev in Ha |- *. destruct s as [|c s]; cbn; by rewrite Ha.
  - pose proof (Hno [] c body eq_refl) as H0. change (last_of prev []) with prev in H0. cbn [app repeat_class any]. rewrite H0. rewrite last_of_cons in Hk |- *. apply IH; [|done].
    intros l1 c' l2 ->. specialize (Hno (c :: l1) c' l2 eq_refl). by rewrite last_of_cons in Hno.
Qed.

End Texts.

(** ** Lemmas: searches *)

(** A pattern that starts with a text is found no earlier than the text. *)
Lemma search_skip icase p r pos prev l s :
  absent icase p l = true -> search_from (Seq (text icase p) r) pos prev (l ++ s) = search_from (Seq (text icase p) r) (pos + length l) (last_of prev l) s.
Proof.
  revert pos prev. induction l as [|x l IH]; intros pos prev; cbn [absent].
  { intros _. cbn [app length]. by rewrite Nat.add_0_r. }
  intros [Hm Ha]%andb_true_iff. rewrite last_of_cons. cbn [length]. rewrite <- Nat.add_succ_comm, <- IH by done.
  cbn [app search_from match_regex]. rewrite match_text_mismatch; [done|].
  change (x :: l ++ s) with ((x :: l) ++ s). by apply mismatch_app.
Qed.

Lemma search_none icase c p r pos prev l :
  absent icase (c :: p) l = true -> search_from (Seq (text icase (c :: p)) r) pos prev l = None.
Proof.
  intros H. rewrite <- (app_nil_r l). by rewrite search_skip.
Qed.

(** Two texts in a row are one. *)
Lemma search_texts icase p q r pos prev l :
  search_from (Seq (text icase p) (Seq (text icase q) r)) pos prev l = search_from (Seq (text icase (p ++ q)) r) pos prev l.
Proof.
  revert pos prev. induction l as [|x l IH]; intros pos prev; cbn [search_from]; cbn [match_regex]; rewrite match_text_app; [done|].
  by rewrite IH.
Qed.

(** A greedy repetition that can take everything up to a character of another class does. *)
Lemma repeat_greedy {A} p (k : option ascii -> list ascii -> captures -> option A) prev l c s caps :
  Forall (fun x => p x = true) l -> p c = false -> is_Some (k (last_of prev l) (c :: s) caps) ->
  repeat_class true p k prev (l ++ c :: s) caps = k (last_of prev l) (c :: s) caps.
Proof.
  intros Hl Hc. revert prev. induction Hl as [|x l Hx Hl IH]; intros prev Hk.
  - cbn [app]. by apply repeat_stop.
  - cbn [app repeat_class]. rewrite last_of_cons in Hk |- *. rewrite Hx, (IH _ Hk). by destruct Hk as [a ->].
Qed.

Lemma search_here r pos prev s m :
  match_regex (Group 0 r) (fun prev' s' caps => Some (MkMatch pos caps prev' s')) prev s [] = Some m -> search_from r pos prev s = Some m.
Proof. intros H. destruct s as [|c s]; cbn [search_from]; by rewrite H. Qed.
