(* ===== verification/RssDocument.v ===== *)
(** * Parsing feeds: [infrastructure/rss/rss_document_parser.cpp]

    RSS 2.0 and Atom documents are taken apart with the patterns of [Regex].  [std::get_time],
    which depends on the locale, is a parameter. *)

From S2P Require Import Prelude CoreError TimeCodec RssFeedPoller Regex.

(** ** Patterns *)

Definition rss_root_regex : regex := Seq (lit true "<rss") Boundary.
Definition atom_root_regex : regex := Seq (lit true "<feed") Boundary.

(** An element: the tag with any attributes, the shortest body as group 1, the closing tag. *)
Definition element_regex (tag : string) : regex :=
  Seq (lit true "<") (Seq (lit true tag) (Seq Boundary (Seq (Star true (none_of [">"%char])) (Seq (lit true ">")
    (Seq (Group 1 (Star false any)) (Seq (lit true "</") (Seq (lit true tag) (lit true ">")))))))).

Definition item_regex : regex := element_regex "item".
Definition atom_entry_regex : regex := element_regex "entry".

(** A tag with its attributes as group 1. *)
Definition tag_regex (tag : string) : regex :=
  Seq (lit true "<") (Seq (lit true tag) (Seq Boundary (Seq (Group 1 (Star true (none_of [">"%char])))
    (Seq (Opt (lit true "/")) (lit true ">"))))).

(** An attribute with its value in quotes as group 1. *)
Definition attr_regex (attr : string) (quote : ascii) : regex :=
  Seq (lit true attr) (Seq (Star true isspace) (Seq (lit true "=") (Seq (Star true isspace) (Seq (Char (class [quote]))
    (Seq (Group 1 (Star true (none_of [quote]))) (Char (class [quote]))))))).
Definition double_quote : ascii := "034".
Definition single_quote : ascii := "039".

Definition hex_char (c : ascii) : bool := between 65 70 c || between 97 102 c || between 48 57 c.

(** A magnet link: the hash, then everything up to a quote, a less-than sign or a blank. *)
Definition magnet_regex : regex :=
  Seq (lit false "magnet:?xt=urn:btih:") (Seq (Char hex_char) (Seq (Star true hex_char)
    (Star true (fun c => none_of [double_quote; "<"%char] c && negb (isspace c))))).

(** ** Extraction *)

(** Between [find_first_not_of] and [find_last_not_of] of space, tab, CR and LF. *)
Definition blank (c : ascii) : bool := class [" "%char; "009"%char; "013"%char; "010"%char] c.
Definition strip_blanks (l : list ascii) : list ascii := rev (drop_while blank (rev (drop_while blank l))).

Definition kCdataOpen : list ascii := chars "<![CDATA[".
Definition kCdataClose : list ascii := chars "]]>".

(** A single enclosing CDATA section; its two marks cannot overlap. *)
Definition unwrap_cdata (l : list ascii) : list ascii :=
  if list_prefixb kCdataOpen l && list_prefixb (rev kCdataClose) (rev l)
  then take (length l - length kCdataOpen - length kCdataClose) (drop (length kCdataOpen) l)
  else l.

Definition first_tag_text (s : list ascii) (tag : string) : option string :=
  match search (element_regex tag) s with
  | None => None
  | Some m => Some (of_chars (match strip_blanks (group 1 m) with [] => [] | body => unwrap_cdata body end))
  end.

Definition find_attr (attrs : list ascii) (name : string) : option string :=
  (fun m => of_chars (group 1 m)) <$> search (attr_regex name double_quote) attrs.

Definition attr_of_tag (s : list ascii) (tag attr : string) : option string :=
  match search (tag_regex tag) s with
  | None => None
  | Some m =>
      match find_attr (group 1 m) attr with
      | Some v => Some v
      | None => (fun m => of_chars (group 1 m)) <$> search (attr_regex attr single_quote) (group 1 m)
      end
  end.

(** [for_each_tag]: the attributes of every tag. *)
Definition each_tag (s : list ascii) (tag : string) : list (list ascii) := map (group 1) (search_all (tag_regex tag) s).

Definition extract_magnet (s : list ascii) : option string := (fun m => of_chars (group 0 m)) <$> search magnet_regex s.

(** ** Dates *)

(** The members of [std::tm] that are used, with the civil year and month. *)
Record Tm := MkTm { tm_year : Z; tm_mon : Z; tm_mday : Z; tm_hour : Z; tm_min : Z; tm_sec : Z }.
Class GetTime := get_time : string -> string -> option Tm.

(** [timegm]. *)
Definition timegm (t : Tm) : Z :=
  days_from_civil (tm_year t) (tm_mon t) (tm_mday t) * 86400 + tm_hour t * 3600 + tm_min t * 60 + tm_sec t.

Section Parser.
  Context `{clib : !GetTime}.

(** [system_clock::from_time_t], or nothing for the value that reports an error. *)
Definition time_of (t : Tm) : option Z := if timegm t =? -1 then None else Some (to_int64 (timegm t * 1000000000)).

Definition parse_rfc822 (text : string) : option Z :=
  match get_time "%a, %d %b %Y %H:%M:%S" text with
  | Some t => time_of t
  | None => match get_time "%d %b %Y %H:%M:%S" text with Some t => time_of t | None => None end
  end.

Definition parse_rfc3339 (text : string) : option Z :=
  match get_time "%Y-%m-%dT%H:%M:%S" text with Some t => time_of t | None => None end.

(** ** RSS 2.0 *)

(** The magnet link of an entry: the description comes first. *)
Definition find_magnet (description : option string) (body : list ascii) : option string :=
  match (match description with Some d => extract_magnet (chars d) | None => None end) with
  | Some m => Some m
  | None => extract_magnet body
  end.

Definition guid_or_link (guid link : string) : string := if str_empty guid then link else guid.

Definition parse_rss_item (body : list ascii) : RssEntry :=
  let title := default "" (first_tag_text body "title") in
  let link := default "" (first_tag_text body "link") in
  let guid := default "" (first_tag_text body "guid") in
  let description := first_tag_text body "description" in
  let torrent_url :=
    match attr_of_tag body "enclosure" "type" with
    | Some t => if bool_decide (t = "application/x-bittorrent") then attr_of_tag body "enclosure" "url" else None
    | None => None
    end in
  MkEntry (guid_or_link guid link) title link (find_magnet description body) torrent_url description
    (match first_tag_text body "pubDate" with Some pub => parse_rfc822 pub | None => None end).

(** What stands before the first match. *)
Definition before_first (r : regex) (xml : list ascii) : list ascii :=
  match search_all r xml with m :: _ => take (position m) xml | [] => xml end.

Definition parse_rss (xml : list ascii) : RssDocument :=
  let channel_view := before_first item_regex xml in
  MkDocument (default "" (first_tag_text channel_view "title")) (default "" (first_tag_text channel_view "link"))
    (first_tag_text channel_view "description") (map (fun m => parse_rss_item (group 1 m)) (search_all item_regex xml)).

(** ** Atom *)

(** A [<link>]: the first alternate one, and the last torrent. *)
Definition atom_link (found : string * option string) (attrs : list ascii) : string * option string :=
  let '(alternate_link, torrent_url) := found in
  match find_attr attrs "href" with
  | None => found
  | Some href =>
      let rel := default "alternate" (find_attr attrs "rel") in
      let type := default "" (find_attr attrs "type") in
      if bool_decide (type = "application/x-bittorrent") then (alternate_link, Some href)
      else if bool_decide (rel = "alternate") && str_empty alternate_link then (href, torrent_url)
      else found
  end.

Definition parse_atom_entry (body : list ascii) : RssEntry :=
  let title := default "" (first_tag_text body "title") in
  let guid := default "" (first_tag_text body "id") in
  let description := match first_tag_text body "summary" with Some v => Some v | None => first_tag_text body "content" end in
  let '(link, torrent_url) := foldl atom_link ("", None) (each_tag body "link") in
  MkEntry (guid_or_link guid link) title link (find_magnet description body) torrent_url description
    (match first_tag_text body "published" with
     | Some pub => parse_rfc3339 pub
     | None => match first_tag_text body "updated" with Some upd => parse_rfc3339 upd | None => None end
     end).

Definition atom_home (link : string) (attrs : list ascii) : string :=
  if negb (str_empty link) then link
  else match find_attr attrs "href" with
       | None => link
       | Some href => if bool_decide (default "alternate" (find_attr attrs "rel") = "alternate") then href else link
       end.

Definition parse_atom (xml : list ascii) : RssDocument :=
  let header_view := before_first atom_entry_regex xml in
  MkDocument (default "" (first_tag_text header_view "title")) (foldl atom_home "" (each_tag header_view "link"))
    (first_tag_text header_view "subtitle") (map (fun m => parse_atom_entry (group 1 m)) (search_all atom_entry_regex xml)).

(** [RssDocumentParser::parse]. *)
Definition rss_document_parse (xml : string) : Result RssDocument :=
  if str_empty xml then error Deserialization "empty RSS document"
  else if bool_decide (is_Some (search rss_root_regex (chars xml))) then Ok (parse_rss (chars xml))
  else if bool_decide (is_Some (search atom_root_regex (chars xml))) then Ok (parse_atom (chars xml))
  else error Deserialization "document is neither RSS 2.0 nor Atom 1.0".

End Parser.

(** ** Lemmas: elements *)

Definition open_tag (tag : string) : list ascii := chars "<" ++ chars tag ++ chars ">".
Definition close_tag (tag : string) : list ascii := chars "</" ++ chars tag ++ chars ">".
Definition element (tag : string) (body : list ascii) : list ascii := open_tag tag ++ body ++ close_tag tag.

(** The name of a tag ends in a letter or a digit. *)
Definition tag_name (tag : string) : Prop := exists c, last (chars tag) = Some c /\ word_char c = true.

Lemma absent_split icase p l1 c l2 : absent icase p (l1 ++ c :: l2) = true -> mismatch icase p (c :: l2) = true.
Proof. induction l1 as [|x l1 IH]; cbn [absent app]; by intros [? ?]%andb_true_iff; auto. Qed.

Lemma match_close {A} tag (k : option ascii -> list ascii -> captures -> option A) prev s caps :
  match_regex (Seq (lit true "</") (Seq (lit true tag) (lit true ">"))) k prev s caps = match_regex (text true (close_tag tag)) k prev s caps.
Proof. unfold lit, close_tag. cbn [match_regex]. rewrite match_text_app. by rewrite match_text_app, <- app_assoc. Qed.

Lemma match_element {A} tag body rest (k : option ascii -> list ascii -> captures -> option A) prev :
  tag_name tag -> absent true (close_tag tag) body = true -> is_Some (k (Some ">"%char) rest [(1%nat, body)]) ->
  match_regex (element_regex tag) k prev (element tag body ++ rest) [] = k (Some ">"%char) rest [(1%nat, body)].
Proof.
  intros (c & Hc & Hw) Habs Hk. unfold element, open_tag. rewrite <- !app_assoc. unfold element_regex, lit. cbn [match_regex].
  rewrite !match_text_same. unfold last_of at 1. rewrite Hc.
  assert (at_boundary (Some c) (head (chars ">" ++ body ++ close_tag tag ++ rest)) = true) as -> by (unfold at_boundary; cbn; by rewrite Hw).
  change (chars ">" ++ body ++ close_tag tag ++ rest) with (">"%char :: (body ++ close_tag tag ++ rest)). rewrite repeat_stop by done.
  change (">"%char :: (body ++ close_tag tag ++ rest)) with (chars ">" ++ body ++ close_tag tag ++ rest). rewrite match_text_same.
  set (p1 := last_of (last_of (last_of prev (chars "<")) (chars tag)) (chars ">")).
  assert (forall prev s caps, match_regex (text true (chars "</")) (match_regex (text true (chars tag)) (match_regex (text true (chars ">")) k)) prev s caps =
    match_regex (text true (close_tag tag)) k prev s caps) as Hclose by (intros; unfold close_tag; by rewrite !match_text_app, <- app_assoc).
  assert (match_regex (text true (close_tag tag)) k (last_of p1 body) (close_tag tag ++ rest)
    [(1%nat, take (length (body ++ close_tag tag ++ rest) - length (close_tag tag ++ rest)) (body ++ close_tag tag ++ rest))] =
    k (Some ">"%char) rest [(1%nat, body)]) as Hend.
  { rewrite match_text_same, length_app, Nat.add_sub, take_app_length. f_equal.
    unfold close_tag. rewrite app_assoc. apply last_of_snoc. }
  rewrite repeat_lazy; change (fun prev s caps => match_regex (text true (chars tag)) (match_regex (text true (chars ">")) k) prev s caps)
    with (match_regex (text true (chars tag)) (match_regex (text true (chars ">")) k)); rewrite ?Hclose, ?Hend; [done| |done].
  intros l1 x l2 ->. rewrite Hclose. apply match_text_mismatch. change (x :: l2 ++ close_tag tag ++ rest) with ((x :: l2) ++ close_tag tag ++ rest).
  apply mismatch_app. by eapply absent_split.
Qed.

(** The first element of a name, wherever it starts. *)
Lemma search_element pos prev tag pre body rest :
  tag_name tag -> absent true (chars "<" ++ chars tag) pre = true -> absent true (close_tag tag) body = true ->
  search_from (element_regex tag) pos prev (pre ++ element tag body ++ rest) =
  Some (MkMatch (pos + length pre) [(0%nat, element tag body); (1%nat, body)] (Some ">"%char) rest).
Proof.
  intros Htag Hpre Hbody. unfold element_regex, lit. rewrite search_texts, search_skip by done. rewrite <- search_texts.
  change (Seq (text true (chars "<")) _) with (element_regex tag).
  rewrite (search_here _ _ _ _ (MkMatch (pos + length pre) [(0%nat, element tag body); (1%nat, body)] (Some ">"%char) rest)); [done|].
  cbn [match_regex]. fold (element_regex tag).
  rewrite match_element; [|done|done|eauto]. do 3 f_equal. by rewrite length_app, Nat.add_sub, take_app_length.
Qed.

Lemma search_element_first tag pre body rest :
  tag_name tag -> absent true (chars "<" ++ chars tag) pre = true -> absent true (close_tag tag) body = true ->
  group 1 <$> search (element_regex tag) (pre ++ element tag body ++ rest) = Some body.
Proof. intros Htag Hpre Hbody. unfold search. by rewrite search_element. Qed.

(** The search for further elements goes on behind the one that was found. *)
Lemma search_all_element fuel pos prev tag pre body rest :
  tag_name tag -> absent true (chars "<" ++ chars tag) pre = true -> absent true (close_tag tag) body = true ->
  exists m pos', group 1 m = body /\ position m = (pos + length pre)%nat /\
    search_all_from (S fuel) (element_regex tag) pos prev (pre ++ element tag body ++ rest) =
    m :: search_all_from fuel (element_regex tag) pos' (Some ">"%char) rest.
Proof. intros Htag Hpre Hbody. do 2 eexists. cbn [search_all_from]. rewrite search_element by done. by repeat split. Qed.

Lemma search_element_none pos prev tag l : absent true (chars "<" ++ chars tag) l = true -> search_from (element_regex tag) pos prev l = None.
Proof. intros H. unfold element_regex, lit. rewrite search_texts. cbn [chars app] in *. by apply search_none. Qed.

(** ** Lemmas: plain texts *)

Definition plain_char (c : ascii) : bool := negb (bool_decide (c = "<"%char)).

(** A text without markup and without blanks around it. *)
Definition plain (s : string) : Prop := Forall (fun c => plain_char c = true) (chars s) /\ strip_blanks (chars s) = chars s.

Lemma plain_absent p l : Forall (fun c => plain_char c = true) l -> absent true ("<"%char :: p) l = true.
Proof.
  intros H. apply absent_head. eapply Forall_impl; [exact H|]. intros c Hc. unfold same_char. apply bool_decide_false. intros E.
  revert Hc. change (tolower "<") with "<"%char in E. destruct c as [[] [] [] [] [] [] [] []]; done.
Qed.

Lemma plain_no_cdata l : Forall (fun c => plain_char c = true) l -> list_prefixb kCdataOpen l = false.
Proof. intros [|c l' Hc _]; [done|]. cbn. unfold plain_char in Hc. case_bool_decide as E; [|by rewrite bool_decide_false by congruence]. by subst. Qed.

Lemma plain_text s : plain s -> (match strip_blanks (chars s) with [] => [] | body => unwrap_cdata body end) = chars s.
Proof.
  intros [Hp ->]. destruct (chars s) as [|c l]; [done|]. unfold unwrap_cdata. by rewrite plain_no_cdata.
Qed.

(** A name or a mark is plain; so is nothing that opens or closes a tag. *)
Lemma absent_element p tag body :
  mismatch true ("<"%char :: p) (open_tag tag) = true -> mismatch true ("<"%char :: p) (close_tag tag) = true ->
  Forall (fun c => plain_char c = true) (chars tag) -> absent true ("<"%char :: p) body = true ->
  absent true ("<"%char :: p) (element tag body) = true.
Proof.
  intros Ho Hc Ht Hb.
  assert (Forall (fun c => plain_char c = true) (chars tag ++ chars ">")) as Hname by (apply Forall_app; split; [done|by repeat constructor]).
  unfold element. apply absent_app; [|apply absent_app; [done|]].
  - change (open_tag tag) with ("<"%char :: (chars tag ++ chars ">")) in *. cbn [absent]. by rewrite Ho, plain_absent.
  - change (close_tag tag) with ("<"%char :: "/"%char :: (chars tag ++ chars ">")) in *. cbn [absent]. rewrite Hc. cbn [andb].
    change (absent true ("<"%char :: p) ("/"%char :: chars tag ++ chars ">") = true). apply plain_absent. by constructor.
Qed.

Lemma first_tag_text_found tag pre s rest :
  tag_name tag -> absent true (chars "<" ++ chars tag) pre = true -> plain s ->
  first_tag_text (pre ++ element tag (chars s) ++ rest) tag = Some s.
Proof.
  intros Htag Hpre Hs. unfold first_tag_text, search. rewrite search_element; [|done|done|].
  - change (group 1 _) with (chars s). rewrite plain_text by done. by rewrite of_chars_chars.
  - apply plain_absent, Hs.
Qed.

Lemma first_tag_text_absent tag l : absent true (chars "<" ++ chars tag) l = true -> first_tag_text l tag = None.
Proof. intros H. unfold first_tag_text, search. by rewrite search_element_none. Qed.
