(* ===== verification/RssRoundTrip.v ===== *)
(** * Feeds, printed and parsed again

    A reference printer for RSS 2.0 and the proof that [RssDocument.rss_document_parse] reads what
    it prints: every field, every entry, in order. *)

From S2P Require Import Prelude CoreError RssFeedPoller Regex RssDocument.

(** ** The printer *)

(** An element of a name with a text. *)
Definition field : Type := string * string.
Definition print_fields (fields : list field) : list ascii := concat (map (fun f => element f.1 (chars f.2)) fields).

Definition print_enclosure (url : string) : list ascii :=
  chars "<enclosure url=" ++ [double_quote] ++ chars url ++ [double_quote] ++ chars " type=" ++ [double_quote] ++
  chars "application/x-bittorrent" ++ [double_quote] ++ chars "/>".

Record Item := MkItem {
  item_title : string; item_link : string; item_guid : string; item_description : string;
  item_date : option string; item_torrent : option string
}.

Definition item_fields (i : Item) : list field :=
  [("title", item_title i); ("link", item_link i); ("guid", item_guid i); ("description", item_description i)] ++
  (match item_date i with Some d => [("pubDate", d)] | None => [] end).

Definition print_item_body (i : Item) : list ascii :=
  print_fields (item_fields i) ++ (match item_torrent i with Some url => print_enclosure url | None => [] end).
Definition print_item (i : Item) : list ascii := element "item" (print_item_body i).

Record Feed := MkFeed { feed_title : string; feed_link : string; feed_description : string; feed_items : list Item }.

Definition feed_fields (f : Feed) : list field :=
  [("title", feed_title f); ("link", feed_link f); ("description", feed_description f)].
Definition print_head (f : Feed) : list ascii := chars "<rss><channel>" ++ print_fields (feed_fields f).
Definition print_tail : list ascii := chars "</channel></rss>".
Definition print_feed (f : Feed) : string := of_chars (print_head f ++ concat (map print_item (feed_items f)) ++ print_tail).

(** ** Lemmas: fields *)

(** Searching for one name, another element is passed over. *)
Definition separate (tag other : string) : bool :=
  mismatch true (chars "<" ++ chars tag) (open_tag other) && mismatch true (chars "<" ++ chars tag) (close_tag other).

Definition plain_name (tag : string) : Prop := Forall (fun c => plain_char c = true) (chars tag).

Lemma absent_fields p fields :
  Forall (fun f => mismatch true ("<"%char :: p) (open_tag f.1) && mismatch true ("<"%char :: p) (close_tag f.1) = true /\ plain_name f.1 /\ plain f.2) fields ->
  absent true ("<"%char :: p) (print_fields fields) = true.
Proof.
  induction 1 as [|[tag s] fields ([Ho Hc]%andb_true_iff & Hname & Hs) _ IH]; [done|]. unfold print_fields. cbn [map concat].
  apply absent_app; [|exact IH]. apply absent_element; [done|done|exact Hname|]. apply plain_absent, Hs.
Qed.

Lemma first_tag_text_fields tag pre fields rest :
  tag_name tag -> absent true (chars "<" ++ chars tag) pre = true -> absent true (chars "<" ++ chars tag) rest = true ->
  Forall (fun f => (f.1 = tag \/ separate tag f.1 = true) /\ plain_name f.1 /\ plain f.2) fields ->
  first_tag_text (pre ++ print_fields fields ++ rest) tag = snd <$> List.find (fun f => bool_decide (f.1 = tag)) fields.
Proof.
  intros Htag Hpre Hrest Hf. revert pre Hpre. induction Hf as [|[name s] fields (Hn & Hname & Hs) _ IH]; intros pre Hpre.
  - apply first_tag_text_absent, absent_app; done.
  - cbn [List.find fst]. unfold print_fields. cbn [map concat fst snd]. rewrite <- app_assoc. case_bool_decide as Heq.
    + cbn in Heq. subst name. by rewrite first_tag_text_found.
    + rewrite app_assoc. apply IH. apply absent_app; [done|]. cbn [fst snd] in Hn, Hname, Hs. destruct Hn as [|Hsep]; [done|].
      apply andb_true_iff in Hsep as [Ho Hc]. apply absent_element; [done|done|exact Hname|]. apply plain_absent, Hs.
Qed.

(** ** Lemmas: tags and attributes *)

Lemma match_tag {A} tag attrs rest (k : option ascii -> list ascii -> captures -> option A) prev :
  tag_name tag -> at_boundary (Some "a"%char) (head (attrs ++ [">"%char])) = true -> Forall (fun c => none_of [">"%char] c = true) attrs ->
  is_Some (k (Some ">"%char) rest [(1%nat, attrs)]) ->
  match_regex (tag_regex tag) k prev (chars "<" ++ chars tag ++ attrs ++ chars ">" ++ rest) [] = k (Some ">"%char) rest [(1%nat, attrs)].
Proof.
  intros (c & Hc & Hw) Hb Hattrs Hk. unfold tag_regex, lit. cbn [match_regex].
  rewrite !match_text_same. unfold last_of at 1. rewrite Hc.
  assert (at_boundary (Some c) (head (attrs ++ chars ">" ++ rest)) = true) as ->.
  { revert Hb. unfold at_boundary. rewrite Hw. by destruct attrs. }
  assert (forall prev caps, match match_regex (text true (chars "/")) (match_regex (text true (chars ">")) k) prev (chars ">" ++ rest) caps with
    | Some a => Some a | None => match_regex (text true (chars ">")) k prev (chars ">" ++ rest) caps end = k (Some ">"%char) rest caps) as Hend.
  { intros p caps. rewrite match_text_mismatch by done. by rewrite match_text_same. }
  change (chars ">" ++ rest) with (">"%char :: rest) in *.
  rewrite repeat_greedy; [|done|done|]; rewrite Hend, length_app, Nat.add_sub, take_app_length; done.
Qed.

Lemma repeat_none_of {A} q (k : option ascii -> list ascii -> captures -> option A) prev v s caps :
  Forall (fun c => none_of [q] c = true) v -> is_Some (k (last_of prev v) (q :: s) caps) ->
  repeat_class true (none_of [q]) k prev (v ++ q :: s) caps = k (last_of prev v) (q :: s) caps.
Proof.
  intros Hv Hk. apply repeat_greedy; [done| |done]. unfold none_of, class. rewrite bool_decide_true by set_solver. done.
Qed.

Lemma match_attr {A} name v rest (k : option ascii -> list ascii -> captures -> option A) prev :
  Forall (fun c => none_of [double_quote] c = true) v -> is_Some (k (Some double_quote) rest [(1%nat, v)]) ->
  match_regex (attr_regex name double_quote) k prev (chars name ++ "="%char :: double_quote :: v ++ double_quote :: rest) [] =
  k (Some double_quote) rest [(1%nat, v)].
Proof.
  intros Hv Hk. unfold attr_regex, lit. cbn [match_regex]. rewrite match_text_same, repeat_stop by done.
  change ("="%char :: double_quote :: v ++ double_quote :: rest) with (chars "=" ++ double_quote :: v ++ double_quote :: rest).
  rewrite match_text_same, repeat_stop by done. change (class [double_quote] double_quote) with true. cbv iota.
  rewrite repeat_none_of; [|done|]; rewrite length_app, Nat.add_sub, take_app_length; done.
Qed.

Lemma find_attr_found name pre v rest :
  absent true (chars name) pre = true -> Forall (fun c => none_of [double_quote] c = true) v ->
  find_attr (pre ++ chars name ++ "="%char :: double_quote :: v ++ double_quote :: rest) name = Some (of_chars v).
Proof.
  intros Hpre Hv. unfold find_attr, search. unfold attr_regex at 1, lit at 1. rewrite search_skip by done.
  change (Seq (text true (chars name)) _) with (attr_regex name double_quote).
  rewrite (search_here _ _ _ _ (MkMatch (0 + length pre) [(0%nat, chars name ++ "="%char :: double_quote :: v ++ [double_quote]); (1%nat, v)] (Some double_quote) rest)); [done|].
  cbn [match_regex]. fold (attr_regex name double_quote). rewrite match_attr; [|done|eauto]. do 3 f_equal.
  assert (chars name ++ "="%char :: double_quote :: v ++ double_quote :: rest = (chars name ++ "="%char :: double_quote :: v ++ [double_quote]) ++ rest)
    as -> by (rewrite <- !app_assoc; cbn; by rewrite <- !app_assoc).
  by rewrite length_app, Nat.add_sub, take_app_length.
Qed.

(** Decides what is said of each of a few names. *)
Ltac names := repeat first [apply Forall_nil_2 | apply Forall_cons_2; [first [left; reflexivity|right; reflexivity|reflexivity]|]].

(** ** Lemmas: items *)

(** The address of an enclosure: no markup, no quotes, and not the name of the next attribute. *)
Definition attr_safe (url : string) : Prop :=
  Forall (fun c => plain_char c && none_of [">"%char] c && none_of [double_quote] c = true) (chars url) /\
  absent true (chars "type") (chars " url=" ++ [double_quote] ++ chars url ++ [double_quote; " "%char]) = true.

Definition enclosure_attrs (url : string) : list ascii :=
  chars " url=" ++ [double_quote] ++ chars url ++ [double_quote] ++ chars " type=" ++ [double_quote] ++
  chars "application/x-bittorrent" ++ [double_quote; "/"%char].

Lemma enclosure_attrs_eq url : print_enclosure url = chars "<" ++ chars "enclosure" ++ enclosure_attrs url ++ chars ">" ++ [].
Proof. unfold print_enclosure, enclosure_attrs. cbn. by rewrite <- !app_assoc. Qed.

Lemma tag_name_intro tag c : last (chars tag) = Some c -> word_char c = true -> tag_name tag.
Proof. intros H1 H2. by exists c. Qed.

Lemma attr_of_enclosure pre url name :
  absent true (chars "<enclosure") pre = true -> attr_safe url ->
  attr_of_tag (pre ++ print_enclosure url) "enclosure" name =
  match find_attr (enclosure_attrs url) name with
  | Some v => Some v
  | None => (fun m => of_chars (group 1 m)) <$> search (attr_regex name single_quote) (enclosure_attrs url)
  end.
Proof.
  intros Hpre [Hurl _].
  assert (Forall (fun c => none_of [">"%char] c = true) (enclosure_attrs url)) as Hattrs.
  { unfold enclosure_attrs. repeat apply Forall_app_2; try (by repeat constructor).
    eapply Forall_impl; [exact Hurl|]. by intros c [[_ ?]%andb_true_iff _]%andb_true_iff. }
  unfold attr_of_tag, search. rewrite enclosure_attrs_eq. unfold tag_regex, lit.
  rewrite search_texts, search_skip by done. rewrite <- search_texts.
  change (Seq (text true (chars "<")) _) with (tag_regex "enclosure").
  set (l := chars "<" ++ chars "enclosure" ++ enclosure_attrs url ++ chars ">" ++ []).
  rewrite (search_here _ _ _ _ (MkMatch (0 + length pre) [(0%nat, l); (1%nat, enclosure_attrs url)] (Some ">"%char) [])); [done|].
  cbn [match_regex]. fold (tag_regex "enclosure"). subst l. rewrite match_tag; [|by eapply tag_name_intro|done|done|eauto].
  do 3 f_equal. by rewrite Nat.sub_0_r, firstn_all.
Qed.

Lemma enclosure_type pre url :
  absent true (chars "<enclosure") pre = true -> attr_safe url ->
  attr_of_tag (pre ++ print_enclosure url) "enclosure" "type" = Some "application/x-bittorrent".
Proof.
  intros Hpre Hurl. rewrite attr_of_enclosure by done. destruct Hurl as [Hurl Habs].
  replace (enclosure_attrs url) with ((chars " url=" ++ [double_quote] ++ chars url ++ [double_quote; " "%char]) ++ chars "type" ++
    "="%char :: double_quote :: chars "application/x-bittorrent" ++ double_quote :: ["/"%char])
    by (unfold enclosure_attrs; cbn; by rewrite <- !app_assoc).
  rewrite find_attr_found; [done|done|]. by repeat constructor.
Qed.

Lemma enclosure_url pre url :
  absent true (chars "<enclosure") pre = true -> attr_safe url ->
  attr_of_tag (pre ++ print_enclosure url) "enclosure" "url" = Some url.
Proof.
  intros Hpre Hurl. rewrite attr_of_enclosure by done. destruct Hurl as [Hurl _].
  replace (enclosure_attrs url) with (chars " " ++ chars "url" ++ "="%char :: double_quote :: chars url ++ double_quote ::
    (chars " type=" ++ [double_quote] ++ chars "application/x-bittorrent" ++ [double_quote; "/"%char]))
    by (unfold enclosure_attrs; cbn; done).
  rewrite find_attr_found; [by rewrite of_chars_chars|done|].
  eapply Forall_impl; [exact Hurl|]. by intros c [_ ?]%andb_true_iff.
Qed.

Lemma absent_enclosure p url :
  mismatch true ("<"%char :: p) (chars "<enclosure") = true -> attr_safe url -> absent true ("<"%char :: p) (print_enclosure url) = true.
Proof.
  intros Hm [Hurl _]. unfold print_enclosure. change (chars "<enclosure url=") with (chars "<enclosure" ++ chars " url=").
  rewrite <- app_assoc. change (chars "<enclosure") with ("<"%char :: chars "enclosure") in *. cbn [app absent].
  change ("<"%char :: chars "enclosure" ++ ?l) with (("<"%char :: chars "enclosure") ++ l). rewrite mismatch_app by done. cbn [andb].
  apply plain_absent. repeat first [apply Forall_app_2 | apply Forall_cons_2; [done|]]; try (by repeat constructor).
  eapply Forall_impl; [exact Hurl|]. by intros c [[? _]%andb_true_iff _]%andb_true_iff.
Qed.

Lemma attr_of_tag_absent tag attr l : absent true (chars "<" ++ chars tag) l = true -> attr_of_tag l tag attr = None.
Proof. intros H. unfold attr_of_tag, search, tag_regex, lit. rewrite search_texts. by rewrite (search_none true "<"%char (chars tag)). Qed.

(** The texts that the printer can print. *)
Definition item_printable (i : Item) : Prop :=
  Forall (fun f => plain f.2) (item_fields i) /\ (forall url, item_torrent i = Some url -> attr_safe url).

Definition feed_printable (f : Feed) : Prop := Forall (fun x => plain x.2) (feed_fields f) /\ Forall item_printable (feed_items f).

Lemma absent_torrent p (t : option string) :
  mismatch true ("<"%char :: p) (chars "<enclosure") = true -> (forall url, t = Some url -> attr_safe url) ->
  absent true ("<"%char :: p) (match t with Some url => print_enclosure url | None => [] end) = true.
Proof. intros Hm Ht. destruct t as [url|]; [by apply absent_enclosure, Ht|done]. Qed.

(** The names of an item's fields. *)
Definition item_names : list string := ["title"; "link"; "guid"; "description"; "pubDate"].

Lemma item_fields_names i : Forall (fun f => f.1 ∈ item_names) (item_fields i).
Proof. unfold item_fields, item_names. apply Forall_app_2; [|destruct (item_date i)]; repeat constructor; cbn [fst]; set_solver. Qed.

Lemma item_name_plain tag : tag ∈ item_names -> plain_name tag /\ tag_name tag.
Proof.
  unfold item_names. rewrite !elem_of_cons. unfold plain_name, tag_name.
  intros [->|[->|[->|[->|[->|[]%elem_of_nil]]]]]; (split; [by repeat constructor|eexists; (split; [reflexivity|done])]).
Qed.

Lemma item_fields_for p i :
  Forall (fun name => mismatch true ("<"%char :: p) (open_tag name) && mismatch true ("<"%char :: p) (close_tag name) = true) item_names ->
  item_printable i -> absent true ("<"%char :: p) (print_fields (item_fields i)) = true.
Proof.
  intros Hp [Hplain _]. apply absent_fields. apply Forall_forall. intros f Hf.
  rewrite Forall_forall in Hplain. rewrite Forall_forall in Hp. pose proof (item_fields_names i) as Hnames. rewrite Forall_forall in Hnames. specialize (Hnames f Hf).
  split; [by apply Hp|]. split; [by apply (item_name_plain f.1)|by apply Hplain].
Qed.

Lemma item_text tag i :
  tag ∈ item_names -> Forall (fun name => name = tag \/ separate tag name = true) item_names ->
  mismatch true (chars "<" ++ chars tag) (chars "<enclosure") = true -> item_printable i ->
  first_tag_text (print_item_body i) tag = snd <$> List.find (fun f => bool_decide (f.1 = tag)) (item_fields i).
Proof.
  intros Htag Hsep Henc [Hplain Hurl]. unfold print_item_body.
  change (print_fields (item_fields i) ++ ?r) with ([] ++ print_fields (item_fields i) ++ r).
  apply first_tag_text_fields; [|done|by apply absent_torrent|].
  - by apply (item_name_plain tag).
  - apply Forall_forall. intros f Hf.
    rewrite Forall_forall in Hplain. rewrite Forall_forall in Hsep. pose proof (item_fields_names i) as Hnames. rewrite Forall_forall in Hnames. specialize (Hnames f Hf).
    split; [by apply Hsep|]. split; [by apply (item_name_plain f.1)|by apply Hplain].
Qed.

(** ** Lemmas: documents *)

Section Documents.
  Context `{clib : !GetTime}.

(** The entry that an item describes. *)
Definition item_entry (i : Item) : RssEntry :=
  MkEntry (guid_or_link (item_guid i) (item_link i)) (item_title i) (item_link i)
    (find_magnet (Some (item_description i)) (print_item_body i)) (item_torrent i) (Some (item_description i))
    (match item_date i with Some d => parse_rfc822 d | None => None end).

Definition feed_document (f : Feed) : RssDocument :=
  MkDocument (feed_title f) (feed_link f) (Some (feed_description f)) (map item_entry (feed_items f)).

Lemma item_texts i : item_printable i ->
  first_tag_text (print_item_body i) "title" = Some (item_title i) /\ first_tag_text (print_item_body i) "link" = Some (item_link i) /\
  first_tag_text (print_item_body i) "guid" = Some (item_guid i) /\ first_tag_text (print_item_body i) "description" = Some (item_description i) /\
  first_tag_text (print_item_body i) "pubDate" = item_date i.
Proof.
  intros Hi. repeat split; (rewrite item_text; [|unfold item_names; set_solver|unfold item_names; names|done|done]); unfold item_fields; by destruct (item_date i).
Qed.

Lemma item_enclosure i : item_printable i ->
  match attr_of_tag (print_item_body i) "enclosure" "type" with
  | Some t => if bool_decide (t = "application/x-bittorrent") then attr_of_tag (print_item_body i) "enclosure" "url" else None
  | None => None
  end = item_torrent i.
Proof.
  intros Hi. assert (absent true (chars "<enclosure") (print_fields (item_fields i)) = true) as Habs.
  { apply item_fields_for; [unfold item_names; names|done]. }
  destruct Hi as [_ Hurl]. unfold print_item_body. destruct (item_torrent i) as [url|].
  - rewrite enclosure_type, enclosure_url by auto. done.
  - rewrite app_nil_r, attr_of_tag_absent by done. done.
Qed.

Lemma parse_printed_item i : item_printable i -> parse_rss_item (print_item_body i) = item_entry i.
Proof.
  intros Hi. destruct (item_texts i Hi) as (Ht & Hl & Hg & Hd & Hp). unfold parse_rss_item, item_entry.
  by rewrite Ht, Hl, Hg, Hd, Hp, item_enclosure.
Qed.

Lemma item_body_closed i : item_printable i -> absent true (close_tag "item") (print_item_body i) = true.
Proof.
  intros Hi. unfold print_item_body. apply absent_app; [|apply (absent_torrent (chars "/item>")); [done|apply Hi]].
  apply (item_fields_for (chars "/item>")); [unfold item_names; names|done].
Qed.

Lemma item_tag_name : tag_name "item".
Proof. by eapply tag_name_intro. Qed.

Lemma search_all_items fuel pos prev pre items :
  Forall item_printable items -> absent true (chars "<item") pre = true -> (length items <= fuel)%nat ->
  map (fun m => parse_rss_item (group 1 m)) (search_all_from fuel item_regex pos prev (pre ++ concat (map print_item items) ++ print_tail)) =
  map item_entry items.
Proof.
  intros Hitems. revert fuel pos prev pre. induction Hitems as [|i items Hi _ IH]; intros fuel pos prev pre Hpre Hf.
  - destruct fuel as [|fuel]; [done|]. cbn [map concat app search_all_from]. unfold item_regex.
    rewrite search_element_none; [done|]. by apply absent_app.
  - destruct fuel as [|fuel]; [cbn in Hf; lia|]. cbn [map concat]. rewrite <- app_assoc. unfold print_item at 1.
    destruct (search_all_element fuel pos prev "item" pre (print_item_body i) (concat (map print_item items) ++ print_tail))
      as (m & pos' & Hg & _ & Hs); [apply item_tag_name|done|by apply item_body_closed|].
    unfold item_regex in *. rewrite Hs. cbn [map]. rewrite Hg, parse_printed_item by done. f_equal.
    apply (IH fuel pos' _ []); [done|]. cbn in Hf. lia.
Qed.

Lemma length_print_items items : (length items <= length (concat (map print_item items)))%nat.
Proof.
  induction items as [|i items IH]; [done|]. cbn [map concat length]. rewrite length_app.
  assert (1 <= length (print_item i))%nat by (unfold print_item, element, open_tag; cbn; lia). lia.
Qed.

(** What precedes the first item holds the fields of the channel. *)
Lemma before_first_item head items :
  Forall item_printable items -> absent true (chars "<item") head = true ->
  exists rest, before_first item_regex (head ++ concat (map print_item items) ++ print_tail) = head ++ rest /\ (rest = [] \/ rest = print_tail).
Proof.
  intros Hitems Hhead. unfold before_first, search_all. destruct items as [|i items].
  - exists print_tail. split; [|by right]. cbn [map concat app]. unfold item_regex.
    destruct (length (head ++ print_tail)); [done|]. cbn [search_all_from]. rewrite search_element_none; [done|]. by apply absent_app.
  - exists []. split; [|by left]. rewrite app_nil_r. inversion Hitems; subst.
    set (rest := concat (map print_item items) ++ print_tail).
    assert (concat (map print_item (i :: items)) ++ print_tail = element "item" (print_item_body i) ++ rest) as ->
      by (cbn [map concat]; by rewrite <- app_assoc).
    destruct (length (head ++ element "item" (print_item_body i) ++ rest)) as [|fuel] eqn:Hlen.
    { rewrite length_app in Hlen. unfold element, open_tag in Hlen. cbn in Hlen. lia. }
    destruct (search_all_element fuel 0 None "item" head (print_item_body i) rest) as (m & pos' & _ & Hp & Hs);
      [apply item_tag_name|done|by apply item_body_closed|].
    unfold item_regex. rewrite Hs, Hp. by rewrite Nat.add_0_l, take_app_length.
Qed.

Lemma head_text f tag rest :
  Forall (fun x => plain x.2) (feed_fields f) -> tag ∈ ["title"; "link"; "description"] ->
  Forall (fun name => name = tag \/ separate tag name = true) ["title"; "link"; "description"] -> rest = [] \/ rest = print_tail ->
  absent true (chars "<" ++ chars tag) (chars "<rss><channel>") = true -> absent true (chars "<" ++ chars tag) print_tail = true ->
  first_tag_text (print_head f ++ rest) tag = snd <$> List.find (fun x => bool_decide (x.1 = tag)) (feed_fields f).
Proof.
  intros Hplain Htag Hsep Hrest Hopen Htail. unfold print_head. rewrite <- app_assoc.
  assert (tag ∈ item_names) as Hnames by (unfold item_names; set_solver).
  apply first_tag_text_fields; [by apply (item_name_plain tag)|done|by destruct Hrest; subst|].
  rewrite Forall_forall in Hsep. rewrite Forall_forall in Hplain. apply Forall_forall. intros x Hx.
  assert (x.1 ∈ ["title"; "link"; "description"]) as Hn by (unfold feed_fields in Hx; set_solver).
  split; [by apply Hsep|]. split; [|by apply Hplain]. apply (item_name_plain x.1). unfold item_names. set_solver.
Qed.

End Documents.

(** C36. Parsing a printed feed gives back the channel's title, link and description and one entry for
    each item, in order, with the item's title, link, description, date and torrent; the guid
    falls back to the link, and the magnet link is the first of the description or the item.
    The markup must not occur in the texts, and the address of an enclosure must not contain the
    name of its next attribute. *)
Theorem rss_print_parse `{clib : !GetTime} (f : Feed) :
  feed_printable f -> rss_document_parse (print_feed f) = Ok (feed_document f).
Proof.
  intros [Hplain Hitems].
  assert (absent true (chars "<item") (print_head f) = true) as Hhead.
  { apply absent_app; [done|]. apply absent_fields. unfold feed_fields in *. inversion_clear Hplain as [|? ? H1 Hp].
    inversion_clear Hp as [|? ? H2 Hp']. inversion_clear Hp' as [|? ? H3 _].
    repeat (apply Forall_cons_2; [split; [done|split; [by repeat constructor|done]]|]). done. }
  destruct (before_first_item (print_head f) (feed_items f) Hitems Hhead) as (rest & Hbefore & Hrest).
  unfold rss_document_parse. assert (str_empty (print_feed f) = false) as -> by done.
  unfold print_feed. rewrite chars_of_chars. rewrite bool_decide_true by (unfold print_head; cbn; eauto).
  unfold parse_rss. rewrite Hbefore.
  rewrite !head_text; [|try done; try set_solver; try names..].
  unfold search_all. change item_regex with (element_regex "item") at 1. fold item_regex.
  rewrite search_all_items; [done|done|done|]. rewrite !length_app. pose proof (length_print_items (feed_items f)). lia.
Qed.

(** A clock that reads one date. *)
Definition sample_time : GetTime := fun format text =>
  if bool_decide (format = "%a, %d %b %Y %H:%M:%S") && bool_decide (text = "Wed, 02 Oct 2002 13:00:00 GMT")
  then Some (MkTm 2002 10 2 13 0 0) else None.

Definition sample_feed : Feed := MkFeed "News" "http://x" "All of it"
  [MkItem "One" "http://x/1" "" "first magnet:?xt=urn:btih:ab01&dn=x y" (Some "Wed, 02 Oct 2002 13:00:00 GMT") (Some "http://x/1.torrent");
   MkItem "Two" "http://x/2" "g2" "" None None].

Lemma sample_printable : feed_printable sample_feed.
Proof.
  split; [repeat constructor|]. apply Forall_cons_2; [|apply Forall_cons_2; [|done]].
  - split; [repeat constructor|]. intros url [= <-]. split; [by repeat constructor|by vm_compute].
  - split; [repeat constructor|]. intros url [=].
Qed.

Lemma rss_print_parse_witness :
  @rss_document_parse sample_time (print_feed sample_feed) =
  Ok (MkDocument "News" "http://x" (Some "All of it")
    [MkEntry "http://x/1" "One" "http://x/1" (Some "magnet:?xt=urn:btih:ab01&dn=x") (Some "http://x/1.torrent") (Some "first magnet:?xt=urn:btih:ab01&dn=x y")
       (Some 1033563600000000000);
     MkEntry "g2" "Two" "http://x/2" None None (Some "") None]).
Proof. rewrite (@rss_print_parse sample_time sample_feed sample_printable). by vm_compute. Defined.
