(* ===== verification/RcloneUploader.v ===== *)
(** * The rclone uploader: [upload/rclone_uploader.cpp]

    The flags, the parser of progress lines over [Regex], the cached probe and the uploads over
    any [SubprocessRunner]. *)

From S2P Require Import Prelude CoreError ByteSize ConfigData Progress Ports Files Regex Subprocess.

Local Open Scope coro_scope.

(** ** Progress lines *)

(** [struct ParsedProgress], when valid. *)
Record ParsedProgress := MkParsed { uploaded_bytes : Z; total_bytes : Z; speed_bps : Z; eta : Z }.

Definition unit_to_factor (unit : string) : Z :=
  if bool_decide (unit ∈ ["B"; ""]) then 1
  else if bool_decide (unit ∈ ["KiB"; "K"]) then 1024
  else if bool_decide (unit ∈ ["MiB"; "M"]) then 1024 ^ 2
  else if bool_decide (unit ∈ ["GiB"; "G"]) then 1024 ^ 3
  else if bool_decide (unit ∈ ["TiB"; "T"]) then 1024 ^ 4
  else 1.

(** [parse_eta]: the total, the number being read, whether there is one. *)
Definition eta_char (st : Z * Z * bool) (c : ascii) : Z * Z * bool :=
  let '(total, num, have_num) := st in
  if isdigit c then (total, num * 10 + digit_value c, true)
  else if have_num then
    (if bool_decide (c = "h"%char) then total + num * 3600
     else if bool_decide (c = "m"%char) then total + num * 60
     else if bool_decide (c = "s"%char) then total + num
     else total, 0, false)
  else st.

Definition parse_eta (text : string) : Z :=
  if str_empty text || bool_decide (text = "-") then 0
  else let '(total, num, have_num) := foldl eta_char (0, 0, false) (chars text) in if have_num then total + num else total.

Definition number_regex (n : nat) : regex := Group n (Seq (Char (fun c => isdigit c || bool_decide (c = "."%char))) (Star true (fun c => isdigit c || bool_decide (c = "."%char)))).
Definition unit_regex (n : nat) : regex :=
  Opt (Group n (Seq (Opt (Char (class ["K"%char; "M"%char; "G"%char; "T"%char; "P"%char]))) (Seq (Opt (lit false "i")) (lit false "B")))).
Definition eta_class (c : ascii) : bool := isdigit c || class ["h"%char; "m"%char; "s"%char; "-"%char] c.
Definition blanks : regex := Star true isspace.

Definition sequence (l : list regex) : regex := foldr Seq Eps l.

(** [kRe]. *)
Definition kRe : regex :=
  sequence [lit false "Transferred:"; blanks; number_regex 1; blanks; unit_regex 2; blanks; lit false "/"; blanks; number_regex 3; blanks;
    unit_regex 4; lit false ","; blanks; Char isdigit; Star true isdigit; lit false "%,"; blanks; number_regex 5; blanks; unit_regex 6; lit false "/s";
    Opt (sequence [lit false ","; blanks; lit false "ETA"; blanks; Group 7 (Seq (Char eta_class) (Star true eta_class))])].

(** [std::stod] of digits and points: the longest decimal number at the front, rounded once; it
    throws without a digit and beyond the range of [double]. *)
Definition stod (l : list ascii) : option double :=
  let whole := take_while isdigit l in
  let fraction := match drop_while isdigit l with
                  | c :: rest => if bool_decide (c = "."%char) then take_while isdigit rest else []
                  | [] => []
                  end in
  match whole ++ fraction with
  | [] => None
  | digits =>
      let n := dec_value 0 digits in
      let v := round_fraction n (10 ^ Z.of_nat (length fraction)) in
      if (2 ^ 1024 * d_den v <=? d_num v) || ((0 <? n) && (d_num v * 2 ^ 1022 <? d_den v)) then None else Some v
  end.

(** [static_cast<std::int64_t>] of a non-negative [double]; x86-64 gives the least integer when it
    does not fit. *)
Definition cast_int64 (v : double) : Z := let n := d_num v / d_den v in if n <=? INT64_MAX then n else INT64_MIN.

Definition amount (m : Match) (number unit : nat) : option Z :=
  (fun v => cast_int64 (mul_double v (double_of_Z (unit_to_factor (of_chars (group unit m)))))) <$> stod (group number m).

(** [parse_line]; nothing for the invalid value. *)
Definition parse_line (line : string) : option ParsedProgress :=
  if negb (str_contains line "Transferred:") then None
  else match search kRe (chars line) with
       | None => None
       | Some m =>
           match amount m 1 2, amount m 3 4, amount m 5 6 with
           | Some uploaded, Some total, Some speed =>
               Some (MkParsed uploaded total speed (match capture 7 (groups m) with Some e => parse_eta (of_chars e) | None => 0 end))
           | _, _, _ => None
           end
       end.

Example parse_sample :
  parse_line "Transferred:   12.34 MiB / 100.00 MiB, 12%, 1.23 MiB/s, ETA 1m10s" = Some (MkParsed 12939427 104857600 1289748 70).
Proof. by vm_compute. Qed.

(** ** Arguments *)

(** [join_remote]. *)
Definition join_remote (base leaf : string) : string :=
  match last (chars base) with
  | Some c => if bool_decide (c = "/"%char) || bool_decide (c = ":"%char) then base +:+ leaf else base +:+ "/" +:+ leaf
  | None => leaf
  end.

(** [build_common_rclone_args]. *)
Definition build_common_rclone_args (cfg : RcloneConfig) : list string :=
  ["--progress"; "--stats=1s"; "--stats-one-line";
   "--transfers=" +:+ fmt_int (rc_transfers cfg); "--checkers=" +:+ fmt_int (rc_checkers cfg);
   "--multi-thread-streams=" +:+ fmt_int (rc_multi_thread_streams cfg); "--multi-thread-cutoff=" +:+ rc_multi_thread_cutoff cfg;
   "--drive-chunk-size=" +:+ rc_drive_chunk_size cfg; "--buffer-size=" +:+ rc_buffer_size cfg] ++
  (if rc_use_mmap cfg then ["--use-mmap"] else []) ++
  (if rc_fast_list cfg then ["--fast-list"] else []) ++
  (if rc_drive_acknowledge_abuse cfg then ["--drive-acknowledge-abuse"] else []) ++
  ["--log-level=" +:+ rc_log_level cfg] ++
  (if str_empty (rc_config_path cfg) then [] else ["--config"; rc_config_path cfg]) ++
  rc_extra_args cfg.

Section Rclone.
  Context {W : Type} `{runner : !SubprocessRunner W} `{clock : !SteadyClock W} `{stop : !Cancellation W} `{files : !Files W}.
  Context (config : RcloneConfig).

(** The cached verdict of the probe, [None] before it. *)
Notation Readiness := (option bool).

Definition rclone_request (arguments : list string) : SubprocessRequest := request_of (rc_executable config) arguments.

(** [is_ready]. *)
Definition rclone_is_ready (readiness : Readiness) : bool := bool_decide (readiness = Some true).

(** [probe_rclone]: run once, then remembered, the failure too. *)
Definition probe_rclone : M (Readiness * W) bool :=
  co_await cached <- get_state;
  match cached with
  | Some ready => co_return ready
  | None =>
      co_await res <- lift (run_quietly (rclone_request ["--version"]));
      let ready := match res with Ok r => exit_code r =? 0 | Err _ => false end in
      co_do put_state (Some ready);
      co_return ready
  end.

(** What the callback of [run_rclone] captures: [last_cb] and [total_seen]. *)
Record Watch := MkWatch { last_cb : Z; total_seen : Z }.

Definition report_of (display_name : string) (p : ParsedProgress) : UploadProgress :=
  MkProgress display_name (total_bytes p) (uploaded_bytes p) 0 1 (speed_bps p) (eta p).

(** [on_stdout_line]; a report a second at most. *)
Definition watch_line (display_name : string) (on_progress : option (UploadProgress -> M W unit)) (line : string) : M (Watch * W) unit :=
  match parse_line line with
  | None => co_return ()
  | Some p =>
      co_await watch <- get_state;
      co_do put_state (MkWatch (last_cb watch) (total_bytes p));
      co_await now <- lift steady_clock_now;
      match on_progress with
      | None => co_return ()
      | Some report =>
          if now - last_cb watch <? 1000000000 then co_return ()
          else co_do put_state (MkWatch now (total_bytes p)); lift (report (report_of display_name p))
      end
  end.

(** The run of rclone, once it may start. *)
Definition transfer (args : list string) (display_name : string) (on_progress : option (UploadProgress -> M W unit)) (started : Z)
  : M W (Result UploadResult) :=
  co_await now <- steady_clock_now;
  co_await run <- (fun w => let '(r, (watch, w')) :=
    subprocess_run Watch (rclone_request args) (watch_line display_name on_progress) (MkWatch (now - 2000000000) 0, w) in ((r, total_seen watch), w'));
  match run with
  | (Err e, _) => co_return (Err e)
  | (Ok res, total) =>
      if negb (exit_code res =? 0)
      then co_return (error RcloneInvocation ("rclone: exited " +:+ fmt_int (exit_code res) +:+ ": " +:+ stderr_data res))
      else
        co_await finished <- steady_clock_now;
        co_return (Ok (MkUploadResult display_name "" total ((finished - started) / 1000000)))
  end.

(** [run_rclone]. *)
Definition run_rclone (args : list string) (display_name : string) (on_progress : option (UploadProgress -> M W unit))
  : M (Readiness * W) (Result UploadResult) :=
  co_await started <- lift steady_clock_now;
  co_await available <- probe_rclone;
  if negb available then co_return (error RcloneInvocation "rclone: binary unavailable (probe failed)")
  else
    co_await stopped <- lift cancellation_requested;
    if stopped : bool then co_return (error Cancelled "rclone: cancelled")
    else lift (transfer args display_name on_progress started).

(** The destination of an upload, when [rclone_path] is set. *)
Definition destination (config : UploadConfig) (path : string) : option string :=
  match uc_rclone_path config with
  | Some base => if str_empty base then None else Some (join_remote base (filename path))
  | None => None
  end.

Definition no_remote {A} : Result A := error InvalidArgument ("rclone: UploadConfig.rclone_path is required (" +:+ of_chars [quote] +:+ "remote:path" +:+ of_chars [quote] +:+ ")").

(** [RcloneUploader::upload_file]; [exists] with an error code answers no on an error. *)
Definition rclone_upload_file (path : string) (cfg : UploadConfig) (on_progress : option (UploadProgress -> M W unit))
  : M (Readiness * W) (Result UploadResult) :=
  match destination cfg path with
  | None => co_return no_remote
  | Some dest =>
      co_await found <- lift (fs_exists path);
      if negb found then co_return (error NotFound ("rclone: file not found: " +:+ path))
      else run_rclone (["copyto"; path; dest] ++ build_common_rclone_args config) (filename path) on_progress
  end.

(** [RcloneUploader::upload_directory]: one result for the whole tree. *)
Definition rclone_upload_directory (path : string) (cfg : UploadConfig) (on_progress : option (UploadProgress -> M W unit))
  : M (Readiness * W) (Result (list UploadResult)) :=
  match destination cfg path with
  | None => co_return no_remote
  | Some dest =>
      co_await directory <- lift (fs_is_directory path);
      if negb directory then co_return (error InvalidArgument ("rclone: not a directory: " +:+ path))
      else
        co_try single <- run_rclone (["copy"; path; dest] ++ build_common_rclone_args config) (filename path) on_progress;
        co_return (Ok [single])
  end.

(** ** A successful upload *)

(** Success means that the remote was set, the file was there, the probe had answered, and
    [rclone copyto] with the configured flags ended with exit code 0; the size is the total of
    its last progress line. *)
Theorem rclone_upload_complete path cfg on_progress readiness w r readiness' w' :
  rclone_upload_file path cfg on_progress (readiness, w) = (Ok r, (readiness', w')) ->
  exists dest w1 w2 now res watch,
    destination cfg path = Some dest /\ (fs_exists path w).1 = true /\ rclone_is_ready readiness' = true /\
    subprocess_run Watch (rclone_request (["copyto"; path; dest] ++ build_common_rclone_args config)) (watch_line (filename path) on_progress)
      (MkWatch (now - 2000000000) 0, w1) = (Ok res, (watch, w2)) /\
    exit_code res = 0 /\ ur_file_id r = filename path /\ ur_size r = total_seen watch.
Proof.
  unfold rclone_upload_file. destruct (destination cfg path) as [dest|]; [|intros [=]]. rewrite mbind_proj. cbn [lift fst snd].
  destruct (fs_exists path w) as [found w0]. cbn [fst snd]. destruct found; cbn [negb]; [|intros [=]].
  unfold run_rclone. rewrite !mbind_proj. cbn [lift fst snd]. destruct (steady_clock_now w0) as [started w1]. cbn [fst snd].
  destruct (probe_rclone (readiness, w1)) as [ready [readiness2 w2]] eqn:Hprobe. cbn [fst snd]. destruct ready; cbn [negb]; [|intros [=]].
  assert (readiness2 = Some true) as ->.
  { unfold probe_rclone in Hprobe. rewrite mbind_proj in Hprobe. cbn [get_state fst snd] in Hprobe. destruct readiness as [b|].
    - unfold mreturn in Hprobe. by simplify_eq.
    - rewrite !mbind_proj in Hprobe. unfold mreturn in Hprobe. cbn [lift put_state fst snd] in Hprobe. injection Hprobe as H <- _. by rewrite H. }
  rewrite mbind_proj. cbn [lift fst snd]. destruct (cancellation_requested w2) as [stopped w3]. cbn [fst snd]. destruct stopped; [intros [=]|].
  unfold lift. unfold transfer. rewrite !mbind_proj. cbn [fst snd]. destruct (steady_clock_now w3) as [now w4]. cbn [fst snd].
  destruct (subprocess_run Watch _ _ _) as [[res|e] [watch w5]] eqn:Hrun; cbn [fst snd]; [|intros [=]].
  destruct (exit_code res =? 0) eqn:Hz; cbn [negb]; [|intros [=]]. rewrite !mbind_proj. cbn [mreturn fst snd]. intros [= <- <- <-].
  exists dest, w4, w5, now, res, watch. split_and!; try done. by apply Z.eqb_eq.
Qed.

(** ** Progress reports *)

Section Reports.
  Context (time : W -> Z) (reports : W -> list (Z * UploadProgress)) (around : W -> W -> Prop).

(** The clock reads the time, which passes around the callback and while a report is handled;
    the handler's reports are logged with their time. *)
Class Observed (report : UploadProgress -> M W unit) : Prop := {
  clock_reads w : steady_clock_now w = (time w, w);
  around_passes w w' : around w w' -> time w <= time w' /\ reports w' = reports w;
  report_logs p w : time w <= time (report p w).2 /\ reports (report p w).2 = reports w ++ [(time w, p)]
}.
Context (report : UploadProgress -> M W unit) `{observed : !Observed report} `{laws : !SubprocessLaws W around}.

(** A second between any two reports in a row, each from a line that rclone printed. *)
Definition throttled (l : list (Z * UploadProgress)) : Prop :=
  forall l1 a b l2, l = l1 ++ a :: b :: l2 -> a.1 + 1000000000 <= b.1.
Definition from_lines (display_name : string) (l : list (Z * UploadProgress)) : Prop :=
  Forall (fun r => exists line p, parse_line line = Some p /\ r.2 = report_of display_name p) l.

Lemma throttled_snoc l x : throttled l -> (forall y, last l = Some y -> y.1 + 1000000000 <= x.1) -> throttled (l ++ [x]).
Proof.
  intros Hl Hx l1 a b l2 E. destruct l2 as [|c l2 _] using rev_ind.
  - change (l1 ++ [a; b]) with (l1 ++ [a] ++ [b]) in E. rewrite app_assoc in E. apply app_inj_tail in E as [-> ->]. apply Hx. apply last_snoc.
  - change (l1 ++ a :: b :: l2 ++ [c]) with (l1 ++ (a :: b :: l2) ++ [c]) in E. rewrite app_assoc in E. apply app_inj_tail in E as [-> _]. by apply (Hl l1 a b l2).
Qed.

(** What the callback keeps while the lines come in. *)
Definition watched (display_name : string) (old : list (Z * UploadProgress)) (c : Watch * W) : Prop :=
  exists new, reports c.2 = old ++ new /\ throttled new /\ from_lines display_name new /\ (forall y, last new = Some y -> y.1 <= last_cb c.1).

Lemma watch_line_ok display_name old line c :
  watched display_name old c -> watched display_name old (watch_line display_name (Some report) line c).2.
Proof.
  intros (new & Hr & Ht & Hf & Hl). destruct c as [watch w]. cbn [fst snd] in Hr, Hl. unfold watch_line. destruct (parse_line line) as [p|] eqn:Hp.
  2:{ exists new. by split_and!. }
  rewrite !mbind_proj. cbn [get_state put_state lift fst snd]. rewrite clock_reads. cbn [fst snd]. destruct (time w - last_cb watch <? 1000000000) eqn:Hlt.
  { exists new. by split_and!. }
  rewrite mbind_proj. cbn [put_state lift fst snd]. destruct (report_logs (report_of display_name p) w) as [_ Hlog].
  exists (new ++ [(time w, report_of display_name p)]). cbn [fst snd last_cb]. split_and!.
  - by rewrite Hlog, Hr, app_assoc.
  - apply throttled_snoc; [done|]. intros y Hy. specialize (Hl y Hy). cbn [fst]. apply Z.ltb_ge in Hlt. lia.
  - apply Forall_app. split; [done|]. constructor; [|done]. by exists line, p.
  - intros y. rewrite last_snoc. by intros [= <-].
Qed.

Lemma fed_ok display_name old lines c c' :
  fed around (watch_line display_name (Some report)) lines c c' -> watched display_name old c -> watched display_name old c'.
Proof.
  induction 1 as [s w w' Ha|line lines s w w' c Ha _ IH]; intros (new & Hr & H).
  - exists new. destruct (around_passes w w' Ha) as [_ E]. cbn [fst snd] in *. by rewrite E.
  - apply IH, watch_line_ok. exists new. destruct (around_passes w w' Ha) as [_ E]. cbn [fst snd] in *. by rewrite E.
Qed.

(** Whatever rclone prints and however long it runs: the reports of a transfer come from lines
    that it printed, and any two in a row are at least a second apart. *)
Theorem rclone_progress_throttled args display_name started w r w' :
  transfer args display_name (Some report) started w = (r, w') ->
  exists new, reports w' = reports w ++ new /\ throttled new /\ from_lines display_name new.
Proof.
  unfold transfer. rewrite !mbind_proj. rewrite clock_reads. cbn [fst snd].
  destruct (run_feeds Watch (rclone_request args) (watch_line display_name (Some report)) (MkWatch (time w - 2000000000) 0) w) as [lines Hfed].
  assert (watched display_name (reports w) (MkWatch (time w - 2000000000) 0, w)) as H0.
  { exists []. rewrite app_nil_r. split_and!; [done| |by apply Forall_nil_2|done]. intros l1 a b l2 E. by destruct l1. }
  destruct (subprocess_run Watch _ _ _) as [res [watch w2]]. cbn [fst snd] in *. destruct (fed_ok _ _ _ _ _ Hfed H0) as (new & Hr & Ht & Hf & _).
  intros E. exists new. split_and!; [|done|done]. cbn [snd] in Hr. rewrite <- Hr. destruct res as [res|e]; [|by injection E as _ <-].
  destruct (negb _); [by injection E as _ <-|]. rewrite mbind_proj, clock_reads in E. by injection E as _ <-.
Qed.

End Reports.

End Rclone.

(** ** Concrete runs *)

(** A world of a time and the reports so far, where rclone prints a line each 600 ms. *)
Module MemRclone.
Definition World : Type := Z * list (Z * UploadProgress).
Definition tick (w : World) : World := (w.1 + 600000000, w.2).
Definition printed : list string :=
  ["Transferred: 1 MiB / 4 MiB, 25%, 1 MiB/s, ETA 3s"; "Transferred: 2 MiB / 4 MiB, 50%, 1 MiB/s, ETA 2s"; "done";
   "Transferred: 3 MiB / 4 MiB, 75%, 1 MiB/s, ETA 1s"].
Definition play {S} (callback : string -> M (S * World) unit) (lines : list string) (c : S * World) : S * World :=
  foldl (fun c line => (callback line (c.1, tick c.2)).2) c lines.

#[export] Instance runner : SubprocessRunner World := fun S request callback c =>
  (Ok (MkResult 0 "" "" 0 false false), play callback printed c).
#[export] Instance clock : SteadyClock World := fun w => (w.1, w).
#[export] Instance stop : Cancellation World := fun w => (false, w).
#[export] Instance files : Files World := {|
  fs_exists path w := (true, w); fs_file_size path w := (inr 0, w); fs_is_directory path w := (true, w);
  read_file path w := (None, w); can_open path w := (false, w) |}.
Definition around (w w' : World) : Prop := w.1 <= w'.1 /\ w'.2 = w.2.
Definition report (p : UploadProgress) : M World unit := fun w => ((), (w.1, w.2 ++ [(w.1, p)])).

Lemma play_fed {S} (callback : string -> M (S * World) unit) lines c : fed around callback lines c (play callback lines c).
Proof.
  revert c. induction lines as [|line lines IH]; intros [s w].
  - apply fed_end. split; [lia|done].
  - apply (fed_line _ _ _ _ _ _ (tick w)); [split; [cbn; lia|done]|]. apply IH.
Qed.

#[export] Instance laws : SubprocessLaws World around.
Proof. intros S request callback s w. exists printed. apply play_fed. Qed.
#[export] Instance observed : Observed fst snd around report.
Proof. by split. Qed.
End MemRclone.

Import MemRclone.

Lemma rclone_progress_throttled_witness :
  exists r w', transfer default_rclone ["copyto"; "a"; "remote:a"] "a" (Some report) 0 (5, []) = (r, w') /\
    map (fun x : Z * UploadProgress => (x.1, up_uploaded_bytes x.2)) w'.2 = [(600000005, 1048576); (2400000005, 3145728)] /\
    exists new, w'.2 = [] ++ new /\ throttled new /\ from_lines "a" new.
Proof.
  do 2 eexists. split; [vm_compute; reflexivity|]. split; [reflexivity|].
  apply (rclone_progress_throttled default_rclone fst snd around report ["copyto"; "a"; "remote:a"] "a" 0 (5, []) (Ok (MkUploadResult "a" "" 4194304 2400))).
  vm_compute. reflexivity.
Defined.

Definition sample_upload : UploadConfig := MkUploadConfig None None (Some "remote:dir") false None None (from_unchecked 2000000000).

Lemma rclone_upload_complete_witness :
  exists r readiness' w', rclone_upload_file default_rclone "x/a.bin" sample_upload None (None, (5, [])) = (Ok r, (readiness', w')) /\
    ur_file_id r = "a.bin" /\ ur_size r = 4194304 /\ rclone_is_ready readiness' = true.
Proof.
  do 3 eexists. split; [vm_compute; reflexivity|]. split; [reflexivity|]. split; [reflexivity|].
  edestruct (rclone_upload_complete default_rclone "x/a.bin" sample_upload None None (5, [])) as (? & ? & ? & ? & ? & ? & _ & _ & H & _);
    [vm_compute; reflexivity|exact H].
Defined.
