(* ===== verification/SevenZip.v ===== *)
(** * Archives with 7-zip: [media/seven_zip_archive_processor.cpp]

    The commands over any [SubprocessRunner], and the parser of listings. *)

From S2P Require Import Prelude CoreError ByteSize Files Subprocess.

Local Open Scope coro_scope.

(** [struct ArchiveExtractOptions], [struct ArchiveCreateOptions]. *)
Record ArchiveExtractOptions := MkExtractOptions { ex_password : option string; overwrite_existing : bool }.
Record ArchiveCreateOptions := MkCreateOptions {
  cr_password : option string; encrypt_header : bool; split_volume_size : option ByteSize; compression_level : Z
}.

Definition kSingleExtensions : list string := [".zip"; ".rar"; ".7z"; ".tar"; ".gz"; ".tgz"; ".bz2"; ".xz"; ".iso"].
Definition kCompoundSuffixes : list string := [".tar.gz"; ".tar.bz2"; ".tar.xz"].

(** [ends_with]. *)
Definition str_ends_with (s suffix : string) : bool := list_prefixb (rev (chars suffix)) (rev (chars s)).

(** [can_handle]. *)
Definition can_handle (archive : string) : bool :=
  let name := str_map tolower (filename archive) in
  existsb (str_ends_with name) kCompoundSuffixes || existsb (str_ends_with name) kSingleExtensions.

(** ** Listings *)

Definition kPrefix : string := "Path = ".

(** The loop of [list_contents] from a position on: the first path is the archive's own.  Each
    round goes behind a line end. *)
Fixpoint listed (fuel : nat) (text : list ascii) (seen_first_record : bool) : list string :=
  match fuel with
  | O => []
  | S fuel =>
      match text with
      | [] => []
      | _ =>
          let line_end := default (length text) (find_idx is_newline text) in
          let line := strip_cr (take line_end text) in
          let rest := drop (S line_end) text in
          if list_prefixb (chars kPrefix) line then
            if seen_first_record then of_chars (drop (length (chars kPrefix)) line) :: listed fuel rest true
            else listed fuel rest true
          else listed fuel rest seen_first_record
      end
  end.

Definition listed_entries (stdout : string) : list string := listed (S (str_size stdout)) (chars stdout) false.

(** ** Commands *)

Definition password_args (password : option string) : list string := match password with Some p => ["-p" +:+ p] | None => [] end.

Definition extract_args (archive output_dir : string) (options : ArchiveExtractOptions) : list string :=
  ["x"; if overwrite_existing options then "-aoa" else "-aos"; "-y"; "-o" +:+ output_dir] ++ password_args (ex_password options) ++ [archive].

Definition create_args (output : string) (inputs : list string) (options : ArchiveCreateOptions) : list string :=
  ["a"; "-t7z"; "-y"] ++ password_args (cr_password options) ++
  (if bool_decide (is_Some (cr_password options)) && encrypt_header options then ["-mhe=on"] else []) ++
  (match split_volume_size options with Some size => ["-v" +:+ fmt_int (bytes size) +:+ "b"] | None => [] end) ++
  ["-mx=" +:+ fmt_int (Z.max 0 (Z.min (compression_level options) 9)); output] ++ inputs.

Definition list_args (archive : string) (password : option string) : list string :=
  ["l"; "-slt"; "-y"] ++ password_args password ++ [archive].

(** [create_directories]: the message of its error code. *)
Class Directories (W : Type) := create_directories : string -> M W (option string).

Section SevenZip.
  Context {W : Type} `{runner : !SubprocessRunner W} `{directories : !Directories W} `{walk : !Walk W} (seven_zip_path : string).

(** [run_subprocess]. *)
Definition run_checked (arguments : list string) : M W (Result SubprocessResult) :=
  co_try result <- run_quietly (request_of seven_zip_path arguments);
  co_return (if exit_code result =? 0 then Ok result
             else error ArchiveProcessing ("7z exited with code " +:+ fmt_int (exit_code result) +:+ ": " +:+ stderr_data result)).

Definition is_regular (e : DirEntry) : bool := match de_kind e with RegularFile => true | _ => false end.

(** [extract]: every regular file below the directory afterwards. *)
Definition seven_zip_extract (archive output_dir : string) (options : ArchiveExtractOptions) : M W (Result (list string)) :=
  co_await failed <- create_directories output_dir;
  match failed with
  | Some what => co_return (error FileSystem ("failed to create output directory: " +:+ what))
  | None =>
      co_try run_result <- run_checked (extract_args archive output_dir options);
      co_await walked <- recursive_directory_iterator output_dir;
      co_return (Ok (map de_path (filter (fun e => is_regular e = true) (visited walked))))
  end.

(** [create_archive]. *)
Definition seven_zip_create_archive (output : string) (inputs : list string) (options : ArchiveCreateOptions) : M W (Result string) :=
  if bool_decide (inputs = []) then co_return (error InvalidArgument "create_archive requires at least one input path")
  else co_try run_result <- run_checked (create_args output inputs options); co_return (Ok output).

(** [list_contents]. *)
Definition seven_zip_list_contents (archive : string) (password : option string) : M W (Result (list string)) :=
  co_try run_result <- run_checked (list_args archive password);
  co_return (Ok (listed_entries (stdout_data run_result))).

End SevenZip.

(** ** Lemmas: listings *)

(** The path on a line. *)
Definition path_of (line : list ascii) : option string :=
  if list_prefixb (chars kPrefix) line then Some (of_chars (drop (length (chars kPrefix)) line)) else None.

(** The lines of a text, a last one without line end included. *)
Definition all_lines (l : list ascii) : list (list ascii) := map strip_cr ((cut l).1 ++ match (cut l).2 with [] => [] | r => [r] end).

Lemma all_lines_step l :
  l <> [] ->
  all_lines l = strip_cr (take (default (length l) (find_idx is_newline l)) l) :: all_lines (drop (S (default (length l) (find_idx is_newline l))) l).
Proof.
  intros Hne. unfold all_lines. rewrite (cut_find l). destruct (find_idx is_newline l) as [nl|] eqn:E; cbn [default from_option id fst snd]; [done|].
  rewrite firstn_all. rewrite drop_ge by lia. cbn. by destruct l.
Qed.

Lemma listed_lines fuel text seen :
  (length text < fuel)%nat ->
  listed fuel text seen = (if seen then id else tail) (omap path_of (all_lines text)).
Proof.
  revert text seen. induction fuel as [|fuel IH]; intros text seen Hf; [lia|]. cbn [listed].
  destruct text as [|c text]; [by destruct seen|]. set (l := c :: text) in *.
  rewrite (all_lines_step l) by done. set (line_end := default (length l) (find_idx is_newline l)).
  assert (length (drop (S line_end) l) < fuel)%nat as Hd by (rewrite length_drop; cbn in *; lia).
  cbn [omap list_omap]. unfold path_of at 1. destruct (list_prefixb _ _); [destruct seen|]; by rewrite IH.
Qed.

(** A listing gives the paths of its lines, whatever the line ends and the other fields, but the
    first, which is the archive. *)
Theorem listing_exact stdout : listed_entries stdout = tail (omap path_of (all_lines (chars stdout))).
Proof. unfold listed_entries. rewrite listed_lines; [done|]. unfold str_size. lia. Qed.

Example listing_sample :
  listed_entries ("Path = a.7z" +:+ newline +:+ "Type = 7z" +:+ newline +:+ newline +:+ "Path = x/y z" +:+ of_chars ["013"%char] +:+ newline +:+ "Size = 1" +:+ newline +:+ "Path = b") = ["x/y z"; "b"].
Proof. by vm_compute. Qed.
