(* ===== verification/Ffmpeg.v ===== *)
(** * Media with ffmpeg: [media/ffmpeg_media_processor.cpp]

    The commands over any [SubprocessRunner], and the reading of ffprobe's report.  [std::stod],
    which depends on the locale, is a parameter. *)

From S2P Require Import Prelude CoreError Progress ConfigData Json Files Subprocess.

Local Open Scope coro_scope.

(** [std::stod]: nothing when it throws. *)
Class Stod := std_stod : string -> option Float.

(** [struct MediaInfo]; the duration is in milliseconds. *)
Record MediaInfo := MkMediaInfo {
  mi_duration : Z; mi_width : Z; mi_height : Z; mi_video_codec : string; mi_audio_codec : string;
  mi_bit_rate_bps : Z; mi_frame_rate : Float; mi_audio_channels : Z; mi_file_size : Z
}.

Definition zero_float : Float := Finite (double_of_Z 0).
Definition is_zero (x : Float) : bool := match x with Finite v => d_num v =? 0 | _ => false end.

Definition negative (x : Float) : bool :=
  match x with Finite v => d_num v <? 0 | Infinity neg => neg | NaN => false end.

(** [num / den] for a denominator that is not zero. *)
Definition float_div (a b : Float) : Float :=
  match a, b with
  | NaN, _ | _, NaN | Infinity _, Infinity _ => NaN
  | Finite x, Finite y => Finite (div_double x y)
  | Infinity n, Finite y => Infinity (xorb n (d_num y <? 0))
  | Finite _, Infinity _ => zero_float
  end.

(** [static_cast<std::int64_t>(x * 1000.0)]; x86-64 gives the least integer for what does not
    fit. *)
Definition thousandfold (x : Float) : Z :=
  match x with
  | Finite v => let m := mul_double v (double_of_Z 1000) in
                let n := Z.quot (d_num m) (d_den m) in
                if (INT64_MIN <=? n) && (n <=? INT64_MAX) then n else INT64_MIN
  | _ => INT64_MIN
  end.

Section Texts.
  Context `{clib : !Stod}.

(** [parse_rational]. *)
Definition parse_rational (text : string) : Float :=
  match str_find "/"%char text with
  | None => default zero_float (std_stod text)
  | Some slash =>
      match std_stod (substr text 0 slash), std_stod (substr_from text (S slash)) with
      | Some num, Some den => if is_zero den then zero_float else float_div num den
      | _, _ => zero_float
      end
  end.

(** [parse_duration_seconds]. *)
Definition parse_duration_seconds (text : string) : Z :=
  match std_stod text with
  | Some secs => if negative secs then 0 else thousandfold secs
  | None => 0
  end.

End Texts.

(** [parse_int64]. *)
Definition media_int64 (text : string) : Z := default 0 (stoll text).

(** [format_timestamp]. *)
Definition format_timestamp (seconds : Z) : string :=
  let total := Z.max seconds 0 in
  let pad n := (if n <? 10 then "0" else "") +:+ fmt_int n in
  fmt_int (total / 3600) +:+ ":" +:+ pad (total mod 3600 / 60) +:+ ":" +:+ pad (total mod 60).

(** ** [probe] *)

Section Probe.
  Context `{js : !Json} `{clib : !Stod}.

(** A string member of an object member, as [find] and [is_string] see them. *)
Definition text_of (j : json) (key : string) : option string := string_member j key.

(** The duration, bit rate and size of the format. *)
Definition format_info (doc : json) : Z * Z * Z :=
  match json_find doc "format" with
  | Some fmt =>
      if is_object fmt then
        (match text_of fmt "duration" with Some t => parse_duration_seconds t | None => 0 end,
         match text_of fmt "bit_rate" with Some t => media_int64 t | None => 0 end,
         match text_of fmt "size" with Some t => media_int64 t | None => 0 end)
      else (0, 0, 0)
  | None => (0, 0, 0)
  end.

(** The streams found so far. *)
Record Streams := MkStreams {
  have_video : bool; have_audio : bool; video_codec : string; width : Z; height : Z; frame_rate : Float; audio_codec : string; channels : Z
}.
Definition no_streams : Streams := MkStreams false false "" 0 0 zero_float "" 0.

(** The average frame rate, or the real one when it is zero. *)
Definition stream_rate (stream : json) : Float :=
  let average := match text_of stream "avg_frame_rate" with Some t => parse_rational t | None => zero_float end in
  if is_zero average then match text_of stream "r_frame_rate" with Some t => parse_rational t | None => average end else average.

(** One stream; [value] throws for a stream that is no object and for a member of another type. *)
Definition stream_info (s : Streams) (stream : json) : string + Streams :=
  try type_node <- json_value get_string stream "codec_type" "";
  if negb (have_video s) && bool_decide (type_node = "video") then
    try codec <- json_value get_string stream "codec_name" "";
    try w <- json_value get_int32 stream "width" 0;
    try h <- json_value get_int32 stream "height" 0;
    inr (MkStreams true (have_audio s) codec w h (stream_rate stream) (audio_codec s) (channels s))
  else if negb (have_audio s) && bool_decide (type_node = "audio") then
    try codec <- json_value get_string stream "codec_name" "";
    try ch <- json_value get_int32 stream "channels" 0;
    inr (MkStreams (have_video s) true (video_codec s) (width s) (height s) (frame_rate s) codec ch)
  else inr s.

Fixpoint streams_info (l : list json) (s : Streams) : string + Streams :=
  match l with [] => inr s | stream :: l => try s <- stream_info s stream; streams_info l s end.

Definition media_info (doc : json) : string + MediaInfo :=
  let '(duration, bit_rate, size) := format_info doc in
  try s <- streams_info (array_member doc "streams") no_streams;
  inr (MkMediaInfo duration (width s) (height s) (video_codec s) (audio_codec s) bit_rate (frame_rate s) (channels s) size).

(** ** Commands *)

Section Commands.
  Context {W : Type} `{runner : !SubprocessRunner W} `{files : !Files W} (ffmpeg_path ffprobe_path : string).

(** [run_subprocess]. *)
Definition run_media (executable : string) (arguments : list string) : M W (Result SubprocessResult) :=
  co_try result <- run_quietly (request_of executable arguments);
  co_return (if exit_code result =? 0 then Ok result
             else error MediaProcessing ("subprocess exited with code " +:+ fmt_int (exit_code result) +:+ ": " +:+ stderr_data result)).

Definition probe_args (file : string) : list string := ["-v"; "error"; "-print_format"; "json"; "-show_streams"; "-show_format"; file].

(** [probe]. *)
Definition probe (file : string) : Throwing W MediaInfo :=
  co_throwing run_result <- no_throw (run_media ffprobe_path (probe_args file));
  match json_parse (stdout_data run_result) with
  | inl what => finish_with (error MediaProcessing ("ffprobe JSON parse failed: " +:+ what))
  | inr doc =>
      co_throwing info <- may_throw (media_info doc);
      if mi_file_size info =? 0 then
        co_throwing size <- observe (fs_file_size file);
        finish_with (Ok (MkMediaInfo (mi_duration info) (mi_width info) (mi_height info) (mi_video_codec info) (mi_audio_codec info) (mi_bit_rate_bps info)
          (mi_frame_rate info) (mi_audio_channels info) (match size with inr n => n | inl _ => 0 end)))
      else finish_with (Ok info)
  end.

(** A run of ffmpeg that writes [output]. *)
Definition run_ffmpeg (arguments : list string) (output : string) : Throwing W string :=
  co_throwing run_result <- no_throw (run_media ffmpeg_path arguments);
  finish_with (Ok output).

Definition thumbnail_args (file output : string) (pos : Z) : list string :=
  ["-y"; "-ss"; format_timestamp pos; "-i"; file; "-vframes"; "1"; "-q:v"; "2"; output].

(** [extract_thumbnail]: at the position, or at a tenth of the duration. *)
Definition extract_thumbnail (file output : string) (position : option Z) : Throwing W string :=
  match position with
  | Some pos => run_ffmpeg (thumbnail_args file output pos) output
  | None =>
      co_throwing info <- probe file;
      run_ffmpeg (thumbnail_args file output (Z.quot (mi_duration info) 10000)) output
  end.

Definition sample_args (file output : string) (duration : Z) : list string :=
  ["-y"; "-ss"; "0"; "-i"; file; "-t"; fmt_int duration; "-c"; "copy"; output].

(** [generate_sample]. *)
Definition generate_sample (file output : string) (duration : Z) : Throwing W string :=
  if duration <=? 0 then finish_with (error InvalidArgument "sample duration must be positive")
  else run_ffmpeg (sample_args file output duration) output.

(** The milliseconds between two tiles; the count of tiles is an [int]. *)
Definition grid_interval_ms (duration_ms rows columns : Z) : Z :=
  let tile_count := to_int32 (rows * columns) in
  let seconds := div_double (div_double (to_double duration_ms) (double_of_Z 1000)) (double_of_Z tile_count) in
  let interval := if d_num seconds <? d_den seconds then double_of_Z 1 else seconds in
  thousandfold (Finite interval).

(** [%lld.%03lld]. *)
Definition interval_text (ms : Z) : string := fmt_int (Z.quot ms 1000) +:+ "." +:+ fmt_03 (Z.rem ms 1000).

Definition grid_args (file output : string) (rows columns interval_ms : Z) : list string :=
  ["-y"; "-i"; file; "-vf";
   "fps=1/" +:+ interval_text interval_ms +:+ ",scale=320:180,tile=" +:+ fmt_int columns +:+ "x" +:+ fmt_int rows;
   "-frames:v"; "1"; output].

(** [generate_screenshot_grid]. *)
Definition generate_screenshot_grid (file output : string) (rows columns : Z) : Throwing W string :=
  if (rows <=? 0) || (columns <=? 0) then finish_with (error InvalidArgument "grid rows and columns must be positive")
  else
    co_throwing info <- probe file;
    if mi_duration info <=? 0 then finish_with (error MediaProcessing "cannot build grid for a zero-duration input")
    else run_ffmpeg (grid_args file output rows columns (grid_interval_ms (mi_duration info) rows columns)) output.

End Commands.
End Probe.

(** ** What a report can do *)

(** Texts of whole seconds. *)
Definition whole_seconds : Stod := fun s => (fun z => Finite (double_of_Z z)) <$> stoll s.

Definition report_json (codec_name : MemJson.node) : MemJson.node :=
  MemJson.JObject [("format", MemJson.JObject [("duration", MemJson.JString "90"); ("size", MemJson.JString "700")]);
    ("streams", MemJson.JArray [MemJson.JObject [("codec_type", MemJson.JString "video"); ("codec_name", codec_name); ("width", MemJson.JInt 640)]])].

Example report_read :
  @media_info MemJson.sample_json whole_seconds (report_json (MemJson.JString "h264")) =
  inr (MkMediaInfo 90000 640 0 "h264" "" 0 zero_float 0 700).
Proof. by vm_compute. Qed.

(** A report with a member of another type ends [probe] with an exception, outside its handler. *)
Example report_throws : exists what, @media_info MemJson.sample_json whole_seconds (report_json (MemJson.JInt 1)) = inl what.
Proof. eexists. by vm_compute. Qed.

Example grid_sample : @grid_interval_ms 3661000 3 3 = 406777 /\ interval_text 406777 = "406.777".
Proof. by vm_compute. Qed.
