(* ===== verification/CommandParser.v ===== *)
(** * Command parsing: [presentation/command_parser.cpp]

    From the text of a Telegram message to a structured command; pure. *)

From S2P Require Import Prelude Identifiers.

(** [trim]: cut white space at both ends. *)
Definition trim_chars (l : list ascii) : list ascii := reverse (drop_while isspace (reverse (drop_while isspace l))).
Definition trim (s : string) : string := of_chars (trim_chars (chars s)).

(** [to_lower_ascii]. *)
Definition to_lower_ascii (s : string) : string := str_map tolower s.

(** [struct CommandRequest]. *)
Record CommandRequest := MkCommandRequest {
  command : string;
  arguments : string;
  full_text : string;
  sender : UserId;
  cr_chat : ChatId;
  source_message : MessageId
}.

(** Head and tail around the first white-space character. *)
Definition split_command (body : list ascii) : list ascii * list ascii :=
  match find_idx isspace body with
  | None => (body, [])
  | Some i => (take i body, drop (S i) body)
  end.

(** Cut the [@BotUsername] suffix. *)
Definition strip_bot_name (head : list ascii) : list ascii :=
  match find_idx (fun c => bool_decide (c = "@"%char)) head with
  | None => head
  | Some i => take i head
  end.

(** [CommandParser::parse]. *)
Definition parse (text : string) (sender : UserId) (chat : ChatId) (msg : MessageId) : option CommandRequest :=
  match trim_chars (chars text) with
  | "/"%char :: [] => None
  | "/"%char :: body =>
      let '(head, tail) := split_command body in
      match strip_bot_name head with
      | [] => None
      | head => Some (MkCommandRequest (to_lower_ascii (of_chars head)) (trim (of_chars tail)) text sender chat msg)
      end
  | _ => None
  end.

(** ** Lemmas: trimming *)

Lemma trim_chars_nil : trim_chars [] = [].
Proof. done. Qed.

(** A text without outer white space is not trimmed. *)
Definition trimmed (l : list ascii) : Prop :=
  match l with [] => True | c :: _ => isspace c = false end /\
  match reverse l with [] => True | c :: _ => isspace c = false end.

Lemma drop_while_spaces l r : Forall (fun c => isspace c = true) l -> drop_while isspace (l ++ r) = drop_while isspace r.
Proof. apply drop_while_all. Qed.

Lemma drop_while_first l : match l with [] => True | c :: _ => isspace c = false end -> drop_while isspace l = l.
Proof. destruct l as [|c l]; [done|]. apply drop_while_id. Qed.

(** Trimming undoes padding. *)
Lemma trim_chars_pad l1 l l2 :
  Forall (fun c => isspace c = true) l1 -> Forall (fun c => isspace c = true) l2 -> trimmed l ->
  trim_chars (l1 ++ l ++ l2) = l.
Proof.
  intros H1 H2 [Hf Hl]. unfold trim_chars. rewrite drop_while_spaces by done.
  destruct l as [|c l].
  - simpl. assert (drop_while isspace l2 = []) as ->; [|done].
    rewrite <-(app_nil_r l2), drop_while_spaces by done. done.
  - simpl app. rewrite drop_while_id by done. rewrite app_comm_cons, reverse_app, drop_while_spaces.
    + rewrite (drop_while_first (reverse (c :: l))) by done. apply reverse_involutive.
    + by apply Forall_reverse.
Qed.

Lemma reverse_head_last (l : list ascii) :
  match reverse l with [] => True | c :: _ => isspace c = false end <->
  (forall c, last l = Some c -> isspace c = false).
Proof.
  destruct l as [|c l] using rev_ind; [by split|].
  rewrite reverse_snoc, last_snoc. split; [by intros ? ? [= <-]|auto].
Qed.

(** What trimming returns is trimmed. *)
Lemma trim_chars_trimmed l : trimmed (trim_chars l).
Proof.
  unfold trim_chars, trimmed. rewrite reverse_involutive. split.
  - set (m := drop_while isspace l). destruct (drop_while isspace (reverse m)) as [|c r] eqn:E; [done|].
    assert (exists p, reverse m = p ++ c :: r) as [p Hp].
    { exists (take_while isspace (reverse m)). by rewrite <-E, take_while_drop_while. }
    apply (f_equal reverse) in Hp. rewrite reverse_involutive, reverse_app, reverse_cons in Hp.
    rewrite reverse_cons.
    destruct (reverse r ++ [c]) as [|d q] eqn:Eq; [by destruct (reverse r)|].
    simpl in Hp. subst m. apply (drop_while_head isspace l d (q ++ reverse p)). by rewrite Hp.
  - destruct (drop_while isspace (reverse (drop_while isspace l))) as [|c r] eqn:E; [done|].
    by eapply drop_while_head.
Qed.

Lemma trim_idemp s : trim (trim s) = trim s.
Proof.
  unfold trim. rewrite chars_of_chars. f_equal.
  pose proof (trim_chars_pad [] (trim_chars (chars s)) [] (Forall_nil_2 _) (Forall_nil_2 _) (trim_chars_trimmed _)) as H.
  by rewrite app_nil_r in H.
Qed.

(** ** Lemmas: splitting *)

Lemma split_command_app head sep tail :
  Forall (fun c => isspace c = false) head -> isspace sep = true ->
  split_command (head ++ sep :: tail) = (head, tail).
Proof.
  intros Hh Hs. unfold split_command.
  assert (find_idx isspace (head ++ sep :: tail) = Some (length head)) as ->.
  { apply find_idx_Some. exists sep. split; [by rewrite lookup_app_r, Nat.sub_diag|]. split; [done|].
    by rewrite take_app_length. }
  rewrite take_app_length, cons_middle, app_assoc, drop_app_length'; [done|]. rewrite length_app. simpl. lia.
Qed.

Lemma split_command_whole head : Forall (fun c => isspace c = false) head -> split_command head = (head, []).
Proof. intros H. unfold split_command. by rewrite (proj2 (find_idx_None _ _) H). Qed.

Lemma strip_bot_name_app name bot :
  Forall (fun c => c <> "@"%char) name ->
  match bot with [] => True | c :: _ => c = "@"%char end -> strip_bot_name (name ++ bot) = name.
Proof.
  intros Hn Hb. unfold strip_bot_name. destruct bot as [|c bot].
  - rewrite app_nil_r. rewrite (proj2 (find_idx_None _ _)); [done|].
    eapply Forall_impl; [done|]. intros a Ha. by apply bool_decide_false.
  - subst c. assert (find_idx (fun c => bool_decide (c = "@"%char)) (name ++ "@"%char :: bot) = Some (length name)) as ->.
    { apply find_idx_Some. exists "@"%char. split; [by rewrite lookup_app_r, Nat.sub_diag|]. split; [done|].
      rewrite take_app_length. eapply Forall_impl; [done|]. intros a Ha. by apply bool_decide_false. }
    by rewrite take_app_length.
Qed.

Lemma split_command_head body : Forall (fun c => isspace c = false) (split_command body).1.
Proof.
  unfold split_command. destruct (find_idx isspace body) as [i|] eqn:E; simpl.
  - by apply find_idx_Some in E as (x & _ & _ & H).
  - by apply find_idx_None in E.
Qed.

Lemma strip_bot_name_spec head :
  Forall (fun c => isspace c = false) head ->
  Forall (fun c => isspace c = false /\ c <> "@"%char) (strip_bot_name head).
Proof.
  intros Hh. unfold strip_bot_name.
  destruct (find_idx (fun c => bool_decide (c = "@"%char)) head) as [i|] eqn:E.
  - apply find_idx_Some in E as (x & _ & _ & H). apply Forall_and. split; [by apply Forall_take|].
    eapply Forall_impl; [exact H|]. intros a Ha. by apply bool_decide_eq_false in Ha.
  - apply find_idx_None in E. apply Forall_and. split; [done|].
    eapply Forall_impl; [exact E|]. intros a Ha. by apply bool_decide_eq_false in Ha.
Qed.

Lemma tolower_idemp c : tolower (tolower c) = tolower c.
Proof.
  unfold tolower. destruct ((65 <=? code c) && (code c <=? 90))%N eqn:E; [|by rewrite E].
  apply andb_true_iff in E as [H1%N.leb_le H2%N.leb_le].
  rewrite ascii_of_N_lt by lia. replace (code c + 32 <=? 90)%N with false by (symmetry; apply N.leb_gt; lia).
  by rewrite andb_false_r.
Qed.

Lemma map_tolower_idemp l : map tolower (map tolower l) = map tolower l.
Proof. rewrite map_map. apply map_ext, tolower_idemp. Qed.

(** The middle of a command line: what remains after trimming. *)
Definition command_text (name bot sep args : list ascii) : list ascii := "/"%char :: name ++ bot ++ sep ++ args.

Lemma command_text_trimmed name bot sep args :
  Forall (fun c => isspace c = false) (name ++ bot) -> trimmed args ->
  (args = [] -> sep = []) -> trimmed (command_text name bot sep args).
Proof.
  intros Hn [_ Ha] Hs. split; [done|]. apply reverse_head_last. intros c Hc.
  unfold command_text in Hc. destruct args as [|a args].
  - rewrite (Hs eq_refl), !app_nil_r in Hc.
    assert (c ∈ "/"%char :: name ++ bot) as Hin by by apply last_Some_elem_of.
    apply elem_of_cons in Hin as [->|Hin]; [done|]. rewrite Forall_forall in Hn. auto.
  - rewrite !app_assoc, app_comm_cons, last_app_cons in Hc. by apply (proj1 (reverse_head_last (a :: args)) Ha).
Qed.

(** ** Theorems *)

(** The parser accepts the documented commands: a slash, a name, an optional
    [@BotUsername] and arguments after white space, the whole padded with white space,
    give the lower-cased name and the trimmed arguments, and the text, the sender, the
    chat and the message as they were. *)
Theorem command_parse_complete pad1 pad2 name bot sep args text sender chat msg
  (Hpad1 : Forall (fun c => isspace c = true) pad1) (Hpad2 : Forall (fun c => isspace c = true) pad2)
  (Hname : name <> []) (Hchars : Forall (fun c => isspace c = false /\ c <> "@"%char) name)
  (Hbot : match bot with [] => True | c :: _ => c = "@"%char end)
  (Hbot2 : Forall (fun c => isspace c = false) bot)
  (Hsep : Forall (fun c => isspace c = true) sep) (Hargs : trimmed args) (Hsep2 : sep = [] <-> args = [])
  (Htext : chars text = pad1 ++ command_text name bot sep args ++ pad2) :
  parse text sender chat msg =
    Some (MkCommandRequest (of_chars (map tolower name)) (of_chars args) text sender chat msg).
Proof.
  apply Forall_and in Hchars as [Hn1 Hn2].
  assert (Forall (fun c => isspace c = false) (name ++ bot)) as Hnb by by apply Forall_app.
  unfold parse. rewrite Htext, trim_chars_pad by (done || (apply command_text_trimmed; [done..|apply Hsep2])).
  unfold command_text. destruct (name ++ bot ++ sep ++ args) as [|c body] eqn:E; [by destruct name|].
  rewrite <-E, app_assoc. clear E.
  assert (exists tail, split_command ((name ++ bot) ++ sep ++ args) = (name ++ bot, tail) /\ trim_chars tail = args)
    as (tail & -> & Ht).
  { destruct sep as [|s sep].
    - exists []. rewrite (proj1 Hsep2 eq_refl), !app_nil_r. by rewrite split_command_whole.
    - apply Forall_cons in Hsep as [Hs Hsep]. exists (sep ++ args). simpl app. rewrite split_command_app by done.
      split; [done|]. rewrite <-(app_nil_r args) at 1. by apply trim_chars_pad; [|constructor|]. }
  rewrite strip_bot_name_app by done. destruct name as [|n name]; [done|].
  unfold trim, to_lower_ascii, str_map. by rewrite !chars_of_chars, Ht.
Qed.

Lemma command_parse_complete_witness :
  parse "  /Mirror@MyBot   http://h/a b " (MkId 7) (MkId 1) (MkId 2) =
    Some (MkCommandRequest "mirror" "http://h/a b" "  /Mirror@MyBot   http://h/a b " (MkId 7) (MkId 1) (MkId 2)).
Proof.
  apply (command_parse_complete (chars "  ") (chars " ") (chars "Mirror") (chars "@MyBot") (chars "   ")
    (chars "http://h/a b")); try done; by repeat constructor.
Defined.

(** The parser accepts nothing else: a parsed message starts with a slash after its
    padding, its command name is a nonempty lower-case word without white space or [@],
    its arguments carry no outer white space, and parsing does not depend on padding. *)
Theorem command_parse_sound text who chat msg r (Hp : parse text who chat msg = Some r) :
  (exists body, trim_chars (chars text) = "/"%char :: body) /\
  command r <> "" /\
  (exists name, chars (command r) = map tolower name /\ Forall (fun c => isspace c = false /\ c <> "@"%char) name) /\
  to_lower_ascii (command r) = command r /\ trim (arguments r) = arguments r /\
  full_text r = text /\ sender r = who /\ cr_chat r = chat /\ source_message r = msg /\
  option_map (fun q => (command q, arguments q)) (parse (trim text) who chat msg) = Some (command r, arguments r).
Proof.
  unfold parse in *. unfold trim at 2. rewrite chars_of_chars.
  assert (trim_chars (trim_chars (chars text)) = trim_chars (chars text)) as ->.
  { pose proof (trim_idemp text) as H. apply (f_equal chars) in H. unfold trim in H. by rewrite !chars_of_chars in H. }
  destruct (trim_chars (chars text)) as [|c body]; [done|].
  destruct (decide (c = "/"%char)) as [->|Hne].
  2: { exfalso. revert Hp. clear -Hne. destruct c as [[] [] [] [] [] [] [] []]; congruence. }
  destruct body as [|b body]; [done|].
  pose proof (split_command_head (b :: body)) as Hh. destruct (split_command (b :: body)) as [head tail]. simpl in Hh.
  pose proof (strip_bot_name_spec head Hh) as Hs. destruct (strip_bot_name head) as [|n name]; [done|].
  injection Hp as <-. cbn [command arguments full_text sender cr_chat source_message option_map].
  change (String.String n (of_chars name)) with (of_chars (n :: name)).
  split_and!; try done.
  - eauto.
  - exists (n :: name). split; [|done]. unfold to_lower_ascii, str_map. by rewrite !chars_of_chars.
  - unfold to_lower_ascii, str_map. rewrite !chars_of_chars. by rewrite map_tolower_idemp.
  - apply trim_idemp.
Qed.

Lemma command_parse_sound_witness :
  exists r, parse "/PING now" (MkId 7) (MkId 1) (MkId 2) = Some r /\ command r <> "".
Proof.
  eexists. split; [vm_compute; reflexivity|].
  refine (proj1 (proj2 (command_parse_sound "/PING now" (MkId 7) (MkId 1) (MkId 2) _ _))). vm_compute. reflexivity.
Defined.
