(* ===== verification/Settings.v ===== *)
(** * Settings use cases: [application/update_user_settings.cpp], [application/update_bot_settings.cpp]

    The settings records, what a repository of settings promises, and the two use cases
    that load a record, change it and save it, over any repository that keeps the promise. *)

From S2P Require Import Prelude CoreError Identifiers UploadDestination TimeCodec Ports.

Local Open Scope coro_scope.

(** [struct BotSettingsRecord]. *)
Record BotSettingsRecord := MkBotSettings {
  bs_owner_id : Z;
  bs_sudo_users : list Z;
  bs_authorized_chats : list Z;
  bs_download_dir : string;
  bs_leech_split_size : Z;
  bs_upload_limit_bytes : Z;
  bs_status_update_interval : Z;
  bs_rss_poll_interval : Z;
  bs_updated_at : Z
}.

(** [class BotSettingsRepository]. *)
Class BotSettingsRepository (W : Type) := {
  bot_load : M W (Result BotSettingsRecord);
  bot_save : BotSettingsRecord -> M W (Result unit)
}.

(** [UserSettingsRecord{}]. *)
Definition default_user_settings : UserSettingsRecord :=
  MkUserSettings (MkId 0) Telegram GoogleDrive None None None false 0 0.

(** [BotSettingsRecord{}]. *)
Definition default_bot_settings : BotSettingsRecord :=
  MkBotSettings 0 [] [] "downloads" 2000000000 0 5000 60000 0.

(** [rec.user_id = user; rec.created_at = now;] on a fresh record. *)
Definition fresh_settings (user : UserId) (tp : Z) : UserSettingsRecord :=
  let d := default_user_settings in
  MkUserSettings user (us_leech_destination d) (us_mirror_destination d) (us_default_thumb_path d)
    (us_rclone_remote d) (us_gdrive_folder_id d) (us_upload_as_document d) tp (us_updated_at d).

(** [rec.updated_at = now]. *)
Definition touch_settings (tp : Z) (r : UserSettingsRecord) : UserSettingsRecord :=
  MkUserSettings (us_user_id r) (us_leech_destination r) (us_mirror_destination r) (us_default_thumb_path r)
    (us_rclone_remote r) (us_gdrive_folder_id r) (us_upload_as_document r) (us_created_at r) tp.

(** [rec.updated_at = now] for the bot's settings. *)
Definition touch_bot_settings (tp : Z) (r : BotSettingsRecord) : BotSettingsRecord :=
  MkBotSettings (bs_owner_id r) (bs_sudo_users r) (bs_authorized_chats r) (bs_download_dir r)
    (bs_leech_split_size r) (bs_upload_limit_bytes r) (bs_status_update_interval r) (bs_rss_poll_interval r) tp.

Section UseCases.
  Context {W : Type} `{!Clock W, !UserSettingsRepository W, !BotSettingsRepository W}.

(** [UpdateUserSettings::execute]; a null [std::function] is [None]. *)
Definition update_user_settings (user : UserId) (mutate : option (UserSettingsRecord -> UserSettingsRecord))
  : M W (Result UserSettingsRecord) :=
  match mutate with
  | None => co_return error InvalidArgument "update_user_settings: null mutator"
  | Some f =>
      co_try loaded <- us_get user;
      co_await tp <- now;
      let rec := match loaded with Some r => r | None => fresh_settings user tp end in
      let rec := f (touch_settings tp rec) in
      co_try saved <- us_save rec;
      co_return Ok rec
  end.

(** [UpdateBotSettings::execute]. *)
Definition update_bot_settings (mutate : option (BotSettingsRecord -> BotSettingsRecord))
  : M W (Result BotSettingsRecord) :=
  match mutate with
  | None => co_return error InvalidArgument "update_bot_settings: null mutator"
  | Some f =>
      co_try loaded <- bot_load;
      let rec := f loaded in
      co_await tp <- now;
      let rec := touch_bot_settings tp rec in
      co_try saved <- bot_save rec;
      co_return Ok rec
  end.

End UseCases.

(** ** What a repository of settings promises *)

(** [save] fills in a missing creation time and refreshes [updated_at]. *)
Definition saved_settings (tp : Z) (r : UserSettingsRecord) : UserSettingsRecord :=
  MkUserSettings (us_user_id r) (us_leech_destination r) (us_mirror_destination r) (us_default_thumb_path r)
    (us_rclone_remote r) (us_gdrive_folder_id r) (us_upload_as_document r)
    (if us_created_at r =? 0 then tp else us_created_at r) tp.

(** Times are kept at millisecond granularity. *)
Definition stored_settings (r : UserSettingsRecord) : UserSettingsRecord :=
  MkUserSettings (us_user_id r) (us_leech_destination r) (us_mirror_destination r) (us_default_thumb_path r)
    (us_rclone_remote r) (us_gdrive_folder_id r) (us_upload_as_document r)
    (floor_time (us_created_at r)) (floor_time (us_updated_at r)).

Definition stored_bot_settings (r : BotSettingsRecord) : BotSettingsRecord :=
  touch_bot_settings (floor_time (bs_updated_at r)) r.

Definition storable_settings (r : UserSettingsRecord) : Prop := valid_time (us_created_at r).

(** Ids are [std::int64_t]. *)
Definition storable_bot_settings (r : BotSettingsRecord) : Prop :=
  Forall in_int64 (bs_sudo_users r) /\ Forall in_int64 (bs_authorized_chats r).

(** A store of user settings, one record per user. *)
Class UserSettingsRepositoryLaws (W : Type) `{!UserSettingsRepository W} (inv : W -> Prop)
  (settings : W -> gmap Z UserSettingsRecord) : Prop := {
  ul_get_inv user w : inv w -> inv (us_get user w).2;
  ul_get_frame user w : inv w -> settings (us_get user w).2 = settings w;
  ul_get user w o w' : inv w -> us_get user w = (Ok o, w') -> o = settings w !! value user;
  ul_save_inv r w : inv w -> storable_settings r -> inv (us_save r w).2;
  ul_save r w : inv w -> storable_settings r ->
    match us_save r w with
    | (Ok _, w') => exists tp, valid_time tp /\
        settings w' = <[value (us_user_id r) := stored_settings (saved_settings tp r)]> (settings w)
    | (Err _, w') => settings w' = settings w
    end;
  ul_remove user w : inv w ->
    match us_remove user w with
    | (Ok _, w') => is_Some (settings w !! value user) /\ settings w' = delete (value user) (settings w)
    | (Err _, w') => settings w' = settings w
    end;
  ul_storable u r w : inv w -> settings w !! u = Some r -> storable_settings r /\ value (us_user_id r) = u
}.

(** A store of the bot's one record, which has defaults until it is saved. *)
Class BotSettingsRepositoryLaws (W : Type) `{!BotSettingsRepository W} (inv : W -> Prop)
  (current : W -> BotSettingsRecord) : Prop := {
  bl_load_inv w : inv w -> inv (bot_load w).2;
  bl_load_frame w : inv w -> current (bot_load w).2 = current w;
  bl_load w r w' : inv w -> bot_load w = (Ok r, w') -> r = current w;
  bl_save_inv r w : inv w -> storable_bot_settings r -> inv (bot_save r w).2;
  bl_save r w : inv w -> storable_bot_settings r ->
    match bot_save r w with
    | (Ok _, w') => exists tp, valid_time tp /\ current w' = stored_bot_settings (touch_bot_settings tp r)
    | (Err _, w') => current w' = current w
    end
}.

Section Laws.
  Context {W : Type} `{!Clock W, !ValidClock W, !UserSettingsRepository W, !BotSettingsRepository W}.

(** ** Lemmas: the use cases on the stores *)

Lemma update_user_settings_effect inv settings user f w :
  UserSettingsRepositoryLaws W inv settings -> (forall w, inv w -> inv (now w).2) -> Preserves settings now ->
  inv w -> (forall r, storable_settings r -> storable_settings (f r)) ->
  match update_user_settings user (Some f) w with
  | (Ok rec, w') => inv w' /\ exists tp tp', valid_time tp /\ valid_time tp' /\
      rec = f (touch_settings tp (default (fresh_settings user tp) (settings w !! value user))) /\
      settings w' = <[value (us_user_id rec) := stored_settings (saved_settings tp' rec)]> (settings w)
  | (Err _, w') => settings w' = settings w
  end.
Proof.
  intros Hlaws Hnow Hframe Hinv Hf. unfold update_user_settings, try_bind, mbind, mreturn.
  pose proof (ul_get_inv user w Hinv) as Hinv1. pose proof (ul_get_frame user w Hinv) as Hw1.
  pose proof (ul_get user w) as Hget. destruct (us_get user w) as [[o|e] w1]; simpl in *; [|done].
  specialize (Hget o w1 Hinv eq_refl). subst o.
  pose proof (clock_shows w1) as Htp. pose proof (Hnow w1 Hinv1) as Hinv2. pose proof (Hframe w1) as Hw2.
  destruct (now w1) as [tp w2]. simpl in *.
  set (r0 := match settings w !! value user with Some r => r | None => fresh_settings user tp end).
  assert (storable_settings (f (touch_settings tp r0))) as Hs.
  { apply Hf. subst r0. destruct (settings w !! value user) as [r|] eqn:E; [|done].
    by apply (ul_storable _ _ _ Hinv) in E as [? _]. }
  pose proof (ul_save _ w2 Hinv2 Hs) as Hsave. pose proof (ul_save_inv _ w2 Hinv2 Hs) as Hinv3.
  destruct (us_save (f (touch_settings tp r0)) w2) as [[[]|e] w3]; simpl in *; [|congruence].
  destruct Hsave as (tp' & Htp' & Hsave). split; [done|]. exists tp, tp'. split_and!; [done|done| |congruence].
  subst r0. by destruct (settings w !! value user).
Qed.

Lemma update_bot_settings_effect inv current f w :
  BotSettingsRepositoryLaws W inv current -> (forall w, inv w -> inv (now w).2) -> Preserves current now ->
  inv w -> storable_bot_settings (f (current w)) ->
  match update_bot_settings (Some f) w with
  | (Ok rec, w') => inv w' /\ exists tp tp', valid_time tp /\ valid_time tp' /\
      rec = touch_bot_settings tp (f (current w)) /\
      current w' = stored_bot_settings (touch_bot_settings tp' rec)
  | (Err _, w') => current w' = current w
  end.
Proof.
  intros Hlaws Hnow Hframe Hinv Hf. unfold update_bot_settings, try_bind, mbind, mreturn.
  pose proof (bl_load_inv w Hinv) as Hinv1. pose proof (bl_load_frame w Hinv) as Hw1.
  pose proof (bl_load w) as Hload. destruct (bot_load w) as [[r|e] w1]; simpl in *; [|done].
  specialize (Hload r w1 Hinv eq_refl). subst r.
  pose proof (clock_shows w1) as Htp. pose proof (Hnow w1 Hinv1) as Hinv2. pose proof (Hframe w1) as Hw2.
  destruct (now w1) as [tp w2]. simpl in *.
  assert (storable_bot_settings (touch_bot_settings tp (f (current w)))) as Hs by done.
  pose proof (bl_save _ w2 Hinv2 Hs) as Hsave. pose proof (bl_save_inv _ w2 Hinv2 Hs) as Hinv3.
  destruct (bot_save _ w2) as [[[]|e] w3]; simpl in *; [|congruence].
  destruct Hsave as (tp' & Htp' & Hsave). split; [done|]. by exists tp, tp'.
Qed.

End Laws.
