(* ===== verification/SqliteSettings.v ===== *)
(** * The SQLite settings repositories: [persistence/sqlite_user_settings_repository.cpp],
    [persistence/sqlite_bot_settings_repository.cpp]

    [UserSettingsDb] and [BotSettingsDb] are the statements on the two tables, with their
    documented behaviour in [UserSettingsDbLaws] and [BotSettingsDbLaws]; nlohmann::json's
    treatment of arrays of integers is [IdArrays].  Both repositories are proved to keep the
    promises of [Settings]. *)

From S2P Require Import Prelude CoreError Identifiers UploadDestination TimeCodec Ports Database Settings Configuration.

Local Open Scope coro_scope.

(** ** User settings *)

(** A row of [user_settings] without its key. *)
Record UserSettingsRow := MkUserSettingsRow {
  sr_leech : string;
  sr_mirror : string;
  sr_thumb : option string;
  sr_rclone_remote : option string;
  sr_gdrive_folder : option string;
  sr_upload_as_doc : Z;
  sr_created_at : string;
  sr_updated_at : string
}.

(** The statements; [delete_settings] yields [sqlite3_changes]. *)
Class UserSettingsDb (W : Type) := {
  select_settings : Z -> M W (DbExn + list UserSettingsRow);
  replace_settings : Z -> UserSettingsRow -> M W (DbExn + unit);
  delete_settings : Z -> M W (DbExn + Z)
}.

Class UserSettingsDbLaws (W : Type) `{!ConnectionPool W, !UserSettingsDb W} (table : W -> gmap Z UserSettingsRow)
  : Prop := {
  ud_acquire :: Preserves table pool_acquire;
  ud_release :: Preserves table pool_release;
  ud_select_frame user :: Preserves table (select_settings user);
  ud_select user w rows w' : select_settings user w = (inr rows, w') -> rows = option_list (table w !! user);
  ud_replace user r w :
    table (replace_settings user r w).2 =
      match (replace_settings user r w).1 with inr _ => <[user := r]> (table w) | inl _ => table w end;
  ud_delete user w :
    match delete_settings user w with
    | (inr n, w') => (n = 0 <-> table w !! user = None) /\ table w' = delete user (table w)
    | (inl e, w') => table w' = table w
    end
}.

(** What the row callback of [get] makes of a row; the first unreadable column decides. *)
Definition read_settings (user : UserId) (r : UserSettingsRow) : Result UserSettingsRecord :=
  match parse_upload_destination (sr_leech r), parse_upload_destination (sr_mirror r),
        parse_iso8601 (sr_created_at r), parse_iso8601 (sr_updated_at r) with
  | Err e, _, _, _ => Err e
  | _, Err e, _, _ => Err e
  | _, _, Err e, _ => Err e
  | _, _, _, Err e => Err e
  | Ok leech, Ok mirror, Ok created, Ok updated =>
      Ok (MkUserSettings user leech mirror (sr_thumb r) (sr_rclone_remote r) (sr_gdrive_folder r)
            (negb (sr_upload_as_doc r =? 0)) created updated)
  end.

(** The row callback over the rows: [parse_status] keeps the last failure, [result] the last
    record. *)
Definition on_settings_row (user : UserId) (acc : Result unit * option UserSettingsRecord) (r : UserSettingsRow)
  : Result unit * option UserSettingsRecord :=
  match read_settings user r with
  | Err e => (Err e, acc.2)
  | Ok rec => (acc.1, Some rec)
  end.

(** The values [save] binds. *)
Definition settings_row (r : UserSettingsRecord) : UserSettingsRow :=
  MkUserSettingsRow (destination_to_string (us_leech_destination r)) (destination_to_string (us_mirror_destination r))
    (us_default_thumb_path r) (us_rclone_remote r) (us_gdrive_folder_id r)
    (if us_upload_as_document r then 1 else 0) (to_iso8601 (us_created_at r)) (to_iso8601 (us_updated_at r)).

Section UserRepository.
  Context {W : Type} `{!Clock W, !ConnectionPool W, !UserSettingsDb W}.

(** [SqliteUserSettingsRepository::get]. *)
Definition get_settings (user : UserId) : M W (Result (option UserSettingsRecord)) :=
  with_lease (
    co_await rows <- select_settings (value user);
    co_return match rows with
              | inl e => database_error "user_settings.get" e
              | inr rows =>
                  match foldl (on_settings_row user) (Ok (), None) rows with
                  | (Err e, _) => Err e
                  | (Ok _, result) => Ok result
                  end
              end).

(** [SqliteUserSettingsRepository::save]. *)
Definition save_settings (record : UserSettingsRecord) : M W (Result unit) :=
  with_lease (
    co_await tp <- now;
    let record := saved_settings tp record in
    co_await r <- replace_settings (value (us_user_id record)) (settings_row record);
    co_return match r with
              | inl e => database_error "user_settings.save" e
              | inr _ => Ok ()
              end).

(** [SqliteUserSettingsRepository::remove]. *)
Definition remove_settings (user : UserId) : M W (Result unit) :=
  with_lease (
    co_await changes <- delete_settings (value user);
    co_return match changes with
              | inl e => database_error "user_settings.remove" e
              | inr n => if n =? 0
                         then error NotFound ("user_settings.remove: no row for user_id " +:+ fmt_int (value user))
                         else Ok ()
              end).

#[global] Instance sqlite_user_settings : UserSettingsRepository W := {
  us_get := get_settings;
  us_save := save_settings;
  us_remove := remove_settings
}.

End UserRepository.

(** ** Bot settings *)

(** What the code uses of [nlohmann::json]: printing an array of integers, and parsing a text,
    which throws, or is no array, or is an array whose entries are integers or not. *)
Inductive ParsedArray := ParseThrew (what : string) | NotAnArray | ArrayOf (entries : list (option Z)).

Class IdArrays := {
  dump_ids : list Z -> string;
  parse_array : string -> ParsedArray;
  parse_dump ids : Forall in_int64 ids -> parse_array (dump_ids ids) = ArrayOf (Some <$> ids)
}.

Section IdColumns.
  Context {arrays : IdArrays}.

(** [encode_id_array]. *)
Definition encode_id_array (ids : list Z) : string := dump_ids ids.

(** The loop of [decode_id_array]. *)
Fixpoint decode_entries (entries : list (option Z)) : Result (list Z) :=
  match entries with
  | [] => Ok []
  | None :: _ => error Deserialization "bot_settings ID array contains non-integer entry"
  | Some id :: rest => match decode_entries rest with Ok out => Ok (id :: out) | Err e => Err e end
  end.

(** [decode_id_array]. *)
Definition decode_id_array (text : string) : Result (list Z) :=
  match parse_array text with
  | ParseThrew what => error JsonParse ("bot_settings ID array parse failed: " +:+ what)
  | NotAnArray => error Deserialization ("bot_settings ID array is not a JSON array: " +:+ text)
  | ArrayOf entries => decode_entries entries
  end.

(** The row of [bot_settings] with [id = 1]. *)
Record BotSettingsRow := MkBotSettingsRow {
  br_owner : Z;
  br_sudo : string;
  br_chats : string;
  br_download_dir : string;
  br_split_size : Z;
  br_upload_limit : Z;
  br_status_ms : Z;
  br_rss_ms : Z;
  br_updated_at : string
}.

(** The row callback of [load]: the columns that need parsing first. *)
Definition read_bot_settings (r : BotSettingsRow) : Result BotSettingsRecord :=
  match decode_id_array (br_sudo r), decode_id_array (br_chats r), parse_iso8601 (br_updated_at r) with
  | Err e, _, _ => Err e
  | _, Err e, _ => Err e
  | _, _, Err e => Err e
  | Ok sudo, Ok chats, Ok ts =>
      Ok (MkBotSettings (br_owner r) sudo chats (br_download_dir r) (br_split_size r) (br_upload_limit r)
            (br_status_ms r) (br_rss_ms r) ts)
  end.

Definition on_bot_row (acc : Result unit * BotSettingsRecord) (r : BotSettingsRow) : Result unit * BotSettingsRecord :=
  match read_bot_settings r with
  | Err e => (Err e, acc.2)
  | Ok rec => (acc.1, rec)
  end.

(** The values [save] binds. *)
Definition bot_settings_row (r : BotSettingsRecord) : BotSettingsRow :=
  MkBotSettingsRow (bs_owner_id r) (encode_id_array (bs_sudo_users r)) (encode_id_array (bs_authorized_chats r))
    (bs_download_dir r) (bs_leech_split_size r) (bs_upload_limit_bytes r) (bs_status_update_interval r)
    (bs_rss_poll_interval r) (to_iso8601 (bs_updated_at r)).

(** The statements on [bot_settings]. *)
Class BotSettingsDb (W : Type) := {
  select_bot_settings : M W (DbExn + list BotSettingsRow);
  replace_bot_settings : BotSettingsRow -> M W (DbExn + unit)
}.

Class BotSettingsDbLaws (W : Type) `{!ConnectionPool W, !BotSettingsDb W} (row : W -> option BotSettingsRow) : Prop := {
  bd_acquire :: Preserves row pool_acquire;
  bd_release :: Preserves row pool_release;
  bd_select_frame :: Preserves row select_bot_settings;
  bd_select w rows w' : select_bot_settings w = (inr rows, w') -> rows = option_list (row w);
  bd_replace r w :
    row (replace_bot_settings r w).2 =
      match (replace_bot_settings r w).1 with inr _ => Some r | inl _ => row w end
}.

Context {W : Type} `{!Clock W, !ConnectionPool W, !BotSettingsDb W}.

(** [SqliteBotSettingsRepository::load]: the defaults when there is no row. *)
Definition load_bot_settings : M W (Result BotSettingsRecord) :=
  with_lease (
    co_await rows <- select_bot_settings;
    co_return match rows with
              | inl e => database_error "bot_settings.load" e
              | inr rows =>
                  match foldl on_bot_row (Ok (), default_bot_settings) rows with
                  | (Err e, _) => Err e
                  | (Ok _, record) => Ok record
                  end
              end).

(** [SqliteBotSettingsRepository::save]. *)
Definition save_bot_settings (record : BotSettingsRecord) : M W (Result unit) :=
  with_lease (
    co_await tp <- now;
    co_await r <- replace_bot_settings (bot_settings_row (touch_bot_settings tp record));
    co_return match r with
              | inl e => database_error "bot_settings.save" e
              | inr _ => Ok ()
              end).

#[global] Instance sqlite_bot_settings : BotSettingsRepository W := {
  bot_load := load_bot_settings;
  bot_save := save_bot_settings
}.

End IdColumns.

(** ** Lemmas: rows *)

Lemma read_settings_row r :
  valid_time (us_created_at r) -> valid_time (us_updated_at r) ->
  read_settings (us_user_id r) (settings_row r) = Ok (stored_settings r).
Proof.
  intros [Hc _] [Hu _]. unfold read_settings, settings_row, stored_settings. simpl.
  rewrite !parse_destination_to_string, !parse_to_iso8601 by done. by destruct (us_upload_as_document r).
Qed.

(** A record as the table keeps it. *)
Definition kept_settings (r : UserSettingsRecord) : Prop :=
  valid_time (us_created_at r) /\ valid_time (us_updated_at r) /\ stored_settings r = r.

Lemma kept_stored_settings r :
  valid_time (us_created_at r) -> valid_time (us_updated_at r) -> kept_settings (stored_settings r).
Proof.
  intros Hc Hu. split_and!; [by apply valid_time_floor..|]. unfold stored_settings. simpl. by rewrite !floor_time_idemp.
Qed.

Lemma settings_row_stored r : settings_row (stored_settings r) = settings_row r.
Proof. unfold settings_row, stored_settings, to_iso8601. simpl. by rewrite !floor_ms_floor_time. Qed.

Lemma saved_settings_valid tp r :
  valid_time tp -> storable_settings r ->
  valid_time (us_created_at (saved_settings tp r)) /\ valid_time (us_updated_at (saved_settings tp r)).
Proof. intros Ht Hr. simpl. by destruct (_ =? 0). Qed.

(** ** The user settings repository keeps its promise *)

Section UserLaws.
  Context {W : Type} `{!Clock W, !ConnectionPool W, !UserSettingsDb W} (table : W -> gmap Z UserSettingsRow).
  Context `{!UserSettingsDbLaws W table, !Preserves table now, !ValidClock W}.

(** Every row was written by [save]. *)
Definition settings_inv (w : W) : Prop :=
  forall u row, table w !! u = Some row ->
    exists r, kept_settings r /\ row = settings_row r /\ u = value (us_user_id r).

(** The record a row stands for, under its user. *)
Definition held_setting (u : Z) (row : UserSettingsRow) : option UserSettingsRecord :=
  match read_settings (MkId u) row with Ok r => Some r | Err _ => None end.
Definition held_settings (w : W) : gmap Z UserSettingsRecord := map_imap held_setting (table w).

Lemma held_setting_kept r : kept_settings r -> held_setting (value (us_user_id r)) (settings_row r) = Some r.
Proof.
  intros (Hc & Hu & Hs). unfold held_setting. pose proof (read_settings_row r Hc Hu) as H.
  destruct (us_user_id r) as [u]. simpl in *. by rewrite H, Hs.
Qed.

Lemma settings_inv_frame w w' : table w' = table w -> settings_inv w -> settings_inv w'.
Proof. unfold settings_inv. by intros ->. Qed.

Lemma held_settings_frame w w' : table w' = table w -> held_settings w' = held_settings w.
Proof. unfold held_settings. by intros ->. Qed.

Lemma held_settings_lookup w u :
  settings_inv w ->
  held_settings w !! u = table w !! u ≫= held_setting u /\
  (held_settings w !! u = None <-> table w !! u = None).
Proof.
  intros Hinv. unfold held_settings. rewrite map_lookup_imap. split; [done|].
  destruct (table w !! u) as [row|] eqn:E; [|done]. destruct (Hinv u row E) as (r & Hr & -> & ->). simpl.
  by rewrite held_setting_kept.
Qed.

#[local] Instance get_settings_frame user : Preserves table (get_settings user).
Proof. unfold get_settings. frame. Qed.

(** Once a connection is lent and the query runs, [get] answers with the stored record. *)
Lemma get_settings_available user w w1 rows w2 :
  settings_inv w -> pool_acquire w = (Ok (), w1) -> select_settings (value user) w1 = (inr rows, w2) ->
  (get_settings user w).1 = Ok (held_settings w !! value user).
Proof.
  intros Hinv Ha Hs. unfold get_settings. rewrite (with_lease_run _ _ _ Ha). unfold mbind, mreturn. rewrite Hs. simpl.
  pose proof (preserves (v := table) (m := pool_acquire) w) as Hf. rewrite Ha in Hf. simpl in Hf.
  apply ud_select in Hs as ->. rewrite Hf. rewrite (proj1 (held_settings_lookup w (value user) Hinv)).
  destruct (table w !! value user) as [row|] eqn:E; [|done].
  destruct (Hinv _ _ E) as (r & Hr & -> & Hu). simpl. unfold on_settings_row.
  pose proof (held_setting_kept r Hr) as Hk. rewrite <- Hu in Hk. unfold held_setting in *.
  destruct user as [u]. simpl in *. destruct (read_settings _ _); [|done]. by injection Hk as ->.
Qed.

Lemma save_settings_effect r w :
  match save_settings r w with
  | (Ok _, w') => exists tp, valid_time tp /\
      table w' = <[value (us_user_id r) := settings_row (saved_settings tp r)]> (table w)
  | (Err _, w') => table w' = table w
  end.
Proof.
  unfold save_settings. leased table w w1 Hw1. pose proof (preserves (v := table) (m := now) w1) as Hn.
  pose proof (clock_shows w1) as Htp. destruct (now w1) as [tp w2]. simpl in *.
  pose proof (ud_replace (value (us_user_id r)) (settings_row (saved_settings tp r)) w2) as Hr.
  destruct (replace_settings _ _ w2) as [[e|[]] w3]; simpl in *; rewrite Hn, Hw1 in Hr; [by destruct e|].
  by exists tp.
Qed.

Lemma remove_settings_effect user w :
  match remove_settings user w with
  | (Ok _, w') => is_Some (table w !! value user) /\ table w' = delete (value user) (table w)
  | (Err _, w') => table w' = table w
  end.
Proof.
  unfold remove_settings. leased table w w1 Hw1. pose proof (ud_delete (value user) w1) as Hd. rewrite Hw1 in Hd.
  destruct (delete_settings _ w1) as [[e|n] w2]; simpl; [by destruct e|].
  destruct Hd as [Hn Hd]. destruct (Z.eqb_spec n 0) as [->|Hne]; simpl.
  - rewrite Hd. apply delete_id. by apply Hn.
  - split; [|done]. destruct (table w !! value user) eqn:E; [eauto|]. by destruct Hne; apply Hn.
Qed.

#[global] Instance sqlite_user_settings_laws : UserSettingsRepositoryLaws W settings_inv held_settings.
Proof.
  split.
  - intros user w. apply settings_inv_frame, get_settings_frame.
  - intros user w _. apply held_settings_frame, get_settings_frame.
  - intros user w o w' Hinv Hget. destruct (with_lease_inv _ _ _ _ Hget) as (w1 & w2 & Ha & Hb).
    unfold mbind, mreturn in Hb. destruct (select_settings (value user) w1) as [[e|rows] w3] eqn:Hs; [by destruct e|].
    pose proof (get_settings_available user w w1 rows w3 Hinv Ha Hs) as H. simpl in Hget. rewrite Hget in H. by injection H.
  - intros r w Hinv Hr. simpl. pose proof (save_settings_effect r w) as H.
    destruct (save_settings r w) as [[[]|e] w']; simpl; [|by eapply settings_inv_frame].
    destruct H as (tp & Htp & H). intros u row. rewrite H, lookup_insert_Some. intros [[<- <-]|[_ Hk]]; [|by apply Hinv].
    exists (stored_settings (saved_settings tp r)). destruct (saved_settings_valid tp r Htp Hr).
    rewrite settings_row_stored. by split; [apply kept_stored_settings|].
  - intros r w Hinv Hr. simpl. pose proof (save_settings_effect r w) as H.
    destruct (save_settings r w) as [[[]|e] w']; [|by apply held_settings_frame].
    destruct H as (tp & Htp & H). exists tp. split; [done|]. unfold held_settings. rewrite H.
    destruct (saved_settings_valid tp r Htp Hr). apply map_imap_insert_Some.
    rewrite <- settings_row_stored. by apply (held_setting_kept (stored_settings (saved_settings tp r))), kept_stored_settings.
  - intros user w Hinv. simpl. pose proof (remove_settings_effect user w) as H.
    destruct (remove_settings user w) as [[[]|e] w']; [|by apply held_settings_frame].
    destruct H as [[row Hrow] H]. split.
    + destruct (held_settings w !! value user) eqn:E; [eauto|]. apply held_settings_lookup in E; [|done]. congruence.
    + unfold held_settings. rewrite H. apply map_imap_delete.
  - intros u r w Hinv. rewrite (proj1 (held_settings_lookup w u Hinv)).
    destruct (table w !! u) as [row|] eqn:E; [|done]. destruct (Hinv u row E) as (r' & Hr & -> & ->). simpl.
    rewrite held_setting_kept by done. intros [= <-]. by split; [apply Hr|].
Qed.

(** Updating a user's settings, whatever happened before and whatever the mutator does:
    on success the answer is the mutator applied to the stored record (a fresh one when there
    is none) with its time refreshed, exactly the row of the answer's user is replaced, and a
    later [get] that reaches the database reads the answer back at millisecond granularity;
    on failure no record has changed. *)
Theorem user_settings_update_persists user f w :
  settings_inv w -> (forall r, storable_settings r -> storable_settings (f r)) ->
  match update_user_settings user (Some f) w with
  | (Ok rec, w') => settings_inv w' /\ exists tp tp', valid_time tp /\ valid_time tp' /\
      rec = f (touch_settings tp (default (fresh_settings user tp) (held_settings w !! value user))) /\
      held_settings w' =
        <[value (us_user_id rec) := stored_settings (saved_settings tp' rec)]> (held_settings w) /\
      forall w1 rows w2, pool_acquire w' = (Ok (), w1) ->
        select_settings (value (us_user_id rec)) w1 = (inr rows, w2) ->
        (get_settings (us_user_id rec) w').1 = Ok (Some (stored_settings (saved_settings tp' rec)))
  | (Err _, w') => held_settings w' = held_settings w
  end.
Proof.
  intros Hinv Hf.
  pose proof (update_user_settings_effect settings_inv held_settings user f w _
    (fun w => settings_inv_frame w _ (preserves w)) (fun w => held_settings_frame w _ (preserves w)) Hinv Hf) as H.
  destruct (update_user_settings user (Some f) w) as [[rec|e] w']; [|done].
  destruct H as (Hinv' & tp & tp' & Htp & Htp' & Hrec & Hw'). split; [done|]. exists tp, tp'. split_and!; try done.
  intros w1 rows w2 Ha Hs. rewrite (get_settings_available _ _ _ _ _ Hinv' Ha Hs), Hw'. by rewrite lookup_insert_eq.
Qed.

End UserLaws.

(** ** The bot settings repository keeps its promise *)

Section BotLaws.
  Context {arrays : IdArrays} {W : Type} `{!Clock W, !ConnectionPool W, !BotSettingsDb W} (row : W -> option BotSettingsRow).
  Context `{!BotSettingsDbLaws W row, !Preserves row now, !ValidClock W}.

Lemma decode_encode_ids ids : Forall in_int64 ids -> decode_id_array (encode_id_array ids) = Ok ids.
Proof.
  intros H. unfold decode_id_array, encode_id_array. rewrite parse_dump by done. clear H.
  induction ids as [|id ids IH]; [done|]. cbn. by rewrite IH.
Qed.

Lemma read_bot_settings_row r :
  storable_bot_settings r -> in_int64 (bs_updated_at r) ->
  read_bot_settings (bot_settings_row r) = Ok (stored_bot_settings r).
Proof.
  intros [Hs Hc] Ht. unfold read_bot_settings, bot_settings_row. simpl.
  by rewrite !decode_encode_ids, parse_to_iso8601.
Qed.

(** The row, if any, was written by [save]. *)
Definition bot_inv (w : W) : Prop :=
  forall r, row w = Some r ->
    exists rec, storable_bot_settings rec /\ valid_time (bs_updated_at rec) /\ r = bot_settings_row rec.

(** The settings in force. *)
Definition current_settings (w : W) : BotSettingsRecord :=
  match row w with
  | None => default_bot_settings
  | Some r => match read_bot_settings r with Ok rec => rec | Err _ => default_bot_settings end
  end.

Lemma bot_frame w w' : row w' = row w -> (bot_inv w -> bot_inv w') /\ current_settings w' = current_settings w.
Proof. unfold bot_inv, current_settings. by intros ->. Qed.

#[local] Instance load_bot_frame : Preserves row load_bot_settings.
Proof. unfold load_bot_settings. frame. Qed.

Lemma load_bot_available w w1 rows w2 :
  bot_inv w -> pool_acquire w = (Ok (), w1) -> select_bot_settings w1 = (inr rows, w2) ->
  (load_bot_settings w).1 = Ok (current_settings w).
Proof.
  intros Hinv Ha Hs. unfold load_bot_settings. rewrite (with_lease_run _ _ _ Ha). unfold mbind, mreturn. rewrite Hs. simpl.
  pose proof (preserves (v := row) (m := pool_acquire) w) as Hf. rewrite Ha in Hf. simpl in Hf.
  apply bd_select in Hs as ->. rewrite Hf. unfold current_settings. destruct (row w) as [r|] eqn:E; [|done].
  destruct (Hinv r E) as (rec & Hrec & [Ht _] & ->). simpl. unfold on_bot_row.
  by rewrite read_bot_settings_row.
Qed.

Lemma save_bot_effect r w :
  match save_bot_settings r w with
  | (Ok _, w') => exists tp, valid_time tp /\ row w' = Some (bot_settings_row (touch_bot_settings tp r))
  | (Err _, w') => row w' = row w
  end.
Proof.
  unfold save_bot_settings. leased row w w1 Hw1. pose proof (preserves (v := row) (m := now) w1) as Hn.
  pose proof (clock_shows w1) as Htp. destruct (now w1) as [tp w2]. simpl in *.
  pose proof (bd_replace (bot_settings_row (touch_bot_settings tp r)) w2) as Hr.
  destruct (replace_bot_settings _ w2) as [[e|[]] w3]; simpl in *; [destruct e; congruence|]. by exists tp.
Qed.

#[global] Instance sqlite_bot_settings_laws : BotSettingsRepositoryLaws W bot_inv current_settings.
Proof.
  split.
  - intros w. apply bot_frame, load_bot_frame.
  - intros w _. apply bot_frame, load_bot_frame.
  - intros w r w' Hinv Hload. destruct (with_lease_inv _ _ _ _ Hload) as (w1 & w2 & Ha & Hb).
    unfold mbind, mreturn in Hb. destruct (select_bot_settings w1) as [[e|rows] w3] eqn:Hs; [by destruct e|].
    pose proof (load_bot_available w w1 rows w3 Hinv Ha Hs) as H. simpl in Hload. rewrite Hload in H. by injection H.
  - intros r w Hinv Hr. simpl. pose proof (save_bot_effect r w) as H.
    destruct (save_bot_settings r w) as [[[]|e] w']; simpl; [|by apply (proj1 (bot_frame _ _ H))].
    destruct H as (tp & Htp & H). intros r'. rewrite H. intros [= <-].
    by exists (touch_bot_settings tp r).
  - intros r w Hinv Hr. simpl. pose proof (save_bot_effect r w) as H.
    destruct (save_bot_settings r w) as [[[]|e] w']; [|by apply (proj2 (bot_frame _ _ H))].
    destruct H as (tp & Htp & H). exists tp. split; [done|]. unfold current_settings. rewrite H.
    rewrite read_bot_settings_row; [done|done|]. apply Htp.
Qed.

(** Updating the bot's settings: on success the answer is the mutator applied to the
    settings in force (the defaults before the first save) with its time refreshed, and a later
    [load] that reaches the database reads the answer back at millisecond granularity, id lists
    included; on failure the settings in force have not changed. *)
Theorem bot_settings_update_persists f w :
  bot_inv w -> storable_bot_settings (f (current_settings w)) ->
  match update_bot_settings (Some f) w with
  | (Ok rec, w') => bot_inv w' /\ exists tp tp', valid_time tp /\ valid_time tp' /\
      rec = touch_bot_settings tp (f (current_settings w)) /\
      current_settings w' = stored_bot_settings (touch_bot_settings tp' rec) /\
      forall w1 rows w2, pool_acquire w' = (Ok (), w1) -> select_bot_settings w1 = (inr rows, w2) ->
        (load_bot_settings w').1 = Ok (stored_bot_settings (touch_bot_settings tp' rec))
  | (Err _, w') => current_settings w' = current_settings w
  end.
Proof.
  intros Hinv Hf.
  pose proof (update_bot_settings_effect bot_inv current_settings f w _
    (fun w => proj1 (bot_frame w _ (preserves w))) (fun w => proj2 (bot_frame w _ (preserves w))) Hinv Hf) as H.
  destruct (update_bot_settings (Some f) w) as [[rec|e] w']; [|done].
  destruct H as (Hinv' & tp & tp' & Htp & Htp' & Hrec & Hw'). split; [done|]. exists tp, tp'. split_and!; try done.
  intros w1 rows w2 Ha Hs. by rewrite (load_bot_available _ _ _ _ Hinv' Ha Hs), Hw'.
Qed.

End BotLaws.

(** ** A concrete database *)

Module MemSettingsDb.

(** The two tables. *)
Definition World : Type := gmap Z UserSettingsRow * option BotSettingsRow.

#[export] Instance clock : Clock World := mreturn 1700000000123456789.

#[export] Instance pool : ConnectionPool World := {
  pool_acquire := mreturn (Ok ());
  pool_release := mreturn ()
}.

#[export] Instance user_db : UserSettingsDb World := {
  select_settings user := fun w => (inr (option_list (w.1 !! user)), w);
  replace_settings user r := fun w => (inr (), (<[user := r]> w.1, w.2));
  delete_settings user := fun w => (inr (if decide (is_Some (w.1 !! user)) then 1 else 0), (delete user w.1, w.2))
}.

#[export] Instance bot_db : BotSettingsDb World := {
  select_bot_settings := fun w => (inr (option_list w.2), w);
  replace_bot_settings r := fun w => (inr (), (w.1, Some r))
}.

#[export] Instance user_db_laws : UserSettingsDbLaws World fst.
Proof.
  split; try done.
  - by intros u w rows w' [= <- <-].
  - intros u w. split; [|done]. rewrite eq_None_not_Some. destruct (decide _); naive_solver lia.
Qed.

#[export] Instance bot_db_laws : BotSettingsDbLaws World snd.
Proof. split; try done. by intros w rows w' [= <- <-]. Qed.

#[export] Instance clock_user : Preserves (fst : World -> _) now.
Proof. done. Qed.
#[export] Instance clock_bot : Preserves (snd : World -> _) now.
Proof. done. Qed.
#[export] Instance clock_valid : ValidClock World.
Proof. by split; vm_compute. Qed.

(** JSON arrays of integers: brackets around the numbers, separated by commas. *)
Fixpoint print_ids (ids : list Z) : list ascii :=
  match ids with
  | [] => []
  | [x] => chars (fmt_int x)
  | x :: rest => chars (fmt_int x) ++ ","%char :: print_ids rest
  end.

Lemma print_ids_read ids : Forall in_int64 ids -> id_tokens (print_ids ids) = ids.
Proof.
  rewrite id_tokens_words. induction 1 as [|x ids Hx _ IH]; [done|]. destruct (fmt_int_token x Hx).
  destruct ids as [|y ids]; cbn [print_ids].
  - rewrite <- (app_nil_r (chars _)), id_words_token by done. cbn. by rewrite of_chars_chars, parse_int64_fmt.
  - rewrite id_words_token; [|done..|by intros c r [= <- _]].
    change (","%char :: ?l) with ([","%char] ++ l). rewrite id_words_separators by by repeat constructor. cbn [omap list_omap].
    rewrite of_chars_chars, parse_int64_fmt by done. f_equal. exact IH.
Qed.

Definition print_array (ids : list Z) : string := of_chars ("["%char :: print_ids ids ++ ["]"%char]).
Definition read_array (text : string) : ParsedArray := ArrayOf (Some <$> id_tokens (removelast (tail (chars text)))).

Lemma print_array_read ids : Forall in_int64 ids -> read_array (print_array ids) = ArrayOf (Some <$> ids).
Proof.
  intros H. unfold read_array, print_array. rewrite chars_of_chars. cbn [tail].
  by rewrite removelast_last, print_ids_read.
Qed.

#[export] Instance id_arrays : IdArrays := {
  dump_ids := print_array;
  parse_array := read_array;
  parse_dump := print_array_read
}.

End MemSettingsDb.

Import MemSettingsDb.

(** Eve has no row yet and chooses an rclone destination. *)
Definition choose_rclone (r : UserSettingsRecord) : UserSettingsRecord :=
  MkUserSettings (us_user_id r) (us_leech_destination r) Rclone (us_default_thumb_path r) (Some "box:")
    (us_gdrive_folder_id r) true (us_created_at r) (us_updated_at r).

Lemma user_settings_update_persists_witness :
  let w : World := (∅, None) in
  match update_user_settings (MkId 7) (Some choose_rclone) w with
  | (Ok rec, w') => us_mirror_destination rec = Rclone /\
      exists tp, (get_settings (us_user_id rec) w').1 = Ok (Some (stored_settings (saved_settings tp rec)))
  | (Err _, _) => False
  end.
Proof.
  intros w.
  assert (settings_inv fst w) as Hinv by (intros u row Hrow; by apply (lookup_empty_Some u row) in Hrow).
  pose proof (user_settings_update_persists fst (MkId 7) choose_rclone w Hinv (fun r H => H)) as H.
  destruct H as (_ & tp & tp' & _ & _ & _ & _ & Hget). split; [done|].
  exists tp'. exact (Hget _ _ _ eq_refl eq_refl).
Defined.

(** The owner authorises a chat over the defaults. *)
Definition authorise_chat (r : BotSettingsRecord) : BotSettingsRecord :=
  MkBotSettings (bs_owner_id r) [9; 11] [-100123] (bs_download_dir r) (bs_leech_split_size r)
    (bs_upload_limit_bytes r) (bs_status_update_interval r) (bs_rss_poll_interval r) (bs_updated_at r).

Lemma bot_settings_update_persists_witness :
  let w : World := (∅, None) in
  match update_bot_settings (Some authorise_chat) w with
  | (Ok rec, w') => bs_sudo_users rec = [9; 11] /\ bs_authorized_chats (current_settings snd w') = [-100123]
  | (Err _, _) => False
  end.
Proof.
  intros w. assert (bot_inv snd w) as Hinv by by intros r.
  assert (storable_bot_settings (authorise_chat (current_settings snd w))) as Hs.
  { split; simpl; repeat constructor; by vm_compute. }
  pose proof (bot_settings_update_persists snd authorise_chat w Hinv Hs) as H.
  destruct H as (_ & tp & tp' & _ & _ & _ & Hcur & _). split; [done|].
  exact (f_equal bs_authorized_chats Hcur).
Defined.
