(* ===== verification/SchemaMigrator.v ===== *)
(** * Schema migrations: [persistence/schema_migrator.cpp]

    The embedded scripts are kept as text; what SQLite does when it runs one is the parameter
    [script] of [MigrationDbLaws], next to the documented behaviour of transactions: until
    [COMMIT] succeeds nothing is durable, and after [ROLLBACK] no transaction is open.  The
    world changes by the migrator's own statements only: it runs at start-up, before any
    other writer. *)

From S2P Require Import Prelude CoreError Ports Database.

Local Open Scope coro_scope.

(** [struct Migration]. *)
Record Migration := MkMigration {
  version : Z;
  name : string;
  sql : string
}.

Definition kV0001InitialSchemaSql : string := "
-- ---------------------------------------------------------------------------
-- V0001__initial_schema.sql
-- Bootstrap CMLB persistence: version log, bot settings, user settings, tasks.
-- ---------------------------------------------------------------------------

CREATE TABLE IF NOT EXISTS schema_version (
    version     INTEGER PRIMARY KEY,
    name        TEXT NOT NULL,
    applied_at  TEXT NOT NULL DEFAULT (strftime('%Y-%m-%dT%H:%M:%fZ', 'now'))
);

CREATE TABLE IF NOT EXISTS bot_settings (
    id                    INTEGER PRIMARY KEY CHECK (id = 1),
    owner_id              INTEGER NOT NULL DEFAULT 0,
    sudo_users            TEXT    NOT NULL DEFAULT '[]',
    authorized_chats      TEXT    NOT NULL DEFAULT '[]',
    download_dir          TEXT    NOT NULL DEFAULT 'downloads',
    leech_split_size      INTEGER NOT NULL DEFAULT 2097152000,
    upload_limit_bytes    INTEGER NOT NULL DEFAULT 0,
    status_update_interval_ms INTEGER NOT NULL DEFAULT 5000,
    rss_poll_interval_ms  INTEGER NOT NULL DEFAULT 60000,
    updated_at            TEXT    NOT NULL DEFAULT (strftime('%Y-%m-%dT%H:%M:%fZ', 'now'))
);

CREATE TABLE IF NOT EXISTS user_settings (
    user_id              INTEGER PRIMARY KEY,
    leech_destination    TEXT    NOT NULL DEFAULT 'telegram',
    mirror_destination   TEXT    NOT NULL DEFAULT 'gdrive',
    default_thumb_path   TEXT,
    rclone_remote        TEXT,
    gdrive_folder_id     TEXT,
    upload_as_document   INTEGER NOT NULL DEFAULT 0,
    created_at           TEXT    NOT NULL DEFAULT (strftime('%Y-%m-%dT%H:%M:%fZ', 'now')),
    updated_at           TEXT    NOT NULL DEFAULT (strftime('%Y-%m-%dT%H:%M:%fZ', 'now'))
);

CREATE TABLE IF NOT EXISTS tasks (
    id                  TEXT    PRIMARY KEY,
    user_id             INTEGER NOT NULL,
    chat_id             INTEGER NOT NULL,
    status_message_id   INTEGER NOT NULL,
    kind                TEXT    NOT NULL,
    state               TEXT    NOT NULL,
    source_url          TEXT    NOT NULL,
    error_message       TEXT,
    created_at          TEXT    NOT NULL,
    updated_at          TEXT    NOT NULL
);

CREATE INDEX IF NOT EXISTS idx_tasks_user_id ON tasks(user_id);
CREATE INDEX IF NOT EXISTS idx_tasks_state   ON tasks(state);
".

Definition kV0002RssFeedsSql : string := "
-- ---------------------------------------------------------------------------
-- V0002__rss_feeds.sql
-- RSS feed subscriptions polled by the RSS monitor subsystem.
-- ---------------------------------------------------------------------------

CREATE TABLE IF NOT EXISTS rss_feeds (
    feed_id          INTEGER PRIMARY KEY AUTOINCREMENT,
    title            TEXT    NOT NULL,
    url              TEXT    NOT NULL UNIQUE,
    chat_id          INTEGER NOT NULL,
    include_regex    TEXT    NOT NULL DEFAULT '',
    exclude_regex    TEXT    NOT NULL DEFAULT '',
    last_guid        TEXT    NOT NULL DEFAULT '',
    last_checked_at  TEXT,
    enabled          INTEGER NOT NULL DEFAULT 1,
    created_at       TEXT    NOT NULL DEFAULT (strftime('%Y-%m-%dT%H:%M:%fZ', 'now'))
);

CREATE INDEX IF NOT EXISTS idx_rss_feeds_enabled ON rss_feeds(enabled);
".

Definition kV0003TaskDownloaderAttachmentSql : string := "
-- ---------------------------------------------------------------------------
-- V0003__task_downloader_attachment.sql
-- Persist the downloader binding (Gid + kind) per Task so that /cancel,
-- /pause, /resume can dispatch to the correct downloader without guessing.
-- ---------------------------------------------------------------------------

ALTER TABLE tasks ADD COLUMN downloader_kind TEXT NOT NULL DEFAULT 'None';
ALTER TABLE tasks ADD COLUMN downloader_id   TEXT;

CREATE INDEX IF NOT EXISTS idx_tasks_downloader_id
    ON tasks(downloader_id)
 WHERE downloader_id IS NOT NULL;
".

(** [migrations()]. *)
Definition migrations : list Migration := [
  MkMigration 1 "V0001__initial_schema" kV0001InitialSchemaSql;
  MkMigration 2 "V0002__rss_feeds" kV0002RssFeedsSql;
  MkMigration 3 "V0003__task_downloader_attachment" kV0003TaskDownloaderAttachmentSql
].

(** The statements; [inl] is a [sqlite_exception] with its text.  [exec_script] is
    [sqlite3_exec]: the return code, and the message unless the pointer stayed null. *)
Class MigrationDb (W : Type) := {
  create_version_table : M W (string + unit);
  select_max_version : M W (string + list Z);
  begin_immediate : M W (string + unit);
  exec_script : string -> M W (Z * option string);
  insert_version : Z -> string -> M W (string + unit);
  commit_transaction : M W (string + unit);
  rollback_transaction : M W (string + unit)
}.

Definition SQLITE_OK : Z := 0.

Section Migrator.
  Context {W : Type} `{!ConnectionPool W, !MigrationDb W}.

Definition ensure_schema_version_table : M W (Result unit) :=
  co_await r <- create_version_table;
  co_return match r with
            | inl what => error CoreError.Migration ("Failed to ensure schema_version table: " +:+ what)
            | inr _ => Ok ()
            end.

(** The row callback keeps the last row; no row means 0. *)
Definition read_current_version : M W (Result Z) :=
  co_await rows <- select_max_version;
  co_return match rows with
            | inl what => error CoreError.Database ("Failed to read schema_version: " +:+ what)
            | inr rows => Ok (foldl (fun _ v => v) 0 rows)
            end.

(** The [catch] of [apply_one]: a second exception is swallowed. *)
Definition apply_threw (m : Migration) (what : string) : M W (Result unit) :=
  co_await _ <- rollback_transaction;
  co_return error CoreError.Migration ("Migration " +:+ name m +:+ " threw: " +:+ what).

Definition apply_one (m : Migration) : M W (Result unit) :=
  co_await begun <- begin_immediate;
  match begun with
  | inl what => co_return error CoreError.Migration ("Failed to BEGIN for migration " +:+ name m +:+ ": " +:+ what)
  | inr _ =>
      co_await ran <- exec_script (sql m);
      let '(rc, err_msg) := ran in
      if negb (rc =? SQLITE_OK) then
        let detail := default "(no detail)" err_msg in
        co_await rolled <- rollback_transaction;
        match rolled with
        | inl what => apply_threw m what
        | inr _ => co_return error CoreError.Migration ("Migration " +:+ name m +:+ " failed: " +:+ detail)
        end
      else
        co_await inserted <- insert_version (version m) (name m);
        match inserted with
        | inl what => apply_threw m what
        | inr _ =>
            co_await committed <- commit_transaction;
            match committed with
            | inl what => apply_threw m what
            | inr _ => co_return Ok ()
            end
        end
  end.

(** [SchemaMigrator::current_version]. *)
Definition current_version : M W (Result Z) :=
  with_lease (
    co_try ensured <- ensure_schema_version_table;
    read_current_version).

(** The loop of [migrate]. *)
Fixpoint apply_newer (current : Z) (ms : list Migration) : M W (Result unit) :=
  match ms with
  | [] => co_return Ok ()
  | m :: rest =>
      if version m <=? current then apply_newer current rest
      else co_try applied <- apply_one m;
           apply_newer current rest
  end.

(** [SchemaMigrator::migrate]. *)
Definition migrate : M W (Result unit) :=
  with_lease (
    co_try ensured <- ensure_schema_version_table;
    co_try current <- read_current_version;
    apply_newer current migrations).

End Migrator.

(** ** The specification: a database that has gone through some of the migrations *)

(** The tables, and the rows of [schema_version]; an absent version table has no rows. *)
Record Schema (T : Type) := MkSchema {
  objects : T;
  version_log : gmap Z string
}.
Arguments MkSchema {T} _ _.
Arguments objects {T} _.
Arguments version_log {T} _.

(** [COALESCE(MAX(version), 0)]. *)
Definition latest (log : gmap Z string) : Z :=
  match (map_to_list log).*1 with [] => 0 | v :: vs => foldr Z.max v vs end.

(** One transaction: the script, then its version row under the primary key. *)
Definition migrated {T} (script : string -> T -> option T) (m : Migration) (s : Schema T) : option (Schema T) :=
  match script (sql m) (objects s), version_log s !! version m with
  | Some o, None => Some (MkSchema o (<[version m := name m]> (version_log s)))
  | _, _ => None
  end.

Fixpoint migrated_by {T} (script : string -> T -> option T) (ms : list Migration) (s : Schema T) : option (Schema T) :=
  match ms with
  | [] => Some s
  | m :: rest => migrated script m s ≫= migrated_by script rest
  end.

(** The migrations above the latest version. *)
Definition pending {T} (s : Schema T) : list Migration :=
  filter (fun m => latest (version_log s) < version m) migrations.

(** The behaviour of the statements, seen through what is durable and the open transaction. *)
Class MigrationDbLaws (W T : Type) `{!ConnectionPool W, !MigrationDb W} (script : string -> T -> option T)
  (durable : W -> Schema T) (open : W -> option (Schema T)) : Prop := {
  ml_acquire :: Preserves (fun w => (durable w, open w)) pool_acquire;
  ml_release :: Preserves (fun w => (durable w, open w)) pool_release;
  ml_create :: Preserves (fun w => (durable w, open w)) create_version_table;
  ml_select_frame :: Preserves (fun w => (durable w, open w)) select_max_version;
  ml_select w rows w' : open w = None -> select_max_version w = (inr rows, w') -> rows = [latest (version_log (durable w))];
  ml_begin w : open w = None ->
    durable (begin_immediate w).2 = durable w /\
    open (begin_immediate w).2 = match (begin_immediate w).1 with inr _ => Some (durable w) | inl _ => None end;
  ml_exec m s w : In m migrations -> open w = Some s ->
    durable (exec_script (sql m) w).2 = durable w /\
    ((exec_script (sql m) w).1.1 = SQLITE_OK ->
      exists o, script (sql m) (objects s) = Some o /\ open (exec_script (sql m) w).2 = Some (MkSchema o (version_log s)));
  ml_insert v n s w : open w = Some s ->
    durable (insert_version v n w).2 = durable w /\
    ((insert_version v n w).1 = inr () ->
      version_log s !! v = None /\ open (insert_version v n w).2 = Some (MkSchema (objects s) (<[v := n]> (version_log s))));
  ml_commit s w : open w = Some s ->
    match commit_transaction w with
    | (inr _, w') => durable w' = s /\ open w' = None
    | (inl _, w') => durable w' = durable w
    end;
  ml_rollback w : durable (rollback_transaction w).2 = durable w /\ open (rollback_transaction w).2 = None
}.

(** ** Lemmas *)

Lemma latest_spec log b : latest log <= b <-> (log = ∅ -> 0 <= b) /\ (forall v n, log !! v = Some n -> v <= b).
Proof.
  unfold latest. assert (forall v, v ∈ (map_to_list log).*1 <-> exists n, log !! v = Some n) as Hv.
  { intros v. rewrite list_elem_of_fmap. setoid_rewrite (surjective_pairing). split.
    - intros ([k n] & -> & H%elem_of_map_to_list). eauto.
    - intros [n H%elem_of_map_to_list]. by exists (v, n). }
  destruct (map_to_list log).*1 as [|k ks] eqn:E.
  - apply fmap_nil_inv, map_to_list_empty_iff in E. subst. split; [naive_solver|]. naive_solver.
  - assert (log <> ∅) as Hne by (intros ->; by rewrite map_to_list_empty in E).
    assert (foldr Z.max k ks <= b <-> Forall (fun v => v <= b) (k :: ks)) as ->.
    { clear. induction ks as [|x ks IH]; simpl; rewrite ?Forall_cons in *; [|rewrite Z.max_lub_iff, IH]; naive_solver. }
    rewrite Forall_forall. setoid_rewrite Hv. naive_solver.
Qed.

Lemma latest_lookup log v n : log !! v = Some n -> v <= latest log.
Proof. intros H. by apply (proj1 (latest_spec log _) (Z.le_refl _)) in H. Qed.

Lemma latest_insert log v n : latest log < v -> latest (<[v := n]> log) = v.
Proof.
  intros Hv. apply Z.le_antisymm; [|eapply latest_lookup, lookup_insert_eq].
  apply latest_spec. split; [by intros H%insert_non_empty|].
  intros k n'. rewrite lookup_insert_Some. intros [[-> _]|[_ H]]; [done|]. apply latest_lookup in H. lia.
Qed.

(** Newer migrations, in the order of the registry: what the loop runs. *)
Definition newer (current : Z) (ms : list Migration) : list Migration := filter (fun m => current < version m) ms.

Section Laws.
  Context {W T : Type} `{!ConnectionPool W, !MigrationDb W}.
  Context (script : string -> T -> option T) (durable : W -> Schema T) (open : W -> option (Schema T)).
  Context `{!MigrationDbLaws W T script durable open}.

Notation seen := (fun w => (durable w, open w)).

Lemma apply_threw_effect m what w :
  exists e w', apply_threw m what w = (Err e, w') /\ open w' = None /\ durable w' = durable w.
Proof.
  unfold apply_threw, mbind, mreturn. destruct (ml_rollback w) as [Hd Ho].
  destruct (rollback_transaction w) as [r w']. simpl in *. by eexists _, _.
Qed.

(** One migration: its whole transaction or nothing, and no transaction stays open. *)
Lemma apply_one_effect m w : In m migrations -> open w = None ->
  open (apply_one m w).2 = None /\
  match (apply_one m w).1 with
  | Ok _ => migrated script m (durable w) = Some (durable (apply_one m w).2)
  | Err _ => durable (apply_one m w).2 = durable w
  end.
Proof.
  intros Hm Hw. unfold apply_one, mbind, mreturn. destruct (ml_begin w Hw) as [Hd Ho].
  destruct (begin_immediate w) as [[what|[]] w1]; simpl in *; [done|].
  destruct (ml_exec m _ w1 Hm Ho) as [Hd2 Hs]. destruct (exec_script (sql m) w1) as [[rc msg] w2]. simpl in *.
  destruct (Z.eqb_spec rc SQLITE_OK) as [->|_]; simpl.
  - destruct (Hs eq_refl) as (o & Ho2 & Hopen). clear Hs.
    destruct (ml_insert (version m) (name m) _ w2 Hopen) as [Hd3 Hi].
    destruct (insert_version _ _ w2) as [[what|[]] w3]; simpl in *.
    + destruct (apply_threw_effect m what w3) as (e & w' & -> & ? & ?). simpl. split; congruence.
    + destruct (Hi eq_refl) as [Hnone Hopen3]. pose proof (ml_commit _ w3 Hopen3) as Hc. simpl in Hc.
      destruct (commit_transaction w3) as [[what|[]] w4]; simpl in *.
      * destruct (apply_threw_effect m what w4) as (e & w' & -> & ? & ?). simpl. split; congruence.
      * destruct Hc as [Hc ?]. split; [done|]. unfold migrated. by rewrite Ho2, Hnone, Hc.
  - destruct (ml_rollback w2) as [Hd3 Ho3]. destruct (rollback_transaction w2) as [[what|[]] w3]; simpl in *.
    + destruct (apply_threw_effect m what w3) as (e & w' & -> & ? & ?). simpl. split; congruence.
    + split; congruence.
Qed.

Lemma apply_newer_effect current ms w : incl ms migrations -> open w = None ->
  open (apply_newer current ms w).2 = None /\
  exists done rest, newer current ms = done ++ rest /\
    migrated_by script done (durable w) = Some (durable (apply_newer current ms w).2) /\
    ((apply_newer current ms w).1 = Ok () -> rest = []).
Proof.
  revert w. induction ms as [|m ms IH]; intros w [Hm Hms]%incl_cons_inv Hw || intros w _ Hw; simpl.
  { split; [done|]. by exists [], []. }
  unfold newer. destruct (Z.leb_spec (version m) current) as [Hle|Hlt].
  { rewrite filter_cons_False by lia. by apply IH. }
  rewrite filter_cons_True by lia. unfold try_bind, mbind, mreturn.
  destruct (apply_one_effect m w Hm Hw) as [Ho He]. destruct (apply_one m w) as [[[]|e] w1]; simpl in *.
  - destruct (IH w1 Hms Ho) as (Ho' & done & rest & Heq & Hd & Hr). split; [done|].
    exists (m :: done), rest. simpl. rewrite He. simpl. unfold newer in Heq. by rewrite Heq.
  - split; [done|]. exists [], (m :: filter (fun m => current < version m) ms). simpl. by rewrite He.
Qed.

(** Reading the version first does not touch the database. *)
Lemma read_current_version_effect w : open w = None ->
  durable (read_current_version w).2 = durable w /\ open (read_current_version w).2 = None /\
  match (read_current_version w).1 with Ok v => v = latest (version_log (durable w)) | Err _ => True end.
Proof.
  intros Hw. unfold read_current_version, mbind, mreturn. pose proof (ml_select_frame w) as H.
  pose proof (ml_select w) as Hs. destruct (select_max_version w) as [[what|rows] w1]; simpl in *;
    injection H as -> ->; split_and!; try done. by rewrite (Hs rows w1 Hw eq_refl).
Qed.

Lemma ensure_effect w :
  durable (ensure_schema_version_table w).2 = durable w /\ open (ensure_schema_version_table w).2 = open w.
Proof.
  unfold ensure_schema_version_table, mbind, mreturn. pose proof (ml_create w) as H.
  destruct (create_version_table w) as [[what|[]] w1]; simpl in *; by injection H.
Qed.

(** What [migrate] does, failure of any statement included. *)
Lemma migrate_effect w : open w = None ->
  open (migrate w).2 = None /\
  exists done rest, pending (durable w) = done ++ rest /\
    migrated_by script done (durable w) = Some (durable (migrate w).2) /\
    ((migrate w).1 = Ok () -> rest = []).
Proof.
  intros Hw. unfold migrate. set (body := try_bind _ _).
  destruct (with_lease_effect seen body w _ _) as [(e & -> & Hs)|(w1 & _ & Hw1 & -> & Hs)].
  { simpl in Hs. injection Hs as -> ->. split; [done|]. by exists [], (pending (durable w)). }
  simpl in Hs. injection Hs as -> ->. simpl in Hw1. injection Hw1 as Hd1 Ho1. rewrite <- Hd1. rewrite <- Ho1 in Hw.
  clear w Hd1 Ho1. subst body. unfold try_bind, mbind, mreturn. destruct (ensure_effect w1) as [Hd2 Ho2].
  destruct (ensure_schema_version_table w1) as [[[]|e] w2]; simpl in *.
  2: { rewrite Hd2, Ho2. split; [done|]. by exists [], (pending (durable w1)). }
  rewrite <- Ho2 in Hw. rewrite <- Hd2. destruct (read_current_version_effect w2 Hw) as (Hd3 & Ho3 & Hv).
  destruct (read_current_version w2) as [[v|e] w3]; simpl in *.
  2: { rewrite Hd3, Ho3. split; [done|]. by exists [], (pending (durable w2)). }
  subst v. rewrite <- Hd3. by apply (apply_newer_effect _ migrations); [apply incl_refl|].
Qed.

(** What was run is on record, and the record only grows. *)
Lemma migrated_by_log ms s s' : migrated_by script ms s = Some s' ->
  version_log s ⊆ version_log s' /\ forall m, m ∈ ms -> version_log s' !! version m = Some (name m).
Proof.
  revert s. induction ms as [|m ms IH]; intros s; simpl; [intros [= ->]; split; [done|set_solver]|].
  unfold migrated. destruct (script (sql m) (objects s)) as [o|]; [|done].
  destruct (version_log s !! version m) eqn:E; [done|]. simpl. intros [Hs Hl]%IH. simpl in Hs. split.
  - etrans; [|done]. by apply insert_subseteq.
  - intros m' [->|Hm']%elem_of_cons; [|by apply Hl]. eapply lookup_weaken; [|done]. by simplify_map_eq.
Qed.

Lemma nothing_pending s s' : migrated_by script (pending s) s = Some s' -> pending s' = [].
Proof.
  intros [Hsub Hl]%migrated_by_log. destruct (pending s') as [|m l] eqn:E; [done|]. exfalso.
  assert (m ∈ pending s') as [Hlt Hm]%list_elem_of_filter by (rewrite E; left). clear l E.
  assert (0 < version m) as Hpos.
  { revert m Hm Hlt. clear. intros m Hm _. revert m Hm. apply Forall_forall. by repeat constructor. }
  destruct (decide (latest (version_log s) < version m)) as [Hp|Hp].
  - assert (m ∈ pending s) as Hin by by apply list_elem_of_filter. apply Hl, latest_lookup in Hin. lia.
  - assert (latest (version_log s) <= latest (version_log s')).
    { apply latest_spec. split; [|intros v n Hv; eapply latest_lookup, lookup_weaken; eauto].
      intros He. contradict Hp. by rewrite He. }
    lia.
Qed.

(** C20. Migrating, whatever the history of the database and whichever statements fail:
    the pending migrations are applied in the order of their versions and each of them whole,
    script and version row together; what a failing run leaves behind is a prefix of them, a
    successful run leaves none out, and no transaction stays open. *)
Theorem migrate_all_or_nothing w : open w = None ->
  open (migrate w).2 = None /\
  exists done rest, pending (durable w) = done ++ rest /\
    migrated_by script done (durable w) = Some (durable (migrate w).2) /\
    ((migrate w).1 = Ok () -> rest = []).
Proof. apply migrate_effect. Qed.

(** After a successful [migrate] the database is up to date: every migration that was
    pending has its version row, none is pending, and running [migrate] again, even against a
    failing database, never changes anything. *)
Theorem migrate_idempotent w : open w = None -> (migrate w).1 = Ok () ->
  pending (durable (migrate w).2) = [] /\
  (forall m, m ∈ pending (durable w) -> version_log (durable (migrate w).2) !! version m = Some (name m)) /\
  durable (migrate (migrate w).2).2 = durable (migrate w).2.
Proof.
  intros Hw Hok. destruct (migrate_effect w Hw) as (Hw' & done & rest & Hp & Hd & Hr).
  rewrite (Hr Hok), app_nil_r in Hp. rewrite <- Hp in Hd. pose proof (nothing_pending _ _ Hd) as Hnone.
  split; [done|]. split; [by apply migrated_by_log in Hd as [_ Hd]|].
  destruct (migrate_effect _ Hw') as (_ & done' & rest' & Hp' & Hd' & _). rewrite Hnone in Hp'.
  symmetry in Hp'. apply app_nil in Hp' as [-> ->]. by injection Hd'.
Qed.

End Laws.

(** ** A concrete database *)

Module MemSchemaDb.

(** The schema is the list of the scripts that were run; a script cannot run twice. *)
Definition run_script (text : string) (ran : list string) : option (list string) :=
  if decide (text ∈ ran) then None else Some (ran ++ [text]).

(** What is durable, the open transaction, and whether [COMMIT] still works. *)
Record World := MkWorld {
  file : Schema (list string);
  txn : option (Schema (list string));
  disk_ok : bool
}.

#[export] Instance pool : ConnectionPool World := {
  pool_acquire := mreturn (Ok ());
  pool_release := mreturn ()
}.

#[export] Instance db : MigrationDb World := {
  create_version_table := mreturn (inr ());
  select_max_version := fun w => (inr [latest (version_log (file w))], w);
  begin_immediate := fun w => (inr (), MkWorld (file w) (Some (file w)) (disk_ok w));
  exec_script text := fun w =>
    match txn w with
    | Some s => match run_script text (objects s) with
                | Some o => ((SQLITE_OK, None), MkWorld (file w) (Some (MkSchema o (version_log s))) (disk_ok w))
                | None => ((1, Some "duplicate"), w)
                end
    | None => ((1, None), w)
    end;
  insert_version v n := fun w =>
    match txn w with
    | Some s => if decide (version_log s !! v = None)
                then (inr (), MkWorld (file w) (Some (MkSchema (objects s) (<[v := n]> (version_log s)))) (disk_ok w))
                else (inl "UNIQUE constraint failed", w)
    | None => (inl "no transaction", w)
    end;
  commit_transaction := fun w =>
    match txn w with
    | Some s => if disk_ok w then (inr (), MkWorld s None true) else (inl "disk I/O error", w)
    | None => (inl "no transaction", w)
    end;
  rollback_transaction := fun w => (inr (), MkWorld (file w) None (disk_ok w))
}.

#[export] Instance db_laws : MigrationDbLaws World (list string) run_script file txn.
Proof.
  split; try done.
  - by intros w rows w' _ [= <- _].
  - intros m s [f t ok] _ Ho. simpl in *. subst. destruct (run_script _ _) eqn:E; [|done]. split; [done|]. eauto.
  - intros v n s [f t ok] Ho. simpl in *. subst. by case_decide.
  - intros s [f t ok] Ho. simpl in *. subst. by destruct ok.
Qed.

(** A database of the first release. *)
Definition first_release : Schema (list string) :=
  MkSchema [kV0001InitialSchemaSql] {[ 1 := "V0001__initial_schema" ]}.

End MemSchemaDb.
Import MemSchemaDb.

Lemma migrate_all_or_nothing_witness :
  let w := MkWorld first_release None false in
  (txn (migrate w).2 = None /\ objects (file (migrate w).2) = objects first_release) /\
  version <$> pending first_release = [2; 3].
Proof.
  intros w. split; [|by vm_compute].
  destruct (migrate_all_or_nothing run_script file txn w eq_refl) as [Ho _]. split; [done|by vm_compute].
Defined.

Lemma migrate_idempotent_witness :
  let w := MkWorld first_release None true in
  length (objects (file (migrate w).2)) = 3%nat /\ file (migrate (migrate w).2).2 = file (migrate w).2.
Proof.
  intros w. assert ((migrate w).1 = Ok ()) as Hok by by vm_compute.
  destruct (migrate_idempotent run_script file txn w eq_refl Hok) as (_ & _ & H). split; [by vm_compute|done].
Defined.
