(* ===== verification/HtmlRenderer.v ===== *)
(** * Messages: [presentation/html_renderer.cpp]

    The building blocks of the HTML messages and the messages built from them. *)

From S2P Require Import Prelude CoreError Identifiers Authority UploadDestination Task Formatting Ports.
From S2P Require Import Progress Metrics RssFeeds Settings.

(** [HtmlRenderer::render_heading]. *)
Definition render_heading (text : string) : string := "<b><u>" +:+ escape_html text +:+ "</u></b>".

(** [HtmlRenderer::render_code]. *)
Definition render_code (text : string) : string := "<code>" +:+ escape_html text +:+ "</code>".

(** [HtmlRenderer::render_quote]. *)
Definition render_quote (text : string) : string := "<blockquote>" +:+ escape_html text +:+ "</blockquote>".

(** [HtmlRenderer::render_usage]. *)
Definition render_usage (command syntax : string) : string :=
  let normalized := match chars command with "/"%char :: r => of_chars r | _ => command end in
  render_heading "Usage" +:+ newline +:+ render_code ("/" +:+ normalized +:+ " " +:+ syntax).

(** [HtmlRenderer::render_success]. *)
Definition render_success (title detail : string) : string :=
  if str_empty detail then render_heading title else render_heading title +:+ newline +:+ render_quote detail.

(** [HtmlRenderer::render_notice]. *)
Definition render_notice (title detail : string) : string :=
  if str_empty detail then render_heading title else render_heading title +:+ newline +:+ render_quote detail.

(** [struct HtmlRenderer::CommandDescription]. *)
Record CommandDescription := MkDescription { cd_name : string; cd_description : string; cd_permission : Permission }.

(** One line of [render_help]. *)
Definition help_line (cmd : CommandDescription) : string :=
  "<code>/" +:+ cd_name cmd +:+ "</code> <i>(" +:+ permission_to_string (cd_permission cmd) +:+ ")</i>" +:+
  (if str_empty (cd_description cmd) then "" else " " +:+ escape_html (cd_description cmd)) +:+ newline.

(** [HtmlRenderer::render_help]. *)
Definition render_help (commands : list CommandDescription) : string :=
  render_heading "Available Commands" +:+ newline +:+
  render_quote "Only commands available to your permission level are shown." +:+ newline +:+
  foldr (fun c s => help_line c +:+ s) "" commands.

(** [HtmlRenderer::render_user_settings]; the optional fields are printed as they are. *)
Definition render_user_settings (s : UserSettingsRecord) : string :=
  render_heading "User Settings" +:+ newline +:+
  render_quote "Personal defaults used for new mirror and leech tasks." +:+ newline +:+
  "<b>User id:</b> <code>" +:+ fmt_int (value (us_user_id s)) +:+ "</code>" +:+ newline +:+
  "<b>Leech destination:</b> <code>" +:+ destination_to_string (us_leech_destination s) +:+ "</code>" +:+ newline +:+
  "<b>Mirror destination:</b> <code>" +:+ destination_to_string (us_mirror_destination s) +:+ "</code>" +:+ newline +:+
  "<b>Upload as document:</b> <code>" +:+ (if us_upload_as_document s then "yes" else "no") +:+ "</code>" +:+ newline +:+
  "<b>Rclone remote:</b> <code>" +:+ default "(none)" (us_rclone_remote s) +:+ "</code>" +:+ newline +:+
  "<b>GDrive folder id:</b> <code>" +:+ default "(none)" (us_gdrive_folder_id s) +:+ "</code>" +:+ newline +:+
  "<b>Default thumbnail:</b> <code>" +:+ default "(none)" (us_default_thumb_path s) +:+ "</code>".

(** [kind_label]. *)
Definition kind_label (k : TaskKind) : string :=
  match k with Mirror => "Mirror" | Leech => "Leech" | Clone => "Clone" end.

(** [render_metrics_footer]. *)
Definition render_metrics_footer (metrics : SystemSnapshot) (uptime : Z) : string :=
  render_heading "System" +:+ newline +:+
  "<b>CPU:</b> <code>" +:+ fmt_fixed1 (cpu_usage_percent metrics) +:+ "%</code> | " +:+
  "<b>RAM:</b> <code>" +:+ format_bytes (ram_used_bytes metrics) +:+ "/" +:+ format_bytes (ram_total_bytes metrics) +:+
  "</code> | " +:+
  "<b>Disk:</b> <code>" +:+ format_bytes (disk_used_bytes metrics) +:+ "/" +:+ format_bytes (disk_total_bytes metrics) +:+
  "</code>" +:+ newline +:+
  "<b>Bot uptime:</b> <code>" +:+ format_duration uptime +:+ "</code>".

(** The lines on the progress of a download, common to the listings. *)
Definition render_progress_lines (s : DownloadStatus) : string :=
  let fraction := progress_fraction (ds_downloaded_bytes s) (ds_total_bytes s) in
  render_progress_bar fraction +:+ " <code>" +:+ format_percent fraction +:+ "</code>" +:+ newline +:+
  "<b>Size:</b> <code>" +:+ format_bytes (ds_downloaded_bytes s) +:+ " / " +:+ format_bytes (ds_total_bytes s) +:+
  "</code>" +:+ newline +:+
  "<b>Rate:</b> <code>" +:+ format_rate (ds_download_speed_bps s) +:+ "</code> | <b>ETA:</b> <code>" +:+
  format_eta (ds_eta s) +:+ "</code>" +:+ newline +:+
  "<b>State:</b> <code>" +:+ download_state_to_string (ds_state s) +:+ "</code>".

(** [HtmlRenderer::render_task_status]. *)
Definition render_task_status (task : Task) (s : DownloadStatus) : string :=
  let name := if str_empty (ds_name s) then md_source_url (metadata task) else ds_name s in
  render_heading (kind_label (md_kind (metadata task))) +:+ newline +:+ render_quote name +:+ newline +:+
  render_progress_lines s.

(** [HtmlRenderer::render_no_active_tasks]. *)
Definition render_no_active_tasks (metrics : SystemSnapshot) (uptime : Z) : string :=
  render_heading "Status" +:+ newline +:+
  render_quote "No active tasks. New mirror and leech jobs will appear here." +:+ newline +:+ newline +:+
  render_metrics_footer metrics uptime.

Definition kMaxRenderedTasks : nat := 10.

(** One entry of [render_status]. *)
Definition status_entry (i : nat) (s : DownloadStatus) : string :=
  "<b>" +:+ fmt_int (Z.of_nat (S i)) +:+ ".</b> <code>" +:+ escape_html (ds_name s) +:+ "</code>" +:+ newline +:+
  render_progress_lines s +:+ newline +:+ newline.

(** [HtmlRenderer::render_status]. *)
Definition render_status (active : list DownloadStatus) (metrics : SystemSnapshot) (uptime : Z) : string :=
  match active with
  | [] => render_no_active_tasks metrics uptime
  | _ =>
      let shown := Nat.min (length active) kMaxRenderedTasks in
      render_heading "Active Tasks" +:+ newline +:+
      foldr (fun x s => x +:+ s) "" (imap status_entry (take shown active)) +:+
      (if (shown <? length active)%nat
       then "<i>... and " +:+ fmt_int (Z.of_nat (length active - shown)) +:+ " more task(s)</i>" +:+ newline +:+ newline
       else "") +:+
      render_metrics_footer metrics uptime
  end.

(** [", "]-separated concatenation. *)
Fixpoint join_comma (l : list string) : string :=
  match l with [] => "" | [x] => x | x :: rest => x +:+ ", " +:+ join_comma rest end.

(** [HtmlRenderer::render_stats]. *)
Definition render_stats (r : StatsReport) : string :=
  let m := sr_metrics r in
  let degraded_line :=
    match sr_unavailable_downloaders r with
    | [] => ""
    | l => "<b>Unavailable downloaders:</b> <code>" +:+ join_comma (map escape_html l) +:+ "</code>" +:+ newline
    end in
  render_heading "Bot Statistics" +:+ newline +:+
  render_quote "Live process and host-resource snapshot." +:+ newline +:+
  "<b>Active downloads:</b> <code>" +:+ fmt_int (sr_active_downloads r) +:+ "</code>" +:+ newline +:+
  degraded_line +:+
  "<b>Bot uptime:</b> <code>" +:+ format_duration (sr_bot_uptime r) +:+ "</code>" +:+ newline +:+
  "<b>System uptime:</b> <code>" +:+ format_duration (system_uptime m) +:+ "</code>" +:+ newline +:+
  "<b>CPU:</b> <code>" +:+ fmt_fixed1 (cpu_usage_percent m) +:+ "%</code>" +:+ newline +:+
  "<b>RAM:</b> <code>" +:+ format_bytes (ram_used_bytes m) +:+ " / " +:+ format_bytes (ram_total_bytes m) +:+ "</code>"
    +:+ newline +:+
  "<b>Disk:</b> <code>" +:+ format_bytes (disk_used_bytes m) +:+ " / " +:+ format_bytes (disk_total_bytes m) +:+ "</code>"
    +:+ newline +:+
  "<b>Load avg:</b> <code>" +:+ fmt_double2 (load_average_1m m) +:+ " / " +:+ fmt_double2 (load_average_5m m) +:+ " / "
    +:+ fmt_double2 (load_average_15m m) +:+ "</code>".

(** One entry of [render_rss_subscriptions]. *)
Definition rss_entry (f : RssFeed) : string :=
  let title_source := if str_empty (feed_title f) then feed_url f else feed_title f in
  "<code>" +:+ fmt_int (feed_id f) +:+ "</code> <b>" +:+ escape_html (truncate_for_display title_source 80) +:+ "</b>"
    +:+ newline +:+
  "<code>" +:+ escape_html (truncate_for_display (feed_url f) 120) +:+ "</code>" +:+ newline.

(** [HtmlRenderer::render_rss_subscriptions]. *)
Definition render_rss_subscriptions (feeds : list RssFeed) : string :=
  let out := render_heading "RSS Subscriptions" +:+ newline in
  match feeds with
  | [] => out +:+ render_quote "No feeds are configured for this chat."
  | _ =>
      let shown := Nat.min (length feeds) 20 in
      out +:+ render_quote "Feeds watched for this chat." +:+ newline +:+
      foldr (fun x s => x +:+ s) "" (map rss_entry (take shown feeds)) +:+
      (if (shown <? length feeds)%nat
       then "<i>... and " +:+ fmt_int (Z.of_nat (length feeds - shown)) +:+ " more feed(s)</i>" +:+ newline
       else "")
  end.

(** [render_id_list]. *)
Definition render_id_list (ids : list Z) : string :=
  match ids with
  | [] => "<i>(none)</i>"
  | _ =>
      let shown := Nat.min (length ids) 8 in
      join_comma (map (fun id => "<code>" +:+ fmt_int id +:+ "</code>") (take shown ids)) +:+
      (if (shown <? length ids)%nat then " <i>(+" +:+ fmt_int (Z.of_nat (length ids - shown)) +:+ " more)</i>" else "")
  end.

(** [HtmlRenderer::render_bot_settings]. *)
Definition render_bot_settings (s : BotSettingsRecord) : string :=
  render_heading "Bot Settings" +:+ newline +:+
  render_quote "Global controls for access, paths, limits, and polling." +:+ newline +:+
  "<b>Owner id:</b> <code>" +:+ fmt_int (bs_owner_id s) +:+ "</code>" +:+ newline +:+
  "<b>Sudo users (" +:+ fmt_int (Z.of_nat (length (bs_sudo_users s))) +:+ "):</b> " +:+ render_id_list (bs_sudo_users s)
    +:+ newline +:+
  "<b>Authorized chats (" +:+ fmt_int (Z.of_nat (length (bs_authorized_chats s))) +:+ "):</b> "
    +:+ render_id_list (bs_authorized_chats s) +:+ newline +:+
  "<b>Download dir:</b> <code>" +:+ escape_html (bs_download_dir s) +:+ "</code>" +:+ newline +:+
  "<b>Leech split size:</b> <code>" +:+ format_bytes (bs_leech_split_size s) +:+ "</code>" +:+ newline +:+
  "<b>Upload limit:</b> <code>" +:+
    (if bs_upload_limit_bytes s =? 0 then "unlimited" else format_bytes (bs_upload_limit_bytes s)) +:+ "</code>"
    +:+ newline +:+
  "<b>Status update interval:</b> <code>" +:+ fmt_int (bs_status_update_interval s) +:+ " ms</code>" +:+ newline +:+
  "<b>RSS poll interval:</b> <code>" +:+ fmt_int (bs_rss_poll_interval s) +:+ " ms</code>".

(** [kInternalPrefixes] of [render_failure]. *)
Definition kInternalPrefixes : list string :=
  ["downloader add_uri: "; "downloader status: "; "download error: "; "upload: "; "mark_failed: "].

(** The loop over the prefixes: the first that matches is cut. *)
Fixpoint strip_prefix (prefixes : list string) (detail : string) : string :=
  match prefixes with
  | [] => detail
  | p :: rest => if starts_with detail p then substr_from detail (str_size p) else strip_prefix rest detail
  end.

(** [HtmlRenderer::render_failure]. *)
Definition render_failure (stage : string) (e : AppError) : string :=
  let detail := strip_prefix kInternalPrefixes (err_message e) in
  let trimmed := truncate_for_display detail 512 in
  render_heading "Failed" +:+ newline +:+
  "<b>Stage:</b> <code>" +:+ escape_html stage +:+ "</code>" +:+ newline +:+
  "<b>Reason:</b> " +:+ escape_html (friendly_error_label (err_code e)) +:+ newline +:+
  render_quote trimmed.

(** [HtmlRenderer::render_error]. *)
Definition render_error (task_name : string) (e : AppError) : string :=
  render_heading "Error" +:+ newline +:+
  "<b>Task:</b> <code>" +:+ escape_html task_name +:+ "</code>" +:+ newline +:+
  "<b>Reason:</b> " +:+ escape_html (friendly_error_label (err_code e)) +:+ newline +:+
  render_quote (truncate_for_display (err_message e) 512).

(** [HtmlRenderer::render_greeting]. *)
Definition render_greeting (user_first_name : string) : string :=
  let who := if str_empty user_first_name then "there" else user_first_name in
  render_heading ("Hello, " +:+ who +:+ "!") +:+ newline +:+
  render_quote "High-speed mirror and leech orchestration for Telegram." +:+ newline +:+ newline +:+
  "Send a URL, magnet link, or torrent file with <code>/mirror</code> " +:+
  "to upload to cloud storage, or <code>/leech</code> to receive it " +:+
  "back in this chat." +:+ newline +:+ newline +:+
  "Type <code>/help</code> for the full command list and " +:+
  "<code>/settings</code> to configure your preferences.".
