(* ===== verification/HtmlSafety.v ===== *)
(** * Well-formed messages

    Telegram rejects a message whose markup is not balanced.  [well_formed] is a checker
    for the five tags the bot uses; the messages of [presentation/html_renderer.cpp] pass it
    whatever the data they carry, except the one listing that forgets to escape. *)

From S2P Require Import Prelude CoreError Identifiers Authority UploadDestination Task Formatting Ports.
From S2P Require Import Progress Metrics RssFeeds Settings HtmlRenderer.

(** ** The checker: a stack machine over the bytes of a message *)

Inductive mode := Text | Tag (name : list ascii).

Definition telegram_tags : list string := ["b"; "u"; "i"; "code"; "blockquote"].

(** At the [>] of a tag: open it, or close the innermost open one. *)
Definition end_tag (stack : list string) (name : string) : option (list string * mode) :=
  match name with
  | String.String "/" t =>
      match stack with
      | t' :: rest => if String.eqb t t' then Some (rest, Text) else None
      | [] => None
      end
  | _ => if existsb (String.eqb name) telegram_tags then Some (name :: stack, Text) else None
  end.

Definition feed_char (s : list string * mode) (c : ascii) : option (list string * mode) :=
  let '(stack, m) := s in
  match m with
  | Text => if Ascii.eqb c "<" then Some (stack, Tag [])
            else if Ascii.eqb c ">" then None else Some s
  | Tag name => if Ascii.eqb c "<" then None
                else if Ascii.eqb c ">" then end_tag stack (of_chars name)
                else Some (stack, Tag (name ++ [c]))
  end.

Fixpoint feed (l : list ascii) (s : list string * mode) : option (list string * mode) :=
  match l with
  | [] => Some s
  | c :: l' => match feed_char s c with Some s' => feed l' s' | None => None end
  end.

(** Every tag is known and closed, in the right order. *)
Definition well_formed (s : string) : bool :=
  match feed (chars s) ([], Text) with Some ([], Text) => true | _ => false end.

(** ** Fragments *)

(** Reading [s] with the tags of [st] open leaves the tags of [st'] open. *)
Definition reads (st : list string) (s : string) (st' : list string) : Prop :=
  feed (chars s) (st, Text) = Some (st', Text).

(** A fragment that leaves the open tags as they were. *)
Class Balanced (s : string) : Prop := balanced st : reads st s st.

(** Text without a markup character. *)
Class Plain (s : string) : Prop := plain : Forall (fun c => c <> "<"%char /\ c <> ">"%char) (chars s).

Lemma feed_app l1 l2 s : feed (l1 ++ l2) s = match feed l1 s with Some s' => feed l2 s' | None => None end.
Proof. revert s. induction l1 as [|c l1 IH]; intros s; [done|]. simpl. destruct (feed_char s c); auto. Qed.

Lemma reads_app st1 st2 st3 a b : reads st1 a st2 -> reads st2 b st3 -> reads st1 (a +:+ b) st3.
Proof. unfold reads. intros Ha Hb. by rewrite chars_app, feed_app, Ha. Qed.

Lemma balanced_well_formed s : Balanced s -> well_formed s = true.
Proof. intros H. unfold well_formed. by rewrite (H []). Qed.

#[export] Instance plain_balanced s : Plain s -> Balanced s.
Proof.
  intros H st. unfold reads. unfold Plain in H. induction H as [|c l [H1 H2] _ IH]; [done|]. simpl.
  rewrite (proj2 (Ascii.eqb_neq c "<") H1), (proj2 (Ascii.eqb_neq c ">") H2). done.
Qed.

#[export] Instance plain_app a b : Plain a -> Plain b -> Plain (a +:+ b).
Proof. intros Ha Hb. unfold Plain. rewrite chars_app. by apply Forall_app. Qed.

Lemma plain_of_chars l : Forall (fun c => c <> "<"%char /\ c <> ">"%char) l -> Plain (of_chars l).
Proof. unfold Plain. by rewrite chars_of_chars. Qed.

(** Literals are checked by computation. *)
Definition plainb (s : string) : bool := forallb (fun c => negb (Ascii.eqb c "<") && negb (Ascii.eqb c ">")) (chars s).

Lemma plainb_spec s : plainb s = true -> Plain s.
Proof.
  intros H. apply Forall_forall. intros c Hc. unfold plainb in H. rewrite forallb_forall in H.
  specialize (H c (proj1 (list_elem_of_In _ _) Hc)). apply andb_true_iff in H as [H1 H2].
  split; intros ->; done.
Qed.

#[export] Hint Extern 0 (Plain _) => (apply plainb_spec; reflexivity) : typeclass_instances.

#[export] Instance plain_escape s : Plain (escape_html s).
Proof. unfold Plain. rewrite chars_escape_html. apply html_text_no_tags, html_text_escape. Qed.

Lemma plain_digits l : Forall (fun c => isdigit c = true) l -> Forall (fun c => c <> "<"%char /\ c <> ">"%char) l.
Proof. intros H. eapply Forall_impl; [exact H|]. intros c Hc. by split; intros ->. Qed.

#[export] Instance plain_fmt_int n : Plain (fmt_int n).
Proof.
  apply plain_of_chars. destruct (Z.ltb_spec n 0); [constructor; [done|]|]; apply plain_digits, fmt_nat_chars_digits; lia.
Qed.

#[export] Instance plain_if (b : bool) s t : Plain s -> Plain t -> Plain (if b then s else t).
Proof. by destruct b. Qed.

Lemma balanced_if (b : bool) s t : Balanced s -> Balanced t -> Balanced (if b then s else t).
Proof. by destruct b. Qed.

(** Read a message from left to right. *)
Ltac read_html :=
  lazymatch goal with
  | |- reads _ (if ?b then ?x else ?y) _ => apply (balanced_if b x y); intros ?; read_html
  | |- reads _ (_ +:+ _) _ => eapply reads_app; [read_html|read_html]
  | |- reads _ ?s _ => first [apply (balanced (s := s)) | unfold reads; simpl; reflexivity]
  end.
Ltac balance := intros ?; read_html.

(** ** The building blocks *)

#[export] Instance plain_duration n : Plain (format_duration n).
Proof. unfold format_duration, unit_str. repeat case_match; apply _. Qed.

#[export] Instance plain_eta n : Plain (format_eta n).
Proof. unfold format_eta, unit_str. repeat case_match; apply _. Qed.

Lemma plain_fmt_02 z : 0 <= z < 100 -> Plain (fmt_02 z).
Proof.
  intros Hz. apply plain_of_chars, plain_digits.
  repeat constructor; apply isdigit_digit_char; Z.to_euclidean_division_equations; lia.
Qed.

#[export] Instance plain_fixed2 n d : Plain (fmt_fixed2 n d).
Proof.
  unfold fmt_fixed2. apply plain_app; [apply _|]. apply plain_app; [apply _|].
  apply plain_fmt_02. by apply Z.mod_pos_bound.
Qed.

#[export] Instance plain_label i : Plain (nth i binary_labels "").
Proof. do 7 (destruct i as [|i]; [apply _|]). apply _. Qed.

#[export] Instance plain_binary n s : Plain s -> Plain (format_binary n s).
Proof.
  intros Hs. unfold format_binary.
  destruct (_ =? 0)%nat; repeat (apply plain_app; [apply _|]); apply _.
Qed.

#[export] Instance plain_bytes n : Plain (format_bytes n).
Proof. apply plain_binary, _. Qed.

#[export] Instance plain_rate n : Plain (format_rate n).
Proof. apply plain_binary, _. Qed.

#[export] Instance plain_fixed1 x : Plain (fmt_fixed1 x).
Proof. unfold fmt_fixed1. apply _. Qed.

#[export] Instance plain_double2 x : Plain (fmt_double2 x).
Proof. unfold fmt_double2. apply _. Qed.

#[export] Instance plain_percent x : Plain (format_percent x).
Proof. unfold format_percent. apply _. Qed.

Lemma plain_repeat n c : c <> "<"%char /\ c <> ">"%char -> Plain (str_repeat n c).
Proof. intros H. apply plain_of_chars. by apply Forall_replicate. Qed.

#[export] Instance plain_bar x : Plain (render_progress_bar x).
Proof.
  unfold render_progress_bar, render_progress_bar_with.
  apply plain_app; [apply _|]. apply plain_app; [by apply plain_repeat|].
  apply plain_app; [by apply plain_repeat|]. apply _.
Qed.

#[export] Instance plain_state s : Plain (download_state_to_string s).
Proof. destruct s; apply _. Qed.

#[export] Instance plain_permission p : Plain (permission_to_string p).
Proof. destruct p; apply _. Qed.

#[export] Instance plain_destination d : Plain (destination_to_string d).
Proof. destruct d; apply _. Qed.

#[export] Instance balanced_heading s : Balanced (render_heading s).
Proof. unfold render_heading. balance. Qed.

#[export] Instance balanced_code s : Balanced (render_code s).
Proof. unfold render_code. balance. Qed.

#[export] Instance balanced_quote s : Balanced (render_quote s).
Proof. unfold render_quote. balance. Qed.

Lemma balanced_app a b : Balanced a -> Balanced b -> Balanced (a +:+ b).
Proof. intros Ha Hb st. eapply reads_app; [apply Ha|apply Hb]. Qed.

Lemma balanced_concat l : Forall Balanced l -> Balanced (foldr (fun x s => x +:+ s) "" l).
Proof. induction 1 as [|s l Hs _ IH]; simpl; [apply _|]. by apply balanced_app. Qed.

Lemma plain_join l : Forall Plain l -> Plain (join_comma l).
Proof. induction 1 as [|s l Hs Hl IH]; simpl; [apply _|]. destruct l; [done|]. apply _. Qed.

Lemma balanced_join l : Forall Balanced l -> Balanced (join_comma l).
Proof.
  induction 1 as [|s l Hs Hl IH]; simpl; [apply _|]. destruct l; [done|].
  apply balanced_app; [done|]. apply balanced_app; [apply _|done].
Qed.

#[export] Instance balanced_footer m u : Balanced (render_metrics_footer m u).
Proof. unfold render_metrics_footer. balance. Qed.

#[export] Instance balanced_progress s : Balanced (render_progress_lines s).
Proof. unfold render_progress_lines. balance. Qed.

#[export] Instance balanced_no_active m u : Balanced (render_no_active_tasks m u).
Proof. unfold render_no_active_tasks. balance. Qed.

Lemma balanced_status_entry i s : Balanced (status_entry i s).
Proof. unfold status_entry. balance. Qed.

#[export] Instance balanced_status l m u : Balanced (render_status l m u).
Proof.
  unfold render_status. destruct l as [|s l]; [apply _|]. set (l' := s :: l).
  assert (Balanced (foldr (fun x s => x +:+ s) "" (imap status_entry (take (Nat.min (length l') kMaxRenderedTasks) l')))) as Hf.
  { apply balanced_concat, Forall_lookup. intros i x Hx. rewrite list_lookup_imap in Hx.
    destruct (_ !! i); simpl in Hx; [|done]. injection Hx as <-. apply balanced_status_entry. }
  balance.
Qed.

(** ** Theorems *)

(** What the personal settings insert as it is stored: the rclone remote, the Drive folder and the
    thumbnail path. *)
Definition settings_texts (s : UserSettingsRecord) : list string :=
  option_list (us_rclone_remote s) ++ option_list (us_gdrive_folder_id s) ++ option_list (us_default_thumb_path s).

Lemma balanced_user_settings s : Forall (fun x => plainb x = true) (settings_texts s) -> Balanced (render_user_settings s).
Proof.
  unfold settings_texts. rewrite !Forall_app. intros (H1 & H2 & H3).
  assert (forall o : option string, Forall (fun x => plainb x = true) (option_list o) -> Plain (default "(none)" o)) as Ho.
  { intros [x|]; simpl; [|apply _]. intros H. apply Forall_inv in H. by apply plainb_spec. }
  apply Ho in H1, H2, H3. unfold render_user_settings. balance.
Qed.

(** C13. Every message of the renderer but the personal settings is well-formed markup, whatever
    text users, trackers, feeds, downloaders and error messages put into it: each tag is one
    Telegram knows and is closed in the right order.  (For the command list this asks only that
    the command names, which are constants, hold no markup.)  The personal settings insert three
    stored texts without escaping them: the message is well-formed when none of the three holds a
    markup character, and a remote named [a<b] breaks it. *)
Theorem messages_well_formed :
  (forall t, well_formed (render_heading t) = true /\ well_formed (render_code t) = true /\ well_formed (render_quote t) = true) /\
  (forall c s, well_formed (render_usage c s) = true) /\
  (forall t d, well_formed (render_success t d) = true /\ well_formed (render_notice t d) = true) /\
  (forall stage e, well_formed (render_failure stage e) = true /\ well_formed (render_error stage e) = true) /\
  (forall task s, well_formed (render_task_status task s) = true) /\
  (forall l m u, well_formed (render_status l m u) = true) /\
  (forall r, well_formed (render_stats r) = true) /\
  (forall l, well_formed (render_rss_subscriptions l) = true) /\
  (forall s, well_formed (render_bot_settings s) = true) /\
  (forall n, well_formed (render_greeting n) = true) /\
  (forall m u, well_formed (render_no_active_tasks m u) = true) /\
  (forall cmds, Forall (fun c => plainb (cd_name c) = true) cmds -> well_formed (render_help cmds) = true) /\
  (forall s, Forall (fun x => plainb x = true) (settings_texts s) -> well_formed (render_user_settings s) = true) /\
  well_formed (render_user_settings (MkUserSettings (MkId 7) Telegram GoogleDrive None (Some "a<b") None false 0 0)) = false.
Proof.
  split_and!; [intros; split_and?; apply balanced_well_formed..|vm_compute; reflexivity].
  1-3: apply _.
  - unfold render_usage. balance.
  - unfold render_success. destruct (str_empty d); balance.
  - unfold render_notice. destruct (str_empty d); balance.
  - unfold render_failure. balance.
  - unfold render_error. balance.
  - unfold render_task_status. balance.
  - apply _.
  - unfold render_stats. cbv zeta. destruct (sr_unavailable_downloaders r) as [|n l]; [balance|].
    assert (Plain (join_comma (map escape_html (n :: l)))) by (apply plain_join, Forall_map, Forall_true; apply _).
    balance.
  - unfold render_rss_subscriptions. destruct l as [|f l]; [balance|]. set (l' := f :: l).
    assert (Balanced (foldr (fun x s => x +:+ s) "" (map rss_entry (take (Nat.min (length l') 20) l')))).
    { apply balanced_concat, Forall_map, Forall_true. intros x. unfold rss_entry. balance. }
    balance.
  - unfold render_bot_settings.
    assert (forall ids, Balanced (render_id_list ids)) as Hids; [|balance].
    intros ids. unfold render_id_list. destruct ids as [|i ids]; [balance|]. set (l' := i :: ids).
    assert (Balanced (join_comma (map (fun id => "<code>" +:+ fmt_int id +:+ "</code>") (take (Nat.min (length l') 8) l')))).
    { apply balanced_join, Forall_map, Forall_true. intros x. balance. }
    balance.
  - unfold render_greeting. balance.
  - apply _.
  - unfold render_help.
    assert (Balanced (foldr (fun c s => help_line c +:+ s) "" cmds)) as Hl; [|balance].
    match goal with H : Forall _ cmds |- _ => induction H as [|c cmds Hc _ IH] end; simpl; [apply _|].
    apply balanced_app; [|done]. apply plainb_spec in Hc. unfold help_line. balance.
  - by apply balanced_user_settings.
Qed.

Lemma messages_well_formed_witness :
  well_formed (render_help [MkDescription "mirror" "a <b> b" User]) = true /\
  well_formed (render_user_settings (MkUserSettings (MkId 7) Telegram GoogleDrive None (Some "drive:a") None false 0 0)) = true.
Proof. split; apply messages_well_formed; by repeat constructor. Defined.
