(* ===== verification/ProgressRenderer.v ===== *)
(** * Live status messages: [presentation/progress_renderer.cpp]

    One status message per chat, sent once and then edited.  The two entry points run as
    coroutines on the chat's strand and interleave at their awaits; a one-token channel
    keeps at most one of them in its critical section.  A configuration is the chat's
    cached state, the coroutine that holds the token, and the refreshes waiting for it;
    an event is a call of an entry point, a resumption, or a reply of the messenger. *)

From S2P Require Import Prelude CoreError Identifiers Ports Progress Metrics Settings HtmlRenderer.

(** [struct ChatState] without its strand and channel; times in nanoseconds. *)
Record ChatState := MkChatState {
  status_message_id : MessageId;
  last_edit : Z;
  last_rendered_html : string
}.

(** [ChatState{}]. *)
Definition new_chat_state : ChatState := MkChatState (MkId 0) 0 "".

(** Where the holder of the token is: a refresh that has just received it, or an await of
    [edit_html] or [send_html_with_keyboard].  A periodic render remembers the time it
    started at ([Some now]); a refresh reads the clock again when it is done. *)
Inductive Holder :=
| Acquired (active : list DownloadStatus)
| Editing (started : option Z) (html : string)
| Sending (started : option Z) (html : string).

Record RenderConfig := MkRenderConfig {
  chat_state : ChatState;
  holder : option Holder;
  waiting : list (list DownloadStatus)
}.

Definition init : RenderConfig := MkRenderConfig new_chat_state None [].

Inductive RenderEvent :=
| Render (now : Z) (active : list DownloadStatus) (metrics : SystemSnapshot) (uptime : Z)
| ForceRefresh (active : list DownloadStatus)
| Resume (now : Z) (metrics : SystemSnapshot) (uptime : Z)
| Edited (now : Z) (ok : bool)
| Sent (now : Z) (reply : option MessageId).

Inductive RenderEffect := EditMessage (id : MessageId) (html : string) | SendMessage (html : string).

(** The rendering both entry points build. *)
Definition render_html (active : list DownloadStatus) (metrics : SystemSnapshot) (uptime : Z) : string :=
  match active with
  | [] => render_no_active_tasks metrics uptime
  | _ => render_status active metrics uptime
  end.

(** [SemReleaseGuard]: the token goes to the first waiting refresh, if any. *)
Definition release (c : RenderConfig) : RenderConfig :=
  match waiting c with
  | [] => MkRenderConfig (chat_state c) None []
  | active :: rest => MkRenderConfig (chat_state c) (Some (Acquired active)) rest
  end.

Definition hold (h : Holder) (c : RenderConfig) : RenderConfig := MkRenderConfig (chat_state c) (Some h) (waiting c).
Definition with_state (s : ChatState) (c : RenderConfig) : RenderConfig := MkRenderConfig s (holder c) (waiting c).

(** [state.status_message_id.value() != 0]. *)
Definition have_message (s : ChatState) : bool := negb (value (status_message_id s) =? 0).

(** The time a finished call writes into [last_edit]. *)
Definition finish_time (started : option Z) (now : Z) : Z := default now started.

Section Machine.
  Context (throttle : Z).

(** [do_render_impl] up to its first await: dropped when another call holds the token, then
    throttled, then compared with what is shown. *)
Definition do_render (now : Z) (active : list DownloadStatus) (metrics : SystemSnapshot) (uptime : Z) (c : RenderConfig)
  : RenderConfig * list RenderEffect :=
  let s := chat_state c in
  match holder c with
  | Some _ => (c, [])
  | None =>
      if have_message s && (now - last_edit s <? throttle) then (c, [])
      else
        let html := render_html active metrics uptime in
        if have_message s && bool_decide (html = last_rendered_html s) then (c, [])
        else if negb (have_message s) then (hold (Sending (Some now) html) c, [SendMessage html])
        else (hold (Editing (Some now) html) c, [EditMessage (status_message_id s) html])
  end.

(** [do_force_refresh_impl] after [async_receive]. *)
Definition do_force_refresh (now : Z) (active : list DownloadStatus) (metrics : SystemSnapshot) (uptime : Z) (c : RenderConfig)
  : RenderConfig * list RenderEffect :=
  let s := chat_state c in
  let html := render_html active metrics uptime in
  if have_message s && bool_decide (html = last_rendered_html s) then
    (release (with_state (MkChatState (status_message_id s) now (last_rendered_html s)) c), [])
  else if have_message s then (hold (Editing None html) c, [EditMessage (status_message_id s) html])
  else (hold (Sending None html) c, [SendMessage html]).

(** One resumption; [None] where no coroutine waits for the event. *)
Definition render_step (c : RenderConfig) (e : RenderEvent) : option (RenderConfig * list RenderEffect) :=
  match e, holder c with
  | Render now active metrics uptime, _ => Some (do_render now active metrics uptime c)
  | ForceRefresh active, None => Some (hold (Acquired active) c, [])
  | ForceRefresh active, Some _ => Some (MkRenderConfig (chat_state c) (holder c) (waiting c ++ [active]), [])
  | Resume now metrics uptime, Some (Acquired active) => Some (do_force_refresh now active metrics uptime c)
  | Edited now true, Some (Editing started html) =>
      Some (release (with_state (MkChatState (status_message_id (chat_state c)) (finish_time started now) html) c), [])
  | Edited now false, Some (Editing started html) => Some (hold (Sending started html) c, [SendMessage html])
  | Sent now (Some id), Some (Sending started html) =>
      Some (release (with_state (MkChatState id (finish_time started now) html) c), [])
  | Sent now None, Some (Sending started html) => Some (release c, [])
  | _, _ => None
  end.

(** Reachable configurations, with the number of messages posted, of failed edits, and the
    calls of the messenger still unanswered. *)
Definition posted (e : RenderEvent) : nat := match e with Sent _ (Some _) => 1 | _ => 0 end.
Definition failed_edit (e : RenderEvent) : nat := match e with Edited _ false => 1 | _ => 0 end.
Definition answers (e : RenderEvent) : nat := match e with Edited _ _ | Sent _ _ => 1 | _ => 0 end.

(** The messenger never assigns the id 0. *)
Definition valid_event (e : RenderEvent) : Prop :=
  match e with Sent _ (Some id) => value id <> 0 | _ => True end.

Inductive reach : RenderConfig -> nat -> nat -> nat -> Prop :=
| reach_init : reach init 0 0 0
| reach_step c p f o e c' effs :
    reach c p f o -> valid_event e -> render_step c e = Some (c', effs) ->
    reach c' (p + posted e) (f + failed_edit e) (o + length effs - answers e).

(** ** Lemmas *)

(** The state of the messages: none before the first post; afterwards one, and one more for
    each failed edit, one of which is still to be replaced while a replacement is sent. *)
Definition accounted (c : RenderConfig) (p f : nat) : Prop :=
  if have_message (chat_state c) then
    match holder c with
    | Some (Sending _ _) => (p <= f)%nat
    | _ => (p <= f + 1)%nat
    end
  else p = 0%nat /\ match holder c with Some (Editing _ _) => False | _ => True end.

(** The calls of the messenger that the holder of the token awaits. *)
Definition outstanding (c : RenderConfig) : nat :=
  match holder c with Some (Editing _ _ | Sending _ _) => 1 | _ => 0 end.

Lemma release_state c : chat_state (release c) = chat_state c.
Proof. unfold release. by destruct (waiting c). Qed.

Lemma release_outstanding c : outstanding (release c) = 0%nat.
Proof. unfold release. by destruct (waiting c). Qed.

Lemma release_holder c : match holder (release c) with Some (Editing _ _ | Sending _ _) => False | _ => True end.
Proof. unfold release. by destruct (waiting c). Qed.

Lemma accounted_release c p f :
  (if have_message (chat_state c) then (p <= f + 1)%nat else p = 0%nat) -> accounted (release c) p f.
Proof.
  intros H. unfold accounted. rewrite release_state. pose proof (release_holder c) as Hh.
  destruct (have_message (chat_state c)); destruct (holder (release c)) as [[]|]; done.
Qed.

Lemma reach_accounted c p f o : reach c p f o -> accounted c p f /\ o = outstanding c.
Proof.
  induction 1 as [|c p f o e c' effs _ [IH ->] Hv Hs]; [by split|].
  unfold accounted in IH. unfold outstanding at 1.
  destruct (have_message (chat_state c)) eqn:Em.
  all: destruct e as [now active m u|active|now m u|now [|]|now [id|]], (holder c) as [[]|] eqn:Eh;
    unfold render_step in Hs; rewrite ?Eh in Hs; simpl in Hv; try done; try (by destruct IH); injection Hs as Hs;
    unfold do_render, do_force_refresh in Hs; rewrite ?Eh, ?Em in Hs; simpl in Hs.
  all: repeat match type of Hs with context [if ?b then _ else _] => destruct b end.
  all: try (injection Hs as <- <-).
  all: try (subst c' effs).
  all: try (rewrite release_outstanding; split; [|reflexivity]; apply accounted_release).
  all: unfold accounted, outstanding; simpl; rewrite ?Eh; unfold have_message in *; simpl; rewrite ?Em.
  all: rewrite ?(proj2 (Z.eqb_neq _ _) Hv); simpl.
  all: try (split; lia).
  all: try lia.
Qed.

(** A refresh never waits for a token that nobody holds. *)
Lemma reach_waiting c p f o : reach c p f o -> holder c = None -> waiting c = [].
Proof.
  assert (forall c, holder (release c) = None -> waiting (release c) = []) as Hrel.
  { intros c0. unfold release. by destruct (waiting c0) eqn:E. }
  induction 1 as [|c p f o e c' effs _ IH Hv Hs]; [done|].
  destruct e as [now active m u|active|now m u|now [|]|now [id|]], (holder c) as [[]|] eqn:Eh;
    unfold render_step in Hs; rewrite ?Eh in Hs; try done; injection Hs as Hs;
    unfold do_render, do_force_refresh in Hs; rewrite ?Eh in Hs; simpl in Hs.
  all: repeat match type of Hs with context [if ?b then _ else _] => destruct b end.
  all: try (injection Hs as <- <-).
  all: try (subst c' effs).
  all: simpl; rewrite ?Eh; auto; try done.
Qed.

(** ** Theorems *)

(** C10. One live message per chat: whatever the interleaving of periodic renders, refreshes
    and replies, at most one call of the messenger is unanswered, at most one message more
    than the failed edits is ever posted, and no refresh is left waiting when nobody holds
    the token. *)
Theorem progress_single_message c p f o (Hreach : reach c p f o) :
  (o <= 1)%nat /\ (p <= f + 1)%nat /\ (holder c = None -> waiting c = []).
Proof.
  destruct (reach_accounted _ _ _ _ Hreach) as [Ha ->]. split_and!.
  - unfold outstanding. repeat case_match; lia.
  - unfold accounted in Ha. repeat case_match; lia.
  - by eapply reach_waiting.
Qed.

(** Edits are throttled and never idle: from any configuration, a resumption issues at
    most one call of the messenger; an edit goes to the cached message, shows something
    new and, for a periodic render, comes at least the throttle interval after the last
    update; a message is posted only where there is none, or to replace one whose edit has
    just failed; and while a call is unanswered only its reply moves the chat on. *)
Theorem progress_edits_disciplined c e c' effs (Hs : render_step c e = Some (c', effs)) :
  (length effs <= 1)%nat /\
  (forall id html, EditMessage id html ∈ effs ->
     id = status_message_id (chat_state c) /\ value id <> 0 /\ html <> last_rendered_html (chat_state c) /\
     match e with Render now _ _ _ => throttle <= now - last_edit (chat_state c) | _ => True end) /\
  (forall html, SendMessage html ∈ effs ->
     value (status_message_id (chat_state c)) = 0 \/ exists now, e = Edited now false) /\
  (outstanding c = 1%nat -> answers e = 0%nat -> effs = [] /\ chat_state c' = chat_state c /\ holder c' = holder c).
Proof.
  unfold outstanding.
  destruct e as [now active m u|active|now m u|now [|]|now [id|]], (holder c) as [[]|] eqn:Eh;
    unfold render_step in Hs; rewrite ?Eh in Hs; try done; injection Hs as Hs;
    unfold do_render, do_force_refresh, have_message in Hs; rewrite ?Eh in Hs; simpl in Hs.
  all: repeat match type of Hs with
       | context [value ?x =? 0] => destruct (Z.eqb_spec (value x) 0); simpl in Hs
       | context [?a <? ?b] => destruct (Z.ltb_spec a b); simpl in Hs
       | context [bool_decide ?P] => destruct (bool_decide_reflect P); simpl in Hs
       end.
  all: try (injection Hs as <- <-).
  all: try (subst c' effs).
  all: split_and!; simpl; try lia; try done; try set_solver.
  all: intros; simplify_list_eq; repeat match goal with
       | H : _ ∈ [_] |- _ => apply list_elem_of_singleton in H; simplify_eq/=
       | H : _ ∈ [] |- _ => by apply not_elem_of_nil in H
       end; eauto.
Qed.
End Machine.

(** ** Witnesses *)

Definition sample_snapshot : SystemSnapshot :=
  MkSnapshot (double_of_Z 0) 1 2 3 4 0 0 (double_of_Z 0) (double_of_Z 0) (double_of_Z 0).

(** The first render posts a message; a second one in the throttle window is dropped; a
    refresh with new content edits. *)
Lemma sample_reach :
  reach 3000000000
    (MkRenderConfig (MkChatState (MkId 9) 5 (render_html [] sample_snapshot 0)) None []) 1 0 0.
Proof.
  pose proof (reach_step 3000000000 _ _ _ _ (Render 5 [] sample_snapshot 0) _ _ (reach_init _) I eq_refl) as H1.
  exact (reach_step 3000000000 _ _ _ _ (Sent 6 (Some (MkId 9))) _ _ H1 ltac:(done) eq_refl).
Qed.

Lemma progress_single_message_witness : (1 <= 0 + 1)%nat.
Proof. apply (progress_single_message 3000000000 _ _ _ _ sample_reach). Defined.

Lemma progress_edits_disciplined_witness :
  let c := MkRenderConfig (MkChatState (MkId 9) 5 "old") None [] in
  exists c' effs, render_step 3000000000 c (Render 4000000000 [] sample_snapshot 0) = Some (c', effs) /\
    length effs = 1%nat /\
    (forall id html, EditMessage id html ∈ effs -> id = MkId 9 /\ html <> "old").
Proof.
  intros c. do 2 eexists. split; [vm_compute; reflexivity|]. split; [reflexivity|].
  intros id html Hin.
  destruct (progress_edits_disciplined 3000000000 c (Render 4000000000 [] sample_snapshot 0) _ _
    ltac:(vm_compute; reflexivity)) as (_ & H & _).
  destruct (H id html Hin) as (H1 & _ & H2 & _). by split.
Defined.
