(* ===== verification/ShowStatus.v ===== *)
(** * The [/status] command: [application/show_status.cpp]

    Loads the stored tasks, asks the bound backends for their progress and sends one
    message; a requester sees the tasks of the chat the command came from, and only the
    own ones unless the requester is an administrator. *)

From S2P Require Import Prelude CoreError Identifiers Task TimeCodec Formatting Ports Progress Metrics.
From S2P Require Import Registry Environment TaskControl HtmlRenderer HtmlSafety.

Local Open Scope coro_scope.

(** [struct StatusRequest]. *)
Record StatusRequest := MkStatusRequest {
  st_user : UserId;
  st_chat : ChatId;
  st_task_id : option TaskId;
  st_include_all_users : bool
}.

(** [visible_to_request]. *)
Definition visible_to_request (task : Task) (request : StatusRequest) : bool :=
  if negb (bool_decide (md_chat (metadata task) = st_chat request)) then false
  else st_include_all_users request || bool_decide (md_user (metadata task) = st_user request).

(** [render_metrics_footer] of this file. *)
Definition status_footer (metrics : SystemSnapshot) (uptime : Z) : string :=
  "<b><u>System</u></b>" +:+ newline +:+
  "<b>CPU:</b> <code>" +:+ fmt_fixed1 (cpu_usage_percent metrics) +:+ "%</code> | " +:+
  "<b>RAM:</b> <code>" +:+ format_bytes (ram_used_bytes metrics) +:+ "/" +:+ format_bytes (ram_total_bytes metrics) +:+
  "</code> | " +:+
  "<b>Disk:</b> <code>" +:+ format_bytes (disk_used_bytes metrics) +:+ "/" +:+ format_bytes (disk_total_bytes metrics) +:+
  "</code>" +:+ newline +:+
  "<b>Bot uptime:</b> <code>" +:+ format_duration uptime +:+ "</code>".

(** [render_no_active_tasks] of this file. *)
Definition status_no_active_tasks (metrics : SystemSnapshot) (uptime : Z) : string :=
  "<b><u>Status</u></b>" +:+ newline +:+
  "<blockquote>No active tasks. New mirror and leech jobs will appear here.</blockquote>" +:+ newline +:+ newline +:+
  status_footer metrics uptime.

(** [render_downloader_status]. *)
Definition render_downloader_status (status : DownloadStatus) (index : nat) : string :=
  let name := escape_html (if str_empty (ds_name status) then "(unnamed download)" else ds_name status) in
  "<b>" +:+ fmt_int (Z.of_nat index) +:+ ".</b> <code>" +:+ name +:+ "</code>" +:+ newline +:+
  render_progress_lines status.

(** The entries of [render_status_list], separated by a blank line. *)
Fixpoint status_entries (i : nat) (l : list DownloadStatus) : string :=
  match l with
  | [] => ""
  | s :: rest => (if (i =? 0)%nat then "" else newline +:+ newline) +:+ render_downloader_status s (S i)
                   +:+ status_entries (S i) rest
  end.

(** [render_status_list]. *)
Definition render_status_list (active : list DownloadStatus) (metrics : SystemSnapshot) (uptime : Z) : string :=
  match active with
  | [] => status_no_active_tasks metrics uptime
  | _ =>
      let shown := Nat.min (length active) kMaxRenderedTasks in
      "<b><u>Active Tasks</u></b>" +:+ newline +:+
      status_entries 0 (take shown active) +:+
      (if (shown <? length active)%nat
       then newline +:+ newline +:+ "<i>... and " +:+ fmt_int (Z.of_nat (length active - shown)) +:+ " more task(s)</i>"
       else "") +:+ newline +:+ newline +:+
      status_footer metrics uptime
  end.

(** [render_task_without_downloader]. *)
Definition render_task_without_downloader (task : Task) (metrics : SystemSnapshot) (uptime : Z) : string :=
  "<b><u>Task Status</u></b>" +:+ newline +:+
  "<b>Task:</b> <code>" +:+ value (md_id (metadata task)) +:+ "</code>" +:+ newline +:+
  "<b>State:</b> <code>" +:+ task_state_to_string (state task) +:+ "</code>" +:+ newline +:+
  "<b>Source:</b>" +:+ newline +:+
  "<blockquote>" +:+ escape_html (truncate_for_display (md_source_url (metadata task)) 200) +:+ "</blockquote>" +:+ newline
  +:+ newline +:+ status_footer metrics uptime.

(** The notice for an id that is not stored. *)
Definition task_not_found_html (id : TaskId) : string :=
  "<b><u>Status</u></b>" +:+ newline +:+
  "<b>Task:</b> <code>" +:+ value id +:+ "</code>" +:+ newline +:+
  "<blockquote>Task was not found.</blockquote>".

Section ShowStatus.
  Context {W : Type} `{!TaskRepository W, !Downloaders W, !MessengerInterface W, !SystemMetrics W}.

(** The backend a task is bound to, with the id of its download. *)
Definition bound_download (task : Task) : option (DownloaderInterface W * Gid) :=
  match downloader_id task, backend_of (downloader_kind task) with
  | Some gid, Some d => Some (d, gid)
  | _, _ => None
  end.

(** [send_html] with its result dropped on success. *)
Definition send_status (chat : ChatId) (html : string) : M W (Result unit) :=
  co_try sent <- send_html chat html;
  co_return Ok ().

(** The branch of a request for one task. *)
Definition status_of_task (request : StatusRequest) (id : TaskId) (metrics : SystemSnapshot) (uptime : Z) : M W (Result unit) :=
  co_try loaded <- repo_find id;
  match loaded with
  | None =>
      co_do send_html (st_chat request) (task_not_found_html id);
      co_return error NotFound "status: task not found"
  | Some task =>
      if negb (visible_to_request task request) then
        co_return error PermissionDenied "status: task is not visible to this requester"
      else
        match bound_download task with
        | None => send_status (st_chat request) (render_task_without_downloader task metrics uptime)
        | Some (d, gid) =>
            co_try s <- status d gid;
            send_status (st_chat request) (render_status_list [s] metrics uptime)
        end
  end.

(** One round of the loop over the unfinished tasks. *)
Definition status_of_one (request : StatusRequest) (active : list DownloadStatus) (task : Task) : M W (list DownloadStatus) :=
  if negb (visible_to_request task request) then co_return active
  else
    match bound_download task with
    | None => co_return active
    | Some (d, gid) =>
        co_await s <- status d gid;
        co_return match s with Ok s => active ++ [s] | Err _ => active end
    end.

(** [ShowStatus::execute]. *)
Definition show_status_execute (request : StatusRequest) : M W (Result unit) :=
  co_await metrics <- snapshot;
  co_await uptime <- bot_uptime;
  match st_task_id request with
  | Some id => status_of_task request id metrics uptime
  | None =>
      co_try incomplete <- repo_incomplete;
      co_await active <- mfold (status_of_one request) incomplete [];
      send_status (st_chat request) (render_status_list active metrics uptime)
  end.

End ShowStatus.

(** ** Lemmas *)

Lemma visible_equiv t1 t2 r : t1 ≡ t2 -> visible_to_request t1 r = visible_to_request t2 r.
Proof. intros (H & _). unfold visible_to_request. by injection H as _ -> -> _ _ _ _. Qed.

Section Scope.
  Context {W : Type} `{!TaskRepository W, !Downloaders W, !MessengerInterface W, !SystemMetrics W}.
  Context (inv : W -> Prop) (tasks : W -> gmap string Task).
  (** the progress requests made to the backends, and the messages sent *)
  Context (queried : W -> list (DownloaderKind * Gid)) (sent : W -> list (ChatId * string)).

Class StatusFrames : Prop := {
  sf_status k d g w : backend_of (W := W) k = Some d ->
    queried (status d g w).2 = queried w ++ [(k, g)] /\ sent (status d g w).2 = sent w;
  sf_send c h w : queried (send_html c h w).2 = queried w /\ sent (send_html c h w).2 = sent w ++ [(c, h)];
  sf_metrics w : inv w -> inv (snapshot w).2 /\ tasks (snapshot w).2 = tasks w /\
    queried (snapshot w).2 = queried w /\ sent (snapshot w).2 = sent w;
  sf_clock w : inv w -> inv (steady_now w).2 /\ tasks (steady_now w).2 = tasks w /\
    queried (steady_now w).2 = queried w /\ sent (steady_now w).2 = sent w;
  sf_find id w : queried (repo_find id w).2 = queried w /\ sent (repo_find id w).2 = sent w;
  sf_incomplete w : queried (repo_incomplete w).2 = queried w /\ sent (repo_incomplete w).2 = sent w
}.

Context `{!TaskRepositoryLaws W inv tasks, !StatusFrames}.

(** The binding of a task, when a backend serves it. *)
Definition binding (t : Task) : option (DownloaderKind * Gid) :=
  match downloader_id t, downloader_kind t with
  | Some g, (Aria2 | Qbittorrent) as k => Some (k, g)
  | _, _ => None
  end.

Lemma bound_download_binding t :
  match bound_download (W := W) t with
  | Some (d, g) => exists k, backend_of k = Some d /\ binding t = Some (k, g)
  | None => binding t = None
  end.
Proof.
  unfold bound_download, binding. destruct (downloader_id t), (downloader_kind t); simpl; try done.
  - by exists Aria2.
  - by exists Qbittorrent.
Qed.

Lemma binding_equiv t1 t2 : t1 ≡ t2 -> binding t1 = binding t2.
Proof. intros (_ & _ & _ & H1 & H2). unfold binding. by rewrite H1, H2. Qed.

(** What the loop asks the backends. *)
Lemma loop_queries request l active w :
  queried (mfold (status_of_one request) l active w).2 =
    queried w ++ omap binding (filter (fun t => visible_to_request t request = true) l) /\
  sent (mfold (status_of_one request) l active w).2 = sent w.
Proof.
  revert active w. induction l as [|t l IH]; intros active w; [by rewrite app_nil_r|].
  assert (mfold (status_of_one request) (t :: l) active w =
          let '(a1, w1) := status_of_one request active t w in mfold (status_of_one request) l a1 w1) as -> by done.
  unfold status_of_one at 1 3. rewrite filter_cons. destruct (visible_to_request t request) eqn:E; simpl.
  2: { unfold mreturn. apply IH. }
  pose proof (bound_download_binding t) as Hb. destruct (bound_download t) as [[d g]|].
  - destruct Hb as (k & Hk & ->). unfold mbind, mreturn. destruct (sf_status k d g w Hk) as [H1 H2].
    destruct (status d g w) as [s w1]. simpl in *. destruct (IH (match s with Ok s => active ++ [s] | Err _ => active end) w1) as [H3 H4].
    rewrite H3, H4, H1, H2, <-app_assoc. done.
  - rewrite Hb. unfold mreturn. apply IH.
Qed.

Lemma send_status_effect c h w :
  queried (send_status c h w).2 = queried w /\ sent (send_status c h w).2 = sent w ++ [(c, h)].
Proof.
  destruct (sf_send c h w) as [H1 H2]. unfold send_status, try_bind, mbind, mreturn.
  by destruct (send_html c h w) as [[m|e] w1].
Qed.

(** A stored task that the request may see is bound to the download. *)
Definition visible_binding (w : W) (request : StatusRequest) (q : DownloaderKind * Gid) : Prop :=
  exists t, tasks w !! task_key t = Some t /\ visible_to_request t request = true /\ binding t = Some q.

(** What a report asks the backends and sends. *)
Definition reports (w w' : W) (request : StatusRequest) (asked : list (DownloaderKind * Gid)) (msgs : list (ChatId * string)) : Prop :=
  queried w' = queried w ++ asked /\ sent w' = sent w ++ msgs /\ Forall (visible_binding w request) asked /\
  (length msgs <= 1)%nat /\ Forall (fun m => m.1 = st_chat request) msgs.

Lemma reports_silent w w' request asked :
  queried w' = queried w ++ asked -> sent w' = sent w -> Forall (visible_binding w request) asked ->
  reports w w' request asked [].
Proof. intros H1 H2 H3. unfold reports. rewrite app_nil_r. split_and!; try done. simpl. lia. Qed.

Lemma reports_message w w' request asked html :
  queried w' = queried w ++ asked -> sent w' = sent w ++ [(st_chat request, html)] ->
  Forall (visible_binding w request) asked -> reports w w' request asked [(st_chat request, html)].
Proof. intros H1 H2 H3. split_and!; try done. by repeat constructor. Qed.

Lemma status_of_task_effect request id m u w :
  inv w ->
  exists asked msgs, reports w (status_of_task request id m u w).2 request asked msgs /\
    (forall t, tasks w !! value id = Some t -> visible_to_request t request = false ->
       asked = [] /\ msgs = [] /\ has_value (status_of_task request id m u w).1 = false).
Proof.
  intros Hinv. unfold status_of_task, try_bind, mbind, mreturn. destruct (sf_find id w) as [Hq Hs].
  destruct (repo_find id w) as [[o|e] w1] eqn:Hfind; cbn [fst snd] in *.
  2: { exists [], []. split; [|done]. apply reports_silent; [by rewrite app_nil_r|done|constructor]. }
  pose proof (find_spec (inv := inv) (tasks := tasks) id w o w1 Hinv Hfind) as Ho.
  destruct o as [t|]; inversion Ho as [t' t0 Heq Hx Hl|Hl]; subst; clear Ho.
  2: { set (html := task_not_found_html id). destruct (sf_send (st_chat request) html w1) as [H3 H4].
       destruct (send_html (st_chat request) html w1) as [x w2]. cbn [snd] in *.
       exists [], [(st_chat request, html)]. split; [|intros t Ht; congruence].
       apply reports_message; [rewrite app_nil_r; congruence|congruence|constructor]. }
  destruct (tasks_storable (inv := inv) (tasks := tasks) _ _ _ Hinv (eq_sym Hl)) as (_ & _ & Hkey).
  destruct (visible_to_request t request) eqn:Ev; cbn [negb]; cbv beta iota.
  2: { exists [], []. split; [|done]. apply reports_silent; [by rewrite app_nil_r|done|constructor]. }
  assert (forall t1, Some t0 = Some t1 -> visible_to_request t1 request = false -> False) as Hno.
  { intros t1 [= <-] H2. by rewrite <-(visible_equiv _ _ _ Heq), Ev in H2. }
  pose proof (bound_download_binding t) as Hb. destruct (bound_download t) as [[d g]|]; cbv beta iota.
  - destruct Hb as (k & Hk & Hb). destruct (sf_status k d g w1 Hk) as [H1 H2].
    destruct (status d g w1) as [s w2]. cbv beta iota. cbn [snd] in *.
    assert (Forall (visible_binding w request) [(k, g)]) as Hvis.
    { constructor; [|constructor]. exists t0. split; [by rewrite Hkey|]. split.
      - rewrite <-Ev. symmetry. by apply visible_equiv.
      - rewrite <-Hb. symmetry. by apply binding_equiv. }
    destruct s as [s|e].
    + destruct (send_status_effect (st_chat request) (render_status_list [s] m u) w2) as [H3 H4].
      exists [(k, g)], [(st_chat request, render_status_list [s] m u)].
      split; [|intros t1 H5 H6; by destruct (Hno t1 H5 H6)].
      apply reports_message; [by rewrite H3, H1, Hq|by rewrite H4, H2, Hs|exact Hvis].
    + exists [(k, g)], []. split; [|intros t1 H5 H6; by destruct (Hno t1 H5 H6)].
      apply reports_silent; [by rewrite <-Hq|by rewrite <-Hs|exact Hvis].
  - destruct (send_status_effect (st_chat request) (render_task_without_downloader t m u) w1) as [H3 H4].
    exists [], [(st_chat request, render_task_without_downloader t m u)].
    split; [|intros t1 H5 H6; by destruct (Hno t1 H5 H6)].
    apply reports_message; [by rewrite app_nil_r, H3|by rewrite H4, Hs|constructor].
Qed.

Definition status_listing (request : StatusRequest) (m : SystemSnapshot) (u : Z) : M W (Result unit) :=
  co_try incomplete <- repo_incomplete;
  co_await active <- mfold (status_of_one request) incomplete [];
  send_status (st_chat request) (render_status_list active m u).

Lemma status_listing_effect request m u w :
  inv w ->
  exists asked msgs, reports w (status_listing request m u w).2 request asked msgs /\
    (has_value (status_listing request m u w).1 = true ->
       forall q, q ∈ asked <-> exists t, tasks w !! task_key t = Some t /\ is_terminal t = false /\
                                 visible_to_request t request = true /\ binding t = Some q).
Proof.
  intros Hinv. unfold status_listing, try_bind, mbind, mreturn. destruct (sf_incomplete w) as [Hq Hs].
  destruct (repo_incomplete w) as [[l|e] w1] eqn:Hl; cbn [fst snd] in *.
  2: { exists [], []. split; [|done]. apply reports_silent; [by rewrite app_nil_r|done|constructor]. }
  destruct (incomplete_spec (inv := inv) (tasks := tasks) w l w1 Hinv Hl) as (l0 & Heq & _ & Hel & _).
  set (asked := omap binding (filter (fun t => visible_to_request t request = true) l)).
  assert (forall q, q ∈ asked <-> exists t, tasks w !! task_key t = Some t /\ is_terminal t = false /\
            visible_to_request t request = true /\ binding t = Some q) as Hasked.
  { assert (asked = omap binding (filter (fun t => visible_to_request t request = true) l0)) as ->.
    { subst asked. clear -Heq. induction Heq as [|t t0 l l0 H _ IH]; [done|].
      rewrite !filter_cons, (visible_equiv _ _ request H). destruct (decide _); [|exact IH].
      csimpl. rewrite (binding_equiv _ _ H). destruct (binding t0); [f_equal|]; exact IH. }
    intros q. rewrite list_elem_of_omap. setoid_rewrite list_elem_of_filter. setoid_rewrite Hel. naive_solver. }
  destruct (loop_queries request l [] w1) as [H1 H2]. fold asked in H1.
  destruct (mfold (status_of_one request) l [] w1) as [active w2]. cbn [snd] in *.
  destruct (send_status_effect (st_chat request) (render_status_list active m u) w2) as [H3 H4].
  exists asked, [(st_chat request, render_status_list active m u)]. split; [|done].
  apply reports_message; [congruence|congruence|].
  apply Forall_forall. intros q (t & Hk & _ & Hv & Hb)%Hasked. by exists t.
Qed.

(** The command samples the host first. *)
Lemma show_status_run request w :
  inv w ->
  exists m u w2,
    show_status_execute request w =
      match st_task_id request with
      | Some id => status_of_task request id m u w2
      | None => status_listing request m u w2
      end /\
    inv w2 /\ tasks w2 = tasks w /\ queried w2 = queried w /\ sent w2 = sent w.
Proof.
  intros Hinv. destruct (sf_metrics w Hinv) as (Hi1 & Ht1 & Hq1 & Hs1).
  unfold show_status_execute, bot_uptime. unfold mbind at 1. destruct (snapshot w) as [m w1]. cbn [snd] in *.
  destruct (sf_clock w1 Hi1) as (Hi2 & Ht2 & Hq2 & Hs2). unfold mbind at 1 2, mreturn at 1.
  destruct (steady_now w1) as [tp w2]. cbn [snd] in *. do 3 eexists. split; [by destruct (st_task_id request)|].
  split_and!; [done|congruence..].
Qed.
End Scope.

(** ** Theorem *)

(** C12. Status reports stay in their chat: [/status] asks the backends only about stored
    tasks of the requester's chat (the requester's own ones unless the requester may see
    all), sends at most one message, to that chat, and for the listing asks about exactly
    the unfinished visible tasks.  A stored task that is not visible gives
    PermissionDenied, with nothing asked and nothing sent. *)
Theorem status_scope {W} `{!TaskRepository W, !Downloaders W, !MessengerInterface W, !SystemMetrics W}
  (inv : W -> Prop) (tasks : W -> gmap string Task)
  (queried : W -> list (DownloaderKind * Gid)) (sent : W -> list (ChatId * string))
  (Hlaws : TaskRepositoryLaws W inv tasks) (Hframes : StatusFrames inv tasks queried sent) request w (Hinv : inv w) :
  let r := show_status_execute request w in
  exists asked msgs, reports tasks queried sent w r.2 request asked msgs /\
    (st_task_id request = None -> has_value r.1 = true ->
       forall q, q ∈ asked <-> exists t, tasks w !! task_key t = Some t /\ is_terminal t = false /\
                                 visible_to_request t request = true /\ binding t = Some q) /\
    (forall id t, st_task_id request = Some id -> tasks w !! value id = Some t -> visible_to_request t request = false ->
       asked = [] /\ msgs = [] /\ has_value r.1 = false).
Proof.
  intros r. subst r.
  destruct (show_status_run inv tasks queried sent request w Hinv) as (m & u & w2 & -> & Hi & Ht & Hq & Hs).
  assert (forall w' asked msgs, reports tasks queried sent w2 w' request asked msgs ->
            reports tasks queried sent w w' request asked msgs) as Hrep.
  { intros w' asked msgs. unfold reports, visible_binding. by rewrite Ht, Hq, Hs. }
  destruct (st_task_id request) as [id|].
  - destruct (status_of_task_effect inv tasks queried sent request id m u w2 Hi) as (asked & msgs & H1 & H2).
    exists asked, msgs. split; [by apply Hrep|]. split; [done|]. intros id' t [= <-]. rewrite <-Ht. apply H2.
  - destruct (status_listing_effect inv tasks queried sent request m u w2 Hi) as (asked & msgs & H1 & H2).
    exists asked, msgs. split; [by apply Hrep|]. split; [|done]. intros _. by rewrite <-Ht.
Qed.

(** ** Witness *)

Import MemWorld.

#[export] Instance mem_metrics : SystemMetrics MemWorld.World := {
  snapshot := mreturn (MkSnapshot (double_of_Z 0) 1 2 3 4 0 0 (double_of_Z 0) (double_of_Z 0) (double_of_Z 0));
  steady_now := mreturn 7000000000;
  bot_start_time := 0
}.

(** The progress requests in the log of calls. *)
Definition mem_queried (w : MemWorld.World) : list (DownloaderKind * Gid) :=
  omap (fun c => match c with CallStatus k g => Some (k, g) | _ => None end) (w_calls w).

Lemma mem_status_frames : StatusFrames MemWorld.inv w_tasks mem_queried w_sent.
Proof.
  split; try done. intros k d g w H. unfold mem_queried. by destruct k; inversion H; subst d; simpl; rewrite omap_app.
Qed.

Lemma status_scope_witness :
  let rq := MkStatusRequest (MkId 7) (MkId 1) None false in
  mem_queried (show_status_execute rq sample_world).2 = [(Aria2, MkId "gid-a")] /\
  exists asked msgs, reports w_tasks mem_queried w_sent sample_world (show_status_execute rq sample_world).2 rq asked msgs.
Proof.
  intros rq. split; [vm_compute; reflexivity|].
  destruct (status_scope MemWorld.inv w_tasks mem_queried w_sent repository_laws mem_status_frames rq sample_world
    sample_world_inv) as (asked & msgs & H & _). by exists asked, msgs.
Defined.
