(* ===== verification/CallbackDispatcher.v ===== *)
(** * Inline buttons: [presentation/callback_dispatcher.cpp]

    Routes the payload of a pressed button to a use case and answers the callback. *)

From S2P Require Import Prelude CoreError Identifiers UploadDestination Task TimeCodec Ports Registry.
From S2P Require Import Environment TaskControl Settings HtmlRenderer.

Local Open Scope coro_scope.

(** [split_colon]. *)
Definition split_colon (data : string) : string * string :=
  match str_find ":"%char data with
  | None => (data, "")
  | Some i => (substr data 0 i, substr_from data (S i))
  end.

(** [next_destination]. *)
Definition next_destination (d : UploadDestination) : UploadDestination :=
  match d with Telegram => GoogleDrive | GoogleDrive => Rclone | Rclone => Telegram end.

(** The mutators of the two settings buttons. *)
Definition cycle_destination (r : UserSettingsRecord) : UserSettingsRecord :=
  MkUserSettings (us_user_id r) (us_leech_destination r) (next_destination (us_mirror_destination r))
    (us_default_thumb_path r) (us_rclone_remote r) (us_gdrive_folder_id r) (us_upload_as_document r)
    (us_created_at r) (us_updated_at r).
Definition toggle_document (r : UserSettingsRecord) : UserSettingsRecord :=
  MkUserSettings (us_user_id r) (us_leech_destination r) (us_mirror_destination r)
    (us_default_thumb_path r) (us_rclone_remote r) (us_gdrive_folder_id r) (negb (us_upload_as_document r))
    (us_created_at r) (us_updated_at r).

(** [settings_keyboard]. *)
Definition settings_keyboard : InlineKeyboard :=
  [[MkButton "Cycle Upload Destination" "settings:upload:cycle"; MkButton "Toggle Document Mode" "settings:doc:toggle"];
   [MkButton "Close" "close"]].

(** What a handler leaves for the acknowledgement: [outcome], [ack_text], [ack_as_alert]. *)
Record Ack := MkAck { outcome : Result unit; ack_text : string; ack_as_alert : bool }.

Definition ack_ok (text : string) : Ack := MkAck (Ok ()) text false.
Definition ack_failed (e : AppError) : Ack := MkAck (Err e) (friendly_error_label (err_code e)) true.

Section Dispatch.
  Context {W : Type} `{!Clock W, !TaskRepository W, !UserSettingsRepository W, !BotSettingsRepository W,
    !Downloaders W, !MessengerInterface W, !HasRegistry W}.

(** [head == "close"]. *)
Definition on_close (chat : ChatId) (msg_id : MessageId) : M W Ack :=
  if value msg_id =? 0 then co_return ack_ok ""
  else co_await del <- delete_message chat msg_id;
       match del with
       | Ok _ => co_return ack_ok ""
       | Err e => co_return ack_failed e
       end.

(** The common part of the two settings buttons. *)
Definition on_settings (chat : ChatId) (sender : UserId) (msg_id : MessageId)
  (mutate : UserSettingsRecord -> UserSettingsRecord) (done_text : string) : M W Ack :=
  co_await res <- update_user_settings sender (Some mutate);
  match res with
  | Err e => co_return ack_failed e
  | Ok rec =>
      if value msg_id =? 0 then co_return ack_ok done_text
      else co_await edit <- edit_html_with_keyboard chat msg_id (render_user_settings rec) settings_keyboard;
           match edit with
           | Err e => co_return ack_failed e
           | Ok _ => co_return ack_ok done_text
           end
  end.

(** [head == "task"]. *)
Definition on_task (chat : ChatId) (rest : string) : M W Ack :=
  let '(verb, task_id_text) := split_colon rest in
  if str_empty task_id_text then co_return MkAck (Ok ()) "Invalid task action" true
  else
    let rq := MkTaskRequest (MkId task_id_text) chat in
    let run (m : M W (Result unit)) (done_text : string) :=
      co_await res <- m; co_return match res with Ok _ => ack_ok done_text | Err e => ack_failed e end in
    if bool_decide (verb = "cancel") then run (cancel_execute rq) "Cancelling task"
    else if bool_decide (verb = "pause") then run (pause_execute rq) "Task paused"
    else if bool_decide (verb = "resume") then run (resume_execute rq) "Task resumed"
    else co_return ack_ok "Unknown action".

(** The routing of [CallbackDispatcher::dispatch]. *)
Definition route (chat : ChatId) (sender : UserId) (msg_id : MessageId) (data : string) : M W Ack :=
  let '(head, rest) := split_colon data in
  if bool_decide (head = "close") then on_close chat msg_id
  else if bool_decide (head = "status") && bool_decide (rest = "refresh") then co_return ack_ok "Refreshing…"
  else if bool_decide (head = "settings") then
    let '(section, action) := split_colon rest in
    if bool_decide (section = "upload") && bool_decide (action = "cycle")
    then on_settings chat sender msg_id cycle_destination "Upload destination updated"
    else if bool_decide (section = "doc") && bool_decide (action = "toggle")
    then on_settings chat sender msg_id toggle_document "Setting toggled"
    else co_return ack_ok "Unknown action"
  else if bool_decide (head = "task") then on_task chat rest
  else co_return ack_ok "Unknown action".

(** [CallbackDispatcher::dispatch]. *)
Definition callback_dispatch (chat : ChatId) (sender : UserId) (msg_id : MessageId) (query_id : CallbackQueryId)
  (data : string) : M W (Result unit) :=
  co_await a <- route chat sender msg_id data;
  co_await ack <- answer_callback query_id (ack_text a) (ack_as_alert a);
  co_return match outcome a, ack with
            | Ok _, Err e => Err e
            | o, _ => o
            end.

End Dispatch.

(** ** Lemmas *)

(** Splitting a payload whose head holds no colon. *)
Lemma split_colon_app head rest :
  Forall (fun c => c <> ":"%char) (chars head) -> split_colon (head +:+ ":" +:+ rest) = (head, rest).
Proof.
  intros H. unfold split_colon, str_find.
  assert (find_idx (fun x => bool_decide (x = ":"%char)) (chars (head +:+ ":" +:+ rest)) = Some (length (chars head))) as ->.
  { rewrite chars_app. apply find_idx_Some. exists ":"%char.
    split; [by rewrite lookup_app_r, Nat.sub_diag|]. split; [done|]. rewrite take_app_length.
    eapply Forall_impl; [exact H|]. intros c Hc. by apply bool_decide_false. }
  unfold substr, substr_from. rewrite chars_app. f_equal.
  - by rewrite drop_0, take_app_length, of_chars_chars.
  - assert (chars (":" +:+ rest) = ":"%char :: chars rest) as -> by done.
    rewrite cons_middle, app_assoc, drop_app_length'; [by rewrite of_chars_chars|]. rewrite length_app. simpl. lia.
Qed.

Section Answers.
  Context {W : Type} `{!Clock W, !TaskRepository W, !UserSettingsRepository W, !BotSettingsRepository W,
    !Downloaders W, !MessengerInterface W, !HasRegistry W}.
  Context (answers : W -> list (CallbackQueryId * string * bool)).

(** Only [answer_callback] answers callbacks. *)
Class AnswerFrames : Prop := {
  af_answer q text alert w : answers (answer_callback q text alert w).2 = answers w ++ [(q, text, alert)];
  af_now :: Preserves answers now;
  af_find id :: Preserves answers (repo_find id);
  af_save t :: Preserves answers (repo_save t);
  af_us_get u :: Preserves answers (us_get u);
  af_us_save r :: Preserves answers (us_save r);
  af_send c h :: Preserves answers (send_html c h);
  af_edit c m h k :: Preserves answers (edit_html_with_keyboard c m h k);
  af_delete c m :: Preserves answers (delete_message c m);
  af_backend k d : backend_of (W := W) k = Some d -> forall g b,
    Preserves answers (remove d g b) /\ Preserves answers (pause d g) /\ Preserves answers (resume d g);
  af_registry r w : answers (set_registry r w) = answers w
}.

Context `{!AnswerFrames}.

#[local] Instance af_active_cancel id : Preserves answers (active_tasks_cancel id).
Proof.
  intros w. unfold active_tasks_cancel. destruct (cancel id (get_registry w)) as [b r]. apply af_registry.
Qed.

#[local] Instance af_remove_binding t : Preserves answers (remove_binding t).
Proof.
  unfold remove_binding. destruct (downloader_id t) as [g|]; [|apply _].
  destruct (backend_of (downloader_kind t)) as [d|] eqn:E; [|apply _].
  apply preserves_bind; [by apply (af_backend _ _ E)|apply _].
Qed.

#[local] Instance af_cancel rq : Preserves answers (cancel_execute rq).
Proof. unfold cancel_execute, cancel_parked. frame. Qed.

#[local] Instance af_pause rq : Preserves answers (pause_execute rq).
Proof.
  unfold pause_execute. apply preserves_try; [apply _|intros [t|]; [|apply _]].
  destruct (negb _); [apply _|]. destruct (is_terminal t); [apply _|].
  destruct (downloader_id t) as [g|]; [|apply _].
  destruct (backend_of (downloader_kind t)) as [d|] eqn:E; [|apply _].
  apply preserves_try; [by apply (af_backend _ _ E g true)|intros _; frame].
Qed.

#[local] Instance af_resume rq : Preserves answers (resume_execute rq).
Proof.
  unfold resume_execute. apply preserves_try; [apply _|intros [t|]; [|apply _]].
  destruct (negb _); [apply _|]. destruct (is_terminal t); [apply _|].
  destruct (downloader_id t) as [g|]; [|apply _].
  destruct (backend_of (downloader_kind t)) as [d|] eqn:E; [|apply _].
  apply preserves_try; [by apply (af_backend _ _ E g true)|intros _; frame].
Qed.

#[local] Instance af_route chat sender msg data : Preserves answers (route chat sender msg data).
Proof.
  unfold route, on_task, on_settings, on_close, update_user_settings.
  destruct (split_colon data) as [head rest]. destruct (split_colon rest) as [section action]. frame.
Qed.

(** An acknowledgement is an alert exactly for a failure or a malformed task action. *)
Definition ack_faithful (a : Ack) : Prop :=
  match outcome a with
  | Err e => ack_as_alert a = true /\ ack_text a = friendly_error_label (err_code e)
  | Ok _ => ack_as_alert a = true -> ack_text a = "Invalid task action"
  end.

Lemma route_faithful chat sender msg data w : ack_faithful (route chat sender msg data w).1.
Proof.
  unfold route, on_task, on_settings, on_close.
  destruct (split_colon data) as [head rest]. destruct (split_colon rest) as [section action].
  repeat match goal with
  | |- context [if ?b then _ else _] => destruct b
  end; unfold mbind, mreturn; try done;
  repeat match goal with
  | |- context [match ?m w with _ => _ end] => destruct (m w) as [[?|?] ?]; simpl; try done
  | |- context [match ?m with _ => _ end] => destruct m as [[?|?] ?]; simpl; try done
  end.
Qed.
End Answers.

(** ** Theorems *)

Section Theorems.
  Context {W : Type} `{!Clock W, !TaskRepository W, !UserSettingsRepository W, !BotSettingsRepository W,
    !Downloaders W, !MessengerInterface W, !HasRegistry W}.
  Context (answers : W -> list (CallbackQueryId * string * bool)) (Hframes : AnswerFrames answers).

(** Every pressed button is answered exactly once, whatever its payload and whatever
    happens; the toast is an alert exactly for a failure (then it carries the label of
    the error, and the error is returned) or for a task action without an id, and the
    error of the answer itself is returned only when nothing failed before. *)
Theorem callback_answered_once chat sender msg query data w :
  exists a, answers (callback_dispatch chat sender msg query data w).2 =
              answers w ++ [(query, ack_text a, ack_as_alert a)] /\
    ack_faithful a /\
    match outcome a with
    | Err e => (callback_dispatch chat sender msg query data w).1 = Err e
    | Ok _ => (callback_dispatch chat sender msg query data w).1 =
                (answer_callback query (ack_text a) (ack_as_alert a) (route chat sender msg data w).2).1
    end.
Proof.
  exists (route chat sender msg data w).1. pose proof (route_faithful chat sender msg data w) as Hf.
  pose proof (af_route answers chat sender msg data w) as Hr. unfold callback_dispatch, mbind, mreturn.
  destruct (route chat sender msg data w) as [a w1]. simpl in *.
  pose proof (af_answer answers query (ack_text a) (ack_as_alert a) w1) as Ha. rewrite Hr in Ha.
  destruct (answer_callback query (ack_text a) (ack_as_alert a) w1) as [ack w2]. simpl in *.
  split; [done|]. split; [done|]. destruct (outcome a) as [[]|e], ack as [[]|e']; done.
Qed.

(** Payloads mean what the buttons say: the payloads of the settings keyboard run the
    two mutators on the settings of the user who pressed, [close] deletes the pressed
    message, and [task:<verb>:<id>] runs the use case of the verb on exactly that id, in
    the chat of the button, for every id (colons included). *)
Theorem callback_payloads_route chat sender msg (w : W) :
  route chat sender msg "close" w = on_close chat msg w /\
  route chat sender msg "settings:upload:cycle" w =
    on_settings chat sender msg cycle_destination "Upload destination updated" w /\
  route chat sender msg "settings:doc:toggle" w = on_settings chat sender msg toggle_document "Setting toggled" w /\
  (forall id, id <> "" ->
     route chat sender msg ("task:" +:+ "cancel" +:+ ":" +:+ id) w =
       (let '(r, w') := cancel_execute (MkTaskRequest (MkId id) chat) w in
        (match r with Ok _ => ack_ok "Cancelling task" | Err e => ack_failed e end, w')) /\
     route chat sender msg ("task:" +:+ "pause" +:+ ":" +:+ id) w =
       (let '(r, w') := pause_execute (MkTaskRequest (MkId id) chat) w in
        (match r with Ok _ => ack_ok "Task paused" | Err e => ack_failed e end, w')) /\
     route chat sender msg ("task:" +:+ "resume" +:+ ":" +:+ id) w =
       (let '(r, w') := resume_execute (MkTaskRequest (MkId id) chat) w in
        (match r with Ok _ => ack_ok "Task resumed" | Err e => ack_failed e end, w'))).
Proof.
  split; [done|]. split; [done|]. split; [done|]. intros id Hid.
  assert (str_empty id = false) as He by by destruct id.
  assert (forall verb, Forall (fun c => c <> ":"%char) (chars verb) ->
    route chat sender msg ("task:" +:+ verb +:+ ":" +:+ id) w = on_task chat (verb +:+ ":" +:+ id) w) as Hroute.
  { intros verb Hv. unfold route.
    change ("task:" +:+ verb +:+ ":" +:+ id) with ("task" +:+ ":" +:+ (verb +:+ ":" +:+ id)).
    rewrite split_colon_app by (by repeat constructor). by destruct (split_colon (verb +:+ ":" +:+ id)). }
  split_and!.
  - rewrite (Hroute "cancel") by (by repeat constructor). unfold on_task.
    rewrite split_colon_app, He by (by repeat constructor). done.
  - rewrite (Hroute "pause") by (by repeat constructor). unfold on_task.
    rewrite split_colon_app, He by (by repeat constructor). done.
  - rewrite (Hroute "resume") by (by repeat constructor). unfold on_task.
    rewrite split_colon_app, He by (by repeat constructor). done.
Qed.

End Theorems.

(** ** Witness *)

Import MemWorld.

#[export] Instance mem_bot_settings : BotSettingsRepository MemWorld.World := {
  bot_load := mreturn (error NotFound "no settings");
  bot_save _ := mreturn (Ok ())
}.

Lemma mem_answer_frames : AnswerFrames (W := MemWorld.World) w_answers.
Proof. split; try done. intros k d E g b. by destruct k; inversion E; subst d. Qed.

Lemma callback_answered_once_witness :
  let w' := (callback_dispatch (MkId 1) (MkId 7) (MkId 5) (MkId 9) "task:cancel:a" sample_world).2 in
  w_answers w' = [(MkId 9, "Cancelling task", false)] /\
  exists a, w_answers w' = w_answers sample_world ++ [(MkId 9, ack_text a, ack_as_alert a)] /\ ack_faithful a.
Proof.
  split; [vm_compute; reflexivity|].
  destruct (callback_answered_once w_answers mem_answer_frames (MkId 1) (MkId 7) (MkId 5) (MkId 9) "task:cancel:a" sample_world)
    as (a & H1 & H2 & _). exists a. by split.
Defined.

Lemma callback_payloads_route_witness :
  (route (MkId 1) (MkId 7) (MkId 5) ("task:" +:+ "pause" +:+ ":" +:+ "a") sample_world).1 = ack_ok "Task paused".
Proof.
  destruct (callback_payloads_route (MkId 1) (MkId 7) (MkId 5) sample_world) as (_ & _ & _ & H).
  destruct (H "a" ltac:(done)) as (_ & -> & _). vm_compute. reflexivity.
Defined.
