(* ===== verification/CommandDispatcher.v ===== *)
(** * The command surface: [presentation/command_dispatcher.cpp]

    Every command behind its permission: the table of commands and aliases, the gate, and
    the handlers, which parse their arguments and call one use case each. *)

From Stdlib Require Import Sorted.
From stdpp Require Import sorting.
From S2P Require Import Prelude CoreError Identifiers Authority UploadDestination Task Formatting Ports.
From S2P Require Import Progress Metrics Registry Environment TaskControl MirrorLeech DriveResources RssFeeds.
From S2P Require Import RssSubscription CommandParser Settings HtmlRenderer ShowStatus CallbackDispatcher.

Local Open Scope coro_scope.

(** The transfer pipelines behind [/mirror] and [/leech]: modules [MirrorLeech] and
    [Pipeline] model what they do; here only their results matter. *)
Class TransferUseCases (W : Type) := {
  mirror_url_execute : MirrorRequest -> M W (Result TaskId);
  leech_url_execute : LeechRequest -> M W (Result TaskId)
}.

(** [logs/cmlb.log] through [std::filesystem]: an [std::error_code] message or the answer. *)
Class LogFile (W : Type) := {
  log_exists : M W (string + bool);
  log_size : M W (string + Z)
}.

(** ** Arguments *)

(** [" \t\r\n"]. *)
Definition is_blank (c : ascii) : bool :=
  let n := code c in ((n =? 32) || (n =? 9) || (n =? 13) || (n =? 10))%N.

(** [split_first_token]: the first token and what follows it. *)
Definition split_first_token (text : string) : string * string :=
  match drop_while is_blank (chars text) with
  | [] => ("", "")
  | l =>
      let head := take_while (fun c => negb (is_blank c)) l in
      let rest := drop_while (fun c => negb (is_blank c)) l in
      (of_chars head, of_chars (drop_while is_blank rest))
  end.

(** ** The dispatcher *)

Definition Handler (W : Type) : Type := CommandRequest -> M W (Result unit).

(** [struct Entry]. *)
Record Entry (W : Type) := MkEntry { required : Permission; description : string; handler : Handler W }.
Arguments MkEntry {W} required description handler.
Arguments required {W} e.
Arguments description {W} e.
Arguments handler {W} e.

(** [aliases_]. *)
Definition aliases_ : list (string * string) :=
  [("m", "mirror"); ("qm", "qbmirror"); ("l", "leech"); ("ql", "qbleech")].

(** [aliases_.find(name)]. *)
Definition resolve_alias (name : string) : string :=
  match find_idx (fun p => bool_decide (p.1 = name)) aliases_ with
  | Some i => match aliases_ !! i with Some (_, canonical) => canonical | None => name end
  | None => name
  end.

(** The shortcuts of a command, sorted. *)
Definition command_aliases (name : string) : list string :=
  (filter (fun p => p.2 = name) aliases_).*1.

(** [kLogSizeCap]: 50 MiB. *)
Definition kLogSizeCap : Z := 50 * 1024 * 1024.

(** The label of a permission in the refusal. *)
Definition required_label (p : Permission) : string :=
  match p with
  | Anyone => "anyone"
  | User => "authorized user"
  | Admin => "admin (sudo)"
  | Owner => "owner"
  end.

Definition version_html (version : string) : string :=
  render_heading "cmlb" +:+ newline +:+ "<b>Version:</b> <code>" +:+ version +:+ "</code>".

Definition latency_html (ms : Z) : string :=
  render_heading "Pong" +:+ newline +:+ "<b>Latency:</b> <code>" +:+ fmt_int ms +:+ " ms</code>".

Section Dispatcher.
  Context {W : Type} `{!Clock W, !TaskRepository W, !UserSettingsRepository W, !BotSettingsRepository W,
    !RssFeedRepository W, !Downloaders W, !MessengerInterface W, !HasRegistry W, !SystemMetrics W,
    !DriveResourceOperations W, !TransferUseCases W, !LogFile W}.
  Context (authority : Authority) (version : string).

(** [if (!result) co_return std::unexpected(result.error()); co_return Result<void>{};]. *)
Definition forward {A} (m : M W (Result A)) : M W (Result unit) :=
  co_try result <- m;
  co_return Ok ().

(** [send_html] whose error is the command's. *)
Definition reply (chat : ChatId) (html : string) : M W (Result unit) := forward (send_html chat html).

(** A notice whose own failure is ignored, and the command's error. *)
Definition refuse (chat : ChatId) (html : string) (e : Result unit) : M W (Result unit) :=
  co_do send_html chat html;
  co_return e.

(** [require_arg] in front of a handler. *)
Definition require_arg (usage : string) (message : string) (k : Handler W) : Handler W := fun req =>
  if negb (str_empty (arguments req)) then k req
  else refuse (cr_chat req) usage (error InvalidArgument message).

(** [mirror], [qbmirror]. *)
Definition mirror_handler (use_qbittorrent : bool) : Handler W := fun req =>
  forward (mirror_url_execute
    (MkMirrorRequest (arguments req) (sender req) (cr_chat req) (source_message req) use_qbittorrent None)).

(** [leech], [qbleech]. *)
Definition leech_handler (use_qbittorrent : bool) : Handler W := fun req =>
  forward (leech_url_execute
    (MkLeechRequest (arguments req) (sender req) (cr_chat req) (source_message req) use_qbittorrent)).

(** [clone], [count], [del]. *)
Definition clone_handler : Handler W := fun req =>
  forward (clone_execute (MkDriveRequest (arguments req) (sender req) (cr_chat req))).
Definition count_handler : Handler W := fun req =>
  forward (count_execute (MkDriveRequest (arguments req) (sender req) (cr_chat req))).
Definition del_handler : Handler W := fun req =>
  forward (delete_execute (MkDriveRequest (arguments req) (sender req) (cr_chat req))).

(** [cancel], [pause], [resume]: the first token of the arguments is the task id. *)
Definition task_handler (name : string) (execute : TaskRequest -> M W (Result unit)) : Handler W := fun req =>
  let '(head, _) := split_first_token (arguments req) in
  if str_empty head then
    refuse (cr_chat req) (render_usage name "<task_id>") (error InvalidArgument ("/" +:+ name +:+ " requires a task id"))
  else forward (execute (MkTaskRequest (MkId head) (cr_chat req))).

(** [cancelall]. *)
Definition cancelall_handler : Handler W := fun req => forward (cancel_all (cr_chat req)).

(** [status]. *)
Definition status_handler : Handler W := fun req =>
  let '(head, _) := split_first_token (arguments req) in
  forward (show_status_execute
    (MkStatusRequest (sender req) (cr_chat req) (if str_empty head then None else Some (MkId head))
       (can_run authority (sender req) (cr_chat req) Admin))).

(** [settings]: the mutator leaves the record alone. *)
Definition settings_handler : Handler W := fun req =>
  co_try settings <- update_user_settings (sender req) (Some (fun r => r));
  forward (send_html_with_keyboard (cr_chat req) (render_user_settings settings) settings_keyboard).

(** [botsettings]. *)
Definition botsettings_handler : Handler W := fun req =>
  co_try settings <- update_bot_settings (Some (fun r => r));
  forward (send_html_with_keyboard (cr_chat req) (render_bot_settings settings) [[MkButton "Close" "close"]]).

(** [start]. *)
Definition start_handler : Handler W := fun req => reply (cr_chat req) (render_greeting "").

(** [stats]. *)
Definition stats_handler : Handler W := fun req =>
  co_try report <- show_stats_execute;
  reply (cr_chat req) (render_stats report).

(** [version]. *)
Definition version_handler : Handler W := fun req => reply (cr_chat req) (version_html version).

(** [ping]. *)
Definition ping_handler : Handler W := fun req =>
  co_await start <- steady_now;
  co_try sent <- send_html (cr_chat req) (render_heading "Pong");
  co_await stop <- steady_now;
  forward (edit_html (cr_chat req) sent (latency_html (Z.quot (stop - start) 1000000))).

(** [log]. *)
Definition log_handler : Handler W := fun req =>
  co_await exists_ <- log_exists;
  match exists_ with
  | inr true =>
      co_await bytes <- log_size;
      match bytes with
      | inl msg =>
          refuse (cr_chat req) (render_notice "Log Unavailable" ("Could not inspect logs/cmlb.log: " +:+ msg))
            (error Io ("log stat failed: " +:+ msg))
      | inr bytes =>
          if bytes >? kLogSizeCap then
            refuse (cr_chat req)
              (render_notice "Log Too Large"
                 ("logs/cmlb.log is " +:+ format_bytes bytes +:+ ", which is over the 50 MiB send limit."))
              (error InvalidArgument "log file too large to send")
          else forward (send_file (cr_chat req) "logs/cmlb.log" "cmlb.log" None)
      end
  | _ =>
      refuse (cr_chat req) (render_notice "Log Unavailable" "logs/cmlb.log was not found.")
        (error Io "log file not found: logs/cmlb.log")
  end.

(** [rss add]. *)
Definition rss_add_handler (url : string) (req : CommandRequest) : M W (Result unit) :=
  if str_empty url then
    refuse (cr_chat req) (render_usage "rss add" "<url>") (error InvalidArgument "/rss add requires a url")
  else
    co_try id <- rss_add (MkFeed 0 url url (cr_chat req) "" "" "" None true 0);
    reply (cr_chat req)
      (render_success "RSS Subscription Added" ("Feed id " +:+ fmt_int id +:+ " is now active.")).

(** [rss list]. *)
Definition rss_list_handler (req : CommandRequest) : M W (Result unit) :=
  co_try feeds <- rss_list_for_chat (cr_chat req);
  reply (cr_chat req) (render_rss_subscriptions feeds).

(** [rss remove]. *)
Definition rss_remove_handler (tail : string) (req : CommandRequest) : M W (Result unit) :=
  let '(head, _) := split_first_token tail in
  if str_empty head then
    refuse (cr_chat req) (render_usage "rss remove" "<id>") (error InvalidArgument "/rss remove requires a feed id")
  else
    match stoll head with
    | None => refuse (cr_chat req) (render_notice "RSS Error" "Feed id must be a number.")
                (error InvalidArgument "feed id is not a number")
    | Some feed_id =>
        co_try removed <- rss_remove feed_id (sender req) (cr_chat req);
        reply (cr_chat req) (render_success "RSS Subscription Removed" "Feed will no longer be polled.")
    end.

(** [rss]. *)
Definition rss_handler : Handler W := fun req =>
  let '(sub, tail) := split_first_token (arguments req) in
  if bool_decide (sub = "add") then rss_add_handler tail req
  else if bool_decide (sub = "list") then rss_list_handler req
  else if bool_decide (sub = "remove") || bool_decide (sub = "delete") || bool_decide (sub = "del")
  then rss_remove_handler tail req
  else refuse (cr_chat req) (render_usage "rss" "add <url> | list | remove <id>")
         (error InvalidArgument "unknown rss subcommand").

(** *** [/help] *)

(** The order of the listing: permission, then name. *)
Definition description_le (a b : CommandDescription) : Prop :=
  permission_level (cd_permission a) < permission_level (cd_permission b) \/
  (cd_permission a = cd_permission b /\ str_ltb (cd_name b) (cd_name a) = false).

#[global] Instance description_le_dec a b : Decision (description_le a b).
Proof. unfold description_le. apply _. Defined.

(** The shortcuts after the description. *)
Definition alias_note (name : string) : string :=
  match command_aliases name with
  | [] => ""
  | l => " (aliases: " +:+ join_comma (map (fun a => "/" +:+ a) l) +:+ ")"
  end.

(** The descriptions the caller may see, in order; [commands] holds the name, the
    permission and the description of each registered command. *)
Definition help_descriptions (commands : list CommandDescription) (user : UserId) (chat : ChatId) : list CommandDescription :=
  merge_sort description_le
    (map (fun c => MkDescription (cd_name c) (cd_description c +:+ alias_note (cd_name c)) (cd_permission c))
       (filter (fun c => can_run authority user chat (cd_permission c) = true) commands)).

Definition help_handler (commands : list CommandDescription) : Handler W := fun req =>
  reply (cr_chat req) (render_help (help_descriptions commands (sender req) (cr_chat req))).

(** *** [register_builtins_] *)

Definition builtins_with (help : Handler W) : list (string * Entry W) :=
  [("mirror", MkEntry User "Download a URL/magnet via aria2 and upload to GDrive/rclone."
      (require_arg (render_usage "mirror" "<url|magnet>") "/mirror requires a url" (mirror_handler false)));
   ("qbmirror", MkEntry User "Mirror via qBittorrent (use for torrents you intend to seed)."
      (require_arg (render_usage "qbmirror" "<magnet|torrent_url>") "/qbmirror requires a magnet/url" (mirror_handler true)));
   ("leech", MkEntry User "Download via aria2 and upload back to this chat."
      (require_arg (render_usage "leech" "<url|magnet>") "/leech requires a url" (leech_handler false)));
   ("qbleech", MkEntry User "Leech via qBittorrent (use for torrents you intend to seed)."
      (require_arg (render_usage "qbleech" "<magnet|torrent_url>") "/qbleech requires a magnet/url" (leech_handler true)));
   ("clone", MkEntry User "Server-side copy a GDrive file or folder to the configured parent."
      (require_arg (render_usage "clone" "<drive_url>") "/clone requires a drive url" clone_handler));
   ("count", MkEntry User "Recursively count files/folders/bytes in a GDrive resource."
      (require_arg (render_usage "count" "<drive_url>") "/count requires a drive url" count_handler));
   ("del", MkEntry Admin "Delete a GDrive file or folder (trash, recoverable for 30 days)."
      (require_arg (render_usage "del" "<drive_url>") "/del requires a drive url" del_handler));
   ("cancel", MkEntry User "Cancel a running task by id (see /status for ids)." (task_handler "cancel" cancel_execute));
   ("cancelall", MkEntry Admin "Cancel every running task in this chat." cancelall_handler);
   ("pause", MkEntry User "Pause a running task by id." (task_handler "pause" pause_execute));
   ("resume", MkEntry User "Resume a paused task by id." (task_handler "resume" resume_execute));
   ("status", MkEntry User "Show active tasks, or one task by id." status_handler);
   ("settings", MkEntry Anyone "View / change your per-user upload preferences." settings_handler);
   ("botsettings", MkEntry Admin "View / change bot-wide configuration (admins only)." botsettings_handler);
   ("help", MkEntry Anyone "Show this list of commands." help);
   ("start", MkEntry Anyone "Greet the bot and learn what it can do." start_handler);
   ("stats", MkEntry User "CPU / RAM / disk usage and bot uptime." stats_handler);
   ("version", MkEntry Anyone "Show the running cmlb build version." version_handler);
   ("ping", MkEntry Anyone "Round-trip latency check against Telegram." ping_handler);
   ("log", MkEntry Owner "Upload the current cmlb.log file to this chat (owner only)." log_handler);
   ("rss", MkEntry User "Manage RSS feeds (subcommands: add, list, remove)." rss_handler)].

(** What [help_handler] reads of [commands_]. *)
Definition describe (c : string * Entry W) : CommandDescription := MkDescription c.1 (description c.2) (required c.2).

Definition command_list : list CommandDescription := describe <$> builtins_with (fun _ => co_return Ok ()).

(** [commands_]. *)
Definition builtins : list (string * Entry W) := builtins_with (help_handler command_list).

(** [commands_.find(name)]. *)
Definition find_command (name : string) : option (Entry W) :=
  snd <$> (find_idx (fun p => bool_decide (p.1 = name)) builtins ≫= (builtins !!.)).

(** [CommandDispatcher::dispatch]. *)
Definition dispatch (request : CommandRequest) : M W (Result unit) :=
  let resolved_name := resolve_alias (command request) in
  match find_command resolved_name with
  | None =>
      refuse (cr_chat request)
        (render_notice "Unknown Command"
           ("/" +:+ truncate_for_display resolved_name 64 +:+
            " is not registered. Use /help to see available commands."))
        (error InvalidArgument ("Unknown command: " +:+ resolved_name))
  | Some entry =>
      if negb (can_run authority (sender request) (cr_chat request) (required entry)) then
        refuse (cr_chat request)
          (render_notice "Permission Denied"
             ("/" +:+ resolved_name +:+ " requires " +:+ required_label (required entry) +:+ " access."))
          (error PermissionDenied ("Sender lacks permission for command: " +:+ resolved_name))
      else handler entry request
  end.

End Dispatcher.

(** ** Abstract specification: the permission table of [docs/command_reference.md] *)

Definition documented_permission (name : string) : option Permission :=
  if bool_decide (name ∈ ["start"; "help"; "ping"; "settings"; "version"]) then Some Anyone
  else if bool_decide (name ∈ ["mirror"; "qbmirror"; "leech"; "qbleech"; "clone"; "count"; "cancel"; "pause"; "resume";
                                "status"; "stats"; "rss"]) then Some User
  else if bool_decide (name ∈ ["del"; "cancelall"; "botsettings"]) then Some Admin
  else if bool_decide (name = "log") then Some Owner
  else None.

(** ** Lemmas *)

(** The names and permissions of the registered commands. *)
Definition command_table : list (string * Permission) :=
  [("mirror", User); ("qbmirror", User); ("leech", User); ("qbleech", User); ("clone", User); ("count", User);
   ("del", Admin); ("cancel", User); ("cancelall", Admin); ("pause", User); ("resume", User); ("status", User);
   ("settings", Anyone); ("botsettings", Admin); ("help", Anyone); ("start", Anyone); ("stats", User);
   ("version", Anyone); ("ping", Anyone); ("log", Owner); ("rss", User)].

Lemma command_table_documented name p : (name, p) ∈ command_table <-> documented_permission name = Some p.
Proof.
  split.
  - assert (Forall (fun c => documented_permission c.1 = Some c.2) command_table) as H
      by (apply (bool_decide_unpack _); vm_compute; exact I).
    rewrite Forall_forall in H. apply (H (name, p)).
  - assert (forall l q, bool_decide (Forall (fun n => (n, q) ∈ command_table) l) = true -> name ∈ l -> (name, q) ∈ command_table) as H.
    { intros l q Hl. apply bool_decide_eq_true in Hl. rewrite Forall_forall in Hl. apply Hl. }
    unfold documented_permission. repeat case_bool_decide; intros [= <-]; subst;
      first [eapply H; [|eassumption]; vm_compute; reflexivity | apply (bool_decide_unpack _); vm_compute; exact I].
Qed.

Lemma find_idx_lookup {A} (P : A -> bool) l :
  match (find_idx P l ≫= (l !!.)) with
  | Some x => x ∈ l /\ P x = true
  | None => Forall (fun x => P x = false) l
  end.
Proof.
  destruct (find_idx P l) as [i|] eqn:E; simpl; [|by apply find_idx_None].
  apply find_idx_Some in E as (x & Hx & HP & _). rewrite Hx. split; [by eapply list_elem_of_lookup_2|done].
Qed.

#[export] Instance description_le_trans : Transitive description_le.
Proof.
  intros a b c [H1|[H1 H2]] [H3|[H3 H4]]; unfold description_le.
  - left. lia.
  - left. by rewrite <-H3.
  - left. by rewrite H1.
  - right. split; [congruence|]. by apply (str_ge_trans _ _ _ H2).
Qed.

#[export] Instance description_le_total : Total description_le.
Proof.
  intros a b. unfold description_le.
  destruct (Z.lt_trichotomy (permission_level (cd_permission a)) (permission_level (cd_permission b))) as [H|[H|H]]; auto.
  assert (cd_permission a = cd_permission b) as E by (by destruct (cd_permission a), (cd_permission b)).
  destruct (str_ge_total (cd_name a) (cd_name b)) as [Hs|Hs]; [left|right]; right; by split.
Qed.

Section Gate.
  Context {W : Type} `{!Clock W, !TaskRepository W, !UserSettingsRepository W, !BotSettingsRepository W,
    !RssFeedRepository W, !Downloaders W, !MessengerInterface W, !HasRegistry W, !SystemMetrics W,
    !DriveResourceOperations W, !TransferUseCases W, !LogFile W}.
  Context (authority : Authority) (version : string).

(** The registered commands carry the documented permissions, and no other is registered. *)
Lemma builtins_table : (fun c => (c.1, required c.2)) <$> builtins authority version = command_table.
Proof. reflexivity. Qed.

Lemma command_list_table :
  (fun c => (cd_name c, cd_permission c)) <$> command_list authority version = command_table.
Proof. reflexivity. Qed.

Lemma find_command_documented name :
  match find_command authority version name with
  | Some e => documented_permission name = Some (required e)
  | None => documented_permission name = None
  end.
Proof.
  unfold find_command. pose proof (find_idx_lookup (fun p => bool_decide (p.1 = name)) (builtins authority version)) as H.
  destruct (_ ≫= _) as [[n e]|]; simpl.
  - destruct H as [Hin Hn]. apply bool_decide_eq_true in Hn as <-. apply command_table_documented.
    rewrite <-builtins_table. by apply (list_elem_of_fmap_2 (fun c => (c.1, required c.2)) _ (n, e)).
  - destruct (documented_permission name) as [p|] eqn:E; [|done]. apply command_table_documented in E.
    rewrite <-builtins_table in E. apply list_elem_of_fmap in E as ([n e] & [= -> ->] & Hin).
    rewrite Forall_forall in H. specialize (H _ Hin). by apply bool_decide_eq_false in H.
Qed.

Lemma refuse_effect {B} (v : W -> B) chat html e w :
  (forall c h, Preserves v (send_html c h)) -> (refuse chat html e w).1 = e /\ v (refuse chat html e w).2 = v w.
Proof.
  intros Hv. pose proof (preserves (m := send_html chat html) (v := v) w) as H.
  unfold refuse, mbind, mreturn. by destruct (send_html chat html w).
Qed.
End Gate.


(** The world that no call has touched: what a refused command may change. *)
Section Theorems.
  Context {W : Type} `{!Clock W, !TaskRepository W, !UserSettingsRepository W, !BotSettingsRepository W,
    !RssFeedRepository W, !Downloaders W, !MessengerInterface W, !HasRegistry W, !SystemMetrics W,
    !DriveResourceOperations W, !TransferUseCases W, !LogFile W}.
  Context (authority : Authority) (version : string).

(** Every command is behind its documented permission: a command runs its handler
    exactly when [docs/command_reference.md] lists it and the sender's level reaches the
    documented tier; an unknown command and a missing permission only send a notice, so
    that whatever sending messages leaves alone is left alone, and give InvalidArgument
    and PermissionDenied. *)
Theorem dispatch_gate request w :
  let name := resolve_alias (command request) in
  match documented_permission name with
  | Some p =>
      if can_run authority (sender request) (cr_chat request) p
      then exists e, find_command authority version name = Some e /\ required e = p /\
             dispatch authority version request w = handler e request w
      else (dispatch authority version request w).1 =
             error PermissionDenied ("Sender lacks permission for command: " +:+ name) /\
           forall B (v : W -> B), (forall c h, Preserves v (send_html c h)) ->
             v (dispatch authority version request w).2 = v w
  | None => (dispatch authority version request w).1 = error InvalidArgument ("Unknown command: " +:+ name) /\
            forall B (v : W -> B), (forall c h, Preserves v (send_html c h)) ->
              v (dispatch authority version request w).2 = v w
  end.
Proof.
  intros name. pose proof (find_command_documented authority version name) as H. unfold dispatch. fold name.
  destruct (find_command authority version name) as [e|]; rewrite H.
  - destruct (can_run _ _ _ (required e)); simpl; [by exists e|]. split.
    + by apply (refuse_effect (fun _ => ())).
    + intros B v Hv. by apply (refuse_effect v).
  - split; [by apply (refuse_effect (fun _ => ()))|]. intros B v Hv. by apply (refuse_effect v).
Qed.

(** The command list is the truth about the gate: [/help] lists, each once and ordered by
    permission and then by name, exactly the commands that the caller may run. *)
Theorem help_lists_runnable user chat :
  let l := help_descriptions authority (command_list authority version) user chat in
  NoDup (cd_name <$> l) /\ StronglySorted description_le l /\
  forall name p, (exists c, c ∈ l /\ cd_name c = name /\ cd_permission c = p) <->
    documented_permission name = Some p /\ can_run authority user chat p = true.
Proof.
  intros l. set (all := command_list authority version) in *.
  assert (l ≡ₚ map (fun c => MkDescription (cd_name c) (cd_description c +:+ alias_note (cd_name c)) (cd_permission c))
                 (filter (fun c => can_run authority user chat (cd_permission c) = true) all)) as Hp
    by apply merge_sort_Permutation.
  split_and!.
  - rewrite Hp, <-list_fmap_compose. eapply sublist_NoDup; [|apply fmap_sublist, sublist_filter].
    assert (((fun c : CommandDescription => cd_name (MkDescription (cd_name c) (cd_description c +:+ alias_note (cd_name c)) (cd_permission c)))
      <$> all) = command_table.*1) as E by reflexivity.
    unfold compose. rewrite E. apply (bool_decide_unpack _). vm_compute. exact I.
  - apply (StronglySorted_merge_sort description_le).
  - intros name p. rewrite <-command_table_documented, <-(command_list_table authority version). fold all.
    setoid_rewrite Hp. setoid_rewrite list_elem_of_fmap. setoid_rewrite list_elem_of_filter. split.
    + intros (c & (c0 & -> & Hc & Hin) & <- & <-). split; [|done]. by exists c0.
    + intros [(c & [= -> ->] & Hin) Hc]. eexists. split; [by exists c|done].
Qed.
End Theorems.

(** ** Witnesses *)

Import MemWorld.

#[export] Instance mem_transfers : TransferUseCases MemWorld.World := {
  mirror_url_execute r := fun w => (Ok (MkId "new"), log_sent (mr_chat r, mr_url r) w);
  leech_url_execute r := fun w => (Ok (MkId "new"), log_sent (lr_chat r, lr_url r) w)
}.

#[export] Instance mem_log : LogFile MemWorld.World := {
  log_exists := mreturn (inr true);
  log_size := mreturn (inr 1000)
}.

#[export] Instance mem_drive : DriveResourceOperations MemWorld.World := {
  drive_copy id _ := mreturn (Ok id);
  drive_count _ := mreturn (Ok (MkCountResult 1 1 1));
  drive_remove _ := mreturn (Ok ());
  target_folder_id := "folder"
}.

#[export] Instance mem_feeds : RssFeedRepository MemWorld.World := {
  feeds_list_enabled := mreturn (Ok []);
  feeds_find _ := mreturn (Ok None);
  feeds_save f := mreturn (Ok f);
  feeds_update_state _ _ _ := mreturn (Ok ());
  feeds_remove _ := mreturn (Ok ())
}.

(** The owner is user 1; chat 5 is authorized. *)
Definition sample_authority : Authority := MkAuthority (MkId 1) [] [MkId 5].

Definition sample_command (name args : string) (user chat : Z) : CommandRequest :=
  MkCommandRequest name args ("/" +:+ name +:+ " " +:+ args) (MkId user) (MkId chat) (MkId 3).

(** A user of the authorized chat may cancel, a stranger may not, and only the owner gets the log. *)
Example dispatch_runs :
  w_calls (dispatch sample_authority "1" (sample_command "cancel" "a" 7 1) sample_world).2 = [] /\
  (dispatch sample_authority "1" (sample_command "cancel" "a" 1 1) sample_world).1 = Ok () /\
  w_sent (dispatch sample_authority "1" (sample_command "m" "http://h/f" 7 5) sample_world).2 = [(MkId 5, "http://h/f")] /\
  (dispatch sample_authority "1" (sample_command "log" "" 7 5) sample_world).1 =
    error PermissionDenied "Sender lacks permission for command: log".
Proof. vm_compute. auto. Qed.

Lemma dispatch_gate_witness :
  w_tasks (dispatch sample_authority "1" (sample_command "cancelall" "" 7 5) sample_world).2 = w_tasks sample_world.
Proof.
  pose proof (dispatch_gate sample_authority "1" (sample_command "cancelall" "" 7 5) sample_world) as H.
  apply (proj2 H). done.
Defined.
