(* ===== verification/Runtime.v ===== *)
(** * Logger, executor, signals, deadlines: [core/logger.cpp], [core/executor.cpp],
    [core/cancellation], [system/signal_handler.cpp]

    What the program adds to spdlog and Boost.Asio, which are parameters. *)

From S2P Require Import Prelude CoreError ConfigData Json Configuration.

Local Open Scope coro_scope.

(** ** Logger *)

(** [spdlog::level::level_enum]. *)
Inductive SpdLevel := LTrace | LDebug | LInfo | LWarn | LErr | LCritical | LOff.

(** [parse_log_level]. *)
Definition parse_log_level (text : string) : Result SpdLevel :=
  if String.eqb text "trace" then Ok LTrace
  else if String.eqb text "debug" then Ok LDebug
  else if String.eqb text "info" then Ok LInfo
  else if String.eqb text "warn" || String.eqb text "warning" then Ok LWarn
  else if String.eqb text "error" || String.eqb text "err" then Ok LErr
  else if String.eqb text "critical" || String.eqb text "fatal" then Ok LCritical
  else if String.eqb text "off" then Ok LOff
  else error InvalidArgument ("unknown log level: " +:+ text).

(** [struct LogConfig], the directory, the level, the console sink, and the rotation. *)
Record LogConfig := MkLogConfig {
  lg_logs_dir : string; lg_level : string; lg_console : bool; lg_max_bytes : Z; lg_max_files : Z
}.

(** [init_logger] of [main.cpp]: the rest is the defaults. *)
Definition log_config_of (c : LoggingConfig) : LogConfig :=
  MkLogConfig (lc_logs_dir c) (lc_level c) (lc_console c) (10 * 1024 * 1024) 5.

(** An exception: an [std::exception] with its text, or another. *)
Inductive Thrown := StdThrown (what : string) | OtherThrown.

(** What [initialize] uses of the file system and of spdlog; each call of spdlog can throw. *)
Class Spdlog (W : Type) := {
  create_logs_dir : string -> M W (option string);
  spdlog_shutdown : M W unit;
  init_thread_pool : Z -> Z -> M W (option Thrown);
  rotating_file_sink : string -> Z -> Z -> M W (option Thrown);
  stderr_color_sink : M W (option Thrown);
  install_logger : SpdLevel -> M W (option Thrown);
  flush_default : M W (option Thrown)
}.

Definition kThreadPoolQueue : Z := 8192.
Definition kThreadPoolThreads : Z := 1.

Section Logger.
  Context {W : Type} `{spd : !Spdlog W}.

(** The catch clauses of [initialize]. *)
Definition init_failed (t : Thrown) : Result unit :=
  match t with
  | StdThrown what => error Internal ("spdlog initialization failed: " +:+ what)
  | OtherThrown => error Internal "spdlog initialization failed: unknown exception"
  end.

(** One call that can throw, and the rest. *)
Definition or_failed (m : M W (option Thrown)) (k : M W (Result unit)) : M W (Result unit) :=
  co_await thrown <- m; match thrown with Some t => co_return init_failed t | None => k end.

(** [Logger::initialize]. *)
Definition initialize (config : LogConfig) : M W (Result unit) :=
  match parse_log_level (lg_level config) with
  | Err e => co_return Err e
  | Ok level =>
      co_await ec <- create_logs_dir (lg_logs_dir config);
      match ec with
      | Some what => co_return error FileSystem ("failed to create logs dir '" +:+ lg_logs_dir config +:+ "': " +:+ what)
      | None =>
          co_do spdlog_shutdown;
          or_failed (init_thread_pool kThreadPoolQueue kThreadPoolThreads)
            (or_failed (rotating_file_sink (lg_logs_dir config +:+ "/cmlb.log") (lg_max_bytes config) (lg_max_files config))
               (or_failed (if lg_console config then stderr_color_sink else co_return None)
                  (or_failed (install_logger level) (co_return Ok ()))))
      end
  end.

(** [Logger::shutdown]; what is thrown is dropped. *)
Definition logger_shutdown : M W unit := co_await thrown <- flush_default; spdlog_shutdown.

End Logger.

(** The levels that the configuration accepts are the ones that the logger knows. *)
Lemma log_levels_agree text : has_value (parse_log_level text) = log_level_known text.
Proof.
  unfold parse_log_level, log_level_known.
  repeat (match goal with |- context [String.eqb text ?s] => destruct (String.eqb_spec text s) as [->|] end; [by vm_compute|]; cbn [orb]).
  symmetry. apply bool_decide_eq_false. rewrite !elem_of_cons, elem_of_nil. naive_solver.
Qed.

(** ** Executor *)

(** [resolve_worker_count], and the count that [main] asks for. *)
Definition resolve_worker_count (requested hardware : Z) : Z :=
  if negb (requested =? 0) then requested else if hardware =? 0 then 2 else hardware.
Definition main_worker_count (hardware : Z) : Z := Z.max 4 (2 * hardware).

(** [io_context::run()]: an exception of a handler comes out of it. *)
Class IoContext (W : Type) := run_io : M W (option Thrown).

(** The loop of a worker: a handler's exception is swallowed, and the loop goes on until [run]
    returns.  [false] is a loop that still runs when the fuel is out. *)
Fixpoint worker_loop {W : Type} `{io : !IoContext W} (fuel : nat) : M W bool :=
  match fuel with
  | O => co_return false
  | S fuel => co_await thrown <- run_io; match thrown with None => co_return true | Some _ => worker_loop fuel end
  end.

(** The executor's members: [stopped_], the work guard, the state of the context, and the workers
    that can be joined. *)
Record ExecutorState := MkExecutor { stopped : bool; guard_held : bool; context_stopped : bool; joinable : list nat }.

Definition start_executor (requested hardware : Z) : ExecutorState :=
  MkExecutor false true false (seq 0 (Z.to_nat (resolve_worker_count requested hardware))).

(** The outcome of [stop]: the destructor of a thread that is still joinable ends the process. *)
Inductive StopOutcome := Stopped (s : ExecutorState) | Terminated.

(** [stop] on a thread, a worker of the executor or not; a worker cannot join itself, which throws,
    and the exception is swallowed. *)
Definition stop (caller : option nat) (s : ExecutorState) : StopOutcome :=
  if stopped s then Stopped s
  else
    let left := filter (fun w => caller = Some w) (joinable s) in
    match left with
    | [] => Stopped (MkExecutor true false true [])
    | _ => Terminated
    end.

(** [stop] is idempotent, and ends the process when a worker calls it first. *)
Lemma stop_twice caller1 caller2 s s' : stop caller1 s = Stopped s' -> stop caller2 s' = Stopped s'.
Proof.
  unfold stop at 1. destruct (stopped s) eqn:E; [intros [= <-]; unfold stop; by rewrite E|].
  destruct (filter _ _); [|done]. by intros [= <-].
Qed.

Lemma stop_by_worker w s : stopped s = false -> w ∈ joinable s -> stop (Some w) s = Terminated.
Proof.
  intros Hs Hw. unfold stop. rewrite Hs. destruct (filter _ _) as [|x l] eqn:E; [|done].
  assert (w ∈ filter (fun x => Some w = Some x) (joinable s)) as H by (by apply list_elem_of_filter). rewrite E in H. by apply not_elem_of_nil in H.
Qed.

(** ** Signals *)

Inductive PosixSignal := SIGINT | SIGTERM | SIGHUP.
Definition signal_number (s : PosixSignal) : Z := match s with SIGINT => 2 | SIGTERM => 15 | SIGHUP => 1 end.

(** The set that the constructor registers. *)
Definition handled_signals : list PosixSignal := [SIGINT; SIGTERM; SIGHUP].

(** [async_wait] on the set, and [emit] of the shutdown signal. *)
Class SignalSet (W : Type) := {
  wait_signal : M W (option PosixSignal);
  emit_shutdown : M W unit
}.

(** [SignalHandler::wait_for_signal]: an error of the wait is -1. *)
Definition wait_for_signal {W : Type} `{sigs : !SignalSet W} : M W Z :=
  co_await signum <- wait_signal;
  match signum with
  | None => co_return -1
  | Some s => co_do emit_shutdown; co_return (signal_number s)
  end.

(** ** Stop sources *)

Inductive CancellationType := CancelTerminal | CancelPartial | CancelTotal | CancelAll.

(** [StopSource]: the handler that is connected to the slot of its signal, if any.  [get_token] gives
    out the one slot of the signal, and connecting to it replaces what was connected before. *)
Record StopSource (H : Type) := MkStopSource { slot : option H }.
Arguments MkStopSource {H} slot.
Arguments slot {H} s.
Definition new_stop_source {H : Type} : StopSource H := MkStopSource None.
Definition get_token {H : Type} (h : H) (s : StopSource H) : StopSource H := MkStopSource (Some h).

(** [StopSource::request_stop]: the handlers that run, with the type they are given. *)
Definition source_request_stop {H : Type} (type : CancellationType) (s : StopSource H) : list (H * CancellationType) :=
  match slot s with Some h => [(h, type)] | None => [] end.

(** However many handlers were given the token, one hears of the stop: the last. *)
Lemma stop_reaches_last {H : Type} (hs : list H) type :
  source_request_stop type (foldl (fun s h => get_token h s) new_stop_source hs) = (fun h => (h, type)) <$> option_list (last hs).
Proof.
  induction hs as [|h hs _] using rev_ind; [done|]. by rewrite foldl_app, last_snoc.
Qed.

(** [signal_set::add] and [async_wait], which throw what they report. *)
Class RawSignals (W : Type) := {
  add_signal : Z -> M W (option Thrown);
  wait_any_signal : M W (option Thrown)
}.

(** [cancel_on_signal]: it returns ([None]) at the first signal, or throws. *)
Fixpoint cancel_on_signal {W : Type} `{raw : !RawSignals W} (signals : list Z) : M W (option Thrown) :=
  match signals with
  | [] => wait_any_signal
  | s :: rest => co_await thrown <- add_signal s; match thrown with Some t => co_return Some t | None => cancel_on_signal rest end
  end.

(** ** Deadlines *)

(** How the operation ends before its timer, if it does. *)
Inductive OpEnd (A : Type) := OpReturned (r : Result A) | OpThrew (t : Thrown) | OpUnfinished.
Arguments OpReturned {A} r.
Arguments OpThrew {A} t.
Arguments OpUnfinished {A}.

(** [with_timeout]: the combinator takes the first of the two that succeeds; an operation that
    throws leaves the timer, which always succeeds. *)
Definition with_timeout {A} (op : OpEnd A) (timeout_ms : Z) : Result A :=
  match op with
  | OpReturned r => r
  | OpThrew _ | OpUnfinished => error Timeout ("operation exceeded " +:+ fmt_int timeout_ms +:+ "ms deadline")
  end.
