(* ===== verification/Main.v ===== *)
(** * The program: [main.cpp]

    The command line, the start of the process up to the long-lived coroutines, the wiring of
    Telegram's updates to the dispatchers, and the shutdown.  The components are the ones of the
    other files; the log lines are left out. *)

From S2P Require Import Prelude CoreError Identifiers Authority UploadDestination Ports ConfigData Json Configuration Database SqlitePool.
From S2P Require Import Registry Environment Metrics MirrorLeech TaskControl DriveResources RssFeeds RssDocument RssFeedPoller Settings SchemaMigrator.
From S2P Require Import Runtime TelegramGateway CommandParser ShowStatus CallbackDispatcher CommandDispatcher.

Local Open Scope coro_scope.

(** ** Command line *)

(** [struct CliArgs]. *)
Record CliArgs := MkCliArgs {
  show_version : bool;
  show_help : bool;
  validate_only : bool;
  migrate_only : bool;
  config_path : string
}.

Definition default_cli : CliArgs := MkCliArgs false false false false "config.json".

(** The loop of [parse_cli] over the arguments after the program's name. *)
Fixpoint parse_args (raw : list string) (args : CliArgs) : Result CliArgs :=
  match raw with
  | [] => Ok args
  | a :: rest =>
      let '(MkCliArgs v h c m path) := args in
      if String.eqb a "--version" then parse_args rest (MkCliArgs true h c m path)
      else if String.eqb a "--help" || String.eqb a "-h" then parse_args rest (MkCliArgs v true c m path)
      else if String.eqb a "--migrate-only" then parse_args rest (MkCliArgs v h c true path)
      else if String.eqb a "--validate-config" then
        match rest with
        | [] => error InvalidArgument "--validate-config requires a path argument"
        | path :: rest => parse_args rest (MkCliArgs v h true m path)
        end
      else if starts_with a "--" then error InvalidArgument ("unknown option: " +:+ a)
      else parse_args rest (MkCliArgs v h c m a)
  end.

(** [parse_cli]. *)
Definition parse_cli (raw : list string) : Result CliArgs := parse_args raw default_cli.

(** [print_usage]. *)
Definition usage : string := "Usage: cmlb [OPTIONS] [CONFIG_PATH]

CMLB - Production-grade C++23 Telegram mirror/leech bot.

Arguments:
  CONFIG_PATH               Path to config.json (default: ./config.json)

Options:
  --version                 Print version and exit.
  --help, -h                Print this help and exit.
  --validate-config <PATH>  Load and validate the config, printing every
                            error if any, then exit. No bot is started.
  --migrate-only            Open the database, apply pending migrations,
                            then exit. Useful for deployment automation.

Environment variables override matching config fields. The set is
documented in docs/configuration_reference.md.
".

(** [operator<<] of a path: [std::quoted]. *)
Definition dquote : ascii := "034"%char.
Definition quoted (s : string) : string :=
  of_chars ([dquote] ++ (chars s ≫= (fun c => if bool_decide (c = dquote) || bool_decide (c = "\"%char) then ["\"%char; c] else [c])) ++ [dquote]).

(** ** Start *)

(** [Logger::initialize]. *)
Class LoggerInit (W : Type) := logger_initialize : LoggingConfig -> M W (Result unit).

(** [init_logger]. *)
#[global] Instance init_logger {W : Type} `{spd : !Spdlog W} : LoggerInit W := fun cfg => initialize (log_config_of cfg).

(** How the process goes on: it ends with a status and what it wrote to the two streams, or its
    coroutines run with a configuration and an authority. *)
Inductive Outcome := Exit (status : Z) (out err : string) | Running (config : AppConfig) (authority : Authority).

Definition EXIT_SUCCESS : Z := 0.
Definition EXIT_FAILURE : Z := 1.

(** The settings of the first run. *)
Definition seeded (t : TelegramConfig) (s : BotSettingsRecord) : BotSettingsRecord :=
  MkBotSettings (tg_owner_id t) (tg_sudo_users t) (tg_authorized_chats t) (bs_download_dir s) (bs_leech_split_size s)
    (bs_upload_limit_bytes s) (bs_status_update_interval s) (bs_rss_poll_interval s) (bs_updated_at s).

Definition unseeded (t : TelegramConfig) (s : BotSettingsRecord) : bool := (bs_owner_id s =? 0) && negb (tg_owner_id t =? 0).

(** The strong-typed lists of [build_authority]. *)
Definition authority_of_settings (s : BotSettingsRecord) : Authority :=
  MkAuthority (MkId (bs_owner_id s)) (MkId <$> bs_sudo_users s) (MkId <$> bs_authorized_chats s).

Section Start.
  Context {W : Type} `{conf_json : !Json, conf_env : !Environ, conf_file : !ConfigFile}.
  Context `{logger : !LoggerInit W, opener : !SqliteOpen W, pool : !ConnectionPool W, migration_db : !MigrationDb W, bot_repo : !BotSettingsRepository W}.
  Context (cmlb_version : string).

(** A failure to load or to save is passed over. *)
Definition seed_bot_settings (t : TelegramConfig) : M W unit :=
  co_await loaded <- bot_load;
  match loaded with
  | Ok s => if unseeded t s then (co_await saved <- bot_save (seeded t s); co_return ()) else co_return ()
  | Err _ => co_return ()
  end.

(** [build_authority]. *)
Definition build_authority : M W (Result Authority) :=
  co_try settings <- bot_load;
  co_return (Ok (authority_of_settings settings)).

(** [run_migrate_only]; an exception of the pool ends in its handler. *)
Definition run_migrate_only (cfg : AppConfig) : M W Z :=
  co_await opened <- open_pool (cfg_database cfg) kDefaultPoolSize;
  match opened with
  | inl _ => co_return EXIT_FAILURE
  | inr _ => co_await migrated <- migrate; co_return (if has_value migrated then EXIT_SUCCESS else EXIT_FAILURE)
  end.

(** Steps 5 to 15 of [main]; an exception of the pool ends in the handler of [main]. *)
Definition start_bot (cfg : AppConfig) : M W Outcome :=
  co_await opened <- open_pool (cfg_database cfg) kDefaultPoolSize;
  match opened with
  | inl what => co_return Exit EXIT_FAILURE "" ("Fatal: " +:+ what +:+ newline)
  | inr _ =>
      co_await migrated <- migrate;
      if negb (has_value migrated) then co_return Exit EXIT_FAILURE "" ""
      else
        co_do seed_bot_settings (cfg_telegram cfg);
        co_await authority <- build_authority;
        match authority with
        | Err _ => co_return Exit EXIT_FAILURE "" ""
        | Ok authority => co_return Running cfg authority
        end
  end.

(** [main], up to the wait for a signal. *)
Definition bot_main (argv : list string) : M W Outcome :=
  match parse_cli argv with
  | Err e => co_return Exit EXIT_FAILURE "" ("Error: " +:+ err_message e +:+ newline +:+ newline +:+ usage)
  | Ok cli =>
      if show_help cli then co_return Exit EXIT_SUCCESS usage ""
      else if show_version cli then co_return Exit EXIT_SUCCESS ("cmlb " +:+ cmlb_version +:+ newline) ""
      else
        match load (config_path cli) with
        | Err e => co_return Exit EXIT_FAILURE "" ("Configuration error:" +:+ newline +:+ err_message e +:+ newline)
        | Ok config =>
            if validate_only cli then co_return Exit EXIT_SUCCESS ("Configuration at " +:+ quoted (config_path cli) +:+ " is valid." +:+ newline) ""
            else
              co_await logging <- logger_initialize (cfg_logging config);
              match logging with
              | Err e => co_return Exit EXIT_FAILURE "" ("Logger initialization failed: " +:+ err_message e +:+ newline)
              | Ok _ =>
                  if migrate_only cli then (co_await rc <- run_migrate_only config; co_return Exit rc "" "")
                  else start_bot config
              end
        end
  end.

End Start.

(** ** Wiring *)

Section Wiring.
  Context {W : Type} `{clock : !Clock W, tasks : !TaskRepository W, users : !UserSettingsRepository W, bot_repo : !BotSettingsRepository W,
    feeds : !RssFeedRepository W, downloaders : !Downloaders W, messenger : !MessengerInterface W, registry : !HasRegistry W,
    metrics : !SystemMetrics W, drive : !DriveResourceOperations W, transfers : !TransferUseCases W, log_file : !LogFile W}.
  Context (authority : Authority) (cmlb_version : string) (owner : UserId).

(** The callback of the RSS poller: the magnet, else the torrent, else the link, on behalf of the
    owner; a failure is logged. *)
Definition rss_request (feed : RssFeed) (entry : RssEntry) : MirrorRequest :=
  MkMirrorRequest (default (default (e_link entry) (e_torrent_url entry)) (e_magnet entry)) owner (feed_chat feed) (MkId 0) false None.
Definition rss_auto_mirror (feed : RssFeed) (entry : RssEntry) : M W (string + unit) :=
  co_await r <- mirror_url_execute (rss_request feed entry);
  co_return inr ().

(** The handlers of messages, buttons and files. *)
Definition message_handler (chat : ChatId) (sender : UserId) (msg : MessageId) (text : string) : M W (option string) :=
  match parse text sender chat msg with
  | None => co_return None
  | Some request => co_await r <- dispatch authority cmlb_version request; co_return None
  end.
Definition callback_handler (chat : ChatId) (sender : UserId) (msg_id : MessageId) (query_id : CallbackQueryId) (data : string)
  : M W (option string) :=
  co_await r <- callback_dispatch chat sender msg_id query_id data; co_return None.
Definition file_handler (file : FileId) (a b c : Z) (d e f g : bool) : M W unit := co_return ().

(** The three registrations on the router. *)
Definition wire_updates : M (Updates W * W) Router :=
  co_await r <- on_new_message_registered message_handler (MkRouter None None None);
  co_await r <- on_callback_query_registered callback_handler r;
  on_file_update_registered file_handler r.

End Wiring.

(** ** Shutdown *)

(** The coroutines that [main] starts with the slot of [shutdown_signal].  A signal has one slot
    and the slot one handler: to connect another replaces it. *)
Inductive LongLived := GatewayRun | AuthRun | RssRun.
Record CancellationSignal := MkSignal { slot_handler : option LongLived }.

Definition bind_slot (s : CancellationSignal) (c : LongLived) : CancellationSignal := MkSignal (Some c).

(** Step 15, in its order. *)
Definition spawn_long_lived : CancellationSignal := foldl bind_slot (MkSignal None) [GatewayRun; AuthRun; RssRun].

(** [emit]: the coroutines whose cancellation state changes. *)
Definition emit (s : CancellationSignal) : list LongLived := match slot_handler s with Some c => [c] | None => [] end.

(** What step 17 calls.  [wait_for] waits for the result of a coroutine, and tells whether it came
    before the deadline, in seconds. *)
Class ShutdownCalls (W : Type) := {
  gateway_request_stop : M W unit;
  emit_terminal : list LongLived -> M W unit;
  wait_for : LongLived -> Z -> M W bool;
  executor_stop : M W unit;
  logger_shutdown_call : M W unit
}.

(** Step 17; whether the coroutines have ended is not looked at. *)
Definition graceful_shutdown {W : Type} `{calls : !ShutdownCalls W} (shutdown_signal : CancellationSignal) : M W Z :=
  co_do gateway_request_stop;
  co_do emit_terminal (emit shutdown_signal);
  co_await gateway_ended <- wait_for GatewayRun 15;
  co_await auth_ended <- wait_for AuthRun 2;
  co_await rss_ended <- wait_for RssRun 2;
  co_do executor_stop;
  co_do logger_shutdown_call;
  co_return EXIT_SUCCESS.

(** ** Theorems: the start *)

Lemma require_telegram_owner c : validate_telegram c = [] -> tg_owner_id c <> 0.
Proof. unfold validate_telegram, require. intros H E. rewrite E in H. apply app_nil in H as [_ H]. apply app_nil in H as [_ H]. discriminate H. Qed.

Lemma load_valid `{conf_json : !Json, conf_env : !Environ, conf_file : !ConfigFile} path cfg : load path = Ok cfg -> validate cfg = [].
Proof.
  unfold load, from_json. destruct (read_file path) as [| |contents]; [done..|]. destruct (boost_parse_error contents); [done|].
  destruct (json_parse contents) as [|doc]; [done|]. destruct (negb (is_object doc)); [done|].
  destruct (assemble doc) as [cfg' errors]. destruct (errors ++ validate cfg') eqn:E; [|done]. intros [= <-]. by apply app_nil in E as [_ E].
Qed.

Lemma load_owner `{conf_json : !Json, conf_env : !Environ, conf_file : !ConfigFile} path cfg :
  load path = Ok cfg -> tg_owner_id (cfg_telegram cfg) <> 0.
Proof. intros H%load_valid. apply require_telegram_owner. unfold validate in H. by apply app_nil in H as [H _]. Qed.

(** The logger never refuses the level of a configuration that was loaded. *)
Lemma loaded_level_known `{conf_json : !Json, conf_env : !Environ, conf_file : !ConfigFile} path cfg :
  load path = Ok cfg -> has_value (parse_log_level (lc_level (cfg_logging cfg))) = true.
Proof.
  intros H%load_valid. rewrite log_levels_agree. unfold validate in H. rewrite !app_nil in H. destruct H as (_ & _ & _ & _ & _ & _ & H & _).
  unfold validate_logging in H. apply app_nil in H as [H _]. by apply require_nil, negb_false_iff in H.
Qed.

Section Startup.
  Context {W : Type} `{conf_json : !Json, conf_env : !Environ, conf_file : !ConfigFile}.
  Context `{logger : !LoggerInit W, opener : !SqliteOpen W, pool : !ConnectionPool W, migration_db : !MigrationDb W, bot_repo : !BotSettingsRepository W}.
  Context (inv : W -> Prop) (current : W -> BotSettingsRecord) `{laws : !BotSettingsRepositoryLaws W inv current}.
  Context (Hmigrate : forall w w', migrate w = (Ok (), w') -> inv w').

(** The access lists that the process runs with, from the stored settings and the configuration:
    the stored ones once they have an owner, before that the configuration's, unless they could not be read
    or saved. *)
Inductive access (t : TelegramConfig) (s : BotSettingsRecord) : Authority -> Prop :=
| access_stored : bs_owner_id s <> 0 -> access t s (authority_of_settings s)
| access_seeded : bs_owner_id s = 0 -> access t s (authority_of_settings (seeded t s))
| access_unsaved w e : bs_owner_id s = 0 -> (bot_load w).1 = Err e \/ (bot_save (seeded t s) w).1 = Err e -> access t s (authority_of_settings s).

Lemma build_authority_current w a w' : inv w -> build_authority w = (Ok a, w') -> a = authority_of_settings (current w).
Proof.
  intros Hw. unfold build_authority, try_bind, mbind, mreturn. destruct (bot_load w) as [[s|e] w1] eqn:E; cbn; intros H; [|discriminate H]. injection H as <- _.
  by rewrite (bl_load w s w1 Hw E).
Qed.

Lemma seed_access t w a w' :
  inv w -> tg_owner_id t <> 0 -> Forall in_int64 (tg_sudo_users t) -> Forall in_int64 (tg_authorized_chats t) ->
  (co_do seed_bot_settings t; build_authority) w = (Ok a, w') -> access t (current w) a.
Proof.
  intros Hw Ht Hs Hc. unfold seed_bot_settings, mbind, mreturn.
  pose proof (bl_load_inv w Hw) as Hi1. pose proof (bl_load_frame w Hw) as Hf1.
  destruct (bot_load w) as [[s|e] w1] eqn:E; cbn [snd] in *.
  - pose proof (bl_load w s w1 Hw E) as ->. unfold unseeded. rewrite (proj2 (Z.eqb_neq _ _) Ht). cbn [negb]. rewrite andb_true_r.
    destruct (Z.eqb_spec (bs_owner_id (current w)) 0) as [H0|H0].
    + assert (storable_bot_settings (seeded t (current w))) as Hst by by split.
      pose proof (bl_save_inv _ w1 Hi1 Hst) as Hi2. pose proof (bl_save _ w1 Hi1 Hst) as Hsave.
      destruct (bot_save (seeded t (current w)) w1) as [[u|e] w2] eqn:Es; cbn [snd] in *; intros H;
        apply (build_authority_current w2) in H as ->; try done.
      * destruct Hsave as (tp & _ & ->). by apply (access_seeded t (current w)).
      * rewrite Hsave, Hf1. apply (access_unsaved t (current w) w1 e); [done|]. right. by rewrite Es.
    + intros H. apply (build_authority_current w1) in H as ->; [|done]. rewrite Hf1. by apply access_stored.
  - intros H. apply (build_authority_current w1) in H as ->; [|done]. rewrite Hf1.
    destruct (Z.eq_dec (bs_owner_id (current w)) 0) as [H0|H0]; [|by apply access_stored].
    apply (access_unsaved t (current w) w e); [done|]. left. by rewrite E.
Qed.

(** C40. The bot runs only when everything it needs is there: its command line asks for nothing
    else, its configuration is valid and its database is migrated.  Its access lists are then the
    stored ones when they have an owner, and before that the ones of the configuration; only when
    the settings of a first run could not be read or saved, the process starts all the same and
    its owner is the user 0. *)
Theorem startup_access cmlb_version argv w cfg a w'
  (Hrun : bot_main cmlb_version argv w = (Running cfg a, w'))
  (Hsudo : Forall in_int64 (tg_sudo_users (cfg_telegram cfg))) (Hchats : Forall in_int64 (tg_authorized_chats (cfg_telegram cfg))) :
  exists path w0 w1,
    parse_cli argv = Ok (MkCliArgs false false false false path) /\ load path = Ok cfg /\ migrate w0 = (Ok (), w1) /\
    access (cfg_telegram cfg) (current w1) a /\
    (owner_ a = MkId 0 <-> bs_owner_id (current w1) = 0 /\ a = authority_of_settings (current w1)).
Proof.
  unfold bot_main in Hrun. destruct (parse_cli argv) as [[v h c m path]|] eqn:Ecli; [|done]. cbn in Hrun.
  destruct h; [done|]. destruct v; [done|]. destruct (load path) as [cfg'|] eqn:Eload; [|done]. destruct c; [done|].
  unfold mbind, mreturn in Hrun. destruct (logger_initialize (cfg_logging cfg') w) as [[u|] wl]; [|done].
  destruct m; [by destruct (run_migrate_only cfg' wl)|]. unfold start_bot, mbind, mreturn in Hrun.
  destruct (open_pool (cfg_database cfg') kDefaultPoolSize wl) as [[|dbs] w0]; [done|].
  destruct (migrate w0) as [[[]|] w1] eqn:Em; cbn in Hrun; [|done].
  pose proof (load_owner path cfg' Eload) as Hown.
  pose proof (seed_access (cfg_telegram cfg') w1) as Hacc. unfold mbind in Hacc.
  destruct (seed_bot_settings (cfg_telegram cfg') w1) as [[] w2]. destruct (build_authority w2) as [[a'|] w3]; [|done].
  injection Hrun as -> -> ->. specialize (Hacc a w' (Hmigrate w0 w1 Em) Hown Hsudo Hchats eq_refl).
  exists path, w0, w1. do 4 (split; [done|]). destruct Hacc as [Hs|Hs|w4 e Hs _]; unfold authority_of_settings; cbn;
    (split; [intros [= H]|intros [H H']; try injection H' as H'']); split_and?; congruence.
Qed.

End Startup.

(** ** Theorems: updates *)

Section Updates.
  Context {W : Type} `{clock : !Clock W, tasks : !TaskRepository W, users : !UserSettingsRepository W, bot_repo : !BotSettingsRepository W,
    feeds : !RssFeedRepository W, downloaders : !Downloaders W, messenger : !MessengerInterface W, registry : !HasRegistry W,
    metrics : !SystemMetrics W, drive : !DriveResourceOperations W, transfers : !TransferUseCases W, log_file : !LogFile W}.
  Context (authority : Authority) (cmlb_version : string).

(** The state of the gateway and the world once the handlers are registered. *)
Definition wired (u : Updates W) (w : W) : Updates W * W := (wire_updates authority cmlb_version (u, w)).2.

(** The user a message is from: 0 when it is sent in the name of a chat. *)
Definition sender_of (from : option TdSender) : UserId := MkId (match from with Some (SenderUser id) => id | _ => 0 end).

(** Whatever sending a message leaves alone is left alone. *)
Definition only_sends (w w' : W) : Prop := forall B (v : W -> B), (forall c h, Preserves v (send_html c h)) -> v w' = v w.

Lemma parse_sender text who chat msg r : parse text who chat msg = Some r -> sender r = who /\ cr_chat r = chat.
Proof.
  unfold parse. destruct (trim_chars (chars text)) as [|c [|c' body]]; [done| |]; repeat case_match; try done; by intros [= <-].
Qed.

Lemma message_run u w chat msg from text :
  (dispatch_update (UpdateNewMessage chat msg from (Some text)) (wired u w)).2.2 =
  match parse (default "" text) (sender_of from) (MkId chat) (MkId msg) with
  | None => w
  | Some r => (dispatch authority cmlb_version r w).2
  end.
Proof.
  unfold wired, dispatch_update, sender_of. cbn. unfold spawned, message_handler, lift, mbind, mreturn. cbn.
  destruct (parse _ _ _ _) as [r|]; [|done]. by destruct (dispatch authority cmlb_version r w).
Qed.

Lemma dispatch_allowed r w :
  match documented_permission (resolve_alias (command r)) with
  | Some p =>
      if can_run authority (sender r) (cr_chat r) p
      then exists e, find_command authority cmlb_version (resolve_alias (command r)) = Some e /\ required e = p /\
             dispatch authority cmlb_version r w = handler e r w
      else only_sends w (dispatch authority cmlb_version r w).2
  | None => only_sends w (dispatch authority cmlb_version r w).2
  end.
Proof.
  pose proof (find_command_documented authority cmlb_version (resolve_alias (command r))) as H. unfold dispatch.
  destruct (find_command authority cmlb_version (resolve_alias (command r))) as [e|] eqn:E; rewrite H.
  - destruct (can_run _ _ _ _); simpl; [by exists e|]. intros B v Hv. by apply refuse_effect.
  - intros B v Hv. by apply refuse_effect.
Qed.

(** C8. From Telegram to the handlers, the access lists decide: a text message runs the handler of
    its command exactly when the manual lists the command and the lists give its sender, in its
    chat, the documented level; any other command only sends a notice, and what is no command
    does nothing. *)
Theorem messages_gated u w chat msg from text :
  let w' := (dispatch_update (UpdateNewMessage chat msg from (Some text)) (wired u w)).2.2 in
  match parse (default "" text) (sender_of from) (MkId chat) (MkId msg) with
  | None => w' = w
  | Some r =>
      match documented_permission (resolve_alias (command r)) with
      | Some p =>
          if can_run authority (sender_of from) (MkId chat) p
          then exists e, find_command authority cmlb_version (resolve_alias (command r)) = Some e /\ required e = p /\ w' = (handler e r w).2
          else only_sends w w'
      | None => only_sends w w'
      end
  end.
Proof.
  cbv zeta. rewrite message_run. destruct (parse _ _ _ _) as [r|] eqn:E; [|done]. apply parse_sender in E as [E1 E2].
  pose proof (dispatch_allowed r w) as H. rewrite E1, E2 in H. destruct (documented_permission _) as [p|]; [|done].
  destruct (can_run _ _ _ p); [|done]. destruct H as (e & H1 & H2 & H3). exists e. by rewrite H3.
Qed.

(** C18. The buttons are not behind the access lists: the payload of a cancel button runs [/cancel]
    on its task for whoever sends it, in any chat, also where the same person's [/cancel] command is
    refused with a notice. *)
Theorem cancel_button_ungated u w chat who msg query task (Htask : task <> "")
  (Hstranger : authority_of authority (MkId who) (MkId chat) = Anyone) :
  (exists text alert,
    (dispatch_update (UpdateNewCallbackQuery chat who msg query (Some ("task:cancel:" +:+ task))) (wired u w)).2.2 =
    (answer_callback (MkId query) text alert (cancel_execute (MkTaskRequest (MkId task) (MkId chat)) w).2).2) /\
  (forall text r, parse text (MkId who) (MkId chat) (MkId msg) = Some r -> resolve_alias (command r) = "cancel" ->
    only_sends w (dispatch_update (UpdateNewMessage chat msg (Some (SenderUser who)) (Some (Some text))) (wired u w)).2.2).
Proof.
  split.
  - destruct (callback_payloads_route (MkId chat) (MkId who) (MkId msg) w) as (_ & _ & _ & H). destruct (H task Htask) as [Hc _]. clear H.
    assert ("task:cancel:" +:+ task = "task:" +:+ "cancel" +:+ ":" +:+ task) as -> by done.
    unfold wired, dispatch_update. cbn -[callback_dispatch]. unfold spawned, callback_handler, lift, mbind, mreturn. cbn -[callback_dispatch].
    unfold callback_dispatch, mbind, mreturn. cbn -[route] in Hc |- *. rewrite Hc.
    destruct (cancel_execute _ w) as [res w1]. cbn. set (a := match res with Ok _ => _ | Err _ => _ end). exists (ack_text a), (ack_as_alert a).
    by destruct (answer_callback _ _ _ w1).
  - intros text r Hr Hname. rewrite message_run. cbn [default sender_of]. unfold sender_of. cbn. rewrite Hr.
    apply parse_sender in Hr as [E1 E2]. pose proof (dispatch_allowed r w) as H. rewrite Hname, E1, E2 in H. cbn in H.
    unfold can_run in H. by rewrite Hstranger in H.
Qed.

End Updates.

(** ** Witnesses *)

(** A host whose database holds the bot's settings and is up to date, and whose configuration
    file is the minimal one of the reference manual. *)
Module MemHost.
Definition World : Type := BotSettingsRecord.

#[export] Instance host_json : Json := MemJson.json_of_table [("minimal", MemConfig.minimal)].
#[export] Instance host_environ : Environ := { getenv _ := None; strtod _ := None }.
#[export] Instance host_file : ConfigFile := { read_file path := if String.eqb path "config.json" then Contents "minimal" else CannotOpen; boost_parse_error _ := None }.
#[export] Instance host_logger : LoggerInit World := fun _ => mreturn (Ok ()).
#[export] Instance host_sqlite : SqliteOpen World := {
  connection := unit;
  create_parent_directories _ := mreturn None;
  open_database _ := mreturn (inr ());
  execute_statement _ _ := mreturn None;
  select_one _ := mreturn (inr 1)
}.
#[export] Instance host_pool : ConnectionPool World := { pool_acquire := mreturn (Ok ()); pool_release := mreturn () }.
#[export] Instance host_migrations : MigrationDb World := {
  create_version_table := mreturn (inr ());
  select_max_version := mreturn (inr [3]);
  begin_immediate := mreturn (inr ());
  exec_script _ := mreturn (0, None);
  insert_version _ _ := mreturn (inr ());
  commit_transaction := mreturn (inr ());
  rollback_transaction := mreturn (inr ())
}.
#[export] Instance host_bot : BotSettingsRepository World := {
  bot_load := fun w => (Ok w, w);
  bot_save r := fun _ => (Ok (), stored_bot_settings (touch_bot_settings 0 r))
}.
#[export] Instance host_laws : BotSettingsRepositoryLaws World (fun _ => True) (fun w => w).
Proof. split; [done|done| |done|]; [by intros w r w' _ [= <- _]|]. intros r w _ _. exists 0. by split. Qed.
End MemHost.

Section FirstStart.
Import MemHost.

(** On the first start the owner is the configuration's. *)
Lemma startup_access_witness :
  exists cfg a w', bot_main (W := World) "1" [] default_bot_settings = (Running cfg a, w') /\ owner_ a = MkId 987654321 /\
  exists path w0 w1,
    parse_cli [] = Ok (MkCliArgs false false false false path) /\ load path = Ok cfg /\ migrate (W := World) w0 = (Ok (), w1) /\
    access (W := World) (cfg_telegram cfg) w1 a.
Proof.
  destruct (bot_main (W := World) "1" [] default_bot_settings) as [o w'] eqn:E.
  assert (exists cfg a, o = Running cfg a /\ owner_ a = MkId 987654321 /\ Forall in_int64 (tg_sudo_users (cfg_telegram cfg)) /\
    Forall in_int64 (tg_authorized_chats (cfg_telegram cfg))) as (cfg & a & -> & Ho & Hs & Hc).
  { vm_compute in E. injection E as <- _. eexists _, _. split; [reflexivity|]. by repeat split. }
  exists cfg, a, w'. split; [done|]. split; [done|].
  destruct (startup_access (W := World) (fun _ => True) (fun w => w) (fun _ _ _ => I) "1" [] default_bot_settings cfg a w' E Hs Hc)
    as (path & w0 & w1 & H1 & H2 & H3 & H4 & _).
  by exists path, w0, w1.
Defined.
End FirstStart.

Import MemWorld.

(** User 7 presses the cancel button of a task in a chat that is not authorized. *)
Lemma cancel_button_ungated_witness :
  let press := (dispatch_update (UpdateNewCallbackQuery 1 7 3 9 (Some ("task:cancel:" +:+ "a")))
    (wired sample_authority "1" (MkUpdates (MkHandlers None None None) None None) sample_world)).2.2 in
  w_answers press = [(MkId 9, "Cancelling task", false)] /\
  exists text alert, press = (answer_callback (MkId 9) text alert (cancel_execute (MkTaskRequest (MkId "a") (MkId 1)) sample_world).2).2.
Proof.
  split; [vm_compute; reflexivity|].
  exact (proj1 (cancel_button_ungated sample_authority "1" (MkUpdates (MkHandlers None None None) None None) sample_world 1 7 3 9 "a"
    ltac:(done) eq_refl)).
Defined.

(** ** The shutdown *)

Section Shutdown.
  Context {W : Type} `{calls : !ShutdownCalls W} (cancelled : W -> list LongLived) (waited : W -> Z).

(** [cancelled] is who was given a cancellation, [waited] the seconds spent in [wait_for]. *)
Class ShutdownLaws : Prop := {
  gateway_stop_frame w : cancelled (gateway_request_stop w).2 = cancelled w /\ waited (gateway_request_stop w).2 = waited w;
  emit_logs l w : cancelled (emit_terminal l w).2 = cancelled w ++ l /\ waited (emit_terminal l w).2 = waited w;
  wait_for_bounded c n w : cancelled (wait_for c n w).2 = cancelled w /\ (0 <= n -> waited w <= waited (wait_for c n w).2 <= waited w + n);
  executor_stop_frame w : cancelled (executor_stop w).2 = cancelled w /\ waited (executor_stop w).2 = waited w;
  logger_shutdown_frame w : cancelled (logger_shutdown_call w).2 = cancelled w /\ waited (logger_shutdown_call w).2 = waited w
}.
Context `{laws : !ShutdownLaws}.

(** The shutdown waits for at most 19 seconds and reports success whatever has ended; of the three
    coroutines only the poller of the feeds is cancelled, since its slot replaced the others. *)
Theorem shutdown_bounded w :
  let '(status, w') := graceful_shutdown spawn_long_lived w in
  status = EXIT_SUCCESS /\ cancelled w' = cancelled w ++ [RssRun] /\ waited w' <= waited w + 19.
Proof.
  unfold graceful_shutdown. rewrite !mbind_proj. cbn [mreturn].
  split_and!; [done|..].
  - rewrite (proj1 (logger_shutdown_frame _)), (proj1 (executor_stop_frame _)), !(fun c n w => proj1 (wait_for_bounded c n w)).
    by rewrite (proj1 (emit_logs _ _)), (proj1 (gateway_stop_frame _)).
  - cbn [snd]. rewrite (proj2 (logger_shutdown_frame _)), (proj2 (executor_stop_frame _)).
    set (w2 := (emit_terminal _ _).2). assert (waited w2 = waited w) as <-.
    { unfold w2. by rewrite (proj2 (emit_logs _ _)), (proj2 (gateway_stop_frame _)). }
    pose proof (proj2 (wait_for_bounded GatewayRun 15 w2)) as H3. set (w3 := (wait_for GatewayRun 15 w2).2) in *.
    pose proof (proj2 (wait_for_bounded AuthRun 2 w3)) as H4. set (w4 := (wait_for AuthRun 2 w3).2) in *.
    pose proof (proj2 (wait_for_bounded RssRun 2 w4)) as H5. lia.
Qed.

End Shutdown.

(** A shutdown whose coroutines never end: every wait takes its whole time. *)
Module MemShutdown.
#[export] Instance calls : ShutdownCalls (list LongLived * Z) := {
  gateway_request_stop := mreturn ();
  emit_terminal l := fun w => ((), (w.1 ++ l, w.2));
  wait_for _ n := fun w => (false, (w.1, w.2 + n));
  executor_stop := mreturn ();
  logger_shutdown_call := mreturn ()
}.
End MemShutdown.

Lemma shutdown_bounded_witness :
  ShutdownLaws (W := list LongLived * Z) (calls := MemShutdown.calls) fst snd /\
  (graceful_shutdown (calls := MemShutdown.calls) spawn_long_lived ([], 0)).2 = ([RssRun], 19) /\
  (graceful_shutdown (calls := MemShutdown.calls) spawn_long_lived ([], 0)).1 = EXIT_SUCCESS.
Proof.
  assert (ShutdownLaws (W := list LongLived * Z) (calls := MemShutdown.calls) fst snd) as laws.
  { split; try done. intros c n w. split; [done|]. simpl. lia. }
  split; [exact laws|]. split; [vm_compute; reflexivity|].
  exact (proj1 (shutdown_bounded (calls := MemShutdown.calls) fst snd (laws := laws) ([], 0))).
Defined.
